(* ===== verification/_CoqProject ===== *)
-Q . S2P
Prelude.v
Fair.v
GoStrings.v
GoTime.v
GoPath.v
Encoding.v
Crypto.v
Json.v
Proto.v
Sdk.v
Decode.v
Ids.v
Broker.v
Streams.v
StreamLive.v
World.v
Encryption.v
Options.v
Service.v
Auth.v
AuthSpec.v
Registry.v
RegistrySpec.v
Handlers.v
HandlersSpec.v
Lifecycle.v
RegistryAbs.v
Disk.v
Events.v
Rescan.v
RescanRun.v
Blackjack.v
Launch.v
ErrorTypes.v
Conc.v
ConcSpec.v
ConcBeside.v
ConcLogic.v
ConcAdd.v
ConcLin.v
ConcPool.v
ConcOrder.v
ConcIso.v
ConcRescan.v
ConcOwner.v
ConcMake.v
ConcSeq.v
History.v
Startup.v
Proc.v
GoFloat.v
Process.v
NodeRPC.v
Client.v
Fund.v
ClientSpec.v
ClientTime.v
ClientLog.v
ClientGame.v
Coins.v
FundLog.v
Ledger.v
Lossy.v
Compose.v
Shared.v
Demo.v
DemoClient.v
DemoConc.v
AuthProps.v
RegistryProps.v
StreamProps.v
RescanProps.v
HandlersProps.v
ClientProps.v
SessionProps.v
LaunchProps.v
ConcProps.v
