(* ===== verification/Prelude.v ===== *)
(** * bsvms: the wallet microservice and its demo client, verified

    The repository wraps a Bitcoin SV SDK in a gRPC service: wallets per
    tenant, tokens that guard them, events streamed to clients, rescans of the
    chain; and ships a blackjack game that settles its bets through it. This
    library models the code of internal/service, cmd/bsvms and cmd/blackjack and
    the message types and method table of gen/bsvms/v1, and proves what makes
    them correct.

    ** How code becomes definitions

    A Go function is a definition of the same name. Strings are byte strings,
    integers are [Z] with conversions written out ([int32], [int64], [uint32] in
    this file), errors are values of [result]. Stateful code runs in [M S A],
    [S -> result A * S]: a failing step keeps the state it reached, as Go does.
    Everything outside the repository (the SDK's node, wallets and stores, the
    disk's faults, entropy, the clock) is reached through [ext_call] (Sdk); the
    class [Env] holds an [oracle] that answers each call from the whole history
    of calls, so a theorem holds for every behaviour of the outside world, and
    [World] gives files to the [os] functions. The MAC, the hash and the AEAD are
    the classes [Mac], [Hash] and [Aead] (Crypto), of which only "opening recovers
    what was sealed" is assumed; Crypto also writes out SHA-256, HMAC and
    AES-256-GCM, with which Demo runs the model. Shared objects are shared in the
    model too: a [*tenantWallet] is a location in the service's heap and a channel
    a location in its broker.

    ** The files, and the code they model

    - Prelude: integers, bytes, errors, the monad, the relation [moves R m] (a
      step stays within [R] whatever it answers), the hint database [moves] and
      the tactics [inv_bind] and [moves_tac]. Fair: endless runs, weak fairness,
      [leads_to].
    - GoStrings, GoTime, GoPath, Encoding, Json, Decode, Crypto: the standard
      library the code calls, with round trips (base64, hex, JSON, decimals).
    - Proto: gen/bsvms/v1: the messages (module [pb]), the reflection of a request
      that authorisation reads, the methods and their types.
    - Sdk, World: the calls to the outside and the files.
    - Ids: [validateTenant], [walletKey], [matches] (service.go). Encryption:
      encryption.go. Options: options.go.
    - Service: [Service], [walletMeta], [tenantWallet], their monad and frames.
    - Auth: auth.go. AuthSpec: [valid_token] and [authorised], the specifications
      that [validateJWT] and [authorize] meet exactly.
    - Registry: start-up, creation, restoration, lookup, listing, the state file,
      snapshots and [Close] (service.go). RegistrySpec: its invariant
      [registry_ok], the outcomes of creation ([add_outcome]), what reaches the
      disk ([saved]). Lifecycle: the invariant [service_ok] of a running service,
      the steps of its methods, migration, restart. RegistryAbs: the specification
      of the service as a directory from ids to secrets, and the simulation. Disk:
      what a call may do to the files ([quiet], [logged]), and that a record once
      saved stays in the state file.
    - Handlers: every other unary method, the converters and the dispatch
      ([unary], [serve]). HandlersSpec: which SDK wallet a request can touch.
      ErrorTypes: the codes each method may answer with, and the judgement
      [typed E n m] that derives them. History: what each method adds to the
      history of calls, and the payments read from it.
    - Broker: [broker], [subscribe], [publish] and the two halves of [unsubscribe]:
      the one under [b.mu] and the [close] after it was released. Streams:
      [streamFiltered] as a step relation over any number of streams, in which a
      publication holds [b.mu] from channel to channel and receptions and closes come
      in between. StreamLive: its runs under fair publishers and readers. Events: the
      callbacks and the six stream methods.
    - Rescan: the admission of [Rescan], [beginRescan], [endRescan]. RescanRun: the
      two goroutines of a call, with the channel between them, as a step relation.
    - Conc: every unary call and every rescan as a goroutine ([prog]): taking and
      releasing [s.mu], each SDK call, each change of a file and each use of the
      registry is a step, under the mutex too; [pool] is the service with its calls
      in flight, and callbacks and streams [beside] them. ConcBeside: those steps
      touch the brokers and the outside only. ConcSpec:
      the lock discipline ([unshared], [inside], [disciplined]). ConcLogic: a weakest
      precondition for one call among others ([wp]). ConcAdd: adding a wallet and
      saving the state, step by step; the moment at which a call takes effect.
      ConcLin: every call answers as the abstract directory does at its moment.
      ConcPool: the invariant of a pool, mutual exclusion, progress, termination.
      ConcOrder: the order of the moments, creations, crashes. ConcIso: which
      wallets a step may touch. ConcRescan: programs that take a wallet's flag duly;
      ConcOwner: the call that owns a flag. ConcMake: the wallets a creation may
      touch. ConcSeq: a call that moves
      alone gets through, and is the handler of Registry and Handlers.
    - Launch and Startup: cmd/bsvms/main.go: configuration, and [main] from its
      flags to a listening server ([start_up]) and what a stop runs ([stopped]).
    - Blackjack: the pure game of cmd/blackjack/main.go.
    - Proc, Process, GoFloat: what a Go process is made of: console, clock, fatal
      exits and panics, loops that end at a deadline, floats as JSON writes them.
      NodeRPC: [nodeRPC], the node's JSON-RPC client. Client: the commands of the
      program that play, settle and show ([play], [playHand], [settleHand], ...).
      Fund: [fundMain] and [main].
    - ClientSpec, ClientTime, ClientLog, ClientGame, FundLog: what the client may
      ask for, that its loops end, what its log says of each function, that a hand
      follows the game. Coins: the floats in which amounts are sent are satoshis to
      the nearest. Ledger: the interface a paying service offers the client. Lossy:
      any such service behind a connection that loses the answers of payments.
    - Compose: the client run against the service itself, which implements the
      client's interface [Outside] and that of Ledger. Shared: any outside with
      other clients served in between, and a book of what the program's own calls
      paid; the service with others implements Ledger again.
    - Demo, DemoClient, DemoConc: concrete worlds and interleavings, for applying
      theorems to concrete inputs.
    - ConcProps, AuthProps, RegistryProps, StreamProps, RescanProps, HandlersProps,
      ClientProps, SessionProps, LaunchProps: the properties, each with an
      instance where it has hypotheses.

    A unary request goes through [serve]: [UnaryAuthInterceptor] calls [authorize],
    then the method runs; a method on a wallet looks it up with [wallet] and calls
    the SDK through [wcall]. [CreateWallet] and [RestoreWallet] change the registry
    ([attachWalletLocked]) and save it ([saveStateLocked]); [NewWithOptions] reads
    it back. SDK callbacks publish on the brokers that the streams subscribe to.
    The blackjack program is written against the class [Outside] (methods of the
    service, the node's HTTP, a clock) and its frames against [Frame]; Compose
    gives the service as an instance, so a theorem about the client and one about
    the service combine into one about both.

    ** What is shown

    - Calls in flight (ConcProps): however unary calls, rescans, callbacks and
      streams interleave, each call touches only the wallet of the token it
      presented, and a creation only the wallet the node made for its ids; they take
      effect one at a time, in an order in which a call answered before another
      arrives comes first, as the abstract directory allows; one creation of a wallet
      is acknowledged; the invariant holds after every step and the mutex guards all
      that is shared; calls neither deadlock nor run for ever; a crash at any moment,
      in the middle of a creation too, loses no acknowledged wallet and invents none;
      and a call that finds the mutex free and moves alone is answered, as the handler
      of the other groups answers it. A wallet is rescanned by
      one call at a time, and no flag is left behind.
    - Access (AuthProps, StreamProps): [authorize] and [validateJWT] accept exactly
      what their specifications say; issued tokens are worth what they should and
      expire; a request served only touches the token's wallet; streams deliver
      only the token's tenant; methods are closed by default. Also what the policy
      leaves open: a token reaches its tenant's other wallets through listing and
      streams, creation is anonymous for free ids, refresh tokens stay valid.
    - Registry and disk (RegistryProps): every method keeps the invariant and
      loses no wallet; acknowledged wallets are encrypted, decryptable and on disk;
      saving is atomic; a restart finds the same wallets, keys and options, and
      succeeds when the outside has no faults; old plaintext records are migrated
      with their secrets; listing, addresses, file names and secret files are
      exact; what a failed save leaves behind. Seen from outside, the service
      refines the abstract directory.
    - Events (StreamProps): no interleaving panics, a close in the middle of a
      publication included; delivery is in order, filtered, without loss up to the
      channels' 64 values; what finds room is served when publishers and the reader
      are scheduled fairly.
    - Rescans (RescanProps): admission, progress then statistics, return and release
      once the walk is done, in every fair run of handlers and walks.
    - Handlers (HandlersProps): unknown wallets, snapshots after every change.
    - The server process (LaunchProps): starting ends, in order, with a consistent
      service behind the interceptors that were asked for; stopping closes the
      stores; every method keeps to its error type.
    - The game (ClientProps): cards, values, play and bets; secret flags.
    - The client and the service together (SessionProps): the program reaches only
      its own two wallets, a hand pays exactly what the game decides and once,
      whatever others ask the service for meanwhile, wallets are made once and
      saved, funding sends exactly what is missing, the program ends; a hand at the console refines the pure game; the node's
      answers arrive as they are. Also that every answer of a payment that is lost on
      the way makes a settlement pay once more.

    ** Bounds and fuel

    [connectPeerWithRetry] takes the number of loop rounds; a clock that does not
    go back needs at most one round more than the timeout's seconds, 31 for the 30
    seconds the server asks for. The client's loops run for 60 seconds with a
    second's pause: [enough] rounds, 62, suffice when the clock advances
    ([main_terminates]), and [hands] more than the lines of input suffices for the
    session. [json_parse] measures its own fuel from the
    length of its input, and its round trip shows it is enough. [player_turn] and
    [house_turn] recurse on the deck; [playHand_fair] shows that the deck never
    runs out. [load_wallets] counts the records. Everything else is structural.

    ** What is not modelled

    - The SDK itself, SQLite, gRPC transport, protobuf marshalling and the
      generated client stubs: code outside the repository or generated from the
      proto file.
    - Parsing of the command line by package flag, log output, the signal that
      asks for a stop, TLS and HTTP transport: I/O. A transport that loses the answers
      of payments is Lossy.
    - The client's random source: a function from the seed to the numbers drawn.
    - Preemption inside a step of a call: an SDK call is one step (its own locking
      is the SDK's), and so are a file written or renamed, a loop that only parses, a
      token or a record's seals made with the clock or the random source, and the
      entering of a new wallet in the map, the callbacks' registration and its
      record. An SDK call returns: one that blocks for ever blocks its caller, and
      with it, inside a section, every other call. In Conc a rescan's handler and
      walk are one line (what the outside answers to the walk are its events, with
      the progress that the channel lets through); RescanRun has the two goroutines
      and the channel. There an event's publication is one step and a stream's
      subscriber changes its broker in any way; Streams has what they do.
    - Timing of contexts: a cancelled context is a step a stream may take at any
      moment; deadlines passed to the SDK are among the arguments of the call. *)

From Stdlib Require Export ZArith NArith Ascii String Strings.Byte Lia.
From stdpp Require Export base tactics option list sorting strings gmap.

(** ** Scopes

    Strings are Go strings, that is byte sequences ([String.string] over
    8-bit [ascii]); [+:+] is stdpp's concatenation. *)

#[export] Set Default Goal Selector "!".
Declare Scope go_scope.
Delimit Scope go_scope with go.

(** stdpp keeps [String.append] from computing; these files compute with it. *)
#[global] Arguments String.append !_ _ : simpl nomatch.

(** ** Machine integers

    A Go integer is a [Z]; a conversion to a narrower type keeps the low bits
    and re-reads them as two's complement (Go spec, "Conversions"). *)

Definition wrap_signed (w : Z) (n : Z) : Z :=
  ((n + 2 ^ (w - 1)) mod 2 ^ w - 2 ^ (w - 1))%Z.
Definition int32 (n : Z) : Z := wrap_signed 32 n.
Definition int64 (n : Z) : Z := wrap_signed 64 n.
Definition uint32 (n : Z) : Z := (n mod 2 ^ 32)%Z.

Definition in_int32 (n : Z) : Prop := (- 2 ^ 31 <= n < 2 ^ 31)%Z.
Definition in_int64 (n : Z) : Prop := (- 2 ^ 63 <= n < 2 ^ 63)%Z.

Lemma wrap_signed_id w n :
  (0 < w)%Z -> (- 2 ^ (w - 1) <= n < 2 ^ (w - 1))%Z -> wrap_signed w n = n.
Proof.
  intros Hw Hn. unfold wrap_signed.
  assert (2 ^ w = 2 * 2 ^ (w - 1))%Z as E.
  { replace w with (Z.succ (w - 1)) at 1 by lia. rewrite Z.pow_succ_r; lia. }
  rewrite Z.mod_small; lia.
Qed.

Lemma wrap_signed_range w n :
  (0 < w)%Z -> (- 2 ^ (w - 1) <= wrap_signed w n < 2 ^ (w - 1))%Z.
Proof.
  intros Hw. unfold wrap_signed.
  assert (2 ^ w = 2 * 2 ^ (w - 1))%Z as E.
  { replace w with (Z.succ (w - 1)) at 1 by lia. rewrite Z.pow_succ_r; lia. }
  assert (0 < 2 ^ w)%Z by (apply Z.pow_pos_nonneg; lia).
  pose proof (Z.mod_pos_bound (n + 2 ^ (w - 1)) (2 ^ w) ltac:(lia)). lia.
Qed.

Lemma int32_id n : in_int32 n -> int32 n = n.
Proof. intros H. apply wrap_signed_id; [lia | exact H]. Qed.
Lemma int64_id n : in_int64 n -> int64 n = n.
Proof. intros H. apply wrap_signed_id; [lia | exact H]. Qed.
Lemma int32_range n : in_int32 (int32 n).
Proof. apply (wrap_signed_range 32). lia. Qed.
Lemma int64_range n : in_int64 (int64 n).
Proof. apply (wrap_signed_range 64). lia. Qed.

(** ** Bytes

    A Go [[]byte] is a [list byte]; arithmetic on a byte goes through [N]. *)

Abbreviation bytes := (list byte).

#[export] Instance byte_eq_dec : EqDecision byte := Byte.byte_eq_dec.

Definition byte_val (b : byte) : N := Byte.to_N b.
Definition byte_of (n : N) : byte :=
  match Byte.of_N (n mod 256) with Some b => b | None => Byte.x00 end.

Lemma byte_val_lt b : (byte_val b < 256)%N.
Proof. pose proof (Byte.to_N_bounded b). unfold byte_val. lia. Qed.

Lemma byte_of_val b : byte_of (byte_val b) = b.
Proof.
  unfold byte_of. rewrite N.mod_small by apply byte_val_lt.
  unfold byte_val. by rewrite Byte.of_to_N.
Qed.

Lemma byte_val_of n : byte_val (byte_of n) = (n mod 256)%N.
Proof.
  unfold byte_of, byte_val. destruct (Byte.of_N (n mod 256)) eqn:E.
  - by apply Byte.to_of_N.
  - apply Byte.of_N_None_iff in E.
    pose proof (N.mod_upper_bound n 256 ltac:(lia)). lia.
Qed.

(** Go's conversions [[]byte(s)] and [string(b)]. *)
Definition bytes_of_string (s : string) : bytes := list_byte_of_string s.
Definition string_of_bytes (b : bytes) : string := string_of_list_byte b.

Lemma string_of_bytes_of_string s : string_of_bytes (bytes_of_string s) = s.
Proof. apply string_of_list_byte_of_string. Qed.
Lemma bytes_of_string_of_bytes b : bytes_of_string (string_of_bytes b) = b.
Proof. apply list_byte_of_string_of_list_byte. Qed.

(** ** Errors

    The gRPC codes the service uses ([codes.Code]), and Go's [error] values:
    a status error, a plain [errors.New]/[fmt.Errorf] message, a sentinel
    compared with [errors.Is], and a [%w] wrapping. *)

Inductive code : Set :=
  | InvalidArgument | NotFound | AlreadyExists | PermissionDenied
  | FailedPrecondition | Internal | Unauthenticated | Unknown
  | Unavailable | Unimplemented.   (* from the transport *)

Inductive sentinel : Set :=
  | ErrNotExist            (* os.ErrNotExist *)
  | ErrTxUnverified        (* bsv.ErrTxUnverified *)
  | ErrSnapshotNotFound.   (* bsv.ErrSnapshotNotFound *)

Inductive error : Set :=
  | EStatus (c : code) (msg : string)
  | ENew (msg : string)
  | ESentinel (s : sentinel) (msg : string)
  | EWrap (prefix : string) (e : error).

#[export] Instance code_eq_dec : EqDecision code.
Proof. solve_decision. Defined.
#[export] Instance sentinel_eq_dec : EqDecision sentinel.
Proof. solve_decision. Defined.
#[export] Instance error_eq_dec : EqDecision error.
Proof. solve_decision. Defined.

Definition code_string (c : code) : string :=
  match c with
  | InvalidArgument => "InvalidArgument" | NotFound => "NotFound"
  | AlreadyExists => "AlreadyExists" | PermissionDenied => "PermissionDenied"
  | FailedPrecondition => "FailedPrecondition" | Internal => "Internal"
  | Unauthenticated => "Unauthenticated" | Unknown => "Unknown"
  | Unavailable => "Unavailable" | Unimplemented => "Unimplemented"
  end.

(** [err.Error()] *)
Fixpoint error_string (e : error) : string :=
  match e with
  | EStatus c m => "rpc error: code = " +:+ code_string c +:+ " desc = " +:+ m
  | ENew m => m
  | ESentinel _ m => m
  | EWrap p e => p +:+ ": " +:+ error_string e
  end.

(** [errors.Is(err, target)]: follows the [%w] chain. *)
Fixpoint errors_is (e : error) (s : sentinel) : bool :=
  match e with
  | ESentinel s' _ => bool_decide (s' = s)
  | EWrap _ e => errors_is e s
  | _ => false
  end.

(** [status.Code(err)]: follows the [%w] chain to a status, else [Unknown]. *)
Fixpoint status_code (e : error) : code :=
  match e with
  | EStatus c _ => c
  | EWrap _ e => status_code e
  | _ => Unknown
  end.

(** ** Results: Go's [(value, error)] pair, of which one is meaningful. *)

Inductive result (A : Type) : Type :=
  | Ok (a : A)
  | Err (e : error).
Arguments Ok {A} a.
Arguments Err {A} e.

#[export] Instance result_eq_dec {A} `{EqDecision A} : EqDecision (result A).
Proof. solve_decision. Defined.

Lemma Ok_inj {A} (a b : A) : Ok a = Ok b -> a = b.
Proof. by intros [= ->]. Qed.

#[export] Instance result_ret : MRet result := fun A a => Ok a.
#[export] Instance result_bind : MBind result := fun A B f r =>
  match r with Ok a => f a | Err e => Err e end.
#[export] Instance result_fmap : FMap result := fun A B f r =>
  match r with Ok a => Ok (f a) | Err e => Err e end.

Definition is_ok {A} (r : result A) : bool := match r with Ok _ => true | Err _ => false end.
Definition result_code {A} (r : result A) : option code :=
  match r with Ok _ => None | Err e => Some (status_code e) end.
Definition map_error {A} (f : error -> error) (r : result A) : result A :=
  match r with Ok a => Ok a | Err e => Err (f e) end.
(** A guard [if b { return nil, e }]. *)
Definition reject_if (b : bool) (e : error) : result unit :=
  if b then Err e else Ok ().

Lemma result_bind_ok {A B} (r : result A) (k : A -> result B) b :
  (r ≫= k) = Ok b <-> exists a, r = Ok a /\ k a = Ok b.
Proof. destruct r; cbn; naive_solver. Qed.

Lemma result_bind_err {A B} (r : result A) (k : A -> result B) e :
  (r ≫= k) = Err e <-> r = Err e \/ exists a, r = Ok a /\ k a = Err e.
Proof. destruct r; cbn; naive_solver. Qed.

Lemma reject_if_ok b e u : reject_if b e = Ok u <-> b = false.
Proof. destruct b, u; cbn; naive_solver. Qed.

Lemma map_error_ok {A} f (r : result A) a : map_error f r = Ok a <-> r = Ok a.
Proof. destruct r; cbn; naive_solver. Qed.

(** ** Stateful code: a state-and-error monad.

    A failing step keeps the state it reached: Go has no rollback. *)

Definition M (S A : Type) : Type := S -> result A * S.

#[export] Instance M_ret {S} : MRet (M S) := fun A a s => (Ok a, s).
#[export] Instance M_bind {S} : MBind (M S) := fun A B f m s =>
  match m s with
  | (Ok a, s') => f a s'
  | (Err e, s') => (Err e, s')
  end.

Section state_monad.
Context {S : Type}.

Definition throw {A} (e : error) : M S A := fun s => (Err e, s).
Definition gets {A} (f : S -> A) : M S A := fun s => (Ok (f s), s).
Definition modify (f : S -> S) : M S unit := fun s => (Ok (), f s).
Definition lift {A} (r : result A) : M S A := fun s => (r, s).
(** Turn the outcome of a step into a value, for code that inspects [err]. *)
Definition try_ {A} (m : M S A) : M S (result A) := fun s =>
  let '(r, s') := m s in (Ok r, s').
(** [if err != nil { return nil, f(err) }]. *)
Definition on_error {A} (f : error -> error) (m : M S A) : M S A := fun s =>
  let '(r, s') := m s in (map_error f r, s').

(** Run a step that works on a part of the state. *)
Definition zoom {T A} (get : S -> T) (put : T -> S -> S) (m : M T A) : M S A := fun s =>
  let '(r, t) := m (get s) in (r, put t s).

(** *** Running a bind *)

Lemma bind_run {A B} (m : M S A) (k : A -> M S B) s a s1 :
  m s = (Ok a, s1) -> (m ≫= k) s = k a s1.
Proof. unfold mbind, M_bind. by intros ->. Qed.

Lemma bind_run_err {A B} (m : M S A) (k : A -> M S B) s e s1 :
  m s = (Err e, s1) -> (m ≫= k) s = (Err e, s1).
Proof. unfold mbind, M_bind. by intros ->. Qed.

Lemma bind_ok_inv {A B} (m : M S A) (k : A -> M S B) s b s' :
  (m ≫= k) s = (Ok b, s') -> exists a s1, m s = (Ok a, s1) /\ k a s1 = (Ok b, s').
Proof. unfold mbind, M_bind. destruct (m s) as [[a|e] s1]; naive_solver. Qed.

Lemma bind_err_inv {A B} (m : M S A) (k : A -> M S B) s e s' :
  (m ≫= k) s = (Err e, s') ->
  m s = (Err e, s') \/ exists a s1, m s = (Ok a, s1) /\ k a s1 = (Err e, s').
Proof. unfold mbind, M_bind. destruct (m s) as [[a|e'] s1]; naive_solver. Qed.

(** *** Steps that relate the state before and after, whatever the outcome *)

Definition moves (R : S -> S -> Prop) {A} (m : M S A) : Prop :=
  forall s, R s (snd (m s)).

Context (R : S -> S -> Prop) `{!PreOrder R}.

Lemma moves_ret {A} (a : A) : moves R (mret a : M S A).
Proof. intros s. cbn. reflexivity. Qed.
Lemma moves_throw {A} e : moves R (throw e : M S A).
Proof. intros s. cbn. reflexivity. Qed.
Lemma moves_gets {A} (f : S -> A) : moves R (gets f).
Proof. intros s. cbn. reflexivity. Qed.
Lemma moves_lift {A} (r : result A) : moves R (lift r).
Proof. intros s. cbn. reflexivity. Qed.
Lemma moves_bind {A B} (m : M S A) (k : A -> M S B) :
  moves R m -> (forall a, moves R (k a)) -> moves R (m ≫= k).
Proof.
  intros Hm Hk s. unfold mbind, M_bind. specialize (Hm s).
  destruct (m s) as [[a|e] s1]; cbn in *; [|done].
  transitivity s1; [done | apply Hk].
Qed.
Lemma moves_try {A} (m : M S A) : moves R m -> moves R (try_ m).
Proof. intros H s. specialize (H s). unfold try_. by destruct (m s). Qed.
Lemma moves_on_error {A} f (m : M S A) : moves R m -> moves R (on_error f m).
Proof. intros H s. specialize (H s). unfold on_error. by destruct (m s). Qed.
Lemma moves_modify f : (forall s, R s (f s)) -> moves R (modify f).
Proof. intros H s. apply H. Qed.
End state_monad.

Create Rewrite HintDb gostd.
Create HintDb moves discriminated.
#[export] Hint Resolve moves_ret moves_throw moves_gets moves_lift moves_bind
  moves_try moves_on_error moves_modify : moves.
#[export] Hint Extern 0 (PreOrder _) => typeclasses eauto : moves.

(** ** Tactics *)

(** Invert every successful or failed bind in the context. *)
Ltac inv_bind_step :=
  match goal with
  | H : (_ ≫= _) _ = (Ok _, _) |- _ =>
      apply bind_ok_inv in H; destruct H as (? & ? & ? & H)
  | H : (_ ≫= _) = Ok _ |- _ =>
      apply result_bind_ok in H; destruct H as (? & ? & H)
  | H : reject_if _ _ = Ok _ |- _ => apply reject_if_ok in H
  | H : map_error _ _ = Ok _ |- _ => apply map_error_ok in H
  | H : lift _ _ = (_, _) |- _ => unfold lift in H; simplify_eq
  | H : gets _ _ = (_, _) |- _ => unfold gets in H; simplify_eq
  | H : modify _ _ = (_, _) |- _ => unfold modify in H; simplify_eq
  | H : throw _ _ = (_, _) |- _ => unfold throw in H; simplify_eq
  | H : mret _ = Ok _ |- _ => injection H as H
  | H : mret _ _ = (_, _) |- _ => unfold mret, M_ret in H; simplify_eq
  end.
Ltac inv_bind := repeat (inv_bind_step; simplify_eq/=).

(** Steps that only compose steps already known to move within a relation. *)
Ltac moves_tac :=
  repeat first [ solve [auto 3 with moves]
               | apply moves_bind; [by auto with moves | | intros ?] | case_match ];
  auto with moves.
