(* ===== verification/Fair.v ===== *)
(** * Fair runs

    A system that runs for ever is a sequence of states. What leads somewhere
    under weak fairness: an action that is enabled is taken in the end, or is
    enabled no longer. *)

From S2P Require Import Prelude.

Section fair.
Context {S : Type} (run : nat -> S).

(** [act n]: the action is what happens from [run n] to [run (n + 1)]. *)
Definition weakly_fair (enabled : S -> Prop) (act : nat -> Prop) : Prop :=
  forall i, enabled (run i) -> exists j, (i <= j)%nat /\ (act j \/ ~ enabled (run j)).
Definition eventually (i : nat) (goal : S -> Prop) : Prop := exists j, (i <= j)%nat /\ goal (run j).

Context (enabled : S -> Prop) (act : nat -> Prop) (P : nat -> S -> Prop) (goal : S -> Prop).
(** From a state where [P m] holds the action is enabled; a step reaches the goal
    or keeps [P] without moving away, and the action moves closer. *)
Context (Henabled : forall m n, P m (run n) -> enabled (run n)).
Context (Hstep : forall m n, P m (run n) -> goal (run (Datatypes.S n)) \/
  exists m', P m' (run (Datatypes.S n)) /\ (m' <= m)%nat /\ (act n -> (m' < m)%nat)).

Lemma closer d : forall m i, P m (run i) -> act (i + d)%nat \/ ~ enabled (run (i + d)) ->
  eventually i goal \/ exists m' j, (i <= j)%nat /\ P m' (run j) /\ (m' < m)%nat.
Proof.
  induction d as [|d IH]; intros m i Hp Hj.
  - rewrite Nat.add_0_r in Hj. destruct Hj as [Ha|Hn]; [|by destruct Hn; eapply Henabled].
    destruct (Hstep m i Hp) as [Hg|(m' & Hp' & _ & Hlt)]; [left; exists (Datatypes.S i); auto|].
    right. exists m', (Datatypes.S i). auto.
  - destruct (Hstep m i Hp) as [Hg|(m' & Hp' & Hle & _)]; [left; exists (Datatypes.S i); auto|].
    destruct (IH m' (Datatypes.S i) Hp') as [(j & Hj' & Hg)|(m'' & j & Hj' & Hp'' & Hlt)].
    + by replace (Datatypes.S i + d)%nat with (i + Datatypes.S d)%nat by lia.
    + left. exists j. split; [lia|done].
    + right. exists m'', j. split; [lia|]. split; [done|lia].
Qed.

Lemma leads_to : weakly_fair enabled act -> forall m i, P m (run i) -> eventually i goal.
Proof.
  intros Hf m. induction m as [m IH] using lt_wf_ind. intros i Hp.
  destruct (Hf i (Henabled m i Hp)) as (j & Hj & Ha).
  destruct (closer (j - i) m i Hp) as [Hg|(m' & i' & Hi & Hp' & Hlt)].
  - by replace (i + (j - i))%nat with j by lia.
  - done.
  - destruct (IH m' Hlt i' Hp') as (j' & Hj' & Hg). exists j'. split; [lia|done].
Qed.
End fair.
