(* ===== verification/GoStrings.v ===== *)
(** * Go's string functions

    The functions of Go's [strings] and [strconv] the program calls, on byte
    strings: prefixes and suffixes, splitting and joining, case folding,
    trimming, decimal conversion; and the lemmas the components share. *)

From S2P Require Import Prelude.
From Stdlib Require Import DecimalString DecimalN.
From Stdlib Require DecimalFacts.

Local Open Scope string_scope.

(** ** Characters *)

Definition ascii_val (a : ascii) : N := N_of_ascii a.
Definition in_range (lo hi : N) (a : ascii) : bool :=
  (lo <=? ascii_val a)%N && (ascii_val a <=? hi)%N.
Definition is_digit : ascii -> bool := in_range 48 57.
Definition is_upper : ascii -> bool := in_range 65 90.
Definition is_lower : ascii -> bool := in_range 97 122.
Definition is_alnum (a : ascii) : bool := is_digit a || is_upper a || is_lower a.

Fixpoint str_forall (p : ascii -> bool) (s : string) : bool :=
  match s with
  | EmptyString => true
  | String a r => p a && str_forall p r
  end.

Definition lacks (c : ascii) : string -> bool := str_forall (fun a => negb (Ascii.eqb a c)).

Lemma str_forall_app p s t : str_forall p (s +:+ t) = str_forall p s && str_forall p t.
Proof. induction s as [|a s IH]; cbn; [done|]. by rewrite IH, andb_assoc. Qed.

Lemma str_forall_impl (p q : ascii -> bool) s :
  (forall a, p a = true -> q a = true) -> str_forall p s = true -> str_forall q s = true.
Proof.
  intros Hpq. induction s as [|a s IH]; cbn; [done|].
  intros [Ha Hs]%andb_true_iff. by rewrite (Hpq a Ha), IH.
Qed.

Lemma lacks_cons c a s : lacks c (String a s) = negb (Ascii.eqb a c) && lacks c s.
Proof. done. Qed.

(** ** Substrings *)

(** [s[n:]] *)
Fixpoint str_drop (n : nat) (s : string) : string :=
  match n, s with
  | O, _ => s
  | S n, String _ r => str_drop n r
  | S _, EmptyString => EmptyString
  end.

(** [strings.HasPrefix], [strings.TrimPrefix], [strings.HasSuffix],
    [strings.Contains] *)
Definition has_prefix (s p : string) : bool := String.prefix p s.
Definition trim_prefix (s p : string) : string :=
  if has_prefix s p then str_drop (String.length p) s else s.
Definition has_suffix (s suf : string) : bool :=
  (String.length suf <=? String.length s)%nat &&
  String.eqb (str_drop (String.length s - String.length suf) s) suf.
Fixpoint str_contains (s sub : string) : bool :=
  has_prefix s sub ||
  match s with EmptyString => false | String _ r => str_contains r sub end.

(** [strings.LastIndex(s, c)] for a one-byte [c]; [None] is Go's -1. *)
Fixpoint last_index (c : ascii) (s : string) : option nat :=
  match s with
  | EmptyString => None
  | String a r =>
      match last_index c r with
      | Some i => Some (S i)
      | None => if Ascii.eqb a c then Some O else None
      end
  end.

Lemma length_app_str s t : String.length (s +:+ t) = (String.length s + String.length t)%nat.
Proof. induction s; cbn; congruence. Qed.

Lemma app_str_cons a s t : String a s +:+ t = String a (s +:+ t).
Proof. done. Qed.

Lemma app_str_nil_r s : s +:+ "" = s.
Proof. induction s; cbn; congruence. Qed.

Lemma app_str_assoc r s t : r +:+ (s +:+ t) = (r +:+ s) +:+ t.
Proof. induction r; cbn; congruence. Qed.

Lemma str_drop_app s t : str_drop (String.length s) (s +:+ t) = t.
Proof. by induction s. Qed.

Lemma has_prefix_app p s : has_prefix (p +:+ s) p = true.
Proof.
  unfold has_prefix. induction p as [|a p IH]; cbn; [by destruct s|].
  destruct (ascii_dec a a); [done | congruence].
Qed.

Lemma has_prefix_spec s p : has_prefix s p = true <-> exists t, s = p +:+ t.
Proof.
  split.
  - unfold has_prefix. revert s. induction p as [|a p IH]; intros s H; [by exists s|].
    destruct s as [|b s]; cbn in H; [done|].
    destruct (ascii_dec a b) as [->|]; [|done].
    destruct (IH s H) as [t ->]. by exists t.
  - intros [t ->]. apply has_prefix_app.
Qed.

Lemma trim_prefix_app p s : trim_prefix (p +:+ s) p = s.
Proof. unfold trim_prefix. rewrite has_prefix_app. apply str_drop_app. Qed.

Lemma has_suffix_app s suf : has_suffix (s +:+ suf) suf = true.
Proof.
  unfold has_suffix. rewrite length_app_str.
  replace (String.length s + String.length suf - String.length suf)%nat
    with (String.length s) by lia.
  rewrite str_drop_app, String.eqb_refl, andb_true_r. apply Nat.leb_le. lia.
Qed.

Lemma str_drop_split n s : exists t, s = t +:+ str_drop n s.
Proof.
  revert s. induction n as [|n IH]; intros s; [by exists ""|].
  destruct s as [|a s]; [by exists ""|]. destruct (IH s) as [t Ht].
  exists (String a t). cbn. by rewrite <- Ht.
Qed.

Lemma has_suffix_spec s suf : has_suffix s suf = true <-> exists t, s = t +:+ suf.
Proof.
  split.
  - unfold has_suffix. intros [_ E%String.eqb_eq]%andb_true_iff.
    destruct (str_drop_split (String.length s - String.length suf) s) as [t Ht].
    exists t. by rewrite <- E.
  - intros [t ->]. apply has_suffix_app.
Qed.

Lemma last_index_lacks c s : lacks c s = true -> last_index c s = None.
Proof.
  induction s as [|a s IH]; [done|]. rewrite lacks_cons. cbn.
  intros [Ha Hs]%andb_true_iff. rewrite IH by done. by destruct (Ascii.eqb a c).
Qed.

Lemma last_index_app c s t : lacks c t = true ->
  last_index c (s +:+ String c t) = Some (String.length s).
Proof.
  intros Ht. induction s as [|a s IH]; cbn.
  - by rewrite (last_index_lacks _ _ Ht), Ascii.eqb_refl.
  - by rewrite IH.
Qed.

(** ** Splitting and joining *)

(** [strings.Split(s, c)] for a one-byte separator *)
Fixpoint split_char (c : ascii) (s : string) : list string :=
  match s with
  | EmptyString => [""]
  | String a r =>
      if Ascii.eqb a c then "" :: split_char c r
      else match split_char c r with
           | h :: t => String a h :: t
           | [] => [String a ""]
           end
  end.

(** [strings.Join(parts, sep)] *)
Fixpoint str_join (sep : string) (parts : list string) : string :=
  match parts with
  | [] => ""
  | [p] => p
  | p :: rest => p +:+ sep +:+ str_join sep rest
  end.

Lemma split_char_lacks c s : lacks c s = true -> split_char c s = [s].
Proof.
  induction s as [|a s IH]; [done|]. rewrite lacks_cons. cbn.
  intros [Ha Hs]%andb_true_iff. rewrite IH by done. by destruct (Ascii.eqb a c).
Qed.

Lemma split_char_app c s t : lacks c s = true ->
  split_char c (s +:+ String c t) = s :: split_char c t.
Proof.
  induction s as [|a s IH]; cbn; [by rewrite Ascii.eqb_refl|].
  intros [Ha Hs]%andb_true_iff. rewrite IH by done. by destruct (Ascii.eqb a c).
Qed.

Lemma split_join c p parts :
  Forall (fun s => lacks c s = true) (p :: parts) ->
  split_char c (str_join (String c "") (p :: parts)) = p :: parts.
Proof.
  revert p. induction parts as [|q parts IH]; intros p H.
  - cbn. apply split_char_lacks. by inversion H.
  - inversion H as [|? ? Hp Hr]; subst.
    change (str_join (String c "") (p :: q :: parts))
      with (p +:+ String c (str_join (String c "") (q :: parts))).
    by rewrite split_char_app, IH.
Qed.

Lemma join_split c s : str_join (String c "") (split_char c s) = s.
Proof.
  induction s as [|a s IH]; [done|]. cbn.
  destruct (Ascii.eqb a c) eqn:E.
  - apply Ascii.eqb_eq in E as ->. destruct (split_char c s) eqn:Es.
    + cbn in IH. destruct s; cbn in Es; [done|]. by destruct (Ascii.eqb _ _), (split_char c s).
    + rewrite <- IH. by destruct l.
  - destruct (split_char c s) as [|h t] eqn:Es; cbn in *; [by subst|].
    rewrite <- IH. by destruct t.
Qed.

Lemma split_char_pieces c s : Forall (fun p => lacks c p = true) (split_char c s).
Proof.
  induction s as [|a s IH]; cbn; [by repeat constructor|].
  destruct (Ascii.eqb a c) eqn:E; [by constructor|].
  destruct (split_char c s); inversion IH; subst; constructor; try done;
    rewrite lacks_cons, E; done.
Qed.

(** ** Case and white space *)

Definition ascii_lower (a : ascii) : ascii :=
  if is_upper a then ascii_of_N (ascii_val a + 32) else a.

Definition byte_is (n : N) (a : ascii) : bool := (ascii_val a =? n)%N.

(** [strings.ToLower]. Outside ASCII only U+0130 and U+212A fold into ASCII
    ("i" and "k"); every other rune folds to a non-ASCII rune and is left as it
    is here, which is all a comparison with an ASCII constant can see. *)
Fixpoint to_lower (s : string) : string :=
  match s with
  | EmptyString => ""
  | String a r =>
      match r with
      | String b r2 =>
          if byte_is 196 a && byte_is 176 b then String "i" (to_lower r2)
          else
            match r2 with
            | String c r3 =>
                if byte_is 226 a && byte_is 132 b && byte_is 170 c
                then String "k" (to_lower r3)
                else String (ascii_lower a) (to_lower r)
            | EmptyString => String (ascii_lower a) (to_lower r)
            end
      | EmptyString => String (ascii_lower a) ""
      end
  end.

(** The encodings of [unicode.IsSpace]: one, two and three bytes long. *)
Definition space1 (a : ascii) : bool := in_range 9 13 a || byte_is 32 a.
Definition space2 (a b : ascii) : bool := byte_is 194 a && (byte_is 133 b || byte_is 160 b).
Definition space3 (a b c : ascii) : bool :=
  (byte_is 225 a && byte_is 154 b && byte_is 128 c) ||
  (byte_is 226 a && byte_is 128 b &&
     (in_range 128 138 c || byte_is 168 c || byte_is 169 c || byte_is 175 c)) ||
  (byte_is 226 a && byte_is 129 b && byte_is 159 c) ||
  (byte_is 227 a && byte_is 128 b && byte_is 128 c).

Fixpoint trim_left_by (s1 : ascii -> bool) (s2 : ascii -> ascii -> bool)
    (s3 : ascii -> ascii -> ascii -> bool) (s : string) : string :=
  match s with
  | EmptyString => ""
  | String a r =>
      if s1 a then trim_left_by s1 s2 s3 r
      else match r with
           | String b r2 =>
               if s2 a b then trim_left_by s1 s2 s3 r2
               else match r2 with
                    | String c r3 => if s3 a b c then trim_left_by s1 s2 s3 r3 else s
                    | EmptyString => s
                    end
           | EmptyString => s
           end
  end.

Definition str_rev (s : string) : string :=
  string_of_list_ascii (rev (list_ascii_of_string s)).

(** [strings.TrimSpace] and [strings.TrimRight(s, c)] for a one-byte cutset *)
Definition trim_space (s : string) : string :=
  let l := trim_left_by space1 space2 space3 s in
  str_rev (trim_left_by space1 (fun b a => space2 a b) (fun c b a => space3 a b c) (str_rev l)).
Definition trim_right_char (c : ascii) (s : string) : string :=
  str_rev (trim_left_by (Ascii.eqb c) (fun _ _ => false) (fun _ _ _ => false) (str_rev s)).

Example trim_space_ex : trim_space "  a b  " = "a b".
Proof. reflexivity. Qed.
Example to_lower_ex : to_lower "RegTest9" = "regtest9".
Proof. reflexivity. Qed.

Lemma str_rev_involutive s : str_rev (str_rev s) = s.
Proof.
  unfold str_rev. rewrite list_ascii_of_string_of_list_ascii, rev_involutive.
  apply string_of_list_ascii_of_string.
Qed.

(** ** Decimal numbers *)

(** [strconv.Itoa] / [fmt.Sprintf("%d")] *)
Definition itoa_N (n : N) : string := NilZero.string_of_uint (N.to_uint n).
Definition itoa (z : Z) : string :=
  match z with
  | Zneg p => "-" +:+ itoa_N (Npos p)
  | _ => itoa_N (Z.to_N z)
  end.

(** Digits only, at least one. *)
Definition parse_N (s : string) : option N :=
  match s with
  | EmptyString => None
  | _ => N.of_uint <$> NilEmpty.uint_of_string s
  end.

(** [strconv.Atoi]: an optional sign, decimal digits, the 64-bit range. *)
Definition atoi (s : string) : option Z :=
  let body s := Z.of_N <$> parse_N s in
  v ← match s with
      | String a r =>
          if Ascii.eqb a "-" then Z.opp <$> body r
          else if Ascii.eqb a "+" then body r
          else body s
      | EmptyString => None
      end;
  if bool_decide (- 2 ^ 63 <= v < 2 ^ 63)%Z then Some v else None.

Lemma nil_zero_empty d : d <> Decimal.Nil ->
  NilZero.string_of_uint d = NilEmpty.string_of_uint d.
Proof. by destruct d. Qed.

Lemma to_uint_nonnil n : N.to_uint n <> Decimal.Nil.
Proof.
  intros E. pose proof (Unsigned.of_to n) as H. rewrite E in H. cbn in H. by subst.
Qed.

Lemma itoa_N_nonempty n : itoa_N n <> "".
Proof.
  unfold itoa_N. rewrite nil_zero_empty by apply to_uint_nonnil.
  pose proof (to_uint_nonnil n). by destruct (N.to_uint n).
Qed.

Lemma parse_itoa_N n : parse_N (itoa_N n) = Some n.
Proof.
  unfold parse_N. pose proof (itoa_N_nonempty n) as Hne.
  destruct (itoa_N n) eqn:E; [done|]. rewrite <- E. unfold itoa_N.
  rewrite nil_zero_empty by apply to_uint_nonnil.
  rewrite NilEmpty.usu. cbn. by rewrite Unsigned.of_to.
Qed.

Lemma itoa_N_digits n : str_forall is_digit (itoa_N n) = true.
Proof.
  unfold itoa_N. rewrite nil_zero_empty by apply to_uint_nonnil.
  generalize (N.to_uint n) as d. intros d. by induction d.
Qed.

Lemma itoa_N_first n : exists a r, itoa_N n = String a r /\ is_digit a = true.
Proof.
  pose proof (itoa_N_digits n) as H. pose proof (itoa_N_nonempty n) as Hne.
  destruct (itoa_N n) as [|a r]; [done|]. exists a, r. cbn in H.
  apply andb_true_iff in H as [H _]. done.
Qed.

Lemma itoa_nonneg z : (0 <= z)%Z -> itoa z = itoa_N (Z.to_N z).
Proof. by destruct z. Qed.

Lemma atoi_itoa z : (- 2 ^ 63 <= z < 2 ^ 63)%Z -> atoi (itoa z) = Some z.
Proof.
  intros Hz. unfold atoi.
  assert (Hpos : forall n, exists a r, itoa_N n = String a r /\
            Ascii.eqb a "-" = false /\ Ascii.eqb a "+" = false).
  { intros n. destruct (itoa_N_first n) as (a & r & E & Ha). exists a, r.
    split; [done|]. split; apply Ascii.eqb_neq; intros ->; done. }
  destruct z as [|p|p].
  - reflexivity.
  - change (itoa (Zpos p)) with (itoa_N (Npos p)).
    destruct (Hpos (Npos p)) as (a & r & E & H1 & H2).
    rewrite E, H1, H2, <- E, parse_itoa_N. cbn -[Z.pow].
    by rewrite bool_decide_eq_true_2.
  - cbn -[Z.pow parse_N itoa_N]. rewrite parse_itoa_N. cbn -[Z.pow].
    by rewrite bool_decide_eq_true_2.
Qed.
