(* ===== verification/GoTime.v ===== *)
(** * Go's time package, as far as the service uses it

    An instant is a count of nanoseconds since the Unix epoch with the zone
    offset it is printed in; a [time.Duration] is an [int64] count of
    nanoseconds. *)

From S2P Require Import Prelude GoStrings.
Local Open Scope Z_scope.

Record Time := MkTime { t_nanos : Z; t_offset : Z }.

Definition Nanosecond : Z := 1.
Definition Millisecond : Z := 1000000.
Definition Second : Z := 1000000000.
Definition Minute : Z := 60 * Second.
Definition Hour : Z := 60 * Minute.

(** [t.UTC()], [t.Add(d)], [t.Unix()] *)
Definition UTC (t : Time) : Time := {| t_nanos := t_nanos t; t_offset := 0 |}.
Definition Add (t : Time) (d : Z) : Time :=
  {| t_nanos := t_nanos t + d; t_offset := t_offset t |}.
Definition Unix (t : Time) : Z := t_nanos t / Second.

(** The proleptic Gregorian date of a day count since 1970-01-01. *)
Definition civil_from_days (days : Z) : Z * Z * Z :=
  let z := days + 719468 in
  let era := z / 146097 in
  let doe := z - era * 146097 in
  let yoe := (doe - doe / 1460 + doe / 36524 - doe / 146096) / 365 in
  let doy := doe - (365 * yoe + yoe / 4 - yoe / 100) in
  let mp := (5 * doy + 2) / 153 in
  let d := doy - (153 * mp + 2) / 5 + 1 in
  let m := if mp <? 10 then mp + 3 else mp - 9 in
  (yoe + era * 400 + (if m <=? 2 then 1 else 0), m, d).

(** Zero-padded decimal of at least [width] digits. *)
Fixpoint zeros (n : nat) : string := match n with O => "" | S n => String "0" (zeros n) end.
Definition pad_left (width : nat) (s : string) : string := zeros (width - String.length s) +:+ s.
Definition append_int (x : Z) (width : nat) : string :=
  if x <? 0 then "-" +:+ pad_left width (itoa (- x)) else pad_left width (itoa x).

(** [t.Format(time.RFC3339Nano)] *)
Definition fraction (nanos : Z) : string :=
  let digits := trim_right_char "0" (append_int nanos 9) in
  if String.eqb digits "" then "" else "." +:+ digits.
Definition zone (offset : Z) : string :=
  if offset =? 0 then "Z" else
  let minutes := Z.quot offset 60 in
  (if minutes <? 0 then "-" else "+")
  +:+ append_int (Z.abs minutes / 60) 2 +:+ ":" +:+ append_int (Z.abs minutes mod 60) 2.
Definition format_RFC3339Nano (t : Time) : string :=
  let local := t_nanos t + t_offset t * Second in
  let secs := local / Second in
  let '(y, m, d) := civil_from_days (secs / 86400) in
  let tod := secs mod 86400 in
  append_int y 4 +:+ "-" +:+ append_int m 2 +:+ "-" +:+ append_int d 2 +:+ "T"
  +:+ append_int (tod / 3600) 2 +:+ ":" +:+ append_int (tod / 60 mod 60) 2
  +:+ ":" +:+ append_int (tod mod 60) 2
  +:+ fraction (local mod Second) +:+ zone (t_offset t).

Example format_epoch : format_RFC3339Nano (MkTime 0 0) = "1970-01-01T00:00:00Z".
Proof. reflexivity. Qed.
Example format_leap :
  format_RFC3339Nano (MkTime (951782399 * Second + 120000000) (-5 * 3600))
  = "2000-02-28T18:59:59.12-05:00".
Proof. vm_compute. reflexivity. Qed.
Example format_now : format_RFC3339Nano (MkTime (1767225599 * Second + 1) 0)
  = "2025-12-31T23:59:59.000000001Z".
Proof. vm_compute. reflexivity. Qed.

(** Whole seconds move with whole seconds. *)
Lemma Unix_add_seconds t n : Unix (Add t (n * Second)) = Unix t + n.
Proof. unfold Unix, Add, Second. cbn. rewrite Z.div_add; lia. Qed.

Lemma Unix_mono t u : t_nanos t <= t_nanos u -> Unix t <= Unix u.
Proof. unfold Unix, Second. intros H. apply Z.div_le_mono; lia. Qed.
