(* ===== verification/GoPath.v ===== *)
(** * Go's path/filepath, as far as the service uses it

    [Clean], [Join] of two elements and [Dir] on slash-separated paths, and
    that joining distinct file names to one directory gives distinct paths. *)

From S2P Require Import Prelude GoStrings.

Definition rooted (path : string) : bool := has_prefix path "/".

(** The elements of a path after [Clean], last one first. *)
Definition push_elem (root : bool) (stack : list string) (elem : string) : list string :=
  if String.eqb elem "" || String.eqb elem "." then stack
  else if String.eqb elem ".." then
    match stack with
    | top :: rest => if String.eqb top ".." then ".." :: stack else rest
    | [] => if root then [] else [".."]
    end
  else elem :: stack.
Definition elems (path : string) : list string :=
  fold_left (push_elem (rooted path)) (split_char "/" path) [].

Definition render (root : bool) (stack : list string) : string :=
  match root, stack with
  | false, [] => "."
  | _, _ => (if root then "/" else "") +:+ str_join "/" (rev stack)
  end.

(** [filepath.Clean] *)
Definition Clean (path : string) : string := render (rooted path) (elems path).

(** [filepath.Join(dir, base)]: empty elements are ignored. *)
Definition Join (dir base : string) : string :=
  match dir, base with
  | "", "" => ""
  | "", _ => Clean base
  | _, "" => Clean dir
  | _, _ => Clean (dir +:+ "/" +:+ base)
  end.

(** [filepath.Dir]: all but the last element. *)
Fixpoint through_last_slash (s : string) : string :=
  match s with
  | EmptyString => ""
  | String a r =>
      let t := through_last_slash r in
      if Ascii.eqb a "/" || negb (String.eqb t "") then String a t else ""
  end.
Definition Dir (path : string) : string := Clean (through_last_slash path).

Example clean_ex : Clean "/a/../../b//c/./d/.." = "/b/c".
Proof. reflexivity. Qed.
Example clean_ex2 : Clean "a/../../b" = "../b".
Proof. reflexivity. Qed.
Example join_ex : Join "./data/" "data.key" = "data/data.key".
Proof. reflexivity. Qed.
Example dir_ex : Dir "data/data.key" = "data".
Proof. reflexivity. Qed.
Example dir_ex2 : Dir "data.key" = ".".
Proof. reflexivity. Qed.

(** A plain file name: one element that [Clean] keeps. *)
Definition file_name (b : string) : bool :=
  lacks "/" b && negb (String.eqb b "") && negb (String.eqb b ".") && negb (String.eqb b "..").

Lemma file_name_facts b : file_name b = true ->
  lacks "/" b = true /\ b <> "" /\ b <> "." /\ b <> "..".
Proof.
  unfold file_name. rewrite !andb_true_iff, !negb_true_iff, !String.eqb_neq. tauto.
Qed.

Lemma split_char_last c s t : lacks c t = true ->
  split_char c (s +:+ String c t) = split_char c s ++ [t].
Proof.
  intros Ht. induction s as [|a s IH]; cbn.
  - by rewrite Ascii.eqb_refl, split_char_lacks.
  - rewrite IH. destruct (Ascii.eqb a c); [done|]. destruct (split_char c s) eqn:E; [|done].
    by destruct s; cbn in E; [|destruct (Ascii.eqb _ _), (split_char c s)].
Qed.

Lemma rooted_app d b : d <> "" -> rooted (d +:+ b) = rooted d.
Proof.
  destruct d as [|a d]; [done|]. intros _. unfold rooted, has_prefix. cbn [append String.prefix].
  destruct (ascii_dec "/" a); [|done]. by destruct (d +:+ b), d.
Qed.

Lemma str_join_snoc sep l b : l <> [] -> str_join sep (l ++ [b]) = str_join sep l +:+ sep +:+ b.
Proof.
  induction l as [|x l IH]; [done|]. intros _. destruct l as [|y l]; [done|].
  cbn [app str_join] in *. rewrite IH by done. by rewrite !app_str_assoc.
Qed.

(** Joining a file name only appends it, to a prefix the directory decides. *)
Definition dir_prefix (dir : string) : string :=
  match dir with
  | "" => ""
  | _ => (if rooted dir then "/" else "") +:+
         match elems dir with [] => "" | st => str_join "/" (rev st) +:+ "/" end
  end.

Lemma push_file_name root st b : file_name b = true -> push_elem root st b = b :: st.
Proof.
  intros (_ & H1 & H2 & H3)%file_name_facts. unfold push_elem.
  by rewrite !(proj2 (String.eqb_neq _ _)).
Qed.

Lemma elems_file_name b : file_name b = true -> rooted b = false /\ elems b = [b].
Proof.
  intros Hb. destruct (file_name_facts _ Hb) as (Hl & Hne & _).
  unfold elems. rewrite split_char_lacks by done. cbn. rewrite push_file_name by done.
  split; [|done]. destruct b as [|a b]; [done|].
  rewrite lacks_cons in Hl. apply andb_true_iff in Hl as [Ha _].
  unfold rooted, has_prefix. cbn [String.prefix]. by destruct (ascii_dec "/" a) as [<-|].
Qed.

Lemma Join_file_name dir b : file_name b = true -> Join dir b = dir_prefix dir +:+ b.
Proof.
  intros Hb. destruct (file_name_facts _ Hb) as (Hl & Hne & _).
  destruct b as [|c b]; [done|]. destruct dir as [|a d].
  - unfold Join, Clean. destruct (elems_file_name _ Hb) as [-> ->]. done.
  - unfold Join, Clean. cbn [append]. change (String a (d +:+ String "/" (String c b)))
      with (String a d +:+ String "/" (String c b)).
    set (dir := String a d). set (base := String c b) in *.
    assert (elems (dir +:+ String "/" base) = base :: elems dir) as ->.
    { unfold elems. rewrite split_char_last, rooted_app by done.
      rewrite fold_left_app. cbn [fold_left]. by apply push_file_name. }
    rewrite rooted_app by done. unfold dir_prefix, dir. fold dir. cbn [render].
    unfold render. destruct (rooted dir); cbn [rev];
      (destruct (elems dir) as [|x st];
       [done | rewrite str_join_snoc by (by destruct (rev (x :: st)) eqn:E;
         [apply (f_equal length) in E; rewrite length_rev in E|]);
       by rewrite !app_str_assoc]).
Qed.

Lemma app_str_inj_l p s t : p +:+ s = p +:+ t -> s = t.
Proof. induction p as [|a p IH]; cbn; [done|]. intros [= H]. by apply IH. Qed.

Lemma Join_inj dir b b' : file_name b = true -> file_name b' = true ->
  Join dir b = Join dir b' -> b = b'.
Proof. intros H H'. rewrite !Join_file_name by done. apply app_str_inj_l. Qed.
