(* ===== verification/Encoding.v ===== *)
(** * Go's encoding/base64 and encoding/hex

    [base64.StdEncoding] (padded) and [base64.RawURLEncoding] (unpadded), as
    the program uses them: encoding, and the non-strict decoding that skips
    carriage returns and line feeds; [hex.EncodeToString] and
    [hex.DecodeString]. *)

From S2P Require Import Prelude GoStrings.

Local Open Scope string_scope.
Local Open Scope N_scope.

(** ** Alphabets *)

Definition std_alphabet : string :=
  "ABCDEFGHIJKLMNOPQRSTUVWXYZabcdefghijklmnopqrstuvwxyz0123456789+/".
Definition url_alphabet : string :=
  "ABCDEFGHIJKLMNOPQRSTUVWXYZabcdefghijklmnopqrstuvwxyz0123456789-_".

Record base64_encoding := { b64_alphabet : string; b64_padded : bool }.
Definition StdEncoding : base64_encoding := {| b64_alphabet := std_alphabet; b64_padded := true |}.
Definition RawURLEncoding : base64_encoding := {| b64_alphabet := url_alphabet; b64_padded := false |}.

Definition pad_char : ascii := "=".

Definition nth_char (alpha : string) (n : N) : ascii :=
  match String.get (N.to_nat n) alpha with Some a => a | None => "A"%char end.
Fixpoint index_of (a : ascii) (alpha : string) : option N :=
  match alpha with
  | EmptyString => None
  | String b r => if Ascii.eqb a b then Some 0 else N.succ <$> index_of a r
  end.

(** ** Encoding *)

Section base64.
Context (e : base64_encoding).

Definition b64_char (n : N) : ascii := nth_char (b64_alphabet e) (n mod 64).
Definition b64_val (a : ascii) : option N := index_of a (b64_alphabet e).

Definition b64_padding (s : string) : string := if b64_padded e then s else "".

Fixpoint b64_encode (l : bytes) : string :=
  match l with
  | [] => ""
  | [a] =>
      let v := byte_val a * 16 in
      String (b64_char (v / 64)) (String (b64_char v) (b64_padding "=="))
  | [a; b] =>
      let v := (byte_val a * 256 + byte_val b) * 4 in
      String (b64_char (v / 4096)) (String (b64_char (v / 64))
        (String (b64_char v) (b64_padding "=")))
  | a :: b :: c :: r =>
      let v := (byte_val a * 256 + byte_val b) * 256 + byte_val c in
      String (b64_char (v / 262144)) (String (b64_char (v / 4096))
        (String (b64_char (v / 64)) (String (b64_char v) (b64_encode r))))
  end.

(** ** Decoding

    The offset Go reports in [CorruptInputError] is not kept. *)

Definition corrupt_input : error := ENew "illegal base64 data".

Definition decode2 (a b : ascii) : option bytes :=
  x ← b64_val a; y ← b64_val b; Some [byte_of ((x * 64 + y) / 16)].
Definition decode3 (a b c : ascii) : option bytes :=
  x ← b64_val a; y ← b64_val b; z ← b64_val c;
  let v := ((x * 64 + y) * 64 + z) / 4 in
  Some [byte_of (v / 256); byte_of v].
Definition decode4 (a b c d : ascii) : option bytes :=
  x ← b64_val a; y ← b64_val b; z ← b64_val c; t ← b64_val d;
  let v := ((x * 64 + y) * 64 + z) * 64 + t in
  Some [byte_of (v / 65536); byte_of (v / 256); byte_of v].

Fixpoint b64_quanta (s : string) : option bytes :=
  match s with
  | EmptyString => Some []
  | String a (String b EmptyString) =>
      if b64_padded e then None else decode2 a b
  | String a (String b (String c EmptyString)) =>
      if b64_padded e then None else decode3 a b c
  | String a (String b (String c (String d r))) =>
      if b64_padded e && Ascii.eqb d pad_char && String.eqb r "" then
        if Ascii.eqb c pad_char then decode2 a b else decode3 a b c
      else
        q ← decode4 a b c d; rest ← b64_quanta r; Some (q ++ rest)%list
  | _ => None
  end.

Definition is_newline (a : ascii) : bool := byte_is 10 a || byte_is 13 a.

Fixpoint strip_newlines (s : string) : string :=
  match s with
  | EmptyString => ""
  | String a r => if is_newline a then strip_newlines r else String a (strip_newlines r)
  end.

Definition b64_decode (s : string) : result bytes :=
  match b64_quanta (strip_newlines s) with
  | Some b => Ok b
  | None => Err corrupt_input
  end.
End base64.

(** ** Facts about the two alphabets *)

Lemma N_lt_64_ind (P : N -> bool) :
  forallb P (N.of_nat <$> seq 0 64) = true -> forall n, n < 64 -> P n = true.
Proof.
  intros H n Hn. rewrite forallb_forall in H. apply H.
  apply list_elem_of_In, list_elem_of_fmap. exists (N.to_nat n).
  split; [lia|]. apply elem_of_seq. lia.
Qed.

Definition supported (e : base64_encoding) : Prop := e = StdEncoding \/ e = RawURLEncoding.

Lemma std_supported : supported StdEncoding. Proof. by left. Qed.
Lemma rawurl_supported : supported RawURLEncoding. Proof. by right. Qed.
#[export] Hint Resolve std_supported rawurl_supported : core.

(** The characters either encoding produces before the padding. *)
Definition b64_alpha (a : ascii) : bool :=
  is_alnum a || (Ascii.eqb a "-" || Ascii.eqb a "_" || Ascii.eqb a "+" || Ascii.eqb a "/").

Lemma b64_val_char e n : supported e -> b64_val e (b64_char e n) = Some (n mod 64).
Proof.
  intros He. unfold b64_char.
  pose proof (N.mod_upper_bound n 64 ltac:(lia)) as Hb. revert Hb.
  generalize (n mod 64) as m. clear n. intros m Hm.
  apply (bool_decide_eq_true_1 (b64_val e (nth_char (b64_alphabet e) m) = Some m)).
  revert m Hm. apply (N_lt_64_ind (fun m => bool_decide (b64_val e (nth_char (b64_alphabet e) m) = Some m))).
  by destruct He as [-> | ->]; vm_compute.
Qed.

Lemma b64_char_alpha e n : supported e -> b64_alpha (b64_char e n) = true.
Proof.
  intros He. unfold b64_char.
  apply (N_lt_64_ind (fun m => b64_alpha (nth_char (b64_alphabet e) m))).
  - by destruct He as [-> | ->]; vm_compute.
  - apply N.mod_upper_bound. lia.
Qed.

Lemma b64_alpha_no_newline a : b64_alpha a = true -> is_newline a = false.
Proof.
  unfold is_newline, byte_is. destruct (N.eqb_spec (ascii_val a) 10) as [E|_].
  { intros H. exfalso. revert H. unfold ascii_val in E.
    rewrite <- (ascii_N_embedding a), E. by vm_compute. }
  destruct (N.eqb_spec (ascii_val a) 13) as [E|_]; [|done].
  intros H. exfalso. revert H. unfold ascii_val in E.
  rewrite <- (ascii_N_embedding a), E. by vm_compute.
Qed.

Lemma b64_alpha_no_pad a : b64_alpha a = true -> Ascii.eqb a pad_char = false.
Proof. intros H. apply Ascii.eqb_neq. by intros ->. Qed.

(** ** Round trip *)

Lemma list_ind3 {A} (P : list A -> Prop) :
  P [] -> (forall a, P [a]) -> (forall a b, P [a; b]) ->
  (forall a b c r, P r -> P (a :: b :: c :: r)) -> forall l, P l.
Proof.
  intros H0 H1 H2 H3. fix IH 1. intros [|a [|b [|c r]]]; [done|apply H1|apply H2|].
  apply H3, IH.
Qed.

Lemma b64_encode_chars e l : supported e ->
  str_forall (fun a => b64_alpha a || Ascii.eqb a pad_char) (b64_encode e l) = true.
Proof.
  intros He. induction l as [|a|a b|a b c r IH] using list_ind3; cbn -[N.mul N.div N.add];
    rewrite ?b64_char_alpha by done; cbn; unfold b64_padding; try by destruct (b64_padded e).
Qed.

Lemma rawurl_encode_chars l : str_forall b64_alpha (b64_encode RawURLEncoding l) = true.
Proof.
  induction l as [|a|a b|a b c r IH] using list_ind3; cbn -[N.mul N.div N.add b64_char];
    rewrite ?b64_char_alpha by auto; done.
Qed.

Lemma strip_newlines_id s :
  str_forall (fun a => negb (is_newline a)) s = true -> strip_newlines s = s.
Proof.
  induction s as [|a s IH]; cbn; [done|]. intros [Ha Hs]%andb_true_iff.
  apply negb_true_iff in Ha. by rewrite Ha, IH.
Qed.

Lemma b64_strip e l : supported e -> strip_newlines (b64_encode e l) = b64_encode e l.
Proof.
  intros He. apply strip_newlines_id. eapply str_forall_impl; [|by apply b64_encode_chars].
  intros a. cbn. intros [H|H]%orb_true_iff.
  - by rewrite b64_alpha_no_newline.
  - by apply Ascii.eqb_eq in H as ->.
Qed.

Ltac byte_bounds :=
  repeat match goal with
  | |- context [byte_val ?a] =>
      lazymatch goal with
      | _ : byte_val a < 256 |- _ => fail
      | _ => pose proof (byte_val_lt a)
      end
  end.

Lemma byte_of_eq n a : n mod 256 = byte_val a -> byte_of n = a.
Proof.
  intros H. rewrite <- (byte_of_val a), <- H. unfold byte_of.
  by rewrite N.Div0.mod_mod.
Qed.

Ltac b64_arith :=
  byte_bounds; try (repeat f_equal); apply byte_of_eq;
  zify; Z.to_euclidean_division_equations; lia.

#[local] Arguments b64_char : simpl never.
#[local] Arguments b64_val : simpl never.
#[local] Arguments byte_of : simpl never.
#[local] Arguments N.div : simpl never.
#[local] Arguments N.mul : simpl never.
#[local] Arguments N.add : simpl never.
#[local] Arguments N.modulo : simpl never.

Lemma decode2_char e m n : supported e ->
  decode2 e (b64_char e m) (b64_char e n) =
  Some [byte_of ((m mod 64 * 64 + n mod 64) / 16)].
Proof. intros He. unfold decode2. by rewrite !b64_val_char. Qed.

Lemma decode3_char e m n o : supported e ->
  decode3 e (b64_char e m) (b64_char e n) (b64_char e o) =
  let v := ((m mod 64 * 64 + n mod 64) * 64 + o mod 64) / 4 in
  Some [byte_of (v / 256); byte_of v].
Proof. intros He. unfold decode3. by rewrite !b64_val_char. Qed.

Lemma decode4_char e m n o p : supported e ->
  decode4 e (b64_char e m) (b64_char e n) (b64_char e o) (b64_char e p) =
  let v := ((m mod 64 * 64 + n mod 64) * 64 + o mod 64) * 64 + p mod 64 in
  Some [byte_of (v / 65536); byte_of (v / 256); byte_of v].
Proof. intros He. unfold decode4. by rewrite !b64_val_char. Qed.

Lemma b64_char_not_pad e n : supported e -> Ascii.eqb (b64_char e n) pad_char = false.
Proof. intros He. by apply b64_alpha_no_pad, b64_char_alpha. Qed.

Lemma b64_quanta_encode e l : supported e -> b64_quanta e (b64_encode e l) = Some l.
Proof.
  intros He. induction l as [|a|a b|a b c r IH] using list_ind3; cbn.
  - done.
  - unfold b64_padding. destruct (b64_padded e) eqn:Ep; cbn; rewrite ?Ep; cbn;
      rewrite decode2_char by done; b64_arith.
  - unfold b64_padding. destruct (b64_padded e) eqn:Ep; cbn; rewrite ?Ep; cbn.
    + rewrite b64_char_not_pad, decode3_char by done. cbn. b64_arith.
    + rewrite decode3_char by done. cbn. b64_arith.
  - rewrite b64_char_not_pad, andb_false_r by done. cbn.
    rewrite decode4_char, IH by done. cbn. b64_arith.
Qed.

Lemma b64_decode_encode e l : supported e -> b64_decode e (b64_encode e l) = Ok l.
Proof.
  intros He. unfold b64_decode. by rewrite b64_strip, b64_quanta_encode.
Qed.
#[export] Hint Rewrite b64_decode_encode using auto : gostd.

(** ** What a padded string over the alphabet decodes to *)

Definition b64_member (e : base64_encoding) (a : ascii) : bool :=
  match b64_val e a with Some _ => true | None => false end.

Lemma std_member_not_newline a : b64_member StdEncoding a = true -> is_newline a = false.
Proof.
  destruct (is_newline a) eqn:E; [|done]. unfold is_newline, byte_is, ascii_val in E.
  apply orb_true_iff in E as [E|E]; apply N.eqb_eq in E;
    rewrite <- (ascii_N_embedding a), E; by vm_compute.
Qed.

Lemma std_member_not_pad a : b64_member StdEncoding a = true -> Ascii.eqb a pad_char = false.
Proof. intros H. apply Ascii.eqb_neq. intros ->. by vm_compute in H. Qed.

Lemma std_quanta_length k s :
  str_forall (b64_member StdEncoding) s = true -> String.length s = (4 * k)%nat ->
  exists l, b64_quanta StdEncoding s = Some l /\ length l = (3 * k)%nat.
Proof.
  revert s. induction k as [|k IH]; intros s Hs Hl.
  - destruct s; [by exists [] | done].
  - destruct s as [|a [|b [|c [|d r]]]]; try (cbn in Hl; lia).
    cbn in Hs. repeat apply andb_true_iff in Hs as [? Hs].
    destruct (IH r Hs ltac:(cbn in Hl; lia)) as (l & El & Hll).
    cbn. rewrite std_member_not_pad by done. cbn. unfold decode4.
    unfold b64_member in *.
    destruct (b64_val _ a), (b64_val _ b), (b64_val _ c), (b64_val _ d); try done.
    cbn. rewrite El. eexists. split; [done|]. cbn. lia.
Qed.

Lemma std_decode_length k s :
  str_forall (b64_member StdEncoding) s = true -> String.length s = (4 * k)%nat ->
  exists l, b64_decode StdEncoding s = Ok l /\ length l = (3 * k)%nat.
Proof.
  intros Hs Hl. destruct (std_quanta_length k s Hs Hl) as (l & El & Hll).
  exists l. split; [|done]. unfold b64_decode.
  rewrite strip_newlines_id, El; [done|].
  eapply str_forall_impl; [|exact Hs]. intros a Ha. by rewrite std_member_not_newline.
Qed.

(** ** Hexadecimal *)

Definition hex_digit (n : N) : ascii := nth_char "0123456789abcdef" n.

(** [hex.EncodeToString] *)
Fixpoint hex_encode (l : bytes) : string :=
  match l with
  | [] => ""
  | b :: r => String (hex_digit (byte_val b / 16)) (String (hex_digit (byte_val b mod 16)) (hex_encode r))
  end.

Definition hex_val (a : ascii) : option N :=
  if is_digit a then Some (ascii_val a - 48)
  else if in_range 97 102 a then Some (ascii_val a - 87)
  else if in_range 65 70 a then Some (ascii_val a - 55)
  else None.

Definition hex_error : error := ENew "encoding/hex: invalid input".

(** [hex.DecodeString] *)
Fixpoint hex_decode (s : string) : result bytes :=
  match s with
  | EmptyString => Ok []
  | String a (String b r) =>
      match hex_val a, hex_val b with
      | Some x, Some y => rest ← hex_decode r; Ok (byte_of (x * 16 + y) :: rest)
      | _, _ => Err hex_error
      end
  | _ => Err hex_error
  end.

Lemma hex_val_digit n : n < 16 -> hex_val (hex_digit n) = Some n.
Proof.
  intros Hn. assert (H : forallb (fun n => bool_decide (hex_val (hex_digit n) = Some n))
    (N.of_nat <$> seq 0 16) = true) by by vm_compute.
  rewrite forallb_forall in H. apply (bool_decide_eq_true_1 _), H.
  apply list_elem_of_In, list_elem_of_fmap. exists (N.to_nat n).
  split; [lia|]. apply elem_of_seq. lia.
Qed.

Lemma hex_decode_encode l : hex_decode (hex_encode l) = Ok l.
Proof.
  induction l as [|b l IH]; [done|]. cbn.
  pose proof (byte_val_lt b).
  rewrite !hex_val_digit by (zify; Z.to_euclidean_division_equations; lia).
  rewrite IH. cbn. b64_arith.
Qed.

Lemma hex_encode_length l : String.length (hex_encode l) = (2 * length l)%nat.
Proof. induction l as [|b l IH]; cbn; lia. Qed.

Lemma hex_encode_inj l l' : hex_encode l = hex_encode l' -> l = l'.
Proof.
  intros H. assert (E : Ok l = Ok l') by by rewrite <- !hex_decode_encode, H.
  by injection E.
Qed.
