(* ===== verification/Crypto.v ===== *)
(** * Go's crypto: SHA-256, HMAC-SHA-256 and AES-256-GCM

    What the program takes from [crypto/sha256], [crypto/hmac], [crypto/aes]
    and [crypto/cipher], written out from FIPS 180-4, RFC 2104, FIPS 197 and
    NIST SP 800-38D, with the classes through which the other components use
    them: a MAC is any function, an AEAD any pair that opens what it seals. *)

From S2P Require Import Prelude GoStrings Encoding.

Local Open Scope N_scope.

(** ** SHA-256 (FIPS 180-4) *)

Module Sha256.
Definition w32 (n : N) : N := N.land n 0xffffffff.
Definition add32 (a b : N) : N := w32 (a + b).
Definition rotr (k n : N) : N := N.lor (N.shiftr n k) (w32 (N.shiftl n (32 - k))).
Definition xor3 (a b c : N) : N := N.lxor a (N.lxor b c).
Definition bsig0 (x : N) : N := xor3 (rotr 2 x) (rotr 13 x) (rotr 22 x).
Definition bsig1 (x : N) : N := xor3 (rotr 6 x) (rotr 11 x) (rotr 25 x).
Definition ssig0 (x : N) : N := xor3 (rotr 7 x) (rotr 18 x) (N.shiftr x 3).
Definition ssig1 (x : N) : N := xor3 (rotr 17 x) (rotr 19 x) (N.shiftr x 10).
Definition ch (x y z : N) : N := N.lxor (N.land x y) (N.ldiff z x).
Definition maj (x y z : N) : N := xor3 (N.land x y) (N.land x z) (N.land y z).

(** The constants: the first 32 bits of the fractional parts of the cube roots
    of the first 64 primes. *)
Definition primes : list N :=
  [2; 3; 5; 7; 11; 13; 17; 19; 23; 29; 31; 37; 41; 43; 47; 53; 59; 61; 67; 71; 73; 79; 83; 89; 97; 101; 103;
   107; 109; 113; 127; 131; 137; 139; 149; 151; 157; 163; 167; 173; 179; 181; 191; 193; 197; 199; 211; 223;
   227; 229; 233; 239; 241; 251; 257; 263; 269; 271; 277; 281; 283; 293; 307; 311].
(** The integer cube root of [n], its [bits] binary digits from the highest. *)
Fixpoint cube_root (bits : nat) (n r : N) : N :=
  match bits with
  | O => r
  | S bits =>
      let r' := r + 2 ^ N.of_nat bits in
      cube_root bits n (if (r' ^ 3 <=? n) then r' else r)
  end.
Definition K : list N := Eval vm_compute in (fun p => w32 (cube_root 36 (p * 2 ^ 96) 0)) <$> primes.

Record state := { sa : N; sb : N; sc : N; sd : N; se : N; sf : N; sg : N; sh : N }.

Definition init : state :=
  {| sa := 0x6a09e667; sb := 0xbb67ae85; sc := 0x3c6ef372; sd := 0xa54ff53a;
     se := 0x510e527f; sf := 0x9b05688c; sg := 0x1f83d9ab; sh := 0x5be0cd19 |}.

Definition round (st : state) (kw : N) : state :=
  let t1 := w32 (sh st + bsig1 (se st) + ch (se st) (sf st) (sg st) + kw) in
  let t2 := add32 (bsig0 (sa st)) (maj (sa st) (sb st) (sc st)) in
  {| sa := add32 t1 t2; sb := sa st; sc := sb st; sd := sc st;
     se := add32 (sd st) t1; sf := se st; sg := sf st; sh := sg st |}.

(** The message schedule, kept as the last sixteen words. *)
Definition next_word (w : list N) : N :=
  match w with
  | w0 :: w1 :: _ :: _ :: _ :: _ :: _ :: _ :: _ :: w9 :: _ :: _ :: _ :: _ :: w14 :: _ =>
      w32 (ssig1 w14 + w9 + ssig0 w1 + w0)
  | _ => 0
  end.

Fixpoint rounds (ks : list N) (w : list N) (st : state) : state :=
  match ks, w with
  | k :: ks, w0 :: wr => rounds ks (wr ++ [next_word w]) (round st (k + w0))
  | _, _ => st
  end.

Fixpoint words (l : bytes) : list N :=
  match l with
  | a :: b :: c :: d :: r =>
      (((byte_val a * 256 + byte_val b) * 256 + byte_val c) * 256 + byte_val d) :: words r
  | _ => []
  end.

Definition block (st : state) (ws : list N) : state :=
  let r := rounds K ws st in
  {| sa := add32 (sa st) (sa r); sb := add32 (sb st) (sb r); sc := add32 (sc st) (sc r);
     sd := add32 (sd st) (sd r); se := add32 (se st) (se r); sf := add32 (sf st) (sf r);
     sg := add32 (sg st) (sg r); sh := add32 (sh st) (sh r) |}.

Fixpoint be_bytes (k : nat) (n : N) : bytes :=
  match k with
  | O => []
  | S k => byte_of (N.shiftr n (8 * N.of_nat k)) :: be_bytes k n
  end.

Definition pad (l : bytes) : bytes :=
  let zeros := N.to_nat ((55 + 64 - N.of_nat (length l) mod 64) mod 64) in
  l ++ Byte.x80 :: repeat Byte.x00 zeros ++ be_bytes 8 (8 * N.of_nat (length l)).

(** One step per block; [fuel] bounds the number of blocks. *)
Fixpoint blocks (fuel : nat) (ws : list N) (st : state) : state :=
  match fuel, ws with
  | S fuel, _ :: _ => blocks fuel (drop 16 ws) (block st (take 16 ws))
  | _, _ => st
  end.

Definition output (st : state) : bytes :=
  be_bytes 4 (sa st) ++ be_bytes 4 (sb st) ++ be_bytes 4 (sc st) ++ be_bytes 4 (sd st) ++
  be_bytes 4 (se st) ++ be_bytes 4 (sf st) ++ be_bytes 4 (sg st) ++ be_bytes 4 (sh st).

Definition sum256 (l : bytes) : bytes :=
  let ws := words (pad l) in output (blocks (length ws) ws init).
End Sha256.

Definition hmac_block (key : bytes) : bytes :=
  let k := if (64 <? length key)%nat then Sha256.sum256 key else key in
  k ++ repeat Byte.x00 (64 - length k).
Definition xor_pad (p : N) (k : bytes) : bytes := (fun b => byte_of (N.lxor (byte_val b) p)) <$> k.

(** [hmac.New(sha256.New, key)], [Write(msg)], [Sum(nil)] (RFC 2104) *)
Definition hmac_sha256 (key msg : bytes) : bytes :=
  let k := hmac_block key in
  Sha256.sum256 (xor_pad 0x5c k ++ Sha256.sum256 (xor_pad 0x36 k ++ msg)).

Example sha256_abc :
  hex_encode (Sha256.sum256 (bytes_of_string "abc")) =
  "ba7816bf8f01cfea414140de5dae2223b00361a396177a9cb410ff61f20015ad"%string.
Proof. vm_compute. reflexivity. Qed.
Example hmac_rfc4231_2 :
  hex_encode (hmac_sha256 (bytes_of_string "Jefe") (bytes_of_string "what do ya want for nothing?")) =
  "5bdcc146bf60754e6a042426089575c75a003f089d2739839dec58b964ec3843"%string.
Proof. vm_compute. reflexivity. Qed.

(** ** AES-256 (FIPS 197), encryption direction only: GCM needs no other *)

Module Aes.
Definition sbox : list N :=
  [
   99; 124; 119; 123; 242; 107; 111; 197; 48; 1; 103; 43; 254; 215; 171; 118;
   202; 130; 201; 125; 250; 89; 71; 240; 173; 212; 162; 175; 156; 164; 114; 192;
   183; 253; 147; 38; 54; 63; 247; 204; 52; 165; 229; 241; 113; 216; 49; 21;
   4; 199; 35; 195; 24; 150; 5; 154; 7; 18; 128; 226; 235; 39; 178; 117;
   9; 131; 44; 26; 27; 110; 90; 160; 82; 59; 214; 179; 41; 227; 47; 132;
   83; 209; 0; 237; 32; 252; 177; 91; 106; 203; 190; 57; 74; 76; 88; 207;
   208; 239; 170; 251; 67; 77; 51; 133; 69; 249; 2; 127; 80; 60; 159; 168;
   81; 163; 64; 143; 146; 157; 56; 245; 188; 182; 218; 33; 16; 255; 243; 210;
   205; 12; 19; 236; 95; 151; 68; 23; 196; 167; 126; 61; 100; 93; 25; 115;
   96; 129; 79; 220; 34; 42; 144; 136; 70; 238; 184; 20; 222; 94; 11; 219;
   224; 50; 58; 10; 73; 6; 36; 92; 194; 211; 172; 98; 145; 149; 228; 121;
   231; 200; 55; 109; 141; 213; 78; 169; 108; 86; 244; 234; 101; 122; 174; 8;
   186; 120; 37; 46; 28; 166; 180; 198; 232; 221; 116; 31; 75; 189; 139; 138;
   112; 62; 181; 102; 72; 3; 246; 14; 97; 53; 87; 185; 134; 193; 29; 158;
   225; 248; 152; 17; 105; 217; 142; 148; 155; 30; 135; 233; 206; 85; 40; 223;
   140; 161; 137; 13; 191; 230; 66; 104; 65; 153; 45; 15; 176; 84; 187; 22].

Definition sub (n : N) : N := nth (N.to_nat n) sbox 0.
Definition xtime (n : N) : N :=
  let d := N.shiftl n 1 in if N.testbit n 7 then N.lxor (N.land d 255) 0x1b else d.
Definition xors (a b : list N) : list N := zip_with N.lxor a b.

Fixpoint chunks (fuel k : nat) (l : list N) : list (list N) :=
  match fuel, l with
  | S fuel, _ :: _ => take k l :: chunks fuel k (drop k l)
  | _, _ => []
  end.

(** Key schedule: the last eight 4-byte words, most recent first. *)
Definition rot_word (w : list N) : list N := match w with a :: r => r ++ [a] | [] => [] end.
Definition next_word (i : nat) (rcon : N) (prev : list (list N)) : list N :=
  let t := default [] (head prev) in
  let t' :=
    if (i mod 8 =? 0)%nat then
      match sub <$> rot_word t with a :: r => N.lxor a rcon :: r | [] => [] end
    else if (i mod 8 =? 4)%nat then sub <$> t else t in
  xors (nth 7 prev []) t'.
Fixpoint expand (fuel i : nat) (rcon : N) (prev : list (list N)) : list (list N) :=
  match fuel with
  | O => []
  | S fuel =>
      let w := next_word i rcon prev in
      let rcon' := if (i mod 8 =? 0)%nat then xtime rcon else rcon in
      w :: expand fuel (S i) rcon' (w :: take 7 prev)
  end.
Definition round_keys (key : list N) : list (list N) :=
  let ws := chunks 8 4 key in
  let all := ws ++ expand 52 8 1 (rev ws) in
  chunks 15 16 (concat all).

(** The state is sixteen bytes, column by column. *)
Definition shift_rows (s : list N) : list N :=
  (fun i => nth i s 0) <$> [0; 5; 10; 15; 4; 9; 14; 3; 8; 13; 2; 7; 12; 1; 6; 11]%nat.
Definition mix_column (c : list N) : list N :=
  match c with
  | [a; b; c; d] =>
      let m x y := N.lxor (xtime x) (N.lxor (xtime y) y) in
      [N.lxor (m a b) (N.lxor c d); N.lxor (m b c) (N.lxor a d);
       N.lxor (m c d) (N.lxor a b); N.lxor (m d a) (N.lxor b c)]
  | _ => c
  end.
Definition mix_columns (s : list N) : list N := concat (mix_column <$> chunks 4 4 s).

Fixpoint main_rounds (s : list N) (ks : list (list N)) : list N :=
  match ks with
  | [] => s
  | [k] => xors (shift_rows (sub <$> s)) k
  | k :: ks => main_rounds (xors (mix_columns (shift_rows (sub <$> s))) k) ks
  end.
Definition encrypt_block (ks : list (list N)) (s : list N) : list N :=
  match ks with k :: ks => main_rounds (xors s k) ks | [] => s end.
End Aes.

(** ** GCM (NIST SP 800-38D) with a 12-byte nonce and a 16-byte tag *)

Module Gcm.
Definition of_bytes (l : list N) : N := fold_left (fun acc b => acc * 256 + b) l 0.
Fixpoint to_bytes (k : nat) (n : N) : list N :=
  match k with
  | O => []
  | S k => N.land (N.shiftr n (8 * N.of_nat k)) 255 :: to_bytes k n
  end.

Definition gf_r : N := N.shiftl 0xe1 120.
Fixpoint gf_mul_loop (fuel : nat) (x z v : N) : N :=
  match fuel with
  | O => z
  | S fuel =>
      let z' := if N.testbit x (N.of_nat fuel) then N.lxor z v else z in
      let v' := if N.testbit v 0 then N.lxor (N.shiftr v 1) gf_r else N.shiftr v 1 in
      gf_mul_loop fuel x z' v'
  end.
Definition gf_mul (x y : N) : N := gf_mul_loop 128 x 0 y.

Definition pad16 (l : list N) : list N :=
  l ++ repeat 0 (N.to_nat ((16 - N.of_nat (length l) mod 16) mod 16)).
Definition ghash (h : N) (l : list N) : N :=
  fold_left (fun y blk => gf_mul (N.lxor y (of_bytes blk)) h) (Aes.chunks (length l) 16 l) 0.

Definition counter_block (nonce : list N) (i : N) : list N := nonce ++ to_bytes 4 i.

(** The key stream for counters 2, 3, ... cut to [n] bytes. *)
Fixpoint stream (ks : list (list N)) (nonce : list N) (blocks : nat) (i : N) : list N :=
  match blocks with
  | O => []
  | S blocks => Aes.encrypt_block ks (counter_block nonce i) ++ stream ks nonce blocks (i + 1)
  end.
Definition key_stream (ks : list (list N)) (nonce : list N) (n : nat) : list N :=
  let raw := stream ks nonce ((n + 15) / 16) 2 in
  take n (raw ++ repeat 0 n).

Definition vals (l : bytes) : list N := byte_val <$> l.

Definition tag (ks : list (list N)) (nonce : list N) (ct : bytes) : bytes :=
  let h := of_bytes (Aes.encrypt_block ks (repeat 0 16%nat)) in
  let lens := to_bytes 8 0 ++ to_bytes 8 (8 * N.of_nat (length ct)) in
  let s := ghash h (pad16 (vals ct) ++ lens) in
  byte_of <$> to_bytes 16 (N.lxor s (of_bytes (Aes.encrypt_block ks (counter_block nonce 1)))).

Definition xor_byte (b : byte) (k : N) : byte := byte_of (N.lxor (byte_val b) k).
Definition crypt (ks : list (list N)) (nonce : list N) (l : bytes) : bytes :=
  zip_with xor_byte l (key_stream ks nonce (length l)).

(** [aead.Seal(nil, nonce, plaintext, nil)] *)
Definition seal (key nonce plaintext : bytes) : bytes :=
  let ks := Aes.round_keys (vals key) in
  let ct := crypt ks (vals nonce) plaintext in
  ct ++ tag ks (vals nonce) ct.

(** [aead.Open(nil, nonce, ciphertext, nil)] *)
Definition open (key nonce sealed : bytes) : option bytes :=
  if (length sealed <? 16)%nat then None
  else
    let ks := Aes.round_keys (vals key) in
    let n := (length sealed - 16)%nat in
    let ct := take n sealed in
    if bool_decide (drop n sealed = tag ks (vals nonce) ct)
    then Some (crypt ks (vals nonce) ct)
    else None.

Lemma to_bytes_length k n : length (to_bytes k n) = k.
Proof. induction k; cbn; congruence. Qed.

Lemma tag_length ks nonce ct : length (tag ks nonce ct) = 16%nat.
Proof. unfold tag. by rewrite length_fmap, to_bytes_length. Qed.

Lemma key_stream_length ks nonce n : length (key_stream ks nonce n) = n.
Proof. unfold key_stream. rewrite length_take, length_app, repeat_length. lia. Qed.

Lemma crypt_length ks nonce l : length (crypt ks nonce l) = length l.
Proof. unfold crypt. rewrite length_zip_with, key_stream_length. lia. Qed.

Lemma xor_byte_involutive b k : xor_byte (xor_byte b k) k = b.
Proof.
  unfold xor_byte. rewrite byte_val_of. apply byte_of_eq.
  rewrite <- (N.mod_small (byte_val b) 256) at 2 by apply byte_val_lt.
  change 256 with (2 ^ 8). apply N.bits_inj. intros i.
  destruct (N.lt_ge_cases i 8).
  - rewrite !N.mod_pow2_bits_low, N.lxor_spec, N.mod_pow2_bits_low, N.lxor_spec by done.
    by destruct (N.testbit _ i), (N.testbit k i).
  - by rewrite !N.mod_pow2_bits_high.
Qed.

Lemma zip_xor_involutive l ks : (length l <= length ks)%nat ->
  zip_with xor_byte (zip_with xor_byte l ks) ks = l.
Proof.
  revert ks. induction l as [|b l IH]; intros [|k ks]; cbn; [done..|lia|].
  intros H. by rewrite xor_byte_involutive, IH by lia.
Qed.

Lemma crypt_involutive ks nonce l : crypt ks nonce (crypt ks nonce l) = l.
Proof.
  unfold crypt at 1. rewrite crypt_length. unfold crypt.
  apply zip_xor_involutive. by rewrite key_stream_length.
Qed.

Lemma open_seal key nonce p : open key nonce (seal key nonce p) = Some p.
Proof.
  unfold open, seal. rewrite length_app, tag_length, crypt_length.
  replace (length p + 16 <? 16)%nat with false by (symmetry; apply Nat.ltb_ge; lia).
  replace (length p + 16 - 16)%nat
    with (length (crypt (Aes.round_keys (vals key)) (vals nonce) p))
    by (rewrite crypt_length; lia).
  by rewrite take_app_length, drop_app_length, bool_decide_eq_true_2, crypt_involutive.
Qed.

Lemma seal_length key nonce p : length (seal key nonce p) = (length p + 16)%nat.
Proof. unfold seal. by rewrite length_app, tag_length, crypt_length. Qed.
End Gcm.

(** NIST GCM test case 14 (256-bit key, one zero block). *)
Example gcm_test_14 :
  hex_encode (Gcm.seal (repeat Byte.x00 32) (repeat Byte.x00 12) (repeat Byte.x00 16)) =
  "cea7403d4d606b6e074ec5d3baf39d18d0d1c8a799996bf0265b98b5d48ab919"%string.
Proof. vm_compute. reflexivity. Qed.
Example gcm_test_13 :
  hex_encode (Gcm.seal (repeat Byte.x00 32) (repeat Byte.x00 12) []) =
  "530f8afbc74536b9a963b4f1c4cb738b"%string.
Proof. vm_compute. reflexivity. Qed.

(** ** The interfaces the service uses *)

(** A message authentication code: [hmac.New(sha256.New, key)] and [Sum]. *)
Class Mac := mac : bytes -> bytes -> bytes.

(** [sha256.Sum256] *)
Class Hash := hash256 : bytes -> bytes.

(** [cipher.AEAD] for a 32-byte key: [NonceSize] is 12, and what [Seal] produces
    [Open] recovers under the same key and nonce. *)
Definition nonce_size : nat := 12.
Class Aead := {
  aead_seal : bytes -> bytes -> bytes -> bytes;
  aead_open : bytes -> bytes -> bytes -> option bytes;
  aead_open_seal key nonce p :
    length key = 32%nat -> length nonce = nonce_size ->
    aead_open key nonce (aead_seal key nonce p) = Some p;
}.

Definition hmac_sha256_mac : Mac := hmac_sha256.
Definition sha256_hash : Hash := Sha256.sum256.
Definition aes_gcm : Aead := {|
  aead_seal := Gcm.seal;
  aead_open := Gcm.open;
  aead_open_seal key nonce p _ _ := Gcm.open_seal key nonce p;
|}.
