(* ===== verification/Json.v ===== *)
(** * Go's encoding/json

    The JSON values the program writes and reads (the token claims and the
    wallet state file): [json.Marshal] and [json.MarshalIndent] printing with
    Go's HTML-safe escaping, the [json.Unmarshal] scanner with its string
    unquoting, and the round trip between them. *)

From S2P Require Import Prelude GoStrings.
From Stdlib Require Import DecimalFacts DecimalN.

Local Open Scope string_scope.

(** A number keeps its literal, as [json.Number] does. *)
Inductive json : Type :=
  | JNull
  | JBool (b : bool)
  | JNum (lit : string)
  | JStr (s : string)
  | JArr (l : list json)
  | JObj (fields : list (string * json)).

Abbreviation quote := "034"%char.
Definition is_quote : ascii -> bool := byte_is 34.

(** ** UTF-8 *)

Definition cont (a : ascii) : bool := in_range 128 191 a.

(** Bytes of the encoding that starts at [a]: 0 when it is invalid. *)
Definition utf8_len (a : ascii) (r : string) : nat :=
  match r with
  | String b r1 =>
      if in_range 194 223 a then if cont b then 2 else 0
      else match r1 with
      | String c r2 =>
          if in_range 224 239 a then
            if (if byte_is 224 a then in_range 160 191 b
                else if byte_is 237 a then in_range 128 159 b else cont b) && cont c
            then 3 else 0
          else match r2 with
          | String d _ =>
              if in_range 240 244 a then
                if (if byte_is 240 a then in_range 144 191 b
                    else if byte_is 244 a then in_range 128 143 b else cont b)
                   && cont c && cont d
                then 4 else 0
              else 0
          | EmptyString => 0
          end
      | EmptyString => 0
      end
  | EmptyString => 0
  end%nat.

Definition chr (n : N) : ascii := ascii_of_N n.

Definition utf8_encode (r : N) : string :=
  (if r <? 0x80 then String (chr r) ""
   else if r <? 0x800 then
     String (chr (192 + r / 64)) (String (chr (128 + r mod 64)) "")
   else if r <? 0x10000 then
     String (chr (224 + r / 4096)) (String (chr (128 + (r / 64) mod 64))
       (String (chr (128 + r mod 64)) ""))
   else
     String (chr (240 + r / 262144)) (String (chr (128 + (r / 4096) mod 64))
       (String (chr (128 + (r / 64) mod 64)) (String (chr (128 + r mod 64)) ""))))%N.

Definition rune_error : string := utf8_encode 0xfffd.

(** ** Printing *)

Definition hex4 (n : N) : string :=
  let h k := match String.get (N.to_nat ((n / k) mod 16)) "0123456789abcdef" with
             | Some a => a | None => "0"%char end in
  String (h 4096%N) (String (h 256%N) (String (h 16%N) (String (h 1%N) ""))).

(** ASCII bytes [encodeState.string] copies as they are. *)
Definition html_safe (a : ascii) : bool :=
  in_range 32 127 a &&
  negb (is_quote a || Ascii.eqb a "\" || Ascii.eqb a "<" || Ascii.eqb a ">" || Ascii.eqb a "&").

Definition escape_ascii (a : ascii) : string :=
  if html_safe a then String a ""
  else if Ascii.eqb a "\" || is_quote a then String "\" (String a "")
  else if byte_is 8 a then "\b"
  else if byte_is 12 a then "\f"
  else if byte_is 10 a then "\n"
  else if byte_is 13 a then "\r"
  else if byte_is 9 a then "\t"
  else "\u" +:+ hex4 (ascii_val a).

Fixpoint json_escape (s : string) : string :=
  match s with
  | EmptyString => ""
  | String a r =>
      if (ascii_val a <? 128)%N then escape_ascii a +:+ json_escape r
      else match utf8_len a r, r with
      | 2, String b r1 => String a (String b (json_escape r1))
      | 3, String b (String c r2) =>
          if byte_is 226 a && byte_is 128 b && byte_is 168 c then "\u2028" +:+ json_escape r2
          else if byte_is 226 a && byte_is 128 b && byte_is 169 c then "\u2029" +:+ json_escape r2
          else String a (String b (String c (json_escape r2)))
      | 4, String b (String c (String d r3)) =>
          String a (String b (String c (String d (json_escape r3))))
      | _, _ => "\ufffd" +:+ json_escape r
      end%nat
  end.

Definition json_quote (s : string) : string := String quote (json_escape s +:+ String quote "").

(** [compact] is [json.Marshal]; [indented] is [json.MarshalIndent(v, "", "  ")]. *)
Record style := { line_break : nat -> string; colon : string }.
Definition compact : style := {| line_break := fun _ => ""; colon := ":" |}.
Fixpoint spaces (n : nat) : string := match n with O => "" | S n => "  " +:+ spaces n end.
Definition indented : style :=
  {| line_break := fun d => String (chr 10) (spaces d); colon := ": " |}.

Section print.
Context (st : style).

Fixpoint json_print (d : nat) (j : json) : string :=
  match j with
  | JNull => "null"
  | JBool true => "true"
  | JBool false => "false"
  | JNum l => l
  | JStr s => json_quote s
  | JArr [] => "[]"
  | JArr l =>
      "[" +:+ str_join "," ((fun x => line_break st (S d) +:+ json_print (S d) x) <$> l)
      +:+ line_break st d +:+ "]"
  | JObj [] => "{}"
  | JObj l =>
      "{" +:+ str_join ","
        ((fun '(k, x) => line_break st (S d) +:+ json_quote k +:+ colon st +:+ json_print (S d) x) <$> l)
      +:+ line_break st d +:+ "}"
  end.
End print.

(** ** Parsing *)

Definition json_space (a : ascii) : bool :=
  byte_is 32 a || byte_is 9 a || byte_is 10 a || byte_is 13 a.

Fixpoint skip_space (s : string) : string :=
  match s with
  | String a r => if json_space a then skip_space r else s
  | EmptyString => ""
  end.

Definition hex1 (a : ascii) : option N :=
  (if is_digit a then Some (ascii_val a - 48)
   else if in_range 97 102 a then Some (ascii_val a - 87)
   else if in_range 65 70 a then Some (ascii_val a - 55)
   else None)%N.
Definition hex4_val (a b c d : ascii) : option N :=
  w ← hex1 a; x ← hex1 b; y ← hex1 c; z ← hex1 d;
  Some (((w * 16 + x) * 16 + y) * 16 + z)%N.

Definition prepend (p : string) (x : option (string * string)) : option (string * string) :=
  '(s, r) ← x; Some (p +:+ s, r).

Definition surrogate (r : N) : bool := ((0xd800 <=? r) && (r <? 0xe000))%N.
(** A high surrogate followed by a low one. *)
Definition surrogate_pair (hi lo : N) : option N :=
  if ((0xd800 <=? hi) && (hi <? 0xdc00) && (0xdc00 <=? lo) && (lo <? 0xe000))%N
  then Some ((hi - 0xd800) * 1024 + (lo - 0xdc00) + 0x10000)%N else None.

(** The rest of a string literal after its opening quote: the unquoted content
    and what follows the closing quote. *)
Fixpoint string_body (s : string) : option (string * string) :=
  match s with
  | EmptyString => None
  | String a r =>
      if is_quote a then Some ("", r)
      else if Ascii.eqb a "\" then
        match r with
        | String e r1 =>
            if Ascii.eqb e "u" then
              match r1 with
              | String h1 (String h2 (String h3 (String h4 r2))) =>
                  match hex4_val h1 h2 h3 h4 with
                  | None => None
                  | Some u =>
                      if surrogate u then
                        match r2 with
                        | String b1 (String b2 (String g1 (String g2 (String g3 (String g4 r3))))) =>
                            match (if Ascii.eqb b1 "\" && Ascii.eqb b2 "u"
                                   then l ← hex4_val g1 g2 g3 g4; surrogate_pair u l
                                   else None) with
                            | Some full => prepend (utf8_encode full) (string_body r3)
                            | None => prepend rune_error (string_body r2)
                            end
                        | _ => prepend rune_error (string_body r2)
                        end
                      else prepend (utf8_encode u) (string_body r2)
                  end
              | _ => None
              end
            else if is_quote e || Ascii.eqb e "\" || Ascii.eqb e "/" then
              prepend (String e "") (string_body r1)
            else if Ascii.eqb e "b" then prepend (String (chr 8) "") (string_body r1)
            else if Ascii.eqb e "f" then prepend (String (chr 12) "") (string_body r1)
            else if Ascii.eqb e "n" then prepend (String (chr 10) "") (string_body r1)
            else if Ascii.eqb e "r" then prepend (String (chr 13) "") (string_body r1)
            else if Ascii.eqb e "t" then prepend (String (chr 9) "") (string_body r1)
            else None
        | EmptyString => None
        end
      else if (ascii_val a <? 32)%N then None
      else if (ascii_val a <? 128)%N then prepend (String a "") (string_body r)
      else match utf8_len a r, r with
      | 2, String b r1 => prepend (String a (String b "")) (string_body r1)
      | 3, String b (String c r2) => prepend (String a (String b (String c ""))) (string_body r2)
      | 4, String b (String c (String d r3)) =>
          prepend (String a (String b (String c (String d "")))) (string_body r3)
      | _, _ => prepend rune_error (string_body r)
      end%nat
  end.

(** The longest prefix of digits, and the rest. *)
Fixpoint span_digits (s : string) : string * string :=
  match s with
  | String a r =>
      if is_digit a then let '(ds, t) := span_digits r in (String a ds, t) else ("", s)
  | EmptyString => ("", "")
  end.

Definition no_leading_zero (ds : string) : bool :=
  match ds with
  | EmptyString => false
  | String a EmptyString => true
  | String a _ => negb (Ascii.eqb a "0")
  end.

Definition scan_int (s : string) : option (string * string) :=
  let '(ds, t) := span_digits s in
  if no_leading_zero ds then Some (ds, t) else None.
Definition scan_digits1 (s : string) : option (string * string) :=
  let '(ds, t) := span_digits s in
  match ds with EmptyString => None | _ => Some (ds, t) end.
Definition scan_frac (s : string) : option (string * string) :=
  match s with
  | String a r =>
      if Ascii.eqb a "." then '(ds, t) ← scan_digits1 r; Some (String a ds, t) else Some ("", s)
  | EmptyString => Some ("", "")
  end.
Definition scan_exp (s : string) : option (string * string) :=
  match s with
  | String a r =>
      if Ascii.eqb a "e" || Ascii.eqb a "E" then
        match r with
        | String g r1 =>
            if Ascii.eqb g "+" || Ascii.eqb g "-" then
              '(ds, t) ← scan_digits1 r1; Some (String a (String g ds), t)
            else '(ds, t) ← scan_digits1 r; Some (String a ds, t)
        | EmptyString => None
        end
      else Some ("", s)
  | EmptyString => Some ("", "")
  end.

Definition scan_number (s : string) : option (string * string) :=
  let '(sign, body) :=
    match s with
    | String a r => if Ascii.eqb a "-" then ("-", r) else ("", s)
    | EmptyString => ("", s)
    end in
  '(i, s1) ← scan_int body; '(f, s2) ← scan_frac s1; '(x, s3) ← scan_exp s2;
  Some (sign +:+ i +:+ f +:+ x, s3).

Definition expect (lit : string) (j : json) (s : string) : option (json * string) :=
  if has_prefix s lit then Some (j, str_drop (String.length lit) s) else None.

Lemma expect_app lit j rest : expect lit j (lit +:+ rest) = Some (j, rest).
Proof. unfold expect. by rewrite has_prefix_app, str_drop_app. Qed.

(** One unit of fuel per nested value or element; the length of the text is enough. *)
Fixpoint parse_value (fuel : nat) (s : string) : option (json * string) :=
  match fuel with
  | O => None
  | S fuel =>
      let s := skip_space s in
      match s with
      | EmptyString => None
      | String a r =>
          if is_quote a then '(x, t) ← string_body r; Some (JStr x, t)
          else if Ascii.eqb a "{" then
            match skip_space r with
            | String b t =>
                if Ascii.eqb b "}" then Some (JObj [], t)
                else '(l, t) ← parse_members fuel r; Some (JObj l, t)
            | EmptyString => None
            end
          else if Ascii.eqb a "[" then
            match skip_space r with
            | String b t =>
                if Ascii.eqb b "]" then Some (JArr [], t)
                else '(l, t) ← parse_elements fuel r; Some (JArr l, t)
            | EmptyString => None
            end
          else if Ascii.eqb a "t" then expect "true" (JBool true) s
          else if Ascii.eqb a "f" then expect "false" (JBool false) s
          else if Ascii.eqb a "n" then expect "null" JNull s
          else '(lit, t) ← scan_number s; Some (JNum lit, t)
      end
  end
with parse_elements (fuel : nat) (s : string) : option (list json * string) :=
  match fuel with
  | O => None
  | S fuel =>
      '(x, t) ← parse_value fuel s;
      match skip_space t with
      | String a t =>
          if Ascii.eqb a "," then '(l, u) ← parse_elements fuel t; Some (x :: l, u)
          else if Ascii.eqb a "]" then Some ([x], t) else None
      | EmptyString => None
      end
  end
with parse_members (fuel : nat) (s : string) : option (list (string * json) * string) :=
  match fuel with
  | O => None
  | S fuel =>
      match skip_space s with
      | String q r =>
          if is_quote q then
            '(k, t) ← string_body r;
            match skip_space t with
            | String c t =>
                if Ascii.eqb c ":" then
                  '(x, t) ← parse_value fuel t;
                  match skip_space t with
                  | String a t =>
                      if Ascii.eqb a "," then
                        '(l, u) ← parse_members fuel t; Some ((k, x) :: l, u)
                      else if Ascii.eqb a "}" then Some ([(k, x)], t) else None
                  | EmptyString => None
                  end
                else None
            | EmptyString => None
            end
          else None
      | EmptyString => None
      end
  end.

(** One unfolding of the list parsers. *)
Lemma parse_elements_S fuel s :
  parse_elements (S fuel) s =
    '(x, t) ← parse_value fuel s;
    match skip_space t with
    | String a t =>
        if Ascii.eqb a "," then '(l, u) ← parse_elements fuel t; Some (x :: l, u)
        else if Ascii.eqb a "]" then Some ([x], t) else None
    | EmptyString => None
    end.
Proof. reflexivity. Qed.

Lemma parse_members_S fuel s :
  parse_members (S fuel) s =
    match skip_space s with
    | String q r =>
        if is_quote q then
          '(k, t) ← string_body r;
          match skip_space t with
          | String c t =>
              if Ascii.eqb c ":" then
                '(x, t) ← parse_value fuel t;
                match skip_space t with
                | String a t =>
                    if Ascii.eqb a "," then
                      '(l, u) ← parse_members fuel t; Some ((k, x) :: l, u)
                    else if Ascii.eqb a "}" then Some ([(k, x)], t) else None
                | EmptyString => None
                end
              else None
          | EmptyString => None
          end
        else None
    | EmptyString => None
    end.
Proof. reflexivity. Qed.

Definition json_syntax_error : error := ENew "invalid character in JSON".

Definition json_parse (s : string) : result json :=
  match parse_value (2 * String.length s + 2) s with
  | Some (j, rest) => if String.eqb (skip_space rest) "" then Ok j else Err json_syntax_error
  | None => Err json_syntax_error
  end.

(** ** The round trip, for text of HTML-safe ASCII and canonical integers *)

Definition plain_str (s : string) : bool := str_forall html_safe s.

Inductive printable : json -> Prop :=
  | printable_null : printable JNull
  | printable_bool b : printable (JBool b)
  | printable_num z : printable (JNum (itoa z))
  | printable_str s : plain_str s = true -> printable (JStr s)
  | printable_arr l : Forall printable l -> printable (JArr l)
  | printable_obj l :
      Forall (fun kx => plain_str (fst kx) = true /\ printable (snd kx)) l -> printable (JObj l).

Section printable_ind.
Context (P : json -> Prop)
  (HN : P JNull) (HB : forall b, P (JBool b)) (HZ : forall z, P (JNum (itoa z)))
  (HS : forall s, plain_str s = true -> P (JStr s))
  (HA : forall l, Forall P l -> P (JArr l))
  (HO : forall l, Forall (fun kx => plain_str (fst kx) = true /\ P (snd kx)) l -> P (JObj l)).

Fixpoint printable_rect' j (H : printable j) {struct H} : P j.
Proof.
  destruct H as [|b|z|s Hs|l Hl|l Hl].
  - exact HN.
  - apply HB.
  - apply HZ.
  - by apply HS.
  - apply HA. induction Hl as [|x l Hx Hl IH]; constructor; [|done].
    by apply printable_rect'.
  - apply HO. induction Hl as [|x l [Hk Hx] Hl IH]; constructor; [|done].
    split; [done|]. by apply printable_rect'.
Qed.
End printable_ind.

(** Fuel a value needs. *)
Fixpoint json_size (j : json) : nat :=
  match j with
  | JArr l => S (sum_list ((fun x => S (json_size x)) <$> l))
  | JObj l => S (sum_list ((fun '(_, x) => S (json_size x)) <$> l))
  | _ => 1
  end.

Definition all_space (s : string) : bool := str_forall json_space s.

(** Text a number literal cannot run into. *)
Definition num_end (s : string) : bool :=
  match s with
  | EmptyString => true
  | String a _ =>
      negb (is_digit a || Ascii.eqb a "." || Ascii.eqb a "e" || Ascii.eqb a "E")
  end.

Lemma skip_space_app w s : all_space w = true -> skip_space (w +:+ s) = skip_space s.
Proof.
  induction w as [|a w IH]; cbn; [done|]. intros [Ha Hw]%andb_true_iff. by rewrite Ha, IH.
Qed.

Lemma skip_space_idem s : skip_space (skip_space s) = skip_space s.
Proof.
  induction s as [|a s IH]; cbn; [done|]. destruct (json_space a) eqn:E; [done|].
  cbn. by rewrite E.
Qed.

Lemma skip_space_nonspace a s : json_space a = false -> skip_space (String a s) = String a s.
Proof. cbn. by intros ->. Qed.

Lemma parse_value_skip fuel s t :
  skip_space s = skip_space t -> parse_value fuel s = parse_value fuel t.
Proof. intros H. destruct fuel as [|fuel]; [done|]. cbn. by rewrite H. Qed.

Lemma html_safe_facts a : html_safe a = true ->
  is_quote a = false /\ Ascii.eqb a "\" = false /\
  (ascii_val a <? 32)%N = false /\ (ascii_val a <? 128)%N = true.
Proof.
  unfold html_safe, in_range, is_quote, byte_is.
  intros [[H1 H2]%andb_true_iff H3]%andb_true_iff. apply negb_true_iff in H3.
  repeat apply orb_false_iff in H3 as [H3 ?].
  apply N.leb_le in H1, H2. split; [done|split; [done|]].
  split; [apply N.ltb_ge | apply N.ltb_lt]; lia.
Qed.

Lemma json_escape_plain s : plain_str s = true -> json_escape s = s.
Proof.
  induction s as [|a s IH]; cbn; [done|]. intros [Ha Hs]%andb_true_iff.
  destruct (html_safe_facts a Ha) as (_ & _ & _ & ->).
  unfold escape_ascii. rewrite Ha. cbn. by rewrite IH.
Qed.

Lemma string_body_plain s rest : plain_str s = true ->
  string_body (s +:+ String quote rest) = Some (s, rest).
Proof.
  induction s as [|a s IH]; cbn; [done|]. intros [Ha Hs]%andb_true_iff.
  destruct (html_safe_facts a Ha) as (-> & -> & -> & ->). by rewrite IH.
Qed.

Lemma span_digits_app ds rest :
  str_forall is_digit ds = true -> num_end rest = true ->
  span_digits (ds +:+ rest) = (ds, rest).
Proof.
  intros Hd Hr. induction ds as [|a ds IH]; cbn in *.
  - destruct rest as [|b rest]; cbn in *; [done|]. by destruct (is_digit b).
  - apply andb_true_iff in Hd as [-> Hd]. by rewrite IH.
Qed.

Lemma itoa_N_no_leading_zero n : no_leading_zero (itoa_N n) = true.
Proof.
  unfold itoa_N. rewrite nil_zero_empty by apply to_uint_nonnil.
  pose proof (Unsigned.to_of (N.to_uint n)) as E. rewrite Unsigned.of_to in E.
  rewrite E. unfold Decimal.unorm.
  assert (Hz : forall d, match Decimal.nzhead d with Decimal.D0 _ => False | _ => True end).
  { intros d. by induction d. }
  specialize (Hz (N.to_uint n)).
  destruct (Decimal.nzhead (N.to_uint n)) as [|d|d|d|d|d|d|d|d|d|d]; try done;
    by destruct d.
Qed.

Lemma scan_frac_end s : num_end s = true -> scan_frac s = Some ("", s).
Proof.
  destruct s as [|a s]; cbn; [done|]. by destruct (is_digit a), (Ascii.eqb a ".").
Qed.

Lemma scan_exp_end s : num_end s = true -> scan_exp s = Some ("", s).
Proof.
  destruct s as [|a s]; cbn; [done|].
  by destruct (is_digit a), (Ascii.eqb a "."), (Ascii.eqb a "e"), (Ascii.eqb a "E").
Qed.

Lemma scan_int_itoa n rest : num_end rest = true ->
  scan_int (itoa_N n +:+ rest) = Some (itoa_N n, rest).
Proof.
  intros H. unfold scan_int. rewrite span_digits_app by (done || apply itoa_N_digits).
  by rewrite itoa_N_no_leading_zero.
Qed.

Lemma scan_number_itoa z rest : num_end rest = true ->
  scan_number (itoa z +:+ rest) = Some (itoa z, rest).
Proof.
  intros H. unfold scan_number.
  assert (Hn : forall n, match itoa_N n +:+ rest with
      | String a r => if Ascii.eqb a "-" then ("-", r) else ("", itoa_N n +:+ rest)
      | EmptyString => ("", itoa_N n +:+ rest)
      end = ("", itoa_N n +:+ rest)).
  { intros n. destruct (itoa_N_first n) as (a & r & E & Ha). rewrite E. cbn.
    destruct (Ascii.eqb a "-") eqn:Ea; [|done]. by apply Ascii.eqb_eq in Ea as ->. }
  assert (Hb : forall n sign, ('(i, s1) ← scan_int (itoa_N n +:+ rest); '(f, s2) ← scan_frac s1;
      '(x, s3) ← scan_exp s2; Some (sign +:+ i +:+ f +:+ x, s3)) = Some (sign +:+ itoa_N n, rest)).
  { intros n sign. rewrite scan_int_itoa by done. cbn -[itoa_N].
    rewrite scan_frac_end by done. cbn -[itoa_N]. rewrite scan_exp_end by done.
    cbn -[itoa_N]. by rewrite app_str_nil_r. }
  destruct z as [|p|p].
  - change (itoa 0) with (itoa_N 0). rewrite Hn. apply (Hb 0%N "").
  - change (itoa (Zpos p)) with (itoa_N (Npos p)). rewrite Hn. apply (Hb (Npos p) "").
  - apply (Hb (Npos p) "-").
Qed.

Section round_trip.
Context (st : style).
Context (Hbreak : forall d, all_space (line_break st d) = true).
Context (w : string) (Hcolon : colon st = String ":" w) (Hw : all_space w = true).

Definition parses (j : json) : Prop := forall fuel d rest,
  (json_size j <= fuel)%nat -> num_end rest = true ->
  parse_value fuel (json_print st d j +:+ rest) = Some (j, rest).

Lemma num_end_break d c rest : num_end (String c "") = true ->
  num_end (line_break st d +:+ String c rest) = true.
Proof.
  intros H. pose proof (Hbreak d) as Hb. unfold all_space in Hb.
  destruct (line_break st d) as [|a s]; [done|]. cbn in *.
  apply andb_true_iff in Hb as [Ha _]. unfold json_space, byte_is in Ha.
  repeat apply orb_true_iff in Ha as [Ha|Ha]; apply N.eqb_eq in Ha;
    unfold ascii_val in Ha; rewrite <- (ascii_N_embedding a), Ha; done.
Qed.

Lemma parse_value_break fuel d s : parse_value fuel (line_break st d +:+ s) = parse_value fuel s.
Proof. apply parse_value_skip, skip_space_app, Hbreak. Qed.

Definition element (d : nat) (x : json) : string := line_break st d +:+ json_print st d x.
Definition member (d : nat) (kx : string * json) : string :=
  line_break st d +:+ json_quote (fst kx) +:+ colon st +:+ json_print st d (snd kx).

Lemma parse_elements_comma fuel s x t l u :
  parse_value fuel s = Some (x, String "," t) -> parse_elements fuel t = Some (l, u) ->
  parse_elements (S fuel) s = Some (x :: l, u).
Proof. intros H1 H2. rewrite parse_elements_S, H1. cbn [mbind option_bind].
  rewrite ?skip_space_nonspace by done. by rewrite H2.
Qed.

Lemma parse_elements_last fuel s x t u :
  parse_value fuel s = Some (x, t) -> skip_space t = String "]" u ->
  parse_elements (S fuel) s = Some ([x], u).
Proof. intros H1 H2. rewrite parse_elements_S, H1. cbn [mbind option_bind].
  rewrite ?skip_space_nonspace by done. by rewrite H2.
Qed.

Lemma parse_elements_print l fuel d rest :
  l <> [] -> Forall parses l -> (sum_list ((fun x => S (json_size x)) <$> l) <= fuel)%nat ->
  parse_elements fuel (str_join "," (element (S d) <$> l) +:+ line_break st d +:+ String "]" rest)
  = Some (l, rest).
Proof.
  intros Hl HF. revert fuel. induction HF as [|x l Hx HF IH]; intros fuel Hf; [done|].
  destruct fuel as [|fuel]; [cbn in Hf; lia|]. cbn in Hf.
  destruct l as [|y l].
  - cbn [fmap list_fmap str_join]. unfold element. eapply parse_elements_last.
    + rewrite <- app_str_assoc, parse_value_break, Hx; [done|lia|by apply num_end_break].
    + by rewrite skip_space_app by apply Hbreak.
  - change (str_join "," (element (S d) <$> x :: y :: l))
      with (element (S d) x +:+ String "," (str_join "," (element (S d) <$> y :: l))).
    unfold element at 1. rewrite <- !app_str_assoc. eapply parse_elements_comma.
    + rewrite parse_value_break. by apply Hx; [lia|].
    + apply IH; [done|]. cbn in *. lia.
Qed.

Lemma skip_colon s : skip_space (colon st +:+ s) = String ":" (w +:+ s).
Proof. by rewrite Hcolon. Qed.

Lemma json_quote_app k s : plain_str k = true ->
  json_quote k +:+ s = String quote (k +:+ String quote s).
Proof.
  intros Hk. unfold json_quote. rewrite json_escape_plain by done. cbn.
  by rewrite <- app_str_assoc.
Qed.

(** One member, up to the character that follows its value. *)
Definition member_tail (fuel : nat) (k : string) (x : json) (t : string) :
    option (list (string * json) * string) :=
  match skip_space t with
  | String a t =>
      if Ascii.eqb a "," then '(l, u) ← parse_members fuel t; Some ((k, x) :: l, u)
      else if Ascii.eqb a "}" then Some ([(k, x)], t) else None
  | EmptyString => None
  end.

Lemma parse_members_step fuel d kx rest :
  plain_str (fst kx) = true -> parses (snd kx) -> (json_size (snd kx) <= fuel)%nat ->
  num_end rest = true ->
  parse_members (S fuel) (member d kx +:+ rest) = member_tail fuel (fst kx) (snd kx) rest.
Proof.
  destruct kx as [k x]. cbn [fst snd]. intros Hk Hx Hf Hr. unfold member. cbn [fst snd].
  rewrite <- !app_str_assoc, json_quote_app by done. rewrite parse_members_S.
  rewrite skip_space_app by apply Hbreak. rewrite skip_space_nonspace by done.
  change (is_quote quote) with true. cbv iota.
  rewrite string_body_plain by done. cbn [mbind option_bind]. rewrite skip_colon.
  change (Ascii.eqb ":" ":") with true. cbv iota.
  rewrite (parse_value_skip _ (w +:+ _) (json_print st d x +:+ rest)) by by apply skip_space_app.
  by rewrite Hx.
Qed.

Lemma parse_members_print l fuel d rest :
  l <> [] -> Forall (fun kx => plain_str (fst kx) = true /\ parses (snd kx)) l ->
  (sum_list ((fun '(_, x) => S (json_size x)) <$> l) <= fuel)%nat ->
  parse_members fuel (str_join "," (member (S d) <$> l) +:+ line_break st d +:+ String "}" rest)
  = Some (l, rest).
Proof.
  intros Hl HF. revert fuel. induction HF as [|[k x] l [Hk Hx] HF IH]; intros fuel Hf; [done|].
  destruct fuel as [|fuel]; [cbn in Hf; lia|]. cbn in Hf, Hk, Hx.
  destruct l as [|y l].
  - cbn [fmap list_fmap str_join].
    rewrite parse_members_step; [|done|done|cbn; lia|by apply num_end_break].
    unfold member_tail. by rewrite skip_space_app by apply Hbreak.
  - change (str_join "," (member (S d) <$> (k, x) :: y :: l))
      with (member (S d) (k, x) +:+ String "," (str_join "," (member (S d) <$> y :: l))).
    rewrite <- app_str_assoc, app_str_cons. rewrite parse_members_step; [|done|done|cbn; lia|done].
    unfold member_tail. rewrite skip_space_nonspace by done.
    assert (E : parse_members fuel (str_join "," (member (S d) <$> y :: l) +:+
                line_break st d +:+ String "}" rest) = Some (y :: l, rest)).
    { apply IH; [done|]. cbn in *. lia. }
    by rewrite E.
Qed.

Lemma print_arr d l rest : l <> [] ->
  json_print st d (JArr l) +:+ rest =
  String "[" (str_join "," (element (S d) <$> l) +:+ line_break st d +:+ String "]" rest).
Proof.
  intros Hl. destruct l as [|x l]; [done|].
  change (json_print st d (JArr (x :: l)))
    with (String "[" (str_join "," (element (S d) <$> x :: l) +:+ line_break st d +:+ "]")).
  by rewrite app_str_cons, <- !app_str_assoc.
Qed.

Lemma print_obj d l rest : l <> [] ->
  json_print st d (JObj l) +:+ rest =
  String "{" (str_join "," (member (S d) <$> l) +:+ line_break st d +:+ String "}" rest).
Proof.
  intros Hl. destruct l as [|x l]; [done|].
  assert (E : json_print st d (JObj (x :: l)) =
    String "{" (str_join "," (member (S d) <$> x :: l) +:+ line_break st d +:+ "}")).
  { cbn [json_print]. by rewrite (list_fmap_ext _ (member (S d)) (x :: l)) by by intros ? []. }
  by rewrite E, app_str_cons, <- !app_str_assoc.
Qed.

Lemma parse_value_quote fuel r :
  parse_value (S fuel) (String quote r) = '(x, t) ← string_body r; Some (JStr x, t).
Proof. reflexivity. Qed.

(** What a non-empty list or object cannot begin with. *)
Definition opens_with (c : ascii) (s : string) : Prop :=
  exists a t, skip_space s = String a t /\ Ascii.eqb a c = false.

Lemma parse_value_bracket fuel r : opens_with "]" r ->
  parse_value (S fuel) (String "[" r) = '(l, t) ← parse_elements fuel r; Some (JArr l, t).
Proof.
  intros (a & t & E & Ha).
  change (parse_value (S fuel) (String "[" r)) with
    (match skip_space r with
     | String b t => if Ascii.eqb b "]" then Some (JArr [], t)
                     else '(l, t) ← parse_elements fuel r; Some (JArr l, t)
     | EmptyString => None
     end).
  by rewrite E, Ha.
Qed.

Lemma parse_value_brace fuel r : opens_with "}" r ->
  parse_value (S fuel) (String "{" r) = '(l, t) ← parse_members fuel r; Some (JObj l, t).
Proof.
  intros (a & t & E & Ha).
  change (parse_value (S fuel) (String "{" r)) with
    (match skip_space r with
     | String b t => if Ascii.eqb b "}" then Some (JObj [], t)
                     else '(l, t) ← parse_members fuel r; Some (JObj l, t)
     | EmptyString => None
     end).
  by rewrite E, Ha.
Qed.

Definition starts (j : json) : Prop := forall d, exists a r,
  json_print st d j = String a r /\ json_space a = false /\ Ascii.eqb a "]" = false.

Lemma itoa_first z : exists a r, itoa z = String a r /\ (is_digit a = true \/ a = "-"%char).
Proof.
  destruct z as [|p|p].
  - by exists "0"%char, ""; split; [|left].
  - destruct (itoa_N_first (Npos p)) as (a & r & Ea & Ha). exists a, r. by split; [|left].
  - exists "-"%char, (itoa_N (Npos p)). by split; [|right].
Qed.

Lemma digit_facts a : is_digit a = true \/ a = "-"%char ->
  json_space a = false /\ is_quote a = false /\ Ascii.eqb a "{" = false /\
  Ascii.eqb a "[" = false /\ Ascii.eqb a "t" = false /\ Ascii.eqb a "f" = false /\
  Ascii.eqb a "n" = false /\ Ascii.eqb a "]" = false.
Proof.
  intros [Ha|Ha]; [|by subst].
  unfold is_digit, in_range in Ha. apply andb_true_iff in Ha as [H1%N.leb_le H2%N.leb_le].
  unfold json_space, is_quote, byte_is, ascii_val in *.
  rewrite !orb_false_iff, !N.eqb_neq, !Ascii.eqb_neq.
  repeat split; try lia; intros ->; cbn in *; lia.
Qed.

Lemma printable_starts j : printable j -> starts j.
Proof.
  intros H d. destruct H as [|[]|z|s|[|x l]|[|kx l]]; try by eexists _, _.
  destruct (itoa_first z) as (a & r & E & Ha).
  exists a, r. destruct (digit_facts a Ha) as (? & _ & _ & _ & _ & _ & _ & ?). done.
Qed.

Lemma str_join_first sep h t : exists u, str_join sep (h :: t) = h +:+ u.
Proof. destruct t as [|x t]; [by exists ""; rewrite app_str_nil_r | by eexists]. Qed.

Lemma element_first d x l s : starts x -> opens_with "]" (str_join "," (element d <$> x :: l) +:+ s).
Proof.
  intros Hx. rewrite fmap_cons. destruct (str_join_first "," (element d x) (element d <$> l)) as [u ->].
  destruct (Hx d) as (a & r & E & Hs & Ha). exists a, (r +:+ u +:+ s). split; [|done].
  unfold element. rewrite <- !app_str_assoc, skip_space_app, E by apply Hbreak.
  by rewrite app_str_cons, skip_space_nonspace.
Qed.

Lemma member_first d kx l s : opens_with "}" (str_join "," (member d <$> kx :: l) +:+ s).
Proof.
  rewrite fmap_cons. destruct (str_join_first "," (member d kx) (member d <$> l)) as [u ->].
  eexists quote, _. split; [|done]. unfold member, json_quote.
  rewrite <- !app_str_assoc, skip_space_app by apply Hbreak.
  by rewrite app_str_cons, skip_space_nonspace.
Qed.

Lemma parse_num fuel z rest : num_end rest = true ->
  parse_value (S fuel) (itoa z +:+ rest) = Some (JNum (itoa z), rest).
Proof.
  intros Hr. pose proof (scan_number_itoa z rest Hr) as E.
  destruct (itoa_first z) as (a & r & Ea & Ha). rewrite Ea, app_str_cons in *. cbn [parse_value].
  destruct (digit_facts a Ha) as (Hs & Q & H1 & H2 & H3 & H4 & H5 & _).
  rewrite skip_space_nonspace by done. by rewrite Q, H1, H2, H3, H4, H5, E.
Qed.

Lemma printable_parses j : printable j -> printable j /\ parses j.
Proof.
  intros H.
  induction H as [|b|z|s Hs|l IH|l IH] using printable_rect'.
  - split; [constructor|]. intros [|fuel] d rest Hf Hr; [cbn in Hf; lia|].
    exact (expect_app "null" JNull rest).
  - split; [constructor|]. intros [|fuel] d rest Hf Hr; [cbn in Hf; lia|].
    destruct b; [exact (expect_app "true" _ rest) | exact (expect_app "false" _ rest)].
  - split; [constructor|]. intros [|fuel] d rest Hf Hr; [cbn in Hf; lia|].
    by apply parse_num.
  - split; [by constructor|]. intros [|fuel] d rest Hf Hr; [cbn in Hf; lia|].
    cbn [json_print]. rewrite json_quote_app by done.
    rewrite parse_value_quote. by rewrite string_body_plain.
  - assert (Forall printable l /\ Forall parses l) as [Hp Hq] by (by apply Forall_and).
    split; [by constructor|]. intros [|fuel] d rest Hf Hr; [cbn in Hf; lia|].
    destruct l as [|x l]; [reflexivity|]. rewrite print_arr by done.
    inversion Hp; subst. rewrite parse_value_bracket by by apply element_first, printable_starts.
    rewrite (parse_elements_print (x :: l)); [done|done|done|cbn in *; lia].
  - assert (Hp : Forall (fun kx => plain_str (fst kx) = true /\ printable (snd kx)) l)
      by (eapply Forall_impl; [exact IH|]; naive_solver).
    assert (Hq : Forall (fun kx => plain_str (fst kx) = true /\ parses (snd kx)) l)
      by (eapply Forall_impl; [exact IH|]; naive_solver).
    split; [by constructor|]. intros [|fuel] d rest Hf Hr; [cbn in Hf; lia|].
    destruct l as [|kx l]; [reflexivity|]. rewrite print_obj by done.
    rewrite parse_value_brace by apply member_first.
    rewrite (parse_members_print (kx :: l)); [done|done|done|cbn in *; lia].
Qed.

(** The text is long enough for the fuel [json_parse] gives itself. *)
Lemma str_join_length parts :
  (sum_list (String.length <$> parts) <= String.length (str_join "," parts))%nat.
Proof.
  induction parts as [|p parts IH]; [done|]. destruct parts as [|q parts].
  - cbn. lia.
  - change (str_join "," (p :: q :: parts)) with (p +:+ "," +:+ str_join "," (q :: parts)).
    rewrite !length_app_str. cbn in *. lia.
Qed.

Lemma sum_list_le {A} (f g : A -> nat) l :
  Forall (fun x => f x <= g x)%nat l -> (sum_list (f <$> l) <= sum_list (g <$> l))%nat.
Proof. induction 1; cbn; lia. Qed.

Lemma sum_list_double l : sum_list ((fun n => 2 * n)%nat <$> l) = (2 * sum_list l)%nat.
Proof. induction l; cbn in *; lia. Qed.

Lemma json_size_print j : printable j ->
  forall d, (json_size j < 2 * String.length (json_print st d j))%nat.
Proof.
  induction 1 as [|[]|z|s Hs|l IH|l IH] using printable_rect'; intros d; cbn [json_size];
    try (cbn; lia).
  - destruct (itoa_first z) as (a & r & E & _). cbn. rewrite E. cbn. lia.
  - destruct l as [|x l]; [cbn; lia|].
    pose proof (print_arr d (x :: l) "" ltac:(done)) as E. rewrite app_str_nil_r in E. rewrite E.
    cbn [String.length]. rewrite length_app_str.
    pose proof (str_join_length (element (S d) <$> x :: l)).
    assert (sum_list ((fun x => S (json_size x)) <$> x :: l) <=
            2 * sum_list (String.length <$> (element (S d) <$> x :: l)))%nat; [|lia].
    rewrite <- sum_list_double, <- !list_fmap_compose. apply sum_list_le.
    eapply Forall_impl; [exact IH|]. intros y Hy. cbn. unfold element.
    rewrite length_app_str. specialize (Hy (S d)). lia.
  - destruct l as [|x l]; [cbn; lia|].
    pose proof (print_obj d (x :: l) "" ltac:(done)) as E. rewrite app_str_nil_r in E. rewrite E.
    cbn [String.length]. rewrite length_app_str.
    pose proof (str_join_length (member (S d) <$> x :: l)).
    assert (sum_list ((fun '(_, x) => S (json_size x)) <$> x :: l) <=
            2 * sum_list (String.length <$> (member (S d) <$> x :: l)))%nat; [|lia].
    rewrite <- sum_list_double, <- !list_fmap_compose. apply sum_list_le.
    eapply Forall_impl; [exact IH|]. intros [k y] [_ Hy]. cbn. unfold member.
    rewrite !length_app_str. cbn in Hy. specialize (Hy (S d)). cbn [snd]. lia.
Qed.

Lemma json_parse_print d j : printable j -> json_parse (json_print st d j) = Ok j.
Proof.
  intros H. unfold json_parse. destruct (printable_parses j H) as [_ Hp].
  pose proof (json_size_print j H d).
  specialize (Hp (2 * String.length (json_print st d j) + 2)%nat d "" ltac:(lia) eq_refl).
  rewrite app_str_nil_r in Hp. by rewrite Hp.
Qed.
End round_trip.

Lemma json_parse_compact j : printable j -> json_parse (json_print compact 0 j) = Ok j.
Proof. by apply (json_parse_print compact ltac:(done) "" eq_refl eq_refl). Qed.

Lemma spaces_space n : all_space (spaces n) = true.
Proof. induction n; [done|]. cbn. exact IHn. Qed.

Lemma json_parse_indented j : printable j -> json_parse (json_print indented 0 j) = Ok j.
Proof.
  apply (json_parse_print indented) with (w := " "); [|done|done].
  intros d. apply spaces_space.
Qed.
