(* ===== verification/Proto.v ===== *)
(** * The gRPC contract

    The messages of gen/bsvms/v1/bsvms.pb.go (module [pb], one record per
    message, fields in the order of the generated struct; [int32], [int64] and
    [uint32] are [Z], a message pointer is an [option]), the reflective view
    of a request that internal/service/auth.go reads, and the service
    descriptor of gen/bsvms/v1/bsvms_grpc.pb.go: the methods, their request
    and response types, and which of them stream. *)

From S2P Require Import Prelude GoStrings.
From Corelib Require Import SpecFloat.

Module pb.
Record StatusRequest : Type := MkStatusRequest {}.
Record StatusResponse : Type := MkStatusResponse {
  StatusResponse_Network : string;
  StatusResponse_ChainHeight : Z;
  StatusResponse_BestPeerHeight : Z;
  StatusResponse_PeerCount : Z;
  StatusResponse_DataDir : string;
  StatusResponse_PeerHeights : gmap string Z;
  StatusResponse_CoinbaseMaturity : Z }.
Record AuthTokens : Type := MkAuthTokens {
  AuthTokens_AccessToken : string;
  AuthTokens_RefreshToken : string;
  AuthTokens_TokenType : string;
  AuthTokens_ExpiresAt : string;
  AuthTokens_TenantId : string;
  AuthTokens_WalletId : string }.
Record RefreshTokenRequest : Type := MkRefreshTokenRequest {
  RefreshTokenRequest_RefreshToken : string }.
Record ConnectPeerRequest : Type := MkConnectPeerRequest {
  ConnectPeerRequest_Address : string }.
Record ConnectPeerResponse : Type := MkConnectPeerResponse {}.
Record TenantWallet : Type := MkTenantWallet {
  TenantWallet_TenantId : string;
  TenantWallet_WalletId : string }.
Record Wallet : Type := MkWallet {
  Wallet_TenantId : string;
  Wallet_WalletId : string;
  Wallet_Addresses : list string;
  Wallet_BalanceSatoshis : Z;
  Wallet_BalanceBsv : spec_float;
  Wallet_NextExternalIndex : Z;
  Wallet_NextChangeIndex : Z;
  Wallet_Selector : string;
  Wallet_SpendableSatoshis : Z;
  Wallet_ImmatureSatoshis : Z }.
Record ListWalletsRequest : Type := MkListWalletsRequest {
  ListWalletsRequest_TenantId : string }.
Record ListWalletsResponse : Type := MkListWalletsResponse {
  ListWalletsResponse_Wallets : list Wallet }.
Record CreateWalletRequest : Type := MkCreateWalletRequest {
  CreateWalletRequest_TenantId : string;
  CreateWalletRequest_WalletId : string }.
Record CreateWalletResponse : Type := MkCreateWalletResponse {
  CreateWalletResponse_Wallet : option Wallet;
  CreateWalletResponse_Mnemonic : string;
  CreateWalletResponse_Tokens : option AuthTokens }.
Record RestoreWalletRequest : Type := MkRestoreWalletRequest {
  RestoreWalletRequest_TenantId : string;
  RestoreWalletRequest_WalletId : string;
  RestoreWalletRequest_Mnemonic : string;
  RestoreWalletRequest_Passphrase : string }.
Record WalletResponse : Type := MkWalletResponse {
  WalletResponse_Wallet : option Wallet;
  WalletResponse_Tokens : option AuthTokens }.
Record GetWalletRequest : Type := MkGetWalletRequest {
  GetWalletRequest_TenantId : string;
  GetWalletRequest_WalletId : string }.
Record NewAddressRequest : Type := MkNewAddressRequest {
  NewAddressRequest_TenantId : string;
  NewAddressRequest_WalletId : string }.
Record DerivedAddress : Type := MkDerivedAddress {
  DerivedAddress_Address : string;
  DerivedAddress_Path : string;
  DerivedAddress_PubKey : bytes;
  DerivedAddress_Script : bytes;
  DerivedAddress_Branch : Z;
  DerivedAddress_Index : Z }.
Record AddressResponse : Type := MkAddressResponse {
  AddressResponse_Address : option DerivedAddress }.
Record BatchNewAddressesRequest : Type := MkBatchNewAddressesRequest {
  BatchNewAddressesRequest_TenantId : string;
  BatchNewAddressesRequest_WalletId : string;
  BatchNewAddressesRequest_Count : Z }.
Record BatchNewAddressesResponse : Type := MkBatchNewAddressesResponse {
  BatchNewAddressesResponse_Addresses : list DerivedAddress }.
Record DeriveAtRequest : Type := MkDeriveAtRequest {
  DeriveAtRequest_TenantId : string;
  DeriveAtRequest_WalletId : string;
  DeriveAtRequest_Branch : Z;
  DeriveAtRequest_Index : Z }.
Record PubKeyAtRequest : Type := MkPubKeyAtRequest {
  PubKeyAtRequest_TenantId : string;
  PubKeyAtRequest_WalletId : string;
  PubKeyAtRequest_Branch : Z;
  PubKeyAtRequest_Index : Z }.
Record PubKeyAtResponse : Type := MkPubKeyAtResponse {
  PubKeyAtResponse_PubKey : bytes;
  PubKeyAtResponse_Address : string }.
Record SignHashAtRequest : Type := MkSignHashAtRequest {
  SignHashAtRequest_TenantId : string;
  SignHashAtRequest_WalletId : string;
  SignHashAtRequest_Branch : Z;
  SignHashAtRequest_Index : Z;
  SignHashAtRequest_Hash : bytes }.
Record SignHashAtResponse : Type := MkSignHashAtResponse {
  SignHashAtResponse_Signature : bytes;
  SignHashAtResponse_PubKey : bytes }.
Record NextIndexRequest : Type := MkNextIndexRequest {
  NextIndexRequest_TenantId : string;
  NextIndexRequest_WalletId : string;
  NextIndexRequest_Branch : Z }.
Record NextIndexResponse : Type := MkNextIndexResponse {
  NextIndexResponse_NextIndex : Z }.
Record BalanceRequest : Type := MkBalanceRequest {
  BalanceRequest_TenantId : string;
  BalanceRequest_WalletId : string }.
Record BalanceResponse : Type := MkBalanceResponse {
  BalanceResponse_Satoshis : Z;
  BalanceResponse_Bsv : spec_float;
  BalanceResponse_Spendable : Z;
  BalanceResponse_Immature : Z }.
Record UTXO : Type := MkUTXO {
  UTXO_Txid : string;
  UTXO_Vout : Z;
  UTXO_Value : Z;
  UTXO_Script : bytes;
  UTXO_Height : Z;
  UTXO_IsCoinbase : bool }.
Record ListUTXOsRequest : Type := MkListUTXOsRequest {
  ListUTXOsRequest_TenantId : string;
  ListUTXOsRequest_WalletId : string }.
Record ListUTXOsResponse : Type := MkListUTXOsResponse {
  ListUTXOsResponse_Utxos : list UTXO }.
Record ImportUTXORequest : Type := MkImportUTXORequest {
  ImportUTXORequest_TenantId : string;
  ImportUTXORequest_WalletId : string;
  ImportUTXORequest_Txid : string;
  ImportUTXORequest_Vout : Z;
  ImportUTXORequest_Value : Z;
  ImportUTXORequest_Script : bytes;
  ImportUTXORequest_Height : Z;
  ImportUTXORequest_Force : bool;
  ImportUTXORequest_IsCoinbase : bool }.
Record ImportUTXOResponse : Type := MkImportUTXOResponse {}.
Record ProcessRawTxRequest : Type := MkProcessRawTxRequest {
  ProcessRawTxRequest_TenantId : string;
  ProcessRawTxRequest_WalletId : string;
  ProcessRawTxRequest_RawTx : bytes;
  ProcessRawTxRequest_Height : Z }.
Record ProcessRawTxResponse : Type := MkProcessRawTxResponse {}.
Record ClearUTXOsRequest : Type := MkClearUTXOsRequest {
  ClearUTXOsRequest_TenantId : string;
  ClearUTXOsRequest_WalletId : string }.
Record ClearUTXOsResponse : Type := MkClearUTXOsResponse {
  ClearUTXOsResponse_Cleared : Z }.
Record ReloadFromStoreRequest : Type := MkReloadFromStoreRequest {
  ReloadFromStoreRequest_TenantId : string;
  ReloadFromStoreRequest_WalletId : string }.
Record ReloadFromStoreResponse : Type := MkReloadFromStoreResponse {
  ReloadFromStoreResponse_Loaded : Z }.
Record WipeWalletRequest : Type := MkWipeWalletRequest {
  WipeWalletRequest_TenantId : string;
  WipeWalletRequest_WalletId : string }.
Record WipeWalletResponse : Type := MkWipeWalletResponse {
  WipeWalletResponse_Removed : Z }.
Record PruneUnknownUTXOsRequest : Type := MkPruneUnknownUTXOsRequest {
  PruneUnknownUTXOsRequest_TenantId : string;
  PruneUnknownUTXOsRequest_WalletId : string }.
Record PruneUnknownUTXOsResponse : Type := MkPruneUnknownUTXOsResponse {
  PruneUnknownUTXOsResponse_Removed : Z }.
Record IgnoreOutpointRequest : Type := MkIgnoreOutpointRequest {
  IgnoreOutpointRequest_TenantId : string;
  IgnoreOutpointRequest_WalletId : string;
  IgnoreOutpointRequest_Txid : string;
  IgnoreOutpointRequest_Vout : Z;
  IgnoreOutpointRequest_Unignore : bool }.
Record IgnoreOutpointResponse : Type := MkIgnoreOutpointResponse {}.
Record IsOutpointIgnoredRequest : Type := MkIsOutpointIgnoredRequest {
  IsOutpointIgnoredRequest_TenantId : string;
  IsOutpointIgnoredRequest_WalletId : string;
  IsOutpointIgnoredRequest_Txid : string;
  IsOutpointIgnoredRequest_Vout : Z }.
Record IsOutpointIgnoredResponse : Type := MkIsOutpointIgnoredResponse {
  IsOutpointIgnoredResponse_Ignored : bool }.
Record UntrackUTXORequest : Type := MkUntrackUTXORequest {
  UntrackUTXORequest_TenantId : string;
  UntrackUTXORequest_WalletId : string;
  UntrackUTXORequest_Txid : string;
  UntrackUTXORequest_Vout : Z }.
Record UntrackUTXOResponse : Type := MkUntrackUTXOResponse {
  UntrackUTXOResponse_RemovedValue : Z }.
Record CanCoverRequest : Type := MkCanCoverRequest {
  CanCoverRequest_TenantId : string;
  CanCoverRequest_WalletId : string;
  CanCoverRequest_TotalOut : Z;
  CanCoverRequest_FeePerByte : Z;
  CanCoverRequest_FixedOutputs : Z }.
Record CanCoverResponse : Type := MkCanCoverResponse {}.
Record SendRequest : Type := MkSendRequest {
  SendRequest_TenantId : string;
  SendRequest_WalletId : string;
  SendRequest_ToAddress : string;
  SendRequest_AmountSatoshis : Z }.
Record SendAllRequest : Type := MkSendAllRequest {
  SendAllRequest_TenantId : string;
  SendAllRequest_WalletId : string;
  SendAllRequest_ToAddress : string;
  SendAllRequest_Detailed : bool }.
Record SpendResponse : Type := MkSpendResponse {
  SpendResponse_Txid : string }.
Record OutputSpec : Type := MkOutputSpec {
  OutputSpec_Script : bytes;
  OutputSpec_Value : Z }.
Record OutPoint : Type := MkOutPoint {
  OutPoint_Txid : string;
  OutPoint_Vout : Z }.
Record SpendToOutputsRequest : Type := MkSpendToOutputsRequest {
  SpendToOutputsRequest_TenantId : string;
  SpendToOutputsRequest_WalletId : string;
  SpendToOutputsRequest_Outputs : list OutputSpec;
  SpendToOutputsRequest_IgnoreFixedOutputs : bool;
  SpendToOutputsRequest_FromInputs : list OutPoint }.
Record SpendDetail : Type := MkSpendDetail {
  SpendDetail_Txid : string;
  SpendDetail_SpentUtxos : list UTXO;
  SpendDetail_ChangeUtxo : option UTXO;
  SpendDetail_RawTx : bytes }.
Record SpendDetailResponse : Type := MkSpendDetailResponse {
  SpendDetailResponse_Detail : option SpendDetail }.
Record CustomInput : Type := MkCustomInput {
  CustomInput_Txid : string;
  CustomInput_Vout : Z;
  CustomInput_ScriptSig : bytes;
  CustomInput_Sequence : Z }.
Record BroadcastCustomSpendRequest : Type := MkBroadcastCustomSpendRequest {
  BroadcastCustomSpendRequest_Inputs : list CustomInput;
  BroadcastCustomSpendRequest_Outputs : list OutputSpec }.
Record P2PKHOutputRequest : Type := MkP2PKHOutputRequest {
  P2PKHOutputRequest_Address : string;
  P2PKHOutputRequest_Value : Z }.
Record OpReturnOutputRequest : Type := MkOpReturnOutputRequest {
  OpReturnOutputRequest_Data : bytes }.
Record AnyoneCanSpendOutputRequest : Type := MkAnyoneCanSpendOutputRequest {
  AnyoneCanSpendOutputRequest_Value : Z }.
Record ParseTransactionRequest : Type := MkParseTransactionRequest {
  ParseTransactionRequest_RawTx : bytes }.
Record TxInput : Type := MkTxInput {
  TxInput_PrevTxid : string;
  TxInput_PrevVout : Z;
  TxInput_ScriptSig : bytes;
  TxInput_Coinbase : bool;
  TxInput_SenderAddress : string }.
Record TxOutput : Type := MkTxOutput {
  TxOutput_Vout : Z;
  TxOutput_Value : Z;
  TxOutput_Script : bytes;
  TxOutput_Address : string }.
Record Transaction : Type := MkTransaction {
  Transaction_Txid : string;
  Transaction_RawTx : bytes;
  Transaction_Inputs : list TxInput;
  Transaction_Outputs : list TxOutput }.
Record BroadcastRawRequest : Type := MkBroadcastRawRequest {
  BroadcastRawRequest_RawTx : bytes }.
Record BroadcastRawResponse : Type := MkBroadcastRawResponse {
  BroadcastRawResponse_Txid : string }.
Record ExecuteScriptRequest : Type := MkExecuteScriptRequest {
  ExecuteScriptRequest_ScriptSig : bytes;
  ExecuteScriptRequest_ScriptPubKey : bytes;
  ExecuteScriptRequest_RawTx : bytes;
  ExecuteScriptRequest_InputIndex : Z;
  ExecuteScriptRequest_Amount : Z;
  ExecuteScriptRequest_Strict : bool }.
Record ExecuteScriptResponse : Type := MkExecuteScriptResponse {
  ExecuteScriptResponse_Ok : bool;
  ExecuteScriptResponse_Error : string }.
Record DecodeOutputAddressRequest : Type := MkDecodeOutputAddressRequest {
  DecodeOutputAddressRequest_ScriptPubKey : bytes }.
Record DecodeOutputAddressResponse : Type := MkDecodeOutputAddressResponse {
  DecodeOutputAddressResponse_Address : string;
  DecodeOutputAddressResponse_Ok : bool }.
Record PendingTransactionsRequest : Type := MkPendingTransactionsRequest {}.
Record PendingTransaction : Type := MkPendingTransaction {
  PendingTransaction_Txid : string;
  PendingTransaction_FirstBroadcast : string;
  PendingTransaction_LastBroadcast : string;
  PendingTransaction_LastAnnounce : string;
  PendingTransaction_Rebroadcasts : Z }.
Record PendingTransactionsResponse : Type := MkPendingTransactionsResponse {
  PendingTransactionsResponse_Transactions : list PendingTransaction }.
Record RebroadcastPendingTransactionsRequest : Type := MkRebroadcastPendingTransactionsRequest {}.
Record RebroadcastPendingTransactionsResponse : Type := MkRebroadcastPendingTransactionsResponse {
  RebroadcastPendingTransactionsResponse_Count : Z }.
Record StreamTransactionsRequest : Type := MkStreamTransactionsRequest {}.
Record BlockSpend : Type := MkBlockSpend {
  BlockSpend_PrevTxid : string;
  BlockSpend_PrevVout : Z;
  BlockSpend_SpendingTxid : string }.
Record Block : Type := MkBlock {
  Block_Hash : string;
  Block_Height : Z;
  Block_Txids : list string;
  Block_Spends : list BlockSpend;
  Block_Disconnected : bool }.
Record StreamBlocksRequest : Type := MkStreamBlocksRequest {}.
Record Payment : Type := MkPayment {
  Payment_TenantId : string;
  Payment_WalletId : string;
  Payment_Txid : string;
  Payment_Amount : Z;
  Payment_Address : string;
  Payment_Vout : Z;
  Payment_Script : bytes }.
Record StreamPaymentsRequest : Type := MkStreamPaymentsRequest {
  StreamPaymentsRequest_TenantId : string;
  StreamPaymentsRequest_WalletId : string }.
Record OwnedOutput : Type := MkOwnedOutput {
  OwnedOutput_Vout : Z;
  OwnedOutput_Value : Z;
  OwnedOutput_Script : bytes;
  OwnedOutput_Address : string }.
Record SpentOutPoint : Type := MkSpentOutPoint {
  SpentOutPoint_Txid : string;
  SpentOutPoint_Vout : Z }.
Record WalletTransaction : Type := MkWalletTransaction {
  WalletTransaction_TenantId : string;
  WalletTransaction_WalletId : string;
  WalletTransaction_Transaction : option Transaction;
  WalletTransaction_Owned : list OwnedOutput;
  WalletTransaction_Spent : list SpentOutPoint }.
Record StreamWalletTransactionsRequest : Type := MkStreamWalletTransactionsRequest {
  StreamWalletTransactionsRequest_TenantId : string;
  StreamWalletTransactionsRequest_WalletId : string }.
Record P2PTraffic : Type := MkP2PTraffic {
  P2PTraffic_Peer : string;
  P2PTraffic_Direction : string;
  P2PTraffic_Command : string;
  P2PTraffic_PayloadBytes : Z;
  P2PTraffic_Summary : string }.
Record StreamP2PTrafficRequest : Type := MkStreamP2PTrafficRequest {}.
Record Reject : Type := MkReject {
  Reject_Peer : string;
  Reject_Command : string;
  Reject_Code : Z;
  Reject_CodeName : string;
  Reject_Reason : string;
  Reject_Hash : string }.
Record StreamRejectsRequest : Type := MkStreamRejectsRequest {}.
Record TxStateRequest : Type := MkTxStateRequest {
  TxStateRequest_TenantId : string;
  TxStateRequest_WalletId : string;
  TxStateRequest_Txid : string }.
Record TxStateResponse : Type := MkTxStateResponse {
  TxStateResponse_Known : bool;
  TxStateResponse_Height : Z;
  TxStateResponse_Confirmed : bool;
  TxStateResponse_Conflicted : bool }.
Record AbandonTransactionRequest : Type := MkAbandonTransactionRequest {
  AbandonTransactionRequest_TenantId : string;
  AbandonTransactionRequest_WalletId : string;
  AbandonTransactionRequest_Txid : string }.
Record AbandonTransactionResponse : Type := MkAbandonTransactionResponse {}.
Record ClearIgnoredOutpointsRequest : Type := MkClearIgnoredOutpointsRequest {
  ClearIgnoredOutpointsRequest_TenantId : string;
  ClearIgnoredOutpointsRequest_WalletId : string }.
Record ClearIgnoredOutpointsResponse : Type := MkClearIgnoredOutpointsResponse {
  ClearIgnoredOutpointsResponse_Cleared : Z }.
Record OwnsScriptRequest : Type := MkOwnsScriptRequest {
  OwnsScriptRequest_TenantId : string;
  OwnsScriptRequest_WalletId : string;
  OwnsScriptRequest_ScriptPubKey : bytes }.
Record OwnsScriptResponse : Type := MkOwnsScriptResponse {
  OwnsScriptResponse_Owned : bool }.
Record VerifyTxSeenRequest : Type := MkVerifyTxSeenRequest {
  VerifyTxSeenRequest_Txid : string;
  VerifyTxSeenRequest_PeersToAsk : Z;
  VerifyTxSeenRequest_TimeoutMs : Z }.
Record VerifyTxSeenResponse : Type := MkVerifyTxSeenResponse {
  VerifyTxSeenResponse_Seen : bool }.
Record WaitForTxRelayRequest : Type := MkWaitForTxRelayRequest {
  WaitForTxRelayRequest_Txid : string;
  WaitForTxRelayRequest_TimeoutMs : Z }.
Record WaitForTxRelayResponse : Type := MkWaitForTxRelayResponse {
  WaitForTxRelayResponse_Relayed : bool }.
Record RescanRequest : Type := MkRescanRequest {
  RescanRequest_TenantId : string;
  RescanRequest_WalletId : string;
  RescanRequest_StartBlockHash : string;
  RescanRequest_StartHeight : Z;
  RescanRequest_MaxBlocks : Z;
  RescanRequest_HeadersTimeoutMs : Z;
  RescanRequest_BlockTimeoutMs : Z;
  RescanRequest_MaxConsecutiveBlockErrors : Z;
  RescanRequest_CheckpointEvery : Z;
  RescanRequest_GcEvery : Z;
  RescanRequest_Prefetch : Z;
  RescanRequest_PrefetchBytes : Z;
  RescanRequest_StreamBlockBytes : Z }.
Record RescanProgress : Type := MkRescanProgress {
  RescanProgress_Phase : string;
  RescanProgress_Peer : string;
  RescanProgress_HeadersSeen : Z;
  RescanProgress_BatchHeaders : Z;
  RescanProgress_BlocksFetched : Z;
  RescanProgress_TxsReplayed : Z;
  RescanProgress_Errors : Z;
  RescanProgress_BlockHash : string;
  RescanProgress_Message : string }.
Record RescanStats : Type := MkRescanStats {
  RescanStats_HeadersSeen : Z;
  RescanStats_BlocksFetched : Z;
  RescanStats_TxsReplayed : Z;
  RescanStats_StoppedAt : string;
  RescanStats_StoppedHeight : Z;
  RescanStats_PeerSwitches : Z;
  RescanStats_Errors : list string }.
Inductive isRescanEvent_Event : Type :=
| RescanEvent_Progress (Progress : RescanProgress)
| RescanEvent_Stats (Stats : RescanStats).
Record RescanEvent : Type := MkRescanEvent {
  RescanEvent_Event : option isRescanEvent_Event }.
Record GetIncompleteCursorRequest : Type := MkGetIncompleteCursorRequest {
  GetIncompleteCursorRequest_TenantId : string;
  GetIncompleteCursorRequest_WalletId : string }.
Record GetIncompleteCursorResponse : Type := MkGetIncompleteCursorResponse {
  GetIncompleteCursorResponse_Found : bool;
  GetIncompleteCursorResponse_BlockHash : string;
  GetIncompleteCursorResponse_Height : Z;
  GetIncompleteCursorResponse_TxDone : Z;
  GetIncompleteCursorResponse_TxTotal : Z }.
End pb.

(** ** The reflective view of a message: field names with their kind, a string
    field with its value ([protoreflect.Message]). *)

Inductive field_value : Type :=
  | KString (s : string)
  | KOther.
Definition message : Type := list (string * field_value).

(** ** The methods of the service *)

Inductive rpc : Set :=
  | BSVMS_Status | BSVMS_RefreshToken | BSVMS_ConnectPeer | BSVMS_ListWallets
  | BSVMS_CreateWallet | BSVMS_RestoreWallet | BSVMS_GetWallet | BSVMS_NewAddress
  | BSVMS_BatchNewAddresses | BSVMS_DeriveAt | BSVMS_PubKeyAt | BSVMS_SignHashAt
  | BSVMS_NextIndex | BSVMS_Balance | BSVMS_ListUTXOs | BSVMS_ImportUTXO | BSVMS_ProcessRawTx
  | BSVMS_ClearUTXOs | BSVMS_ReloadFromStore | BSVMS_WipeWallet | BSVMS_PruneUnknownUTXOs
  | BSVMS_IgnoreOutpoint | BSVMS_IsOutpointIgnored | BSVMS_UntrackUTXO | BSVMS_CanCover
  | BSVMS_Send | BSVMS_SendAll | BSVMS_SpendToOutputs | BSVMS_BroadcastCustomSpend
  | BSVMS_P2PKHOutput | BSVMS_OpReturnOutput | BSVMS_AnyoneCanSpendOutput
  | BSVMS_ParseTransaction | BSVMS_BroadcastRaw | BSVMS_ExecuteScript
  | BSVMS_DecodeOutputAddress | BSVMS_PendingTransactions
  | BSVMS_RebroadcastPendingTransactions | BSVMS_StreamTransactions | BSVMS_StreamBlocks
  | BSVMS_StreamPayments | BSVMS_StreamWalletTransactions | BSVMS_StreamP2PTraffic
  | BSVMS_StreamRejects | BSVMS_TxState | BSVMS_AbandonTransaction
  | BSVMS_ClearIgnoredOutpoints | BSVMS_OwnsScript | BSVMS_VerifyTxSeen | BSVMS_WaitForTxRelay
  | BSVMS_Rescan | BSVMS_GetIncompleteCursor.

#[export] Instance rpc_eq_dec : EqDecision rpc.
Proof. solve_decision. Defined.

(** [BSVMS_ServiceDesc.Methods] and [BSVMS_ServiceDesc.Streams], in order. *)
Definition BSVMS_Methods : list rpc :=
   [BSVMS_Status; BSVMS_RefreshToken; BSVMS_ConnectPeer; BSVMS_ListWallets; BSVMS_CreateWallet;
    BSVMS_RestoreWallet; BSVMS_GetWallet; BSVMS_NewAddress; BSVMS_BatchNewAddresses;
    BSVMS_DeriveAt; BSVMS_PubKeyAt; BSVMS_SignHashAt; BSVMS_NextIndex; BSVMS_Balance;
    BSVMS_ListUTXOs; BSVMS_ImportUTXO; BSVMS_ProcessRawTx; BSVMS_ClearUTXOs;
    BSVMS_ReloadFromStore; BSVMS_WipeWallet; BSVMS_PruneUnknownUTXOs; BSVMS_IgnoreOutpoint;
    BSVMS_IsOutpointIgnored; BSVMS_UntrackUTXO; BSVMS_CanCover; BSVMS_Send; BSVMS_SendAll;
    BSVMS_SpendToOutputs; BSVMS_BroadcastCustomSpend; BSVMS_P2PKHOutput; BSVMS_OpReturnOutput;
    BSVMS_AnyoneCanSpendOutput; BSVMS_ParseTransaction; BSVMS_BroadcastRaw;
    BSVMS_ExecuteScript; BSVMS_DecodeOutputAddress; BSVMS_PendingTransactions;
    BSVMS_RebroadcastPendingTransactions; BSVMS_TxState; BSVMS_AbandonTransaction;
    BSVMS_ClearIgnoredOutpoints; BSVMS_OwnsScript; BSVMS_VerifyTxSeen; BSVMS_WaitForTxRelay;
    BSVMS_GetIncompleteCursor].
Definition BSVMS_Streams : list rpc :=
   [BSVMS_StreamTransactions; BSVMS_StreamBlocks; BSVMS_StreamPayments;
    BSVMS_StreamWalletTransactions; BSVMS_StreamP2PTraffic; BSVMS_StreamRejects; BSVMS_Rescan].
Definition all_rpcs : list rpc := BSVMS_Methods ++ BSVMS_Streams.

Definition rpc_name (r : rpc) : string :=
  match r with
  | BSVMS_Status => "Status"
  | BSVMS_RefreshToken => "RefreshToken"
  | BSVMS_ConnectPeer => "ConnectPeer"
  | BSVMS_ListWallets => "ListWallets"
  | BSVMS_CreateWallet => "CreateWallet"
  | BSVMS_RestoreWallet => "RestoreWallet"
  | BSVMS_GetWallet => "GetWallet"
  | BSVMS_NewAddress => "NewAddress"
  | BSVMS_BatchNewAddresses => "BatchNewAddresses"
  | BSVMS_DeriveAt => "DeriveAt"
  | BSVMS_PubKeyAt => "PubKeyAt"
  | BSVMS_SignHashAt => "SignHashAt"
  | BSVMS_NextIndex => "NextIndex"
  | BSVMS_Balance => "Balance"
  | BSVMS_ListUTXOs => "ListUTXOs"
  | BSVMS_ImportUTXO => "ImportUTXO"
  | BSVMS_ProcessRawTx => "ProcessRawTx"
  | BSVMS_ClearUTXOs => "ClearUTXOs"
  | BSVMS_ReloadFromStore => "ReloadFromStore"
  | BSVMS_WipeWallet => "WipeWallet"
  | BSVMS_PruneUnknownUTXOs => "PruneUnknownUTXOs"
  | BSVMS_IgnoreOutpoint => "IgnoreOutpoint"
  | BSVMS_IsOutpointIgnored => "IsOutpointIgnored"
  | BSVMS_UntrackUTXO => "UntrackUTXO"
  | BSVMS_CanCover => "CanCover"
  | BSVMS_Send => "Send"
  | BSVMS_SendAll => "SendAll"
  | BSVMS_SpendToOutputs => "SpendToOutputs"
  | BSVMS_BroadcastCustomSpend => "BroadcastCustomSpend"
  | BSVMS_P2PKHOutput => "P2PKHOutput"
  | BSVMS_OpReturnOutput => "OpReturnOutput"
  | BSVMS_AnyoneCanSpendOutput => "AnyoneCanSpendOutput"
  | BSVMS_ParseTransaction => "ParseTransaction"
  | BSVMS_BroadcastRaw => "BroadcastRaw"
  | BSVMS_ExecuteScript => "ExecuteScript"
  | BSVMS_DecodeOutputAddress => "DecodeOutputAddress"
  | BSVMS_PendingTransactions => "PendingTransactions"
  | BSVMS_RebroadcastPendingTransactions => "RebroadcastPendingTransactions"
  | BSVMS_StreamTransactions => "StreamTransactions"
  | BSVMS_StreamBlocks => "StreamBlocks"
  | BSVMS_StreamPayments => "StreamPayments"
  | BSVMS_StreamWalletTransactions => "StreamWalletTransactions"
  | BSVMS_StreamP2PTraffic => "StreamP2PTraffic"
  | BSVMS_StreamRejects => "StreamRejects"
  | BSVMS_TxState => "TxState"
  | BSVMS_AbandonTransaction => "AbandonTransaction"
  | BSVMS_ClearIgnoredOutpoints => "ClearIgnoredOutpoints"
  | BSVMS_OwnsScript => "OwnsScript"
  | BSVMS_VerifyTxSeen => "VerifyTxSeen"
  | BSVMS_WaitForTxRelay => "WaitForTxRelay"
  | BSVMS_Rescan => "Rescan"
  | BSVMS_GetIncompleteCursor => "GetIncompleteCursor"
  end.

Definition rpc_request (r : rpc) : Type :=
  match r with
  | BSVMS_Status => pb.StatusRequest
  | BSVMS_RefreshToken => pb.RefreshTokenRequest
  | BSVMS_ConnectPeer => pb.ConnectPeerRequest
  | BSVMS_ListWallets => pb.ListWalletsRequest
  | BSVMS_CreateWallet => pb.CreateWalletRequest
  | BSVMS_RestoreWallet => pb.RestoreWalletRequest
  | BSVMS_GetWallet => pb.GetWalletRequest
  | BSVMS_NewAddress => pb.NewAddressRequest
  | BSVMS_BatchNewAddresses => pb.BatchNewAddressesRequest
  | BSVMS_DeriveAt => pb.DeriveAtRequest
  | BSVMS_PubKeyAt => pb.PubKeyAtRequest
  | BSVMS_SignHashAt => pb.SignHashAtRequest
  | BSVMS_NextIndex => pb.NextIndexRequest
  | BSVMS_Balance => pb.BalanceRequest
  | BSVMS_ListUTXOs => pb.ListUTXOsRequest
  | BSVMS_ImportUTXO => pb.ImportUTXORequest
  | BSVMS_ProcessRawTx => pb.ProcessRawTxRequest
  | BSVMS_ClearUTXOs => pb.ClearUTXOsRequest
  | BSVMS_ReloadFromStore => pb.ReloadFromStoreRequest
  | BSVMS_WipeWallet => pb.WipeWalletRequest
  | BSVMS_PruneUnknownUTXOs => pb.PruneUnknownUTXOsRequest
  | BSVMS_IgnoreOutpoint => pb.IgnoreOutpointRequest
  | BSVMS_IsOutpointIgnored => pb.IsOutpointIgnoredRequest
  | BSVMS_UntrackUTXO => pb.UntrackUTXORequest
  | BSVMS_CanCover => pb.CanCoverRequest
  | BSVMS_Send => pb.SendRequest
  | BSVMS_SendAll => pb.SendAllRequest
  | BSVMS_SpendToOutputs => pb.SpendToOutputsRequest
  | BSVMS_BroadcastCustomSpend => pb.BroadcastCustomSpendRequest
  | BSVMS_P2PKHOutput => pb.P2PKHOutputRequest
  | BSVMS_OpReturnOutput => pb.OpReturnOutputRequest
  | BSVMS_AnyoneCanSpendOutput => pb.AnyoneCanSpendOutputRequest
  | BSVMS_ParseTransaction => pb.ParseTransactionRequest
  | BSVMS_BroadcastRaw => pb.BroadcastRawRequest
  | BSVMS_ExecuteScript => pb.ExecuteScriptRequest
  | BSVMS_DecodeOutputAddress => pb.DecodeOutputAddressRequest
  | BSVMS_PendingTransactions => pb.PendingTransactionsRequest
  | BSVMS_RebroadcastPendingTransactions => pb.RebroadcastPendingTransactionsRequest
  | BSVMS_StreamTransactions => pb.StreamTransactionsRequest
  | BSVMS_StreamBlocks => pb.StreamBlocksRequest
  | BSVMS_StreamPayments => pb.StreamPaymentsRequest
  | BSVMS_StreamWalletTransactions => pb.StreamWalletTransactionsRequest
  | BSVMS_StreamP2PTraffic => pb.StreamP2PTrafficRequest
  | BSVMS_StreamRejects => pb.StreamRejectsRequest
  | BSVMS_TxState => pb.TxStateRequest
  | BSVMS_AbandonTransaction => pb.AbandonTransactionRequest
  | BSVMS_ClearIgnoredOutpoints => pb.ClearIgnoredOutpointsRequest
  | BSVMS_OwnsScript => pb.OwnsScriptRequest
  | BSVMS_VerifyTxSeen => pb.VerifyTxSeenRequest
  | BSVMS_WaitForTxRelay => pb.WaitForTxRelayRequest
  | BSVMS_Rescan => pb.RescanRequest
  | BSVMS_GetIncompleteCursor => pb.GetIncompleteCursorRequest
  end.

(** The response, or the item of a streaming method. *)
Definition rpc_response (r : rpc) : Type :=
  match r with
  | BSVMS_Status => pb.StatusResponse
  | BSVMS_RefreshToken => pb.AuthTokens
  | BSVMS_ConnectPeer => pb.ConnectPeerResponse
  | BSVMS_ListWallets => pb.ListWalletsResponse
  | BSVMS_CreateWallet => pb.CreateWalletResponse
  | BSVMS_RestoreWallet => pb.WalletResponse
  | BSVMS_GetWallet => pb.WalletResponse
  | BSVMS_NewAddress => pb.AddressResponse
  | BSVMS_BatchNewAddresses => pb.BatchNewAddressesResponse
  | BSVMS_DeriveAt => pb.AddressResponse
  | BSVMS_PubKeyAt => pb.PubKeyAtResponse
  | BSVMS_SignHashAt => pb.SignHashAtResponse
  | BSVMS_NextIndex => pb.NextIndexResponse
  | BSVMS_Balance => pb.BalanceResponse
  | BSVMS_ListUTXOs => pb.ListUTXOsResponse
  | BSVMS_ImportUTXO => pb.ImportUTXOResponse
  | BSVMS_ProcessRawTx => pb.ProcessRawTxResponse
  | BSVMS_ClearUTXOs => pb.ClearUTXOsResponse
  | BSVMS_ReloadFromStore => pb.ReloadFromStoreResponse
  | BSVMS_WipeWallet => pb.WipeWalletResponse
  | BSVMS_PruneUnknownUTXOs => pb.PruneUnknownUTXOsResponse
  | BSVMS_IgnoreOutpoint => pb.IgnoreOutpointResponse
  | BSVMS_IsOutpointIgnored => pb.IsOutpointIgnoredResponse
  | BSVMS_UntrackUTXO => pb.UntrackUTXOResponse
  | BSVMS_CanCover => pb.CanCoverResponse
  | BSVMS_Send => pb.SpendResponse
  | BSVMS_SendAll => pb.SpendResponse
  | BSVMS_SpendToOutputs => pb.SpendDetailResponse
  | BSVMS_BroadcastCustomSpend => pb.SpendResponse
  | BSVMS_P2PKHOutput => pb.OutputSpec
  | BSVMS_OpReturnOutput => pb.OutputSpec
  | BSVMS_AnyoneCanSpendOutput => pb.OutputSpec
  | BSVMS_ParseTransaction => pb.Transaction
  | BSVMS_BroadcastRaw => pb.BroadcastRawResponse
  | BSVMS_ExecuteScript => pb.ExecuteScriptResponse
  | BSVMS_DecodeOutputAddress => pb.DecodeOutputAddressResponse
  | BSVMS_PendingTransactions => pb.PendingTransactionsResponse
  | BSVMS_RebroadcastPendingTransactions => pb.RebroadcastPendingTransactionsResponse
  | BSVMS_StreamTransactions => pb.Transaction
  | BSVMS_StreamBlocks => pb.Block
  | BSVMS_StreamPayments => pb.Payment
  | BSVMS_StreamWalletTransactions => pb.WalletTransaction
  | BSVMS_StreamP2PTraffic => pb.P2PTraffic
  | BSVMS_StreamRejects => pb.Reject
  | BSVMS_TxState => pb.TxStateResponse
  | BSVMS_AbandonTransaction => pb.AbandonTransactionResponse
  | BSVMS_ClearIgnoredOutpoints => pb.ClearIgnoredOutpointsResponse
  | BSVMS_OwnsScript => pb.OwnsScriptResponse
  | BSVMS_VerifyTxSeen => pb.VerifyTxSeenResponse
  | BSVMS_WaitForTxRelay => pb.WaitForTxRelayResponse
  | BSVMS_Rescan => pb.RescanEvent
  | BSVMS_GetIncompleteCursor => pb.GetIncompleteCursorResponse
  end.

Definition rpc_streams (r : rpc) : bool := bool_decide (r ∈ BSVMS_Streams).

(** [BSVMS_ServiceDesc.ServiceName] and the [BSVMS_*_FullMethodName] constants *)
Definition service_name : string := "bsvms.v1.BSVMS".
Definition full_method (r : rpc) : string := "/" +:+ service_name +:+ "/" +:+ rpc_name r.

(** [msg.ProtoReflect()]: the fields of the request's descriptor. *)
Section reflect.
Import pb.

Definition reflect_StatusRequest (r : StatusRequest) : message := [].
Definition reflect_RefreshTokenRequest (r : RefreshTokenRequest) : message :=
  [("refresh_token"%string, KString (RefreshTokenRequest_RefreshToken r))].
Definition reflect_ConnectPeerRequest (r : ConnectPeerRequest) : message :=
  [("address"%string, KString (ConnectPeerRequest_Address r))].
Definition reflect_ListWalletsRequest (r : ListWalletsRequest) : message :=
  [("tenant_id"%string, KString (ListWalletsRequest_TenantId r))].
Definition reflect_CreateWalletRequest (r : CreateWalletRequest) : message :=
  [("tenant_id"%string, KString (CreateWalletRequest_TenantId r));
   ("wallet_id"%string, KString (CreateWalletRequest_WalletId r))].
Definition reflect_RestoreWalletRequest (r : RestoreWalletRequest) : message :=
  [("tenant_id"%string, KString (RestoreWalletRequest_TenantId r));
   ("wallet_id"%string, KString (RestoreWalletRequest_WalletId r));
   ("mnemonic"%string, KString (RestoreWalletRequest_Mnemonic r));
   ("passphrase"%string, KString (RestoreWalletRequest_Passphrase r))].
Definition reflect_GetWalletRequest (r : GetWalletRequest) : message :=
  [("tenant_id"%string, KString (GetWalletRequest_TenantId r));
   ("wallet_id"%string, KString (GetWalletRequest_WalletId r))].
Definition reflect_NewAddressRequest (r : NewAddressRequest) : message :=
  [("tenant_id"%string, KString (NewAddressRequest_TenantId r));
   ("wallet_id"%string, KString (NewAddressRequest_WalletId r))].
Definition reflect_BatchNewAddressesRequest (r : BatchNewAddressesRequest) : message :=
  [("tenant_id"%string, KString (BatchNewAddressesRequest_TenantId r));
   ("wallet_id"%string, KString (BatchNewAddressesRequest_WalletId r));
   ("count"%string, KOther)].
Definition reflect_DeriveAtRequest (r : DeriveAtRequest) : message :=
  [("tenant_id"%string, KString (DeriveAtRequest_TenantId r));
   ("wallet_id"%string, KString (DeriveAtRequest_WalletId r));
   ("branch"%string, KOther);
   ("index"%string, KOther)].
Definition reflect_PubKeyAtRequest (r : PubKeyAtRequest) : message :=
  [("tenant_id"%string, KString (PubKeyAtRequest_TenantId r));
   ("wallet_id"%string, KString (PubKeyAtRequest_WalletId r));
   ("branch"%string, KOther);
   ("index"%string, KOther)].
Definition reflect_SignHashAtRequest (r : SignHashAtRequest) : message :=
  [("tenant_id"%string, KString (SignHashAtRequest_TenantId r));
   ("wallet_id"%string, KString (SignHashAtRequest_WalletId r));
   ("branch"%string, KOther);
   ("index"%string, KOther);
   ("hash"%string, KOther)].
Definition reflect_NextIndexRequest (r : NextIndexRequest) : message :=
  [("tenant_id"%string, KString (NextIndexRequest_TenantId r));
   ("wallet_id"%string, KString (NextIndexRequest_WalletId r));
   ("branch"%string, KOther)].
Definition reflect_BalanceRequest (r : BalanceRequest) : message :=
  [("tenant_id"%string, KString (BalanceRequest_TenantId r));
   ("wallet_id"%string, KString (BalanceRequest_WalletId r))].
Definition reflect_ListUTXOsRequest (r : ListUTXOsRequest) : message :=
  [("tenant_id"%string, KString (ListUTXOsRequest_TenantId r));
   ("wallet_id"%string, KString (ListUTXOsRequest_WalletId r))].
Definition reflect_ImportUTXORequest (r : ImportUTXORequest) : message :=
  [("tenant_id"%string, KString (ImportUTXORequest_TenantId r));
   ("wallet_id"%string, KString (ImportUTXORequest_WalletId r));
   ("txid"%string, KString (ImportUTXORequest_Txid r));
   ("vout"%string, KOther);
   ("value"%string, KOther);
   ("script"%string, KOther);
   ("height"%string, KOther);
   ("force"%string, KOther);
   ("is_coinbase"%string, KOther)].
Definition reflect_ProcessRawTxRequest (r : ProcessRawTxRequest) : message :=
  [("tenant_id"%string, KString (ProcessRawTxRequest_TenantId r));
   ("wallet_id"%string, KString (ProcessRawTxRequest_WalletId r));
   ("raw_tx"%string, KOther);
   ("height"%string, KOther)].
Definition reflect_ClearUTXOsRequest (r : ClearUTXOsRequest) : message :=
  [("tenant_id"%string, KString (ClearUTXOsRequest_TenantId r));
   ("wallet_id"%string, KString (ClearUTXOsRequest_WalletId r))].
Definition reflect_ReloadFromStoreRequest (r : ReloadFromStoreRequest) : message :=
  [("tenant_id"%string, KString (ReloadFromStoreRequest_TenantId r));
   ("wallet_id"%string, KString (ReloadFromStoreRequest_WalletId r))].
Definition reflect_WipeWalletRequest (r : WipeWalletRequest) : message :=
  [("tenant_id"%string, KString (WipeWalletRequest_TenantId r));
   ("wallet_id"%string, KString (WipeWalletRequest_WalletId r))].
Definition reflect_PruneUnknownUTXOsRequest (r : PruneUnknownUTXOsRequest) : message :=
  [("tenant_id"%string, KString (PruneUnknownUTXOsRequest_TenantId r));
   ("wallet_id"%string, KString (PruneUnknownUTXOsRequest_WalletId r))].
Definition reflect_IgnoreOutpointRequest (r : IgnoreOutpointRequest) : message :=
  [("tenant_id"%string, KString (IgnoreOutpointRequest_TenantId r));
   ("wallet_id"%string, KString (IgnoreOutpointRequest_WalletId r));
   ("txid"%string, KString (IgnoreOutpointRequest_Txid r));
   ("vout"%string, KOther);
   ("unignore"%string, KOther)].
Definition reflect_IsOutpointIgnoredRequest (r : IsOutpointIgnoredRequest) : message :=
  [("tenant_id"%string, KString (IsOutpointIgnoredRequest_TenantId r));
   ("wallet_id"%string, KString (IsOutpointIgnoredRequest_WalletId r));
   ("txid"%string, KString (IsOutpointIgnoredRequest_Txid r));
   ("vout"%string, KOther)].
Definition reflect_UntrackUTXORequest (r : UntrackUTXORequest) : message :=
  [("tenant_id"%string, KString (UntrackUTXORequest_TenantId r));
   ("wallet_id"%string, KString (UntrackUTXORequest_WalletId r));
   ("txid"%string, KString (UntrackUTXORequest_Txid r));
   ("vout"%string, KOther)].
Definition reflect_CanCoverRequest (r : CanCoverRequest) : message :=
  [("tenant_id"%string, KString (CanCoverRequest_TenantId r));
   ("wallet_id"%string, KString (CanCoverRequest_WalletId r));
   ("total_out"%string, KOther);
   ("fee_per_byte"%string, KOther);
   ("fixed_outputs"%string, KOther)].
Definition reflect_SendRequest (r : SendRequest) : message :=
  [("tenant_id"%string, KString (SendRequest_TenantId r));
   ("wallet_id"%string, KString (SendRequest_WalletId r));
   ("to_address"%string, KString (SendRequest_ToAddress r));
   ("amount_satoshis"%string, KOther)].
Definition reflect_SendAllRequest (r : SendAllRequest) : message :=
  [("tenant_id"%string, KString (SendAllRequest_TenantId r));
   ("wallet_id"%string, KString (SendAllRequest_WalletId r));
   ("to_address"%string, KString (SendAllRequest_ToAddress r));
   ("detailed"%string, KOther)].
Definition reflect_SpendToOutputsRequest (r : SpendToOutputsRequest) : message :=
  [("tenant_id"%string, KString (SpendToOutputsRequest_TenantId r));
   ("wallet_id"%string, KString (SpendToOutputsRequest_WalletId r));
   ("outputs"%string, KOther);
   ("ignore_fixed_outputs"%string, KOther);
   ("from_inputs"%string, KOther)].
Definition reflect_BroadcastCustomSpendRequest (r : BroadcastCustomSpendRequest) : message :=
  [("inputs"%string, KOther);
   ("outputs"%string, KOther)].
Definition reflect_P2PKHOutputRequest (r : P2PKHOutputRequest) : message :=
  [("address"%string, KString (P2PKHOutputRequest_Address r));
   ("value"%string, KOther)].
Definition reflect_OpReturnOutputRequest (r : OpReturnOutputRequest) : message :=
  [("data"%string, KOther)].
Definition reflect_AnyoneCanSpendOutputRequest (r : AnyoneCanSpendOutputRequest) : message :=
  [("value"%string, KOther)].
Definition reflect_ParseTransactionRequest (r : ParseTransactionRequest) : message :=
  [("raw_tx"%string, KOther)].
Definition reflect_BroadcastRawRequest (r : BroadcastRawRequest) : message :=
  [("raw_tx"%string, KOther)].
Definition reflect_ExecuteScriptRequest (r : ExecuteScriptRequest) : message :=
  [("script_sig"%string, KOther);
   ("script_pub_key"%string, KOther);
   ("raw_tx"%string, KOther);
   ("input_index"%string, KOther);
   ("amount"%string, KOther);
   ("strict"%string, KOther)].
Definition reflect_DecodeOutputAddressRequest (r : DecodeOutputAddressRequest) : message :=
  [("script_pub_key"%string, KOther)].
Definition reflect_PendingTransactionsRequest (r : PendingTransactionsRequest) : message := [].
Definition reflect_RebroadcastPendingTransactionsRequest (r : RebroadcastPendingTransactionsRequest) : message := [].
Definition reflect_StreamTransactionsRequest (r : StreamTransactionsRequest) : message := [].
Definition reflect_StreamBlocksRequest (r : StreamBlocksRequest) : message := [].
Definition reflect_StreamPaymentsRequest (r : StreamPaymentsRequest) : message :=
  [("tenant_id"%string, KString (StreamPaymentsRequest_TenantId r));
   ("wallet_id"%string, KString (StreamPaymentsRequest_WalletId r))].
Definition reflect_StreamWalletTransactionsRequest (r : StreamWalletTransactionsRequest) : message :=
  [("tenant_id"%string, KString (StreamWalletTransactionsRequest_TenantId r));
   ("wallet_id"%string, KString (StreamWalletTransactionsRequest_WalletId r))].
Definition reflect_StreamP2PTrafficRequest (r : StreamP2PTrafficRequest) : message := [].
Definition reflect_StreamRejectsRequest (r : StreamRejectsRequest) : message := [].
Definition reflect_TxStateRequest (r : TxStateRequest) : message :=
  [("tenant_id"%string, KString (TxStateRequest_TenantId r));
   ("wallet_id"%string, KString (TxStateRequest_WalletId r));
   ("txid"%string, KString (TxStateRequest_Txid r))].
Definition reflect_AbandonTransactionRequest (r : AbandonTransactionRequest) : message :=
  [("tenant_id"%string, KString (AbandonTransactionRequest_TenantId r));
   ("wallet_id"%string, KString (AbandonTransactionRequest_WalletId r));
   ("txid"%string, KString (AbandonTransactionRequest_Txid r))].
Definition reflect_ClearIgnoredOutpointsRequest (r : ClearIgnoredOutpointsRequest) : message :=
  [("tenant_id"%string, KString (ClearIgnoredOutpointsRequest_TenantId r));
   ("wallet_id"%string, KString (ClearIgnoredOutpointsRequest_WalletId r))].
Definition reflect_OwnsScriptRequest (r : OwnsScriptRequest) : message :=
  [("tenant_id"%string, KString (OwnsScriptRequest_TenantId r));
   ("wallet_id"%string, KString (OwnsScriptRequest_WalletId r));
   ("script_pub_key"%string, KOther)].
Definition reflect_VerifyTxSeenRequest (r : VerifyTxSeenRequest) : message :=
  [("txid"%string, KString (VerifyTxSeenRequest_Txid r));
   ("peers_to_ask"%string, KOther);
   ("timeout_ms"%string, KOther)].
Definition reflect_WaitForTxRelayRequest (r : WaitForTxRelayRequest) : message :=
  [("txid"%string, KString (WaitForTxRelayRequest_Txid r));
   ("timeout_ms"%string, KOther)].
Definition reflect_RescanRequest (r : RescanRequest) : message :=
  [("tenant_id"%string, KString (RescanRequest_TenantId r));
   ("wallet_id"%string, KString (RescanRequest_WalletId r));
   ("start_block_hash"%string, KString (RescanRequest_StartBlockHash r));
   ("start_height"%string, KOther);
   ("max_blocks"%string, KOther);
   ("headers_timeout_ms"%string, KOther);
   ("block_timeout_ms"%string, KOther);
   ("max_consecutive_block_errors"%string, KOther);
   ("checkpoint_every"%string, KOther);
   ("gc_every"%string, KOther);
   ("prefetch"%string, KOther);
   ("prefetch_bytes"%string, KOther);
   ("stream_block_bytes"%string, KOther)].
Definition reflect_GetIncompleteCursorRequest (r : GetIncompleteCursorRequest) : message :=
  [("tenant_id"%string, KString (GetIncompleteCursorRequest_TenantId r));
   ("wallet_id"%string, KString (GetIncompleteCursorRequest_WalletId r))].
End reflect.

Definition rpc_reflect (r : rpc) : rpc_request r -> message :=
  match r with
  | BSVMS_Status => reflect_StatusRequest
  | BSVMS_RefreshToken => reflect_RefreshTokenRequest
  | BSVMS_ConnectPeer => reflect_ConnectPeerRequest
  | BSVMS_ListWallets => reflect_ListWalletsRequest
  | BSVMS_CreateWallet => reflect_CreateWalletRequest
  | BSVMS_RestoreWallet => reflect_RestoreWalletRequest
  | BSVMS_GetWallet => reflect_GetWalletRequest
  | BSVMS_NewAddress => reflect_NewAddressRequest
  | BSVMS_BatchNewAddresses => reflect_BatchNewAddressesRequest
  | BSVMS_DeriveAt => reflect_DeriveAtRequest
  | BSVMS_PubKeyAt => reflect_PubKeyAtRequest
  | BSVMS_SignHashAt => reflect_SignHashAtRequest
  | BSVMS_NextIndex => reflect_NextIndexRequest
  | BSVMS_Balance => reflect_BalanceRequest
  | BSVMS_ListUTXOs => reflect_ListUTXOsRequest
  | BSVMS_ImportUTXO => reflect_ImportUTXORequest
  | BSVMS_ProcessRawTx => reflect_ProcessRawTxRequest
  | BSVMS_ClearUTXOs => reflect_ClearUTXOsRequest
  | BSVMS_ReloadFromStore => reflect_ReloadFromStoreRequest
  | BSVMS_WipeWallet => reflect_WipeWalletRequest
  | BSVMS_PruneUnknownUTXOs => reflect_PruneUnknownUTXOsRequest
  | BSVMS_IgnoreOutpoint => reflect_IgnoreOutpointRequest
  | BSVMS_IsOutpointIgnored => reflect_IsOutpointIgnoredRequest
  | BSVMS_UntrackUTXO => reflect_UntrackUTXORequest
  | BSVMS_CanCover => reflect_CanCoverRequest
  | BSVMS_Send => reflect_SendRequest
  | BSVMS_SendAll => reflect_SendAllRequest
  | BSVMS_SpendToOutputs => reflect_SpendToOutputsRequest
  | BSVMS_BroadcastCustomSpend => reflect_BroadcastCustomSpendRequest
  | BSVMS_P2PKHOutput => reflect_P2PKHOutputRequest
  | BSVMS_OpReturnOutput => reflect_OpReturnOutputRequest
  | BSVMS_AnyoneCanSpendOutput => reflect_AnyoneCanSpendOutputRequest
  | BSVMS_ParseTransaction => reflect_ParseTransactionRequest
  | BSVMS_BroadcastRaw => reflect_BroadcastRawRequest
  | BSVMS_ExecuteScript => reflect_ExecuteScriptRequest
  | BSVMS_DecodeOutputAddress => reflect_DecodeOutputAddressRequest
  | BSVMS_PendingTransactions => reflect_PendingTransactionsRequest
  | BSVMS_RebroadcastPendingTransactions => reflect_RebroadcastPendingTransactionsRequest
  | BSVMS_StreamTransactions => reflect_StreamTransactionsRequest
  | BSVMS_StreamBlocks => reflect_StreamBlocksRequest
  | BSVMS_StreamPayments => reflect_StreamPaymentsRequest
  | BSVMS_StreamWalletTransactions => reflect_StreamWalletTransactionsRequest
  | BSVMS_StreamP2PTraffic => reflect_StreamP2PTrafficRequest
  | BSVMS_StreamRejects => reflect_StreamRejectsRequest
  | BSVMS_TxState => reflect_TxStateRequest
  | BSVMS_AbandonTransaction => reflect_AbandonTransactionRequest
  | BSVMS_ClearIgnoredOutpoints => reflect_ClearIgnoredOutpointsRequest
  | BSVMS_OwnsScript => reflect_OwnsScriptRequest
  | BSVMS_VerifyTxSeen => reflect_VerifyTxSeenRequest
  | BSVMS_WaitForTxRelay => reflect_WaitForTxRelayRequest
  | BSVMS_Rescan => reflect_RescanRequest
  | BSVMS_GetIncompleteCursor => reflect_GetIncompleteCursorRequest
  end.

(** [new(Request)]: the zero message a handler decodes into. *)
Definition rpc_zero (r : rpc) : rpc_request r :=
  match r with
  | BSVMS_Status => pb.MkStatusRequest
  | BSVMS_RefreshToken => pb.MkRefreshTokenRequest ""%string
  | BSVMS_ConnectPeer => pb.MkConnectPeerRequest ""%string
  | BSVMS_ListWallets => pb.MkListWalletsRequest ""%string
  | BSVMS_CreateWallet => pb.MkCreateWalletRequest ""%string ""%string
  | BSVMS_RestoreWallet => pb.MkRestoreWalletRequest ""%string ""%string ""%string ""%string
  | BSVMS_GetWallet => pb.MkGetWalletRequest ""%string ""%string
  | BSVMS_NewAddress => pb.MkNewAddressRequest ""%string ""%string
  | BSVMS_BatchNewAddresses => pb.MkBatchNewAddressesRequest ""%string ""%string 0%Z
  | BSVMS_DeriveAt => pb.MkDeriveAtRequest ""%string ""%string 0%Z 0%Z
  | BSVMS_PubKeyAt => pb.MkPubKeyAtRequest ""%string ""%string 0%Z 0%Z
  | BSVMS_SignHashAt => pb.MkSignHashAtRequest ""%string ""%string 0%Z 0%Z []
  | BSVMS_NextIndex => pb.MkNextIndexRequest ""%string ""%string 0%Z
  | BSVMS_Balance => pb.MkBalanceRequest ""%string ""%string
  | BSVMS_ListUTXOs => pb.MkListUTXOsRequest ""%string ""%string
  | BSVMS_ImportUTXO => pb.MkImportUTXORequest ""%string ""%string ""%string 0%Z 0%Z [] 0%Z false false
  | BSVMS_ProcessRawTx => pb.MkProcessRawTxRequest ""%string ""%string [] 0%Z
  | BSVMS_ClearUTXOs => pb.MkClearUTXOsRequest ""%string ""%string
  | BSVMS_ReloadFromStore => pb.MkReloadFromStoreRequest ""%string ""%string
  | BSVMS_WipeWallet => pb.MkWipeWalletRequest ""%string ""%string
  | BSVMS_PruneUnknownUTXOs => pb.MkPruneUnknownUTXOsRequest ""%string ""%string
  | BSVMS_IgnoreOutpoint => pb.MkIgnoreOutpointRequest ""%string ""%string ""%string 0%Z false
  | BSVMS_IsOutpointIgnored => pb.MkIsOutpointIgnoredRequest ""%string ""%string ""%string 0%Z
  | BSVMS_UntrackUTXO => pb.MkUntrackUTXORequest ""%string ""%string ""%string 0%Z
  | BSVMS_CanCover => pb.MkCanCoverRequest ""%string ""%string 0%Z 0%Z 0%Z
  | BSVMS_Send => pb.MkSendRequest ""%string ""%string ""%string 0%Z
  | BSVMS_SendAll => pb.MkSendAllRequest ""%string ""%string ""%string false
  | BSVMS_SpendToOutputs => pb.MkSpendToOutputsRequest ""%string ""%string [] false []
  | BSVMS_BroadcastCustomSpend => pb.MkBroadcastCustomSpendRequest [] []
  | BSVMS_P2PKHOutput => pb.MkP2PKHOutputRequest ""%string 0%Z
  | BSVMS_OpReturnOutput => pb.MkOpReturnOutputRequest []
  | BSVMS_AnyoneCanSpendOutput => pb.MkAnyoneCanSpendOutputRequest 0%Z
  | BSVMS_ParseTransaction => pb.MkParseTransactionRequest []
  | BSVMS_BroadcastRaw => pb.MkBroadcastRawRequest []
  | BSVMS_ExecuteScript => pb.MkExecuteScriptRequest [] [] [] 0%Z 0%Z false
  | BSVMS_DecodeOutputAddress => pb.MkDecodeOutputAddressRequest []
  | BSVMS_PendingTransactions => pb.MkPendingTransactionsRequest
  | BSVMS_RebroadcastPendingTransactions => pb.MkRebroadcastPendingTransactionsRequest
  | BSVMS_StreamTransactions => pb.MkStreamTransactionsRequest
  | BSVMS_StreamBlocks => pb.MkStreamBlocksRequest
  | BSVMS_StreamPayments => pb.MkStreamPaymentsRequest ""%string ""%string
  | BSVMS_StreamWalletTransactions => pb.MkStreamWalletTransactionsRequest ""%string ""%string
  | BSVMS_StreamP2PTraffic => pb.MkStreamP2PTrafficRequest
  | BSVMS_StreamRejects => pb.MkStreamRejectsRequest
  | BSVMS_TxState => pb.MkTxStateRequest ""%string ""%string ""%string
  | BSVMS_AbandonTransaction => pb.MkAbandonTransactionRequest ""%string ""%string ""%string
  | BSVMS_ClearIgnoredOutpoints => pb.MkClearIgnoredOutpointsRequest ""%string ""%string
  | BSVMS_OwnsScript => pb.MkOwnsScriptRequest ""%string ""%string []
  | BSVMS_VerifyTxSeen => pb.MkVerifyTxSeenRequest ""%string 0%Z 0%Z
  | BSVMS_WaitForTxRelay => pb.MkWaitForTxRelayRequest ""%string 0%Z
  | BSVMS_Rescan => pb.MkRescanRequest ""%string ""%string ""%string 0%Z 0%Z 0%Z 0%Z 0%Z 0%Z 0%Z 0%Z 0%Z 0%Z
  | BSVMS_GetIncompleteCursor => pb.MkGetIncompleteCursorRequest ""%string ""%string
  end.
