(* ===== verification/Sdk.v ===== *)
(** * The external world: bitcoinsv-sdk-go, its SQLite store, and the host

    None of this is code of the repository. The SDK's data types carry the
    fields the service reads or writes, and nothing else is assumed of them.
    Every call the service makes is one constructor of [ext_call], with the
    type of its answer in [ext_ret]; what the world answers is an oracle over
    the whole history of calls, so a theorem about the service holds for every
    behaviour of the SDK, of the disk and of the clock. *)

From S2P Require Import Prelude GoTime Proto.
From Corelib Require Import SpecFloat.

(** ** Types of package [sdk] *)

Module bsv.
Record UTXO := MkUTXO {
  UTXO_TxID : string; UTXO_Vout : Z; UTXO_Value : Z; UTXO_Script : bytes;
  UTXO_Height : Z; UTXO_IsCoinbase : bool }.
Record OutputSpec := MkOutputSpec { OutputSpec_Script : bytes; OutputSpec_Value : Z }.
Record OutPoint := MkOutPoint { OutPoint_Hash : bytes; OutPoint_Index : Z }.
Record CustomInput := MkCustomInput {
  CustomInput_TxID : bytes; CustomInput_Vout : Z; CustomInput_ScriptSig : bytes;
  CustomInput_Sequence : Z }.
Record SpendDetail := MkSpendDetail {
  SpendDetail_TxID : string; SpendDetail_SpentUTXOs : list UTXO;
  SpendDetail_ChangeUTXO : option UTXO; SpendDetail_RawTx : bytes }.
Record DerivedAddress := MkDerivedAddress {
  DerivedAddress_Address : string; DerivedAddress_Path : string; DerivedAddress_PubKey : bytes;
  DerivedAddress_Script : bytes; DerivedAddress_Branch : Z; DerivedAddress_Index : Z }.
Record TxStateInfo := MkTxStateInfo {
  TxState_Height : Z; TxState_Confirmed : bool; TxState_Conflicted : bool }.
Record Cursor := MkCursor {
  Cursor_BlockHash : bytes; Cursor_Height : Z; Cursor_TxDone : Z; Cursor_TxTotal : Z }.
Record PendingTx := MkPendingTx {
  PendingTx_TxID : string; PendingTx_FirstBroadcast : Time; PendingTx_LastBroadcast : Time;
  PendingTx_LastAnnounce : Time; PendingTx_Rebroadcasts : Z }.
Record SnapshotEntry := MkSnapshotEntry { SnapshotEntry_Address : string; SnapshotEntry_Index : Z }.

(** A parsed transaction, through the accessors the service calls. *)
Record TxIn := MkTxIn {
  TxIn_PrevTxID : string; TxIn_PrevVout : Z; TxIn_ScriptSig : bytes; TxIn_IsCoinbase : bool }.
Record TxOut := MkTxOut { TxOut_Value : Z; TxOut_Script : bytes }.
Record Transaction := MkTransaction {
  Transaction_TxID : string; Transaction_Bytes : bytes;
  Transaction_Inputs : list TxIn; Transaction_Outputs : list TxOut }.

Record Payment := MkPayment {
  Payment_TxID : string; Payment_Amount : Z; Payment_Address : string; Payment_Vout : Z;
  Payment_Script : bytes }.
Record OwnedOutput := MkOwnedOutput {
  OwnedOutput_Vout : Z; OwnedOutput_Value : Z; OwnedOutput_Script : bytes;
  OwnedOutput_Address : string }.
Record SpentOutPoint := MkSpentOutPoint { SpentOutPoint_TxID : string; SpentOutPoint_Vout : Z }.
Record InputSpend := MkInputSpend {
  InputSpend_PrevTxID : string; InputSpend_PrevVout : Z; InputSpend_SpendingTxID : string }.
Record Block := MkBlock {
  Block_Hash : string; Block_Height : Z; Block_TxIDs : list string;
  Block_InputSpends : list InputSpend }.
Record P2PTraffic := MkP2PTraffic {
  P2PTraffic_Peer : string; P2PTraffic_Direction : string; P2PTraffic_Command : string;
  P2PTraffic_PayloadBytes : Z; P2PTraffic_Summary : string }.
Record Reject := MkReject {
  Reject_Peer : string; Reject_Command : string; Reject_Code : Z; Reject_CodeName : string;
  Reject_Reason : string; Reject_Hash : string }.

Record RescanOptions := MkRescanOptions {
  Rescan_MaxBlocks : Z; Rescan_HeadersTimeout : Z; Rescan_BlockTimeout : Z;
  Rescan_MaxConsecutiveBlockErrors : Z; Rescan_GCEvery : Z; Rescan_Prefetch : Z;
  Rescan_PrefetchBytes : Z; Rescan_StreamBlockBytes : Z; Rescan_StartHeight : Z }.
Record RescanProgress := MkRescanProgress {
  Progress_Phase : string; Progress_Peer : string; Progress_HeadersSeen : Z;
  Progress_BatchHeaders : Z; Progress_BlocksFetched : Z; Progress_TxsReplayed : Z;
  Progress_Errors : Z; Progress_BlockHash : string; Progress_Message : string }.
Record RescanStats := MkRescanStats {
  Stats_HeadersSeen : Z; Stats_BlocksFetched : Z; Stats_TxsReplayed : Z;
  Stats_StoppedHeight : Z; Stats_PeerSwitches : Z; Stats_Errors : list error;
  Stats_StoppedAt : bytes }.
(** [bsv.NetworkType] *)
Inductive NetworkType := Mainnet | Testnet | STN | Regtest.
End bsv.

(** A [*bsv.Wallet] and a [*walletsqlite.Store]: pointers, told apart by identity. *)
Record wallet_ptr := WalletPtr { wallet_ptr_id : nat }.
Record store_ptr := StorePtr { store_ptr_id : nat }.

#[export] Instance wallet_ptr_eq_dec : EqDecision wallet_ptr.
Proof. solve_decision. Defined.
#[export] Instance store_ptr_eq_dec : EqDecision store_ptr.
Proof. solve_decision. Defined.

(** ** Calls *)

(** What a walk does on its way: a progress that the handler is given, a call of
    the [Checkpoint] callback. *)
Inductive walk_event := Reported (p : bsv.RescanProgress) | Checkpointed.

(** Methods of [*bsv.Wallet]. A callback is known by what its closure captured;
    the answer of [RescanFromHash] has the walk's events, in order. *)
Inductive wallet_call : Type :=
  | SetStore (store : store_ptr)
  | LoadAddressSnapshot (entries : list bsv.SnapshotEntry)
  | SetNextIndices (external change : Z)
  | LoadFromStore
  | SaveAddressSnapshot
  | NextIndices
  | Addresses
  | Selector
  | WOnPayment (tenantID walletID : string)
  | WOnWalletTx (tenantID walletID : string)
  | WBalance
  | BalanceBSV
  | SpendableBalance
  | ImmatureBalance
  | NewDerivedAddress
  | BatchNewDerivedAddresses (count : Z)
  | WDeriveAt (branch index : Z)
  | WPubKeyAt (branch index : Z)
  | WSignHashAt (branch index : Z) (hash : bytes)
  | WNextIndex (branch : Z)
  | UTXOs
  | ForceImportCoin (u : bsv.UTXO)
  | WImportUTXO (txid : string) (vout value : Z) (script : bytes) (height : Z)
  | WProcessRawTx (raw : bytes) (height : Z)
  | WClearUTXOs
  | WReloadFromStore
  | Wipe
  | WPruneUnknownUTXOs
  | WIgnoreOutpoint (txid : string) (vout : Z)
  | WUnignoreOutpoint (txid : string) (vout : Z)
  | WIsOutpointIgnored (txid : string) (vout : Z)
  | WUntrackUTXO (txid : string) (vout : Z)
  | WCanCover (total fee outputs : Z)
  | WSend (address : string) (amount : Z)
  | WSendAll (address : string)
  | SpendToOutputsDetailed (outs : list bsv.OutputSpec)
  | SpendToOutputsDetailedFrom (ins : list bsv.OutPoint) (outs : list bsv.OutputSpec)
  | SpendToOutputsDetailedIgnoringFixed (outs : list bsv.OutputSpec)
  | WTxState (txid : string)
  | WAbandonTransaction (txid : string)
  | WClearIgnoredOutpoints
  | WOwnsScript (script : bytes)
  | WGetIncompleteCursor
  | WRescanFromHash (start : bytes) (opts : bsv.RescanOptions) (checkpointEvery : option Z).

Definition wallet_ret (c : wallet_call) : Type :=
  match c with
  | SetStore _ | LoadAddressSnapshot _ | SetNextIndices _ _ | WOnPayment _ _ | WOnWalletTx _ _
  | WIgnoreOutpoint _ _ | WUnignoreOutpoint _ _ => unit
  | LoadFromStore | WReloadFromStore | Wipe => result Z
  | SaveAddressSnapshot => list bsv.SnapshotEntry
  | NextIndices => Z * Z
  | Addresses => list string
  | Selector => string
  | WBalance | SpendableBalance | ImmatureBalance | WClearUTXOs | WPruneUnknownUTXOs
  | WUntrackUTXO _ _ | WClearIgnoredOutpoints | WNextIndex _ => Z
  | BalanceBSV => spec_float
  | NewDerivedAddress => result bsv.DerivedAddress
  | BatchNewDerivedAddresses _ => result (list bsv.DerivedAddress)
  | WDeriveAt _ _ => result string
  | WPubKeyAt _ _ => result (bytes * string)
  | WSignHashAt _ _ _ => result (bytes * bytes)
  | UTXOs => list bsv.UTXO
  | ForceImportCoin _ | WImportUTXO _ _ _ _ _ | WProcessRawTx _ _ | WCanCover _ _ _
  | WAbandonTransaction _ => result unit
  | WIsOutpointIgnored _ _ | WOwnsScript _ => bool
  | WSend _ _ | WSendAll _ => result string
  | SpendToOutputsDetailed _ | SpendToOutputsDetailedFrom _ _
  | SpendToOutputsDetailedIgnoringFixed _ => result (option bsv.SpendDetail)
  | WTxState _ => result (bsv.TxStateInfo * bool)
  | WGetIncompleteCursor => result (option bsv.Cursor * bool)
  | WRescanFromHash _ _ _ => list walk_event * result (option bsv.RescanStats)
  end.

(** Methods of [*bsv.Node] and functions of package [sdk]. *)
Inductive node_call : Type :=
  | NewNode (network : bsv.NetworkType)
  | NodeConnect
  | NodeDisconnect
  | NodeCreateWallet (name : string)
  | NodeRestoreWallet (name mnemonic passphrase : string)
  | SetBroadcastFanout (n : Z)
  | SetPendingTxTracking (b : bool)
  | Network
  | ChainHeight
  | BestPeerHeight
  | PeerCount
  | PeerHeights
  | NodeConnectPeer (address : string)
  | NodeP2PKHOutput (address : string) (value : Z)
  | SdkOpReturnOutput (data : bytes)
  | SdkAnyoneCanSpendOutput (value : Z)
  | TxIDFromHex (txid : string)
  | SpendCustom (ins : list bsv.CustomInput) (outs : list bsv.OutputSpec)
  | SdkParseTransaction (raw : bytes)
  | NodeBroadcastRaw (raw : bytes)
  | NodeExecuteScript (strict : bool) (sig pubkey : bytes) (tx : option bsv.Transaction) (input amount : Z)
  | NodeDecodeOutputAddress (script : bytes)
  | SenderAddressFromInput (tx : bsv.Transaction) (i : nat)
  | NodePendingTransactions
  | NodeRebroadcastPendingTransactions
  | NodeVerifyTxSeen (txid : string) (peers timeout : Z)
  | NodeWaitForTxRelay (txid : string) (timeout : Z)
  | OnTransaction | OnBlock | OnBlockDisconnected | OnP2PTraffic | OnReject
  | ReadAddressSnapshot (path : string)
  | WriteAddressSnapshot (path : string) (external change : Z) (entries : list bsv.SnapshotEntry).

Definition node_ret (c : node_call) : Type :=
  match c with
  | NodeCreateWallet _ => result (wallet_ptr * string)
  | NodeRestoreWallet _ _ _ => result wallet_ptr
  | NewNode _ | NodeDisconnect | SetBroadcastFanout _ | SetPendingTxTracking _
  | OnTransaction | OnBlock | OnBlockDisconnected | OnP2PTraffic | OnReject => unit
  | Network => string
  | ChainHeight | BestPeerHeight | PeerCount
  | NodeRebroadcastPendingTransactions => Z
  | PeerHeights => gmap string Z
  | NodeConnect | NodeConnectPeer _ => result unit
  | NodeP2PKHOutput _ _ => result bsv.OutputSpec
  | SdkOpReturnOutput _ | SdkAnyoneCanSpendOutput _ => bsv.OutputSpec
  | TxIDFromHex _ => result bytes
  | SpendCustom _ _ | NodeBroadcastRaw _ => result string
  | SdkParseTransaction _ => result bsv.Transaction
  | NodeExecuteScript _ _ _ _ _ _ => result unit
  | NodeDecodeOutputAddress _ | SenderAddressFromInput _ _ => string * bool
  | NodePendingTransactions => list bsv.PendingTx
  | NodeVerifyTxSeen _ _ _ | NodeWaitForTxRelay _ _ => result bool
  | ReadAddressSnapshot _ => result (Z * Z * list bsv.SnapshotEntry)
  | WriteAddressSnapshot _ _ _ _ => result unit
  end.

(** The host: SQLite files, the file system, randomness, the clock, the
    listening socket and the stream of a rescan call. A file
    operation answers [None] when it goes well; a failing read (other than of
    a missing file) answers its message; a failing write may have truncated
    the file and written a prefix of the data ([Some n] bytes). *)
Inductive host_call : Type :=
  | StoreOpen (path : string)
  | StoreClose (store : store_ptr)
  | OsReadFile (path : string)
  | OsWriteFile (path data : string) (perm : Z)
  | OsRename (old new : string)
  | OsMkdirAll (path : string) (perm : Z)
  | RandRead (n : nat)
  | TimeNow
  | Sleep (d : Z)
  | Getwd
  | NetListen (address : string)
  | StreamSend (event : pb.RescanEvent).

Definition host_ret (c : host_call) : Type :=
  match c with
  | StoreOpen _ => result store_ptr
  | StoreClose _ => result unit
  | OsReadFile _ => option string
  | OsWriteFile _ _ _ => option (error * option nat)
  | OsRename _ _ => option error
  | OsMkdirAll _ _ => option error
  | RandRead _ => result bytes
  | TimeNow => Z
  | Sleep _ => unit
  | Getwd => result string
  | NetListen _ | StreamSend _ => result unit
  end.

Inductive ext_call : Type :=
  | WalletCall (w : wallet_ptr) (c : wallet_call)
  | NodeCall (c : node_call)
  | HostCall (c : host_call).

Definition ext_ret (c : ext_call) : Type :=
  match c with
  | WalletCall _ c => wallet_ret c
  | NodeCall c => node_ret c
  | HostCall c => host_ret c
  end.

(** The order [sort.Slice] sorts snapshot entries by. *)
Definition by_index (e e' : bsv.SnapshotEntry) : Prop :=
  (bsv.SnapshotEntry_Index e <= bsv.SnapshotEntry_Index e')%Z.

(** What the world answers to a call, given every call made before it; the
    SDK's constant [bsv.CoinbaseMaturity]; and [sort.Slice], which is not
    stable: it yields some sorted permutation. *)
Class Env := {
  oracle : list ext_call -> forall c : ext_call, ext_ret c;
  coinbase_maturity : Z;
  sort_by_index : list bsv.SnapshotEntry -> list bsv.SnapshotEntry;
  sort_by_index_perm l : sort_by_index l ≡ₚ l;
  sort_by_index_sorted l : StronglySorted by_index (sort_by_index l);
}.
