(* ===== verification/Decode.v ===== *)
(** * Decoding JSON into Go structs

    The part of [json.Unmarshal] that stores an object into a struct of strings
    and integers: fields found by exact, then case-folded name, [null] left as
    it is, every other mismatch a type error. *)

From S2P Require Import Prelude GoStrings Json.

(** ASCII case folding as [foldName] does it, with the two letters outside
    ASCII that fold into it: U+017F to S and U+212A to K. *)
Definition ascii_upper (a : ascii) : ascii :=
  if is_lower a then ascii_of_N (ascii_val a - 32) else a.
Fixpoint fold_name (s : string) : string :=
  match s with
  | String a (String b r as r1) =>
      if byte_is 197 a && byte_is 191 b then String "S" (fold_name r)
      else match r with
      | String c r2 =>
          if byte_is 226 a && byte_is 132 b && byte_is 170 c then String "K" (fold_name r2)
          else String (ascii_upper a) (fold_name r1)
      | EmptyString => String (ascii_upper a) (fold_name r1)
      end
  | String a EmptyString => String (ascii_upper a) ""
  | EmptyString => ""
  end.

(** A struct field: its JSON name and how a value is stored into it. *)
Record field (S : Type) := Field { f_name : string; f_store : json -> S -> result S }.
Arguments Field {S}. Arguments f_name {S}. Arguments f_store {S}.

Definition type_error : error := ENew "json: cannot unmarshal value into Go struct field".

Section decode.
Context {S : Type}.

Definition find_field (fs : list (field S)) (key : string) : option (field S) :=
  match List.find (fun f => String.eqb (f_name f) key) fs with
  | Some f => Some f
  | None => List.find (fun f => String.eqb (fold_name (f_name f)) (fold_name key)) fs
  end.

Fixpoint decode_members (fs : list (field S)) (kvs : list (string * json)) (s : S) : result S :=
  match kvs with
  | [] => Ok s
  | (key, v) :: rest =>
      s ← match find_field fs key with Some f => f_store f v s | None => Ok s end;
      decode_members fs rest s
  end.

Definition decode_struct (fs : list (field S)) (j : json) (s : S) : result S :=
  match j with
  | JNull => Ok s
  | JObj kvs => decode_members fs kvs s
  | _ => Err type_error
  end.

Definition string_field (name : string) (set : string -> S -> S) : field S :=
  Field name (fun j s => match j with
    | JNull => Ok s
    | JStr v => Ok (set v s)
    | _ => Err type_error
    end).

Definition int64_field (name : string) (set : Z -> S -> S) : field S :=
  Field name (fun j s => match j with
    | JNull => Ok s
    | JNum lit => match atoi lit with Some v => Ok (set v s) | None => Err type_error end
    | _ => Err type_error
    end).

(** A slice of structs: [null] is the nil slice, elements start from zero. *)
Definition slice_field {T} (name : string) (elem : json -> result T) (set : list T -> S -> S) : field S :=
  Field name (fun j s => match j with
    | JNull => Ok (set [] s)
    | JArr l =>
        vs ← foldr (fun x acc => v ← elem x; vs ← acc; Ok (v :: vs)) (Ok []) l;
        Ok (set vs s)
    | _ => Err type_error
    end).
End decode.

Example fold_name_ex : fold_name "Tenant_ID" = fold_name "tenant_id".
Proof. reflexivity. Qed.

Lemma slice_elems {T U} (elem : json -> result T) (enc : U -> json) (dec : U -> T) l :
  (forall x, elem (enc x) = Ok (dec x)) ->
  foldr (fun x acc => v ← elem x; vs ← acc; Ok (v :: vs)) (Ok []) (enc <$> l) = Ok (dec <$> l).
Proof. intros He. induction l as [|x l IH]; [done|]. cbn. rewrite He. cbn in *. by rewrite IH. Qed.
