(* ===== verification/Ids.v ===== *)
(** * Tenant and wallet identifiers

    The identifier rules and the names derived from a tenant and wallet id in
    internal/service/service.go: [idRE], [validateTenant],
    [validateTenantWallet], [walletKey], [sdkWalletName] and the stream filter
    [matches]. *)

From S2P Require Import Prelude GoStrings Encoding Crypto.

(** [status.Error(codes.InvalidArgument, msg)] and the wrapping of any other
    error as [codes.Internal]. *)
Definition invalid (msg : string) : error := EStatus InvalidArgument msg.
Definition internal (e : error) : error := EStatus Internal (error_string e).

(** [idRE]: ^[A-Za-z0-9][A-Za-z0-9_.-]{0,127}$ *)
Definition id_char (a : ascii) : bool :=
  is_alnum a || Ascii.eqb a "_" || Ascii.eqb a "." || Ascii.eqb a "-".
Definition idRE_MatchString (s : string) : bool :=
  match s with
  | EmptyString => false
  | String a r => is_alnum a && str_forall id_char r && (String.length r <=? 127)%nat
  end.

Definition validateTenant (tenantID : string) : result unit :=
  reject_if (negb (idRE_MatchString tenantID))
    (invalid "tenant_id must match [A-Za-z0-9][A-Za-z0-9_.-]{0,127}").
Definition validateTenantWallet (tenantID walletID : string) : result unit :=
  _ ← validateTenant tenantID;
  reject_if (negb (idRE_MatchString walletID))
    (invalid "wallet_id must match [A-Za-z0-9][A-Za-z0-9_.-]{0,127}").

Definition nul : ascii := "000"%char.
Definition walletKey (tenantID walletID : string) : string := tenantID +:+ String nul walletID.

Section names.
Context `{Hash}.
Definition sdkWalletName (tenantID walletID : string) : string :=
  let sum := hash256 (bytes_of_string (tenantID +:+ String nul walletID)) in
  "bsvms:" +:+ hex_encode (take 16 sum).
End names.

Definition matches (reqTenant reqWallet tenant wallet : string) : bool :=
  if negb (String.eqb reqTenant "") && negb (String.eqb reqTenant tenant) then false
  else if negb (String.eqb reqWallet "") && negb (String.eqb reqWallet wallet) then false
  else true.

(** ** Lemmas *)

Lemma is_alnum_id a : is_alnum a = true -> id_char a = true.
Proof. unfold id_char. by intros ->. Qed.

Lemma id_chars s : idRE_MatchString s = true -> str_forall id_char s = true.
Proof.
  destruct s as [|a r]; [done|]. cbn. rewrite !andb_true_iff. intros ((Ha & Hr) & _).
  by rewrite is_alnum_id, Hr.
Qed.

Lemma id_nonempty s : idRE_MatchString s = true -> s <> "".
Proof. by destruct s. Qed.

(** A character class check over all 256 characters. *)
Lemma ascii_forall (p : ascii -> bool) :
  forallb (fun n => p (ascii_of_nat n)) (seq 0 256) = true -> forall a, p a = true.
Proof.
  rewrite forallb_forall. intros H a. rewrite <- (ascii_nat_embedding a). apply H.
  apply in_seq. pose proof (nat_ascii_bounded a). lia.
Qed.

Lemma id_char_not_nul a : id_char a = true -> negb (Ascii.eqb a nul) = true.
Proof.
  intros Ha. pose proof (ascii_forall (fun a => implb (id_char a) (negb (Ascii.eqb a nul)))
    ltac:(by vm_compute) a) as H. cbn beta in H. by rewrite Ha in H.
Qed.

Lemma id_lacks_nul s : idRE_MatchString s = true -> lacks nul s = true.
Proof. intros H. eapply str_forall_impl; [apply id_char_not_nul | by apply id_chars]. Qed.

Lemma validateTenant_ok t u : validateTenant t = Ok u <-> idRE_MatchString t = true.
Proof. unfold validateTenant. by rewrite reject_if_ok, negb_false_iff. Qed.

Lemma validateTenantWallet_ok t w u : validateTenantWallet t w = Ok u <->
  idRE_MatchString t = true /\ idRE_MatchString w = true.
Proof.
  unfold validateTenantWallet, validateTenant. destruct u.
  destruct (idRE_MatchString t), (idRE_MatchString w); cbn; naive_solver.
Qed.

Lemma walletKey_inj t w t' w' : lacks nul t = true -> lacks nul t' = true ->
  walletKey t w = walletKey t' w' -> t = t' /\ w = w'.
Proof.
  unfold walletKey. revert t'. induction t as [|a t IH]; intros [|a' t']; cbn [append].
  - by intros _ _ [= ->].
  - rewrite lacks_cons. intros _ [Ha _]%andb_true_iff [= <- _]. by rewrite Ascii.eqb_refl in Ha.
  - rewrite lacks_cons. intros [Ha _]%andb_true_iff _ [= -> _]. by rewrite Ascii.eqb_refl in Ha.
  - rewrite !lacks_cons. intros [_ Ht]%andb_true_iff [_ Ht']%andb_true_iff [= <- E].
    by destruct (IH t' Ht Ht' E) as [-> ->].
Qed.

Lemma matches_true rt rw t w : matches rt rw t w = true <->
  (rt = "" \/ rt = t) /\ (rw = "" \/ rw = w).
Proof.
  unfold matches. destruct (String.eqb_spec rt ""), (String.eqb_spec rt t),
    (String.eqb_spec rw ""), (String.eqb_spec rw w); cbn; split; try tauto; done.
Qed.
