(* ===== verification/Broker.v ===== *)
(** * Event brokers

    [broker], [subscribe], [unsubscribe] and [publish] of
    internal/service/service.go. Channels live in a store, so a channel that a
    subscriber holds and the broker closes is one object; an operation that
    would panic (send on a closed channel, close of a closed channel) is
    [None]. [b.mu] guards the table of subscribers: [subscribe], the loop of
    [publish] and the first half of [unsubscribe], which takes the subscriber out
    ([unsubscribe_locked]). Its second half closes the channel after the mutex was
    released ([unsubscribe_close]), and receivers never take it. Streams
    interleaves these pieces. *)

From S2P Require Import Prelude.

Definition chan_cap : nat := 64.

Section broker.
Context {T : Type}.

Record chan := MkChan { ch_buf : list T; ch_closed : bool }.

Record broker := MkBroker {
  nextID : nat;
  subs : gmap nat nat;
  chans : list chan;
}.

Definition newBroker : broker := {| nextID := 0; subs := ∅; chans := [] |}.

(** The subscription's id, its channel, and the broker after. *)
Definition subscribe (b : broker) : nat * nat * broker :=
  let id := nextID b in
  let ch := length (chans b) in
  (id, ch,
   {| nextID := S (nextID b);
      subs := <[id := ch]> (subs b);
      chans := chans b ++ [{| ch_buf := []; ch_closed := false |}] |}).

(** [close(ch)] of the channel at [l]. *)
Definition close (ch : chan) : option chan :=
  if ch_closed ch then None else Some {| ch_buf := ch_buf ch; ch_closed := true |}.

(** [unsubscribe] up to [b.mu.Unlock()]: what the table had, [nil] if nothing. *)
Definition unsubscribe_locked (id : nat) (b : broker) : option nat * broker :=
  (subs b !! id, {| nextID := nextID b; subs := delete id (subs b); chans := chans b |}).
(** The rest of it, without the mutex: [if ch != nil { close(ch) }]. *)
Definition unsubscribe_close (ch : option nat) (b : broker) : option broker :=
  match ch with
  | None => Some b
  | Some l =>
      c ← chans b !! l;
      c ← close c;
      Some {| nextID := nextID b; subs := subs b; chans := <[l := c]> (chans b) |}
  end.

(** [select { case ch <- v: default: }] *)
Definition send_or_drop (v : T) (ch : chan) : option chan :=
  if ch_closed ch then None
  else if (length (ch_buf ch) <? chan_cap)%nat
  then Some {| ch_buf := ch_buf ch ++ [v]; ch_closed := false |}
  else Some ch.

Definition send_to (v : T) (l : nat) (cs : list chan) : option (list chan) :=
  c ← cs !! l; c ← send_or_drop v c; Some (<[l := c]> cs).

(** The loop of [publish] over the channels in one iteration order. *)
Fixpoint publish_in (v : T) (order : list nat) (cs : list chan) : option (list chan) :=
  match order with
  | [] => Some cs
  | l :: rest => cs ← send_to v l cs; publish_in v rest cs
  end.

Definition publish (v : T) (b : broker) : option broker :=
  cs ← publish_in v ((map_to_list (subs b)).*2) (chans b);
  Some {| nextID := nextID b; subs := subs b; chans := cs |}.

(** One turn of that loop, at the channel [l]. *)
Definition publish_one (v : T) (l : nat) (b : broker) : option broker :=
  cs ← send_to v l (chans b); Some {| nextID := nextID b; subs := subs b; chans := cs |}.

(** [v, ok := <-ch]: [None] blocks, [Some (None, _)] is a closed, drained channel. *)
Definition receive (l : nat) (b : broker) : option (option T * broker) :=
  c ← chans b !! l;
  match ch_buf c with
  | v :: rest =>
      Some (Some v, {| nextID := nextID b; subs := subs b;
                       chans := <[l := {| ch_buf := rest; ch_closed := ch_closed c |}]> (chans b) |})
  | [] => if ch_closed c then Some (None, b) else None
  end.
End broker.
Arguments chan : clear implicits.
Arguments broker : clear implicits.

(** ** The broker's invariant *)

Section invariant.
Context {T : Type}.
Implicit Types b : broker T.

(** Subscriptions are of ids handed out, each on an open channel of its own. *)
Record broker_ok (b : broker T) : Prop := {
  ok_id : forall id l, subs b !! id = Some l -> (id < nextID b)%nat;
  ok_open : forall id l, subs b !! id = Some l ->
    exists buf, chans b !! l = Some {| ch_buf := buf; ch_closed := false |};
  ok_inj : forall i j l, subs b !! i = Some l -> subs b !! j = Some l -> i = j;
}.

Definition offer (v : T) (buf : list T) : list T :=
  if (length buf <? chan_cap)%nat then buf ++ [v] else buf.

Lemma send_or_drop_open (v : T) buf :
  send_or_drop v {| ch_buf := buf; ch_closed := false |} =
  Some {| ch_buf := offer v buf; ch_closed := false |}.
Proof. unfold send_or_drop, offer. cbn [ch_closed ch_buf]. by destruct (_ <? _)%nat. Qed.

(** One pass over distinct open channels offers the value to each, once. *)
Lemma publish_in_spec v order (cs : list (chan T)) :
  NoDup order ->
  (forall l, l ∈ order -> exists buf, cs !! l = Some {| ch_buf := buf; ch_closed := false |}) ->
  exists cs', publish_in v order cs = Some cs' /\ length cs' = length cs /\
    forall l, cs' !! l = if decide (l ∈ order)
      then (fun c => {| ch_buf := offer v (ch_buf c); ch_closed := false |}) <$> cs !! l
      else cs !! l.
Proof.
  revert cs. induction order as [|l order IH]; intros cs Hn Ho.
  - exists cs. by repeat split.
  - apply NoDup_cons in Hn as [Hl Hn]. destruct (Ho l) as [buf Hb]; [set_solver|].
    cbn [publish_in]. unfold send_to. rewrite Hb. cbn [mbind option_bind].
    rewrite send_or_drop_open. cbn [mbind option_bind].
    destruct (IH (<[l := {| ch_buf := offer v buf; ch_closed := false |}]> cs)) as (cs' & E & El & Hcs');
      [done| |].
    { intros l' Hl'. rewrite list_lookup_insert_ne by set_solver. apply Ho. set_solver. }
    exists cs'. split; [done|]. split; [by rewrite El, length_insert|].
    intros l'. rewrite Hcs'. destruct (decide (l' = l)) as [->|Hne].
    + rewrite decide_False, decide_True by set_solver. rewrite list_lookup_insert_eq, Hb; [done|].
      by eapply lookup_lt_Some.
    + rewrite list_lookup_insert_ne by done. destruct (decide (l' ∈ order)).
      * by rewrite decide_True by set_solver.
      * by rewrite decide_False by set_solver.
Qed.

Lemma subs_locs_NoDup b : broker_ok b -> NoDup ((map_to_list (subs b)).*2).
Proof.
  intros Hb. apply NoDup_fmap_2_strong; [|apply NoDup_map_to_list].
  intros [i l] [j l'] Hi Hj. cbn. intros <-. apply elem_of_map_to_list in Hi, Hj.
  by rewrite (ok_inj _ Hb i j l).
Qed.

Lemma elem_of_subs_locs b l :
  l ∈ (map_to_list (subs b)).*2 <-> exists id, subs b !! id = Some l.
Proof.
  rewrite list_elem_of_fmap. split.
  - intros ([id l'] & -> & H%elem_of_map_to_list). by exists id.
  - intros [id H]. exists (id, l). split; [done|]. by apply elem_of_map_to_list.
Qed.

(** Publishing never panics, and does not depend on the iteration order. *)
Lemma publish_any_order b v order :
  broker_ok b -> order ≡ₚ (map_to_list (subs b)).*2 ->
  publish_in v order (chans b) = publish_in v ((map_to_list (subs b)).*2) (chans b).
Proof.
  intros Hb Hp. pose proof (subs_locs_NoDup _ Hb) as Hn.
  assert (forall l, l ∈ (map_to_list (subs b)).*2 ->
    exists buf, chans b !! l = Some {| ch_buf := buf; ch_closed := false |}) as Ho.
  { intros l [id Hid]%elem_of_subs_locs. by eapply ok_open. }
  destruct (publish_in_spec v _ _ Hn Ho) as (cs & -> & _ & Hcs).
  destruct (publish_in_spec v order (chans b)) as (cs' & -> & _ & Hcs').
  - by rewrite Hp.
  - intros l. rewrite Hp. apply Ho.
  - f_equal. apply list_eq. intros l. rewrite Hcs, Hcs'.
    by rewrite (decide_ext (l ∈ order) (l ∈ (map_to_list (subs b)).*2)) by (by rewrite Hp).
Qed.

Lemma publish_spec b v : broker_ok b -> exists b', publish v b = Some b' /\
  nextID b' = nextID b /\ subs b' = subs b /\ length (chans b') = length (chans b) /\
  forall l, chans b' !! l = if decide (l ∈ (map_to_list (subs b)).*2)
    then (fun c => {| ch_buf := offer v (ch_buf c); ch_closed := false |}) <$> chans b !! l
    else chans b !! l.
Proof.
  intros Hb. destruct (publish_in_spec v ((map_to_list (subs b)).*2) (chans b)) as (cs & E & El & Hcs).
  - by apply subs_locs_NoDup.
  - intros l [id Hid]%elem_of_subs_locs. by eapply ok_open.
  - unfold publish. rewrite E. eexists. split; [done|]. repeat (split; [done|]). cbn.
    done.
Qed.
End invariant.

(** ** Preservation *)

Section preservation.
Context {T : Type}.
Implicit Types b : broker T.

Lemma newBroker_ok : broker_ok (newBroker : broker T).
Proof. by split. Qed.

Lemma ok_loc_lt b id l : broker_ok b -> subs b !! id = Some l -> (l < length (chans b))%nat.
Proof. intros Hb Hid. destruct (ok_open _ Hb _ _ Hid) as [buf H]. by eapply lookup_lt_Some. Qed.

Lemma subscribe_ok b id ch b' : broker_ok b -> subscribe b = (id, ch, b') ->
  broker_ok b' /\ subs b !! id = None /\ subs b' = <[id := ch]> (subs b) /\
  chans b' !! ch = Some {| ch_buf := []; ch_closed := false |} /\
  (forall l, (l < length (chans b))%nat -> chans b' !! l = chans b !! l).
Proof.
  intros Hb [= <- <- <-]. cbn.
  assert (subs b !! nextID b = None) as Hfresh.
  { destruct (subs b !! nextID b) eqn:E; [|done]. apply (ok_id _ Hb) in E. lia. }
  split; [|repeat split; [done| |]].
  - split; cbn.
    + intros id l [[<- <-]|[_ H]]%lookup_insert_Some; [lia|]. apply (ok_id _ Hb) in H. lia.
    + intros id l [[<- <-]|[_ H]]%lookup_insert_Some.
      * exists []. by rewrite lookup_app_r, Nat.sub_diag by lia.
      * rewrite lookup_app_l by (by eapply ok_loc_lt). by eapply ok_open.
    + intros i j l [[<- <-]|[_ Hi]]%lookup_insert_Some [[<- E]|[_ Hj]]%lookup_insert_Some; try done.
      * apply (ok_loc_lt _ _ _ Hb) in Hj. lia.
      * subst. apply (ok_loc_lt _ _ _ Hb) in Hi. lia.
      * by eapply ok_inj.
  - by rewrite lookup_app_r, Nat.sub_diag by lia.
  - intros l Hl. by rewrite lookup_app_l.
Qed.

Lemma unsubscribe_locked_ok b id ch b' : broker_ok b -> unsubscribe_locked id b = (ch, b') ->
  broker_ok b' /\ ch = subs b !! id /\ subs b' = delete id (subs b) /\ chans b' = chans b.
Proof.
  intros Hb [= <- <-]. split; [|done]. split; cbn.
  - intros i l [_ Hi]%lookup_delete_Some. by apply (ok_id _ Hb) in Hi.
  - intros i l [_ Hi]%lookup_delete_Some. by eapply ok_open.
  - intros i j l [_ Hi]%lookup_delete_Some [_ Hj]%lookup_delete_Some. by eapply ok_inj.
Qed.

(** Closing an open channel that nobody is subscribed on any more. *)
Lemma unsubscribe_close_ok b l buf : broker_ok b -> (forall id, subs b !! id <> Some l) ->
  chans b !! l = Some {| ch_buf := buf; ch_closed := false |} ->
  exists b', unsubscribe_close (Some l) b = Some b' /\ broker_ok b' /\ subs b' = subs b /\
    length (chans b') = length (chans b) /\ forall l', l' <> l -> chans b' !! l' = chans b !! l'.
Proof.
  intros Hb Hn Hl. unfold unsubscribe_close. rewrite Hl. cbn. eexists. split; [done|]. cbn.
  split; [|split; [done|split; [by rewrite length_insert|intros l' Hne; by apply list_lookup_insert_ne]]].
  split; cbn; [apply ok_id, Hb| |apply ok_inj, Hb].
  intros id l' Hid. rewrite list_lookup_insert_ne by (intros <-; by eapply Hn). by eapply ok_open.
Qed.

(** A turn of the loop of [publish], at a subscribed channel. *)
Lemma publish_one_ok b v id l : broker_ok b -> subs b !! id = Some l -> exists buf b',
  chans b !! l = Some {| ch_buf := buf; ch_closed := false |} /\
  publish_one v l b = Some b' /\ broker_ok b' /\ subs b' = subs b /\ nextID b' = nextID b /\
  chans b' = <[l := {| ch_buf := offer v buf; ch_closed := false |}]> (chans b).
Proof.
  intros Hb Hid. destruct (ok_open _ Hb _ _ Hid) as [buf Hl]. exists buf. unfold publish_one, send_to.
  rewrite Hl. cbn [mbind option_bind]. rewrite send_or_drop_open. cbn [mbind option_bind].
  eexists. split; [done|]. split; [done|]. split; [|done]. split; cbn; [apply ok_id, Hb| |apply ok_inj, Hb].
  intros i l' Hi. destruct (decide (l' = l)) as [->|Hne].
  - rewrite list_lookup_insert_eq by (by eapply lookup_lt_Some). by eexists.
  - rewrite list_lookup_insert_ne by done. by eapply ok_open.
Qed.

Lemma publish_ok b v b' : broker_ok b -> publish v b = Some b' -> broker_ok b'.
Proof.
  intros Hb Hp. destruct (publish_spec b v Hb) as (b1 & E & En & Es & _ & Hc). simplify_eq.
  split; rewrite ?En, ?Es.
  - apply ok_id, Hb.
  - intros id l Hid. rewrite Hc. rewrite decide_True by (apply elem_of_subs_locs; by exists id).
    destruct (ok_open _ Hb _ _ Hid) as [buf ->]. by eexists.
  - apply ok_inj, Hb.
Qed.

Lemma receive_inv b l r b' : receive l b = Some (r, b') ->
  nextID b' = nextID b /\ subs b' = subs b /\
  exists c, chans b !! l = Some c /\
    match r with
    | Some v => exists rest, ch_buf c = v :: rest /\
        chans b' = <[l := {| ch_buf := rest; ch_closed := ch_closed c |}]> (chans b)
    | None => ch_buf c = [] /\ ch_closed c = true /\ b' = b
    end.
Proof.
  unfold receive. destruct (chans b !! l) as [c|]; [|done]. cbn.
  destruct (ch_buf c) as [|v rest] eqn:E; [destruct (ch_closed c) eqn:Ec; [|done]|];
    intros [= <- <-]; eauto 10.
Qed.

Lemma receive_ok b l r b' : broker_ok b -> receive l b = Some (r, b') -> broker_ok b'.
Proof.
  intros Hb (En & Es & c & Hc & Hr)%receive_inv. destruct r as [v|]; [|by destruct Hr as (_ & _ & ->)].
  destruct Hr as (rest & _ & E). split; rewrite ?En, ?Es, ?E.
  - apply ok_id, Hb.
  - intros id l' Hid. destruct (ok_open _ Hb _ _ Hid) as [buf Hl].
    destruct (decide (l' = l)) as [->|Hne].
    + simplify_eq. rewrite list_lookup_insert_eq by (by eapply lookup_lt_Some). by eexists.
    + rewrite list_lookup_insert_ne by done. by eexists.
  - apply ok_inj, Hb.
Qed.
End preservation.
