(* ===== verification/Streams.v ===== *)
(** * Streams over a broker

    [streamFiltered] and [streamAll] of internal/service/service.go as a step
    relation: any number of streams are open on one broker. What holds [b.mu] is
    [sys_pub], a publication that is under way, its loop going from channel to
    channel: while there is one, nobody subscribes, is taken out of the table or
    begins to publish, but receptions, cancellations and the closing of channels
    go on between the turns of its loop, in any order. A run is its list of
    labels, latest first. *)

From S2P Require Import Prelude Broker.

(** Where a call of [streamFiltered] is. *)
Inductive phase :=
  | Looping                      (* in the for loop *)
  | Leaving                      (* returning: the deferred [unsubscribe] is to take [b.mu] *)
  | Unlisted (ch : option nat)   (* [unsubscribe] has released [b.mu]; its local [ch] *)
  | Ended.
#[export] Instance phase_eq_dec : EqDecision phase.
Proof. solve_decision. Defined.
Definition listed (p : phase) : bool := match p with Looping | Leaving => true | _ => false end.
Definition live (p : phase) : bool := match p with Ended => false | _ => true end.

Section streams.
Context {T : Type}.

(** The frame of one [streamFiltered] call, with what it sent so far. *)
Record stream := MkStream {
  st_id : nat; st_ch : nat; st_keep : T -> bool; st_sent : list T; st_phase : phase }.

Definition sent_one (v : T) (st : stream) : stream :=
  {| st_id := st_id st; st_ch := st_ch st; st_keep := st_keep st;
     st_sent := st_sent st ++ [v]; st_phase := st_phase st |}.
Definition at_phase (p : phase) (st : stream) : stream :=
  {| st_id := st_id st; st_ch := st_ch st; st_keep := st_keep st;
     st_sent := st_sent st; st_phase := p |}.

(** The publication that holds [b.mu], if there is one: its value and the channels
    its loop has still to visit. *)
Record sys := MkSys {
  sys_broker : broker T; sys_streams : gmap nat stream; sys_pub : option (T * list nat) }.

Inductive label :=
  | LOpen (k : nat) (keep : T -> bool)   (* a call of streamFiltered *)
  | LPublish (v : T)                     (* publish: b.mu.Lock() *)
  | LOffer                               (* one turn of its loop *)
  | LPublished                           (* b.mu.Unlock() *)
  | LRecv (k : nat) (sent : bool)        (* one receive; whether send succeeds *)
  | LCancel (k : nat)                    (* ctx.Done() is chosen *)
  | LUnlist (k : nat)                    (* unsubscribe, up to b.mu.Unlock() *)
  | LClose (k : nat).                    (* close(ch) *)

Definition init : sys := {| sys_broker := newBroker; sys_streams := ∅; sys_pub := None |}.

(** One iteration of the loop of [streamFiltered], given what was received:
    [None] means the function returns. *)
Definition loop_body (st : stream) (r : option T) (send_ok : bool) : option stream :=
  match r with
  | None => None
  | Some v =>
      if st_keep st v then (if send_ok then Some (sent_one v st) else None) else Some st
  end.

Inductive step : sys -> label -> sys -> Prop :=
  | step_open b m k keep id ch b' :
      m !! k = None -> subscribe b = (id, ch, b') ->
      step (MkSys b m None) (LOpen k keep) (MkSys b' (<[k := MkStream id ch keep [] Looping]> m) None)
  | step_publish b m v order :
      order ≡ₚ (map_to_list (subs b)).*2 ->
      step (MkSys b m None) (LPublish v) (MkSys b m (Some (v, order)))
  | step_offer b m v l rest b' :
      publish_one v l b = Some b' ->
      step (MkSys b m (Some (v, l :: rest))) LOffer (MkSys b' m (Some (v, rest)))
  | step_published b m v :
      step (MkSys b m (Some (v, []))) LPublished (MkSys b m None)
  | step_recv b m p k ok st r b' st' :
      m !! k = Some st -> st_phase st = Looping -> receive (st_ch st) b = Some (r, b') ->
      loop_body st r ok = Some st' ->
      step (MkSys b m p) (LRecv k ok) (MkSys b' (<[k := st']> m) p)
  | step_recv_return b m p k ok st r b' :
      m !! k = Some st -> st_phase st = Looping -> receive (st_ch st) b = Some (r, b') ->
      loop_body st r ok = None ->
      step (MkSys b m p) (LRecv k ok) (MkSys b' (<[k := at_phase Leaving st]> m) p)
  | step_cancel b m p k st :
      m !! k = Some st -> st_phase st = Looping ->
      step (MkSys b m p) (LCancel k) (MkSys b (<[k := at_phase Leaving st]> m) p)
  | step_unlist b m k st ch b' :
      m !! k = Some st -> st_phase st = Leaving -> unsubscribe_locked (st_id st) b = (ch, b') ->
      step (MkSys b m None) (LUnlist k) (MkSys b' (<[k := at_phase (Unlisted ch) st]> m) None)
  | step_close b m p k st ch b' :
      m !! k = Some st -> st_phase st = Unlisted ch -> unsubscribe_close ch b = Some b' ->
      step (MkSys b m p) (LClose k) (MkSys b' (<[k := at_phase Ended st]> m) p).

Inductive run : list label -> sys -> Prop :=
  | run_init : run [] init
  | run_step tr s l s' : run tr s -> step s l s' -> run (l :: tr) s'.

(** A goroutine is at an operation that panics: a publisher at the send to a
    channel that is closed (or was never made), a stream at the close of one. *)
Inductive panics (s : sys) : Prop :=
  | panic_send v l rest : sys_pub s = Some (v, l :: rest) -> publish_one v l (sys_broker s) = None -> panics s
  | panic_close k st ch : sys_streams s !! k = Some st -> st_phase st = Unlisted ch ->
      unsubscribe_close ch (sys_broker s) = None -> panics s.

(** What was published since stream [k] subscribed, what is under way included. *)
Fixpoint published (k : nat) (tr : list label) : list T :=
  match tr with
  | [] => []
  | LOpen k' _ :: tr => if bool_decide (k' = k) then [] else published k tr
  | LPublish v :: tr => published k tr ++ [v]
  | _ :: tr => published k tr
  end.
(** What a publication under way has still to offer to the channel [l]. *)
Definition pending (p : option (T * list nat)) (l : nat) : list T :=
  match p with Some (v, rest) => if bool_decide (l ∈ rest) then [v] else [] | None => [] end.

(** ** Invariant *)

Definition keep_list (st : stream) (l : list T) : list T := List.filter (st_keep st) l.
Definition is_open (b : broker T) (l : nat) : Prop := exists buf, chans b !! l = Some (MkChan buf false).

(** Streams have channels of their own. They are subscribed until taken out of the
    table, and then hold the channel, still open, that nobody else knows; and a
    publication under way visits subscribed channels, each once. *)
Record sys_ok (s : sys) : Prop := {
  sys_broker_ok : broker_ok (sys_broker s);
  sys_sub : forall k st, sys_streams s !! k = Some st -> listed (st_phase st) = true ->
    subs (sys_broker s) !! st_id st = Some (st_ch st);
  sys_unlisted : forall k st ch, sys_streams s !! k = Some st -> st_phase st = Unlisted ch ->
    ch = Some (st_ch st) /\ is_open (sys_broker s) (st_ch st) /\
    forall id, subs (sys_broker s) !! id <> Some (st_ch st);
  sys_inj : forall k k' st st', sys_streams s !! k = Some st -> sys_streams s !! k' = Some st' ->
    live (st_phase st) = true -> live (st_phase st') = true -> st_ch st = st_ch st' -> k = k';
  sys_pub_ok : forall v rest, sys_pub s = Some (v, rest) ->
    NoDup rest /\ forall l, l ∈ rest -> exists id, subs (sys_broker s) !! id = Some l;
}.

(** Where a stream stands with respect to the values [pub] published since it
    opened: [taken] of them fitted into its channel. *)
Definition progress (pub : list T) (s : sys) (st : stream) : Prop :=
  match st_phase st with
  | Looping => exists buf got,
      chans (sys_broker s) !! st_ch st = Some (MkChan buf false) /\ st_sent st = keep_list st got /\
      (got ++ buf) ++ pending (sys_pub s) (st_ch st) `sublist_of` pub /\
      ((length pub <= chan_cap)%nat -> (got ++ buf) ++ pending (sys_pub s) (st_ch st) = pub)
  | _ => st_sent st `sublist_of` keep_list st pub
  end.
End streams.
Arguments stream : clear implicits.
Arguments sys : clear implicits.
Arguments label : clear implicits.

Section preservation.
Context {T : Type}.
Implicit Types (s : sys T) (st : stream T) (b : broker T).

Lemma loop_body_same st st' r ok : loop_body st r ok = Some st' ->
  st_id st' = st_id st /\ st_ch st' = st_ch st /\ st_phase st' = st_phase st /\
  st_keep st' = st_keep st /\
  exists v, r = Some v /\ st_sent st' = st_sent st ++ keep_list st [v].
Proof.
  unfold loop_body, keep_list. destruct r as [v|]; [|done]. cbn.
  destruct (st_keep st v) eqn:Ek; [destruct ok; [|done]|]; intros [= <-];
    do 4 (split; [done|]); exists v; (split; [done|]); rewrite Ek, ?app_nil_r; done.
Qed.

Lemma sys_ok_init : sys_ok (init : sys T).
Proof.
  split; cbn; [apply newBroker_ok|..|done].
  - by intros k st ?%lookup_empty_Some.
  - by intros k st ch ?%lookup_empty_Some.
  - by intros k k' st st' ?%lookup_empty_Some.
Qed.

(** The broker changes, but not its table, and closes nothing. *)
Lemma sys_ok_table b b' m p : sys_ok (MkSys b m p) -> broker_ok b' -> subs b' = subs b ->
  (forall l, is_open b l -> is_open b' l) -> sys_ok (MkSys b' m p).
Proof.
  intros [Hb Hs Hu Hi Hp] Hb' Es Ho. cbn in *. split; cbn; [done| | |done|]; rewrite ?Es; [done| |done].
  intros k st ch Hk Hd. destruct (Hu k st ch Hk Hd) as (? & ? & ?). auto.
Qed.
(** A stream goes on while it is listed. *)
Lemma sys_ok_stream b m p k st st' : sys_ok (MkSys b m p) -> m !! k = Some st ->
  listed (st_phase st) = true -> listed (st_phase st') = true -> st_id st' = st_id st -> st_ch st' = st_ch st ->
  sys_ok (MkSys b (<[k := st']> m) p).
Proof.
  intros [Hb Hs Hu Hi Hp] Hk Hd Hd' Ei Ec. cbn in *.
  assert (forall p : phase, listed p = true -> live p = true) as Hlive by (by intros []).
  split; cbn; [done| | | |done].
  - intros k' st1 [[<- <-]|[_ Hk']]%lookup_insert_Some Hl; [|by eapply Hs]. rewrite Ei, Ec. by eapply Hs.
  - intros k' st1 ch [[<- <-]|[_ Hk']]%lookup_insert_Some El; [by rewrite El in Hd'|by eapply Hu].
  - intros k1 k2 st1 st2 [[<- <-]|[_ H1]]%lookup_insert_Some [[<- <-]|[_ H2]]%lookup_insert_Some;
      rewrite ?Ec; intros; eauto.
Qed.

Lemma receive_open b l r b' l' : receive l b = Some (r, b') -> is_open b l' -> is_open b' l'.
Proof.
  intros (_ & _ & c & Hc & Hr)%receive_inv [buf Hl]. destruct r as [v|]; [|destruct Hr as (_ & _ & ->); by exists buf].
  destruct Hr as (rest & Eb & E). unfold is_open. rewrite E. destruct (decide (l' = l)) as [->|Hne].
  - rewrite list_lookup_insert_eq by (by eapply lookup_lt_Some). simplify_eq. by exists rest.
  - rewrite list_lookup_insert_ne by done. by exists buf.
Qed.
Lemma sys_ok_receive b m p k st r b' : sys_ok (MkSys b m p) -> receive (st_ch st) b = Some (r, b') ->
  m !! k = Some st -> st_phase st = Looping -> sys_ok (MkSys b' m p).
Proof.
  intros Hok Hr _ _. pose proof (sys_broker_ok _ Hok) as Hb. pose proof (receive_inv _ _ _ _ Hr) as (_ & Es & _).
  eapply sys_ok_table; [exact Hok|by eapply receive_ok|exact Es|]. intros l. by eapply receive_open.
Qed.

Lemma sys_ok_open b m k keep id ch b' : sys_ok (MkSys b m None) -> m !! k = None -> subscribe b = (id, ch, b') ->
  sys_ok (MkSys b' (<[k := MkStream id ch keep [] Looping]> m) None).
Proof.
  intros [Hb Hs Hu Hi Hp] Hk Hsub. cbn in *. destruct (subscribe_ok _ _ _ _ Hb Hsub) as (Hb' & Hn & Es & Hch & Hold).
  assert (ch = length (chans b)) as Ech by (by injection Hsub as _ <- _).
  assert (forall k' st, m !! k' = Some st -> live (st_phase st) = true -> (st_ch st < length (chans b))%nat) as Hlt.
  { intros k' st Hk' Hl. destruct (st_phase st) eqn:Ep; [| | |done].
    1, 2: eapply (ok_loc_lt _ (st_id st)); [done|]; by eapply Hs; [|rewrite Ep].
    destruct (Hu _ _ _ Hk' Ep) as (_ & [buf Ho] & _). by eapply lookup_lt_Some. }
  split; cbn; [done| | | |done].
  - intros k' st [[<- <-]|[Hne Hk']]%lookup_insert_Some Hl; rewrite Es; cbn; [by rewrite lookup_insert_eq|].
    rewrite lookup_insert_ne; [by eapply Hs|]. intros ->. by rewrite (Hs _ _ Hk' Hl) in Hn.
  - intros k' st c [[<- <-]|[Hne Hk']]%lookup_insert_Some Ep; [done|].
    pose proof (Hlt k' st Hk') as Hc. rewrite Ep in Hc. specialize (Hc eq_refl).
    destruct (Hu _ _ _ Hk' Ep) as (Ec & [buf Ho] & Hns). split; [done|]. split; [exists buf; by rewrite Hold|].
    intros i. rewrite Es. intros [[_ E]|[_ E]]%lookup_insert_Some; [lia|by eapply Hns].
  - intros k1 k2 st1 st2 [[<- <-]|[_ H1]]%lookup_insert_Some [[<- <-]|[_ H2]]%lookup_insert_Some; cbn;
      intros D1 D2 E; [done| | |by eauto]; exfalso; [specialize (Hlt _ _ H2 D2)|specialize (Hlt _ _ H1 D1)]; lia.
Qed.

Lemma sys_ok_unlist b m k st ch b' : sys_ok (MkSys b m None) -> m !! k = Some st -> st_phase st = Leaving ->
  unsubscribe_locked (st_id st) b = (ch, b') -> sys_ok (MkSys b' (<[k := at_phase (Unlisted ch) st]> m) None).
Proof.
  intros [Hb Hs Hu Hi Hp] Hk Hd Hl. cbn in *. destruct (unsubscribe_locked_ok _ _ _ _ Hb Hl) as (Hb' & -> & Es & Ec).
  assert (subs b !! st_id st = Some (st_ch st)) as Hst by (by eapply Hs; [|rewrite Hd]).
  split; cbn; [done| | | |done].
  - intros k' st' [[<- <-]|[Hne Hk']]%lookup_insert_Some Hd'; [done|]. rewrite Es, lookup_delete_ne; [by eapply Hs|].
    intros E. apply Hne. pose proof (Hs _ _ Hk' Hd') as E'. rewrite <- E, Hst in E'. injection E' as E'.
    eapply Hi; [exact Hk|exact Hk'|by rewrite Hd|by destruct (st_phase st')|done].
  - intros k' st' c [[<- <-]|[Hne Hk']]%lookup_insert_Some Ep.
    + cbn in *. injection Ep as <-. split; [exact Hst|]. split; [unfold is_open; rewrite Ec; by eapply ok_open|].
      rewrite Es. intros i [Hne' Hi']%lookup_delete_Some. by apply Hne', (ok_inj _ Hb _ _ (st_ch st)).
    + destruct (Hu _ _ _ Hk' Ep) as (? & ? & Hn). split; [done|]. split; [unfold is_open; by rewrite Ec|].
      rewrite Es. intros i [_ Hi']%lookup_delete_Some. by eapply Hn.
  - intros k1 k2 st1 st2 [[<- <-]|[_ H1]]%lookup_insert_Some [[<- <-]|[_ H2]]%lookup_insert_Some; cbn; intros D1 D2 E;
      [done| | |by eauto]; (eapply Hi; [done|done| | |done]); by rewrite ?Hd.
Qed.

Lemma sys_ok_close b m p k st ch b' : sys_ok (MkSys b m p) -> m !! k = Some st -> st_phase st = Unlisted ch ->
  unsubscribe_close ch b = Some b' -> sys_ok (MkSys b' (<[k := at_phase Ended st]> m) p).
Proof.
  intros [Hb Hs Hu Hi Hp] Hk Hd Hc. cbn in *. destruct (Hu _ _ _ Hk Hd) as (-> & [buf Ho] & Hn).
  destruct (unsubscribe_close_ok _ _ _ Hb Hn Ho) as (b1 & E & Hb1 & Es & _ & Hold). rewrite E in Hc. injection Hc as <-.
  split; cbn; [done| | | |by rewrite Es].
  - intros k' st' [[<- <-]|[_ Hk']]%lookup_insert_Some Hl; [done|]. rewrite Es. by eapply Hs.
  - intros k' st' c [[<- <-]|[Hne Hk']]%lookup_insert_Some Ep; [done|]. rewrite Es.
    destruct (Hu _ _ _ Hk' Ep) as (? & Ho' & ?). split; [done|]. split; [|done]. unfold is_open. rewrite Hold; [done|].
    intros Ech. apply Hne. eapply Hi; [exact Hk|exact Hk'|by rewrite Hd|by rewrite Ep|done].
  - intros k1 k2 st1 st2 [[<- <-]|[_ H1]]%lookup_insert_Some [[<- <-]|[_ H2]]%lookup_insert_Some; cbn; try done. by apply Hi.
Qed.

(** Publications. *)
Lemma sys_ok_pub b m p p' : sys_ok (MkSys b m p) ->
  (forall v rest, p' = Some (v, rest) -> NoDup rest /\ forall l, l ∈ rest -> exists id, subs b !! id = Some l) ->
  sys_ok (MkSys b m p').
Proof. intros [Hb Hs Hu Hi Hp] Hp'. by split. Qed.
Lemma publish_one_open b v l b' id l' : broker_ok b -> subs b !! id = Some l -> publish_one v l b = Some b' ->
  is_open b l' -> is_open b' l'.
Proof.
  intros Hb Hid Hp [buf' Hl']. destruct (publish_one_ok b v id l Hb Hid) as (buf & b1 & Hl & E & _ & _ & _ & Ec).
  rewrite E in Hp. injection Hp as <-. unfold is_open. rewrite Ec. destruct (decide (l' = l)) as [->|Hne].
  - rewrite list_lookup_insert_eq by (by eapply lookup_lt_Some). by eexists.
  - rewrite list_lookup_insert_ne by done. by eexists.
Qed.
Lemma sys_ok_offer b m v l rest b' : sys_ok (MkSys b m (Some (v, l :: rest))) -> publish_one v l b = Some b' ->
  sys_ok (MkSys b' m (Some (v, rest))).
Proof.
  intros Hok Hp. pose proof (sys_broker_ok _ Hok) as Hb. destruct (sys_pub_ok _ Hok v _ eq_refl) as [Hn Hin]. cbn in *.
  destruct (Hin l) as [id Hid]; [by constructor|].
  pose proof (fun l' => publish_one_open b v l b' id l' Hb Hid Hp) as Ho.
  destruct (publish_one_ok b v id l Hb Hid) as (buf & b1 & _ & E & Hb1 & Es & _). rewrite E in Hp. injection Hp as <-.
  apply NoDup_cons in Hn as [_ Hn].
  eapply sys_ok_pub; [by eapply sys_ok_table|]. intros v' rest' [= <- <-]. split; [done|].
  intros l' Hl'. rewrite Es. apply Hin. by constructor.
Qed.

Lemma sys_ok_step s l s' : sys_ok s -> step s l s' -> sys_ok s'.
Proof.
  intros Hok Hst. destruct Hst as
    [b m k keep id ch b' Hk Hsub|b m v order Ho|b m v l rest b' Hp|b m v|b m p k ok st r b' st' Hk Hd Hr Hl
    |b m p k ok st r b' Hk Hd Hr Hl|b m p k st Hk Hd|b m k st ch b' Hk Hd Hu|b m p k st ch b' Hk Hd Hc].
  - by eapply sys_ok_open.
  - eapply sys_ok_pub; [done|]. pose proof (sys_broker_ok _ Hok) as Hb. cbn in Hb. intros v' rest [= <- <-]. split.
    + rewrite Ho. by apply subs_locs_NoDup.
    + intros l. rewrite Ho. apply elem_of_subs_locs.
  - by eapply sys_ok_offer.
  - by eapply sys_ok_pub.
  - destruct (loop_body_same _ _ _ _ Hl) as (? & ? & Ed & _).
    eapply sys_ok_stream; [by eapply sys_ok_receive|done|..]; [by rewrite Hd|by rewrite Ed, Hd|done..].
  - eapply sys_ok_stream; [by eapply sys_ok_receive|done|..]; [by rewrite Hd|done..].
  - eapply sys_ok_stream; [done..| |done|done|done]. by rewrite Hd.
  - by eapply sys_ok_unlist.
  - by eapply sys_ok_close.
Qed.

Lemma sys_ok_run tr s : run tr s -> sys_ok s.
Proof. induction 1; [apply sys_ok_init | by eapply sys_ok_step]. Qed.

(** Nothing panics, and the publisher's next turn can be taken. *)
Lemma sys_ok_offers s v l rest : sys_ok s -> sys_pub s = Some (v, l :: rest) ->
  exists b', publish_one v l (sys_broker s) = Some b'.
Proof.
  intros Hok Hp. destruct (sys_pub_ok _ Hok _ _ Hp) as [_ Hin]. destruct (Hin l) as [id Hid]; [by constructor|].
  destruct (publish_one_ok _ v id l (sys_broker_ok _ Hok) Hid) as (_ & b' & _ & E & _). by exists b'.
Qed.
Lemma sys_ok_closes s k st ch : sys_ok s -> sys_streams s !! k = Some st -> st_phase st = Unlisted ch ->
  ch = Some (st_ch st) /\ exists b', unsubscribe_close ch (sys_broker s) = Some b'.
Proof.
  intros Hok Hk Hd. destruct (sys_unlisted _ Hok _ _ _ Hk Hd) as (-> & [buf Ho] & Hn).
  destruct (unsubscribe_close_ok _ _ _ (sys_broker_ok _ Hok) Hn Ho) as (b' & E & _). split; [done|by exists b'].
Qed.
Lemma sys_ok_no_panic s : sys_ok s -> ~ panics s.
Proof.
  intros Hok [v l rest Hp E|k st ch Hk Hd E].
  - destruct (sys_ok_offers _ _ _ _ Hok Hp) as [b' E']. congruence.
  - destruct (sys_ok_closes _ _ _ _ Hok Hk Hd) as (_ & b' & E'). congruence.
Qed.
End preservation.

(** ** Delivery *)

Section delivery.
Context {T : Type}.
Implicit Types (s : sys T) (st : stream T) (b : broker T).

Lemma keep_list_app st l l' : keep_list st (l ++ l') = keep_list st l ++ keep_list st l'.
Proof. apply List.filter_app. Qed.

Lemma keep_list_sublist st l l' :
  l `sublist_of` l' -> keep_list st l `sublist_of` keep_list st l'.
Proof.
  unfold keep_list. induction 1 as [|x l l' H IH|x l l' H IH]; cbn; [done| |];
    destruct (st_keep st x); try done; by constructor.
Qed.

(** A looping stream has its channel in the table; nobody else closes or reads it. *)
Lemma looping_sub s k st : sys_ok s -> sys_streams s !! k = Some st -> st_phase st = Looping ->
  subs (sys_broker s) !! st_id st = Some (st_ch st).
Proof. intros Hok Hk Hd. eapply sys_sub; [done..|]. by rewrite Hd. Qed.
Lemma other_channel s k k' st st' : sys_ok s ->
  sys_streams s !! k = Some st -> sys_streams s !! k' = Some st' ->
  live (st_phase st) = true -> st_phase st' = Looping -> k <> k' -> st_ch st' <> st_ch st.
Proof. intros Hok Hk Hk' Hd Hd' Hne E. apply Hne. eapply (sys_inj _ Hok); eauto. by rewrite Hd'. Qed.
Lemma receive_other s k k' st st' r b' : sys_ok s ->
  sys_streams s !! k = Some st -> sys_streams s !! k' = Some st' ->
  st_phase st = Looping -> st_phase st' = Looping -> k <> k' ->
  receive (st_ch st) (sys_broker s) = Some (r, b') ->
  chans b' !! st_ch st' = chans (sys_broker s) !! st_ch st'.
Proof.
  intros Hok Hk Hk' Hd Hd' Hne Hr. assert (live (st_phase st) = true) as Hl by (by rewrite Hd).
  pose proof (other_channel s k k' st st' Hok Hk Hk' Hl Hd' Hne) as Ho.
  destruct (receive_inv _ _ _ _ Hr) as (_ & _ & c & _ & Hc). destruct r as [v|].
  - destruct Hc as (rest & _ & ->). by rewrite list_lookup_insert_ne.
  - by destruct Hc as (_ & _ & ->).
Qed.
Lemma close_other s k k' st st' ch b' : sys_ok s ->
  sys_streams s !! k = Some st -> sys_streams s !! k' = Some st' ->
  st_phase st = Unlisted ch -> st_phase st' = Looping ->
  unsubscribe_close ch (sys_broker s) = Some b' -> chans b' !! st_ch st' = chans (sys_broker s) !! st_ch st'.
Proof.
  intros Hok Hk Hk' Hd Hd' Hc. assert (k <> k') as Hne by congruence.
  assert (live (st_phase st) = true) as Hl by (by rewrite Hd).
  pose proof (other_channel s k k' st st' Hok Hk Hk' Hl Hd' Hne) as Ho.
  destruct (sys_unlisted _ Hok _ _ _ Hk Hd) as (-> & [buf Hop] & Hn).
  destruct (unsubscribe_close_ok _ _ _ (sys_broker_ok _ Hok) Hn Hop) as (b1 & E & _ & _ & _ & Hold).
  rewrite E in Hc. injection Hc as <-. by apply Hold.
Qed.
(** What one turn of a publication does to the channel of a looping stream. *)
Lemma offer_chan s v l rest b' k st buf : sys_ok s -> sys_pub s = Some (v, l :: rest) ->
  publish_one v l (sys_broker s) = Some b' -> sys_streams s !! k = Some st -> st_phase st = Looping ->
  chans (sys_broker s) !! st_ch st = Some (MkChan buf false) ->
  (st_ch st = l /\ st_ch st ∉ rest /\ chans b' !! st_ch st = Some (MkChan (offer v buf) false)) \/
  (st_ch st <> l /\ chans b' !! st_ch st = Some (MkChan buf false)).
Proof.
  intros Hok Ep Hp Hk Hd Hc. destruct (sys_pub_ok _ Hok _ _ Ep) as [[Hl Hn]%NoDup_cons Hin].
  destruct (Hin l) as [id Hid]; [by constructor|].
  destruct (publish_one_ok _ v id l (sys_broker_ok _ Hok) Hid) as (buf' & b1 & Hb & E & _ & _ & _ & Ec).
  rewrite E in Hp. injection Hp as <-. destruct (decide (st_ch st = l)) as [<-|Hne].
  - left. split; [done|]. split; [done|]. rewrite Ec, list_lookup_insert_eq by (by eapply lookup_lt_Some). by simplify_eq.
  - right. split; [done|]. by rewrite Ec, list_lookup_insert_ne.
Qed.

(** ** Progress of one stream *)

Lemma progress_same pub s s' st : progress pub s st ->
  (st_phase st = Looping -> chans (sys_broker s') !! st_ch st = chans (sys_broker s) !! st_ch st /\
     pending (sys_pub s') (st_ch st) = pending (sys_pub s) (st_ch st)) -> progress pub s' st.
Proof. unfold progress. destruct (st_phase st); try done. intros Hp Hs. by destruct (Hs eq_refl) as [-> ->]. Qed.
Lemma progress_gone pub pub' s s' st : progress pub s st -> st_phase st <> Looping ->
  pub `sublist_of` pub' -> progress pub' s' st.
Proof.
  unfold progress. intros Hp Hd Hs. destruct (st_phase st); [done|..];
    (etransitivity; [exact Hp|by apply keep_list_sublist]).
Qed.
(** What was sent of what was published. *)
Lemma progress_sent pub s st : progress pub s st -> st_sent st `sublist_of` keep_list st pub.
Proof.
  unfold progress. destruct (st_phase st); try done. intros (buf & got & _ & -> & Hs & _). apply keep_list_sublist.
  etransitivity; [|exact Hs]. rewrite <- app_assoc. by apply sublist_inserts_r.
Qed.
Lemma progress_leave pub s s' st p : progress pub s st -> p <> Looping -> progress pub s' (at_phase p st).
Proof. intros Hp%progress_sent Hn. unfold progress. cbn. by destruct p. Qed.

Lemma progress_publish pub b m v order k st : sys_ok (MkSys b m None) -> m !! k = Some st ->
  order ≡ₚ (map_to_list (subs b)).*2 ->
  progress pub (MkSys b m None) st -> progress (pub ++ [v]) (MkSys b m (Some (v, order))) st.
Proof.
  intros Hok Hk Ho Hpr. destruct (decide (st_phase st = Looping)) as [Hd|Hd];
    [|by eapply progress_gone; [| |apply sublist_inserts_r]].
  unfold progress in *. rewrite Hd in *.
  destruct Hpr as (buf & got & Hc & Hs & Hsub & Hall). cbn in *. exists buf, got.
  pose proof (looping_sub _ _ _ Hok Hk Hd) as Hst. cbn in Hst.
  rewrite bool_decide_true by (rewrite Ho; apply elem_of_subs_locs; by eexists).
  rewrite app_nil_r in Hsub, Hall. split; [done|]. split; [done|]. split; [by apply sublist_app|].
  rewrite length_app. intros Hlen. by rewrite Hall by lia.
Qed.

Lemma progress_offer pub b m v l rest b' k st : sys_ok (MkSys b m (Some (v, l :: rest))) -> m !! k = Some st ->
  publish_one v l b = Some b' ->
  progress pub (MkSys b m (Some (v, l :: rest))) st -> progress pub (MkSys b' m (Some (v, rest))) st.
Proof.
  intros Hok Hk Hp. unfold progress. destruct (st_phase st) eqn:Hd; try done.
  intros (buf & got & Hc & Hs & Hsub & Hall). cbn [sys_broker sys_pub pending] in *.
  destruct (offer_chan _ _ _ _ _ _ _ _ Hok eq_refl Hp Hk Hd Hc) as [(El & Hn & Hc')|[Hne Hc']].
  - rewrite bool_decide_true in Hsub, Hall by (rewrite El; by constructor). rewrite bool_decide_false by done.
    unfold offer in Hc'. destruct (Nat.ltb_spec (length buf) chan_cap) as [Hlt|Hge].
    + exists (buf ++ [v]), got. rewrite app_nil_r, (app_assoc got). done.
    + exists buf, got. rewrite app_nil_r. split; [done|]. split; [done|]. split.
      * etransitivity; [|exact Hsub]. by apply sublist_inserts_r.
      * intros Hlen. exfalso. specialize (Hall Hlen). apply (f_equal length) in Hall.
        rewrite !length_app in Hall. cbn in Hall. lia.
  - exists buf, got. assert (bool_decide (st_ch st ∈ l :: rest) = bool_decide (st_ch st ∈ rest)) as E
      by (apply bool_decide_ext; rewrite elem_of_cons; tauto).
    by rewrite E in Hsub, Hall.
Qed.

Lemma progress_recv pub b m p b' m' k st st' r ok :
  sys_ok (MkSys b m p) -> m !! k = Some st -> st_phase st = Looping ->
  receive (st_ch st) b = Some (r, b') -> loop_body st r ok = Some st' ->
  progress pub (MkSys b m p) st -> progress pub (MkSys b' m' p) st'.
Proof.
  intros Hok Hk Hd Hr Hl. destruct (loop_body_same _ _ _ _ Hl) as (_ & Ec & Ed & Ek & v & -> & Es).
  unfold progress. rewrite Ed, Hd. intros (buf & got & Hb & Hsent & Hsub & Hall). cbn in *.
  destruct (receive_inv _ _ _ _ Hr) as (_ & _ & c & Hc & rest & Hbuf & E).
  rewrite Hb in Hc. injection Hc as <-. cbn in Hbuf. subst buf. exists rest, (got ++ [v]). rewrite Ec, E, Es, Hsent.
  rewrite <- (app_assoc got [v]). split; [by rewrite list_lookup_insert_eq by (by eapply lookup_lt_Some)|]. split; [|done].
  unfold keep_list. rewrite Ek. by rewrite List.filter_app.
Qed.
End delivery.

Section run.
Context {T : Type}.
Implicit Types (s : sys T) (st : stream T).

Lemma progress_step tr s l s' : sys_ok s -> step s l s' ->
  (forall k st, sys_streams s !! k = Some st -> progress (published k tr) s st) ->
  forall k st, sys_streams s' !! k = Some st -> progress (published k (l :: tr)) s' st.
Proof.
  intros Hok Hst IH. pose proof (sys_broker_ok _ Hok) as Hb. destruct Hst as
    [b m k keep id ch b' Hk Hsub|b m v order Ho|b m v l rest b' Hp|b m v|b m p k ok st r b' st' Hk Hd Hr Hl
    |b m p k ok st r b' Hk Hd Hr Hl|b m p k st Hk Hd|b m k st ch b' Hk Hd Hu|b m p k st ch b' Hk Hd Hc]; cbn in *.
  - destruct (subscribe_ok _ _ _ _ Hb Hsub) as (_ & _ & _ & Hch & Hc).
    intros k' st [[<- <-]|[Hne Hk']]%lookup_insert_Some.
    + rewrite bool_decide_true by done. by exists [], [].
    + rewrite bool_decide_false by done. eapply progress_same; [by apply IH|].
      intros Hd. split; [|done]. apply Hc. eapply ok_loc_lt; [done|].
      exact (looping_sub (MkSys b m None) k' st Hok Hk' Hd).
  - intros k st Hk. by eapply progress_publish; [| |exact Ho|apply IH].
  - intros k st Hk. by eapply progress_offer; [| |exact Hp|apply IH].
  - intros k st Hk. eapply progress_same; [by apply IH|]. intros _. split; [done|]. cbn. by rewrite bool_decide_false by set_solver.
  - intros k' st1 [[<- <-]|[Hne Hk']]%lookup_insert_Some; [eapply progress_recv; eauto|].
    eapply progress_same; [by apply IH|]. intros Hd1. split; [|done]. by eapply (receive_other (MkSys b m p) k k' st st1).
  - intros k' st1 [[<- <-]|[Hne Hk']]%lookup_insert_Some; [by eapply progress_leave; [apply IH|]|].
    eapply progress_same; [by apply IH|]. intros Hd1. split; [|done]. by eapply (receive_other (MkSys b m p) k k' st st1).
  - intros k' st1 [[<- <-]|[Hne Hk']]%lookup_insert_Some; [by eapply progress_leave; [apply IH|]|].
    by eapply progress_same; [apply IH|].
  - destruct (unsubscribe_locked_ok _ _ _ _ Hb Hu) as (_ & _ & _ & Ec).
    intros k' st1 [[<- <-]|[Hne Hk']]%lookup_insert_Some; [by eapply progress_leave; [apply IH|]|].
    eapply progress_same; [by apply IH|]. intros _. cbn. by rewrite Ec.
  - intros k' st1 [[<- <-]|[Hne Hk']]%lookup_insert_Some; [by eapply progress_leave; [apply IH|]|].
    eapply progress_same; [by apply IH|]. intros Hd1. split; [|done].
    by eapply (close_other (MkSys b m p) k k' st st1).
Qed.

Lemma progress_run tr s : run tr s ->
  forall k st, sys_streams s !! k = Some st -> progress (published k tr) s st.
Proof.
  induction 1 as [|tr s l s' Hr IH Hst]; [intros k st; cbn; by intros ?%lookup_empty_Some|].
  eapply progress_step; eauto. by eapply sys_ok_run.
Qed.

Lemma step_present s l s' k : step s l s' -> is_Some (sys_streams s !! k) -> is_Some (sys_streams s' !! k).
Proof. destruct 1; cbn; intros Hk; rewrite ?lookup_insert_is_Some'; auto. Qed.

Lemma open_present s k keep s' : step s (LOpen k keep) s' ->
  sys_streams s !! k = None /\ exists st, sys_streams s' !! k = Some st /\ st_keep st = keep.
Proof.
  inversion 1; subst; cbn. split; [done|]. eexists. by rewrite lookup_insert_eq.
Qed.

Lemma opened_present tr s k keep : run tr s -> LOpen k keep ∈ tr -> is_Some (sys_streams s !! k).
Proof.
  induction 1 as [|tr s l s' _ IH Hst]; [by inversion 1|].
  intros [<-|Hin]%elem_of_cons; [|by eapply step_present, IH].
  destruct (open_present _ _ _ _ Hst) as (_ & st & -> & _). by eexists.
Qed.

Lemma step_keep s l s' k st st' : step s l s' ->
  sys_streams s !! k = Some st -> sys_streams s' !! k = Some st' -> st_keep st' = st_keep st.
Proof.
  destruct 1 as [b m k1 keep1 id ch b' Hk1| | | |b m p k1 ok st1 r b' st2 Hk1 Hd Hrr Hl
    |b m p k1 ok st1 r b' Hk1|b m p k1 st1 Hk1|b m k1 st1 ch b' Hk1|b m p k1 st1 ch b' Hk1];
    cbn; intros Hk Hk'; simplify_eq; try done;
    apply lookup_insert_Some in Hk' as [[<- <-]|[_ Hk']]; simplify_eq; try done.
  by destruct (loop_body_same _ _ _ _ Hl) as (_ & _ & _ & -> & _).
Qed.

(** A stream filters with what it was opened with. *)
Lemma opened_keep tr s k keep st : run tr s -> LOpen k keep ∈ tr ->
  sys_streams s !! k = Some st -> st_keep st = keep.
Proof.
  intros Hr. revert st. induction Hr as [|tr s l s' Hr IH Hst]; intros st Hin Hk; [by inversion Hin|].
  apply elem_of_cons in Hin as [<-|Hin].
  - destruct (open_present _ _ _ _ Hst) as (_ & st1 & H1 & H2). by simplify_eq.
  - destruct (opened_present _ _ _ _ Hr Hin) as [st0 H0].
    rewrite (step_keep _ _ _ _ _ _ Hst H0 Hk). by apply IH.
Qed.
End run.
