(* ===== verification/StreamLive.v ===== *)
(** * Streams that are read are served

    Endless runs of the streams over one broker: a publication under way reaches
    a running stream's channel, as long as its publisher gets to go on; and what
    is in the channel moves towards its head and is sent, as long as the stream
    gets to receive. *)

From S2P Require Import Prelude Fair Broker Streams.

Section live.
Context {T : Type}.
Implicit Types (s : sys T) (st : stream T).

(** [lab n] is the step from [run n], if there is one. *)
Record stream_run (run : nat -> sys T) (lab : nat -> option (label T)) : Prop := {
  sr_start : run 0%nat = init;
  sr_step : forall n, match lab n with Some l => step (run n) l (run (S n)) | None => run (S n) = run n end;
}.
(** Stream [k], while it has something to receive, receives and sends in the
    end. *)
Definition reader_fair (run : nat -> sys T) (lab : nat -> option (label T)) (k : nat) : Prop :=
  weakly_fair run (fun s => exists s', step s (LRecv k true) s') (fun n => lab n = Some (LRecv k true)).
(** A publisher that can take the next turn of its loop takes it in the end. *)
Definition publisher_fair (run : nat -> sys T) (lab : nat -> option (label T)) : Prop :=
  weakly_fair run (fun s => exists s', step s LOffer s') (fun n => lab n = Some LOffer).

Lemma stream_run_ok run lab n : stream_run run lab -> sys_ok (run n).
Proof.
  intros [H0 Hs]. induction n as [|n IH]; [rewrite H0; apply sys_ok_init|].
  specialize (Hs n). destruct (lab n) as [l|]; [by eapply sys_ok_step|by rewrite Hs].
Qed.

(** Stream [k] wants [v], and its channel holds [buf]. *)
Definition wants (k : nat) (v : T) (buf : list T) s st : Prop :=
  sys_streams s !! k = Some st /\ st_phase st = Looping /\ st_keep st v = true /\
  chans (sys_broker s) !! st_ch st = Some (MkChan buf false).
(** The value [v] is in stream [k]'s channel behind [m] others. *)
Definition awaiting (k : nat) (v : T) (m : nat) s : Prop := exists st pre post,
  wants k v (pre ++ v :: post) s st /\ length pre = m.
(** The publication of [v] visits [m] channels before stream [k]'s, where there is room. *)
Definition coming (k : nat) (v : T) (m : nat) s : Prop := exists st buf pre post,
  wants k v buf s st /\ (length buf < chan_cap)%nat /\
  sys_pub s = Some (v, pre ++ st_ch st :: post) /\ length pre = m.
(** Stream [k] has sent [v], or has left its loop. *)
Definition served (k : nat) (v : T) s : Prop := exists st,
  sys_streams s !! k = Some st /\ (st_phase st <> Looping \/ v ∈ st_sent st).

Lemma awaiting_enabled k v m s : awaiting k v m s -> exists s', step s (LRecv k true) s'.
Proof.
  destruct s as [b strs p]. intros (st & pre & post & (Hk & Hd & _ & Hc) & _). cbn in *.
  assert (exists x b', receive (st_ch st) b = Some (Some x, b')) as (x & b' & Hr).
  { unfold receive. rewrite Hc. destruct pre as [|x pre]; cbn; by do 2 eexists. }
  assert (exists st', loop_body st (Some x) true = Some st') as [st' Hl]
    by (unfold loop_body; destruct (st_keep st x); by eexists).
  eexists. by eapply step_recv.
Qed.
Lemma coming_enabled k v m s : sys_ok s -> coming k v m s -> exists s', step s LOffer s'.
Proof.
  intros Hok (st & buf & pre & post & _ & _ & Hp & _).
  assert (exists l rest, pre ++ st_ch st :: post = l :: rest) as (l & rest & E) by (destruct pre; by do 2 eexists).
  rewrite E in Hp. destruct (sys_ok_offers _ _ _ _ Hok Hp) as [b' Hb]. destruct s as [b strs p]. cbn in *. subst p.
  eexists. by eapply step_offer.
Qed.

(** Another stream changes, or none does. *)
Lemma wants_other k v buf b b' m p p' st j st' : wants k v buf (MkSys b m p) st -> j <> k ->
  chans b' !! st_ch st = chans b !! st_ch st -> wants k v buf (MkSys b' (<[j := st']> m) p') st.
Proof. intros (Hk & Hd & Hkeep & Hc) Hne Ech. unfold wants. cbn in *. by rewrite lookup_insert_ne, Ech. Qed.
Lemma left_served k v b m p st st' : m !! k = Some st -> st_phase st' <> Looping ->
  served k v (MkSys b (<[k := st']> m) p).
Proof. intros _ Hp. exists st'. cbn. rewrite lookup_insert_eq. split; [done|by left]. Qed.
(** The stream itself receives and goes on. *)
Lemma wants_recv k v buf b m p st r b' ok st' : wants k v buf (MkSys b m p) st ->
  receive (st_ch st) b = Some (r, b') -> loop_body st r ok = Some st' -> exists x rest, buf = x :: rest /\
    wants k v rest (MkSys b' (<[k := st']> m) p) st' /\ st_ch st' = st_ch st /\
    (x = v -> v ∈ st_sent st') /\ (ok = false -> x <> v).
Proof.
  intros (Hk & Hd & Hkeep & Hc) Hr Hl. cbn in *.
  destruct (loop_body_same _ _ _ _ Hl) as (_ & Ech & Ed & Ek & x & -> & Es).
  destruct (receive_inv _ _ _ _ Hr) as (_ & _ & c & Hc' & rest & Hbuf & E). rewrite Hc in Hc'. injection Hc' as <-.
  cbn in Hbuf. subst buf. exists x, rest. split; [done|]. split; [|split; [done|split]].
  - unfold wants. cbn. rewrite lookup_insert_eq, Ed, Ek, Ech, E, list_lookup_insert_eq by (by eapply lookup_lt_Some). done.
  - intros ->. rewrite Es. unfold keep_list. cbn. rewrite Hkeep. set_solver.
  - intros -> ->. unfold loop_body in Hl. by rewrite Hkeep in Hl.
Qed.

(** What becomes of a looping stream and its channel in one step: it leaves, it
    receives, a publication takes a turn, or nothing that matters to it. *)
Inductive wants_next (k : nat) (v : T) (buf : list T) st s : label T -> sys T -> Prop :=
  | next_left l s' : served k v s' -> wants_next k v buf st s l s'
  | next_recv ok x rest st' s' : buf = x :: rest -> wants k v rest s' st' -> st_ch st' = st_ch st ->
      sys_pub s' = sys_pub s -> (x = v -> v ∈ st_sent st') -> (ok = false -> x <> v) ->
      wants_next k v buf st s (LRecv k ok) s'
  | next_offer u l' rest s' : sys_pub s = Some (u, l' :: rest) -> sys_pub s' = Some (u, rest) ->
      wants k v (if decide (st_ch st = l') then offer u buf else buf) s' st -> wants_next k v buf st s LOffer s'
  | next_same l s' : l <> LRecv k true -> l <> LOffer -> wants k v buf s' st ->
      (forall u rest, rest <> [] -> sys_pub s = Some (u, rest) -> sys_pub s' = Some (u, rest)) ->
      wants_next k v buf st s l s'.
Lemma wants_step k v buf st s l s' : sys_ok s -> wants k v buf s st -> step s l s' -> wants_next k v buf st s l s'.
Proof.
  intros Hok Hw Hst. pose proof (sys_broker_ok _ Hok) as Hb. pose proof Hw as (Hk & Hd & _ & Hc). destruct Hst as
    [b m j keep id ch b' Hj Hsub|b m u order Ho|b m u l rest b' Hp|b m u|b m p j ok st1 r b' st' Hj Hd1 Hr Hl
    |b m p j ok st1 r b' Hj Hd1 Hr Hl|b m p j st1 Hj Hd1|b m j st1 ch b' Hj Hd1 Hu|b m p j st1 ch b' Hj Hd1 Hcl]; cbn in *.
  - apply next_same; [done..| |done]. eapply wants_other; [exact Hw|congruence|].
    destruct (subscribe_ok _ _ _ _ Hb Hsub) as (_ & _ & _ & _ & Hold). apply Hold. by eapply lookup_lt_Some.
  - by apply next_same.
  - eapply next_offer; [done..|]. destruct Hw as (_ & _ & Hkeep & _). unfold wants. cbn.
    destruct (offer_chan _ _ _ _ _ _ _ _ Hok eq_refl Hp Hk Hd Hc) as [(E & _ & Hc')|[Hne Hc']];
      [by rewrite decide_True|by rewrite decide_False].
  - apply next_same; [done..|]. by intros ? rest Hne [= _ <-].
  - destruct (decide (j = k)) as [->|Hne].
    + rewrite Hj in Hk. injection Hk as ->. destruct (wants_recv _ _ _ _ _ _ _ _ _ _ _ Hw Hr Hl) as (x & rest & ? & ? & ? & ? & ?).
      by eapply next_recv.
    + apply next_same; [congruence|done| |done]. eapply wants_other; [exact Hw|done|].
      by eapply (receive_other (MkSys b m p) j k st1 st).
  - destruct (decide (j = k)) as [->|Hne]; [by eapply next_left, left_served|].
    apply next_same; [congruence|done| |done]. eapply wants_other; [exact Hw|done|].
    by eapply (receive_other (MkSys b m p) j k st1 st).
  - destruct (decide (j = k)) as [->|Hne]; [by eapply next_left, left_served|].
    apply next_same; [done..| |done]. by eapply wants_other.
  - destruct (decide (j = k)) as [->|Hne]; [by eapply next_left, left_served|].
    apply next_same; [done..| |done]. eapply wants_other; [exact Hw|done|].
    destruct (unsubscribe_locked_ok _ _ _ _ Hb Hu) as (_ & _ & _ & Ec). by rewrite Ec.
  - destruct (decide (j = k)) as [->|Hne]; [by eapply next_left, left_served|].
    apply next_same; [done..| |done]. eapply wants_other; [exact Hw|done|].
    by eapply (close_other (MkSys b m p) j k st1 st).
Qed.

(** Towards the head of the channel. *)
Lemma awaiting_step k v m s l s' : sys_ok s -> awaiting k v m s -> step s l s' ->
  served k v s' \/ exists m', awaiting k v m' s' /\ (m' <= m)%nat /\ (l = LRecv k true -> (m' < m)%nat).
Proof.
  intros Hok (st & pre & post & Hw & <-) Hst.
  destruct (wants_step k v _ st s l s' Hok Hw Hst) as
    [l s' Hs|ok x rest st' s' E Hw' _ _ Hx Hn|u l' rest s' _ _ Hw'|l s' Hn _ Hw' _].
  - by left.
  - destruct pre as [|y pre]; cbn in E; injection E as <- <-.
    + left. exists st'. split; [apply Hw'|]. right. by apply Hx.
    + right. exists (length pre). cbn. split; [by exists st', pre, post|]. split; lia.
  - right. exists (length pre). split; [|done].
    assert (exists post', (if decide (st_ch st = l') then offer u (pre ++ v :: post) else pre ++ v :: post) = pre ++ v :: post')
      as [post' E].
    { destruct (decide _); [|by exists post]. unfold offer.
      destruct (_ <? _)%nat; [exists (post ++ [u]); by rewrite <- app_assoc|by exists post]. }
    rewrite E in Hw'. by exists st, pre, post'.
  - right. exists (length pre). split; [by exists st, pre, post|]. by split.
Qed.

(** Towards the channel. *)
Lemma coming_step k v m s l s' : sys_ok s -> coming k v m s -> step s l s' ->
  (served k v s' \/ exists m', awaiting k v m' s') \/
  exists m', coming k v m' s' /\ (m' <= m)%nat /\ (l = LOffer -> (m' < m)%nat).
Proof.
  intros Hok (st & buf & pre & post & Hw & Hlt & Hp & <-) Hst.
  destruct (wants_step k v _ st s l s' Hok Hw Hst) as
    [l s' Hs|ok x rest st' s' -> Hw' Ech Ep _ _|u l' rest s' Ep Ep' Hw'|l s' _ Hn Hw' Ep].
  - left. by left.
  - right. exists (length pre). split; [|by split]. exists st', rest, pre, post. rewrite Ech, Ep. cbn in Hlt. split; [done|].
    split; [lia|done].
  - rewrite Hp in Ep. destruct (sys_pub_ok _ Hok _ _ Hp) as [Hnd _].
    destruct pre as [|y pre]; cbn in Ep; injection Ep as <- <- <-.
    + left. right. exists (length buf). rewrite decide_True in Hw' by done. unfold offer in Hw'.
      rewrite (proj2 (Nat.ltb_lt _ _) Hlt) in Hw'. by exists st, buf, [].
    + right. exists (length pre). cbn. split; [|split; lia].
      rewrite decide_False in Hw' by (cbn in Hnd; apply NoDup_cons in Hnd as [Hy _]; set_solver).
      by exists st, buf, pre, post.
  - right. exists (length pre). split; [|by split]. exists st, buf, pre, post. split; [done|]. split; [done|]. split; [|done].
    apply Ep; [by destruct pre|done].
Qed.

(** A publication goes to every looping stream. *)
Lemma publish_coming k v s s' st buf : sys_ok s -> step s (LPublish v) s' -> wants k v buf s st ->
  (length buf < chan_cap)%nat -> exists m, coming k v m s'.
Proof.
  intros Hok Hst (Hk & Hd & Hkeep & Hc) Hlt. inversion Hst as [|b strs u order Ho| | | | | | |]; subst. cbn in *.
  assert (st_ch st ∈ order) as (pre & post & ->)%list_elem_of_split.
  { rewrite Ho. apply elem_of_subs_locs. exists (st_id st). exact (looping_sub (MkSys b strs None) k st Hok Hk Hd). }
  by exists (length pre), st, buf, pre, post.
Qed.
End live.
