(* ===== verification/World.v ===== *)
(** * Calling the world: the trace, the file system, and the host functions

    The state every component shares: the history of external calls and the
    files. [call] asks the oracle; the [os] functions then move the files the
    way the answer says, [rand_read] fills a buffer, [time_now] reads the
    clock. *)

From S2P Require Import Prelude GoStrings Sdk.


(** A file: its content and permission bits. *)
Record file := MkFile { file_data : string; file_perm : Z }.

Record world := MkWorld {
  w_trace : list ext_call;
  w_fs : gmap string file;
}.

Definition set_fs (f : gmap string file -> gmap string file) (w : world) : world :=
  {| w_trace := w_trace w; w_fs := f (w_fs w) |}.
Definition log (c : ext_call) (w : world) : world :=
  {| w_trace := w_trace w ++ [c]; w_fs := w_fs w |}.

Section calls.
Context `{Env}.

Definition call (c : ext_call) : M world (ext_ret c) := fun w =>
  (Ok (oracle (w_trace w) c), log c w).

(** A call whose answer is itself a result. *)
Definition call_result {A} (m : M world (result A)) : M world A :=
  r ← m; lift r.

Definition wallet_call_ (p : wallet_ptr) (c : wallet_call) : M world (wallet_ret c) :=
  call (WalletCall p c).
Definition node (c : node_call) : M world (node_ret c) := call (NodeCall c).
Definition host (c : host_call) : M world (host_ret c) := call (HostCall c).

(** [os.ReadFile] *)
Definition not_exist (path : string) : error :=
  ESentinel ErrNotExist ("open " +:+ path +:+ ": no such file or directory").
Definition os_read_file (path : string) : M world string :=
  fault ← host (OsReadFile path);
  fs ← gets w_fs;
  match fault with
  | Some msg => throw (ENew ("read " +:+ path +:+ ": " +:+ msg))
  | None =>
      match fs !! path with
      | Some f => mret (file_data f)
      | None => throw (not_exist path)
      end
  end.

(** [os.WriteFile]: an existing file keeps its permission bits. *)
Definition write_file (path data : string) (perm : Z) (fs : gmap string file) : gmap string file :=
  let p := match fs !! path with Some f => file_perm f | None => perm end in
  <[path := {| file_data := data; file_perm := p |}]> fs.
Definition os_write_file (path data : string) (perm : Z) : M world unit :=
  fault ← host (OsWriteFile path data perm);
  match fault with
  | None => modify (set_fs (write_file path data perm))
  | Some (e, None) => throw e
  | Some (e, Some n) =>
      _ ← modify (set_fs (write_file path (String.substring 0 n data) perm));
      throw e
  end.

(** [os.Rename]: atomic. *)
Definition os_rename (old new : string) : M world unit :=
  fault ← host (OsRename old new);
  fs ← gets w_fs;
  match fault, fs !! old with
  | Some e, _ => throw e
  | None, None => throw (not_exist old)
  | None, Some f => modify (set_fs (fun fs => <[new := f]> (delete old fs)))
  end.

(** [os.MkdirAll]; directories are not part of [w_fs]. *)
Definition os_mkdir_all (path : string) (perm : Z) : M world unit :=
  fault ← host (OsMkdirAll path perm);
  match fault with Some e => throw e | None => mret () end.

(** [rand.Read(b)] into a zeroed buffer of [n] bytes: what could not be read
    stays zero, and the error is reported. *)
Definition fill (n : nat) (b : bytes) : bytes := take n (b ++ repeat Byte.x00 n).
Definition rand_read (n : nat) : M world (bytes * option error) :=
  r ← host (RandRead n);
  mret (match r with Ok b => (fill n b, None) | Err e => (repeat Byte.x00 n, Some e) end).

Definition time_now : M world Z := host TimeNow.
End calls.

(** Runs that the disk lets through. *)
Definition reads_fine `{Env} : Prop := forall tr p, oracle tr (HostCall (OsReadFile p)) = None.

Lemma os_read_file_fine `{Env} p f w :
  reads_fine -> w_fs w !! p = Some f ->
  os_read_file p w = (Ok (file_data f), log (HostCall (OsReadFile p)) w).
Proof.
  intros Hr Hf. unfold os_read_file, host, call, mbind, M_bind. cbn. by rewrite Hr, Hf.
Qed.

Lemma os_read_file_inv `{Env} p r w w' : os_read_file p w = (r, w') ->
  w' = log (HostCall (OsReadFile p)) w /\
  match r with
  | Ok data => exists f, w_fs w !! p = Some f /\ data = file_data f
  | Err e => e = not_exist p /\ w_fs w !! p = None \/ exists msg, e = ENew msg
  end.
Proof.
  unfold os_read_file, host, call, mbind, M_bind. cbn.
  destruct (oracle (w_trace w) (HostCall (OsReadFile p))) as [m|]; cbn; [intros [= <- <-]; split; eauto|].
  destruct (w_fs w !! p) eqn:E; cbn; intros [= <- <-]; split; eauto.
Qed.

Lemma os_write_file_ok `{Env} p d perm w w' : os_write_file p d perm w = (Ok (), w') ->
  w' = set_fs (write_file p d perm) (log (HostCall (OsWriteFile p d perm)) w).
Proof.
  unfold os_write_file, host, call, mbind, M_bind. cbn.
  destruct (oracle (w_trace w) (HostCall (OsWriteFile p d perm))) as [[e [n|]]|]; cbn; by intros [= <-].
Qed.

Lemma os_mkdir_all_ok `{Env} p perm w w' : os_mkdir_all p perm w = (Ok (), w') ->
  w' = log (HostCall (OsMkdirAll p perm)) w.
Proof.
  unfold os_mkdir_all, host, call, mbind, M_bind. cbn.
  destruct (oracle (w_trace w) (HostCall (OsMkdirAll p perm))); cbn; by intros [= <-].
Qed.

Lemma os_rename_ok `{Env} old new w w' : os_rename old new w = (Ok (), w') ->
  exists f,  w_fs w !! old = Some f /\
    w' = set_fs (fun fs => <[new := f]> (delete old fs)) (log (HostCall (OsRename old new)) w).
Proof.
  unfold os_rename, host, call, mbind, M_bind. cbn.
  destruct (oracle (w_trace w) (HostCall (OsRename old new))); cbn; [done|].
  destruct (w_fs w !! old); cbn; intros [= <-]; eauto.
Qed.

Lemma os_rename_err `{Env} old new w e w' : os_rename old new w = (Err e, w') -> w_fs w' = w_fs w.
Proof.
  unfold os_rename, host, call, gets, throw, modify, mbind, M_bind. cbn.
  destruct (oracle (w_trace w) (HostCall (OsRename old new))); cbn; [by intros [= _ <-]|].
  by destruct (w_fs w !! old); cbn; [|intros [= _ <-]].
Qed.

(** A failed write touches no other file. *)
Lemma os_write_file_other `{Env} p d perm w r w' q : os_write_file p d perm w = (r, w') ->
  q <> p -> w_fs w' !! q = w_fs w !! q.
Proof.
  unfold os_write_file, host, call, throw, modify, mbind, M_bind. cbn. intros E Hq.
  destruct (oracle (w_trace w) (HostCall (OsWriteFile p d perm))) as [[e [n|]]|]; cbn in E;
    injection E as _ <-; cbn; unfold write_file; by rewrite ?lookup_insert_ne by done.
Qed.

Lemma rand_read_run `{Env} n w : rand_read n w =
  (Ok (match (oracle (w_trace w) (HostCall (RandRead n)) : result bytes) with
       | Ok b => (fill n b, None) | Err e => (repeat Byte.x00 n, Some e) end),
   log (HostCall (RandRead n)) w).
Proof. reflexivity. Qed.

Lemma fill_length n b : length (fill n b) = n.
Proof. unfold fill. rewrite length_take, length_app, repeat_length. lia. Qed.

(** ** What a step may add to the trace

    [extends P]: the trace grows by calls that satisfy [P]. *)

Definition extends (P : ext_call -> Prop) (w w' : world) : Prop :=
  exists new, w_trace w' = w_trace w ++ new /\ Forall P new.

#[export] Instance extends_preorder P : PreOrder (extends P).
Proof.
  split.
  - intros w. exists []. by rewrite app_nil_r.
  - intros w1 w2 w3 (n1 & E1 & H1) (n2 & E2 & H2). exists (n1 ++ n2).
    split; [by rewrite E2, E1, app_assoc | by apply Forall_app].
Qed.

Lemma extends_impl (P Q : ext_call -> Prop) w w' :
  (forall c, P c -> Q c) -> extends P w w' -> extends Q w w'.
Proof. intros HPQ (n & E & Hn). exists n. split; [done|]. by eapply Forall_impl. Qed.

Lemma extends_set_fs P f w : extends P w (set_fs f w).
Proof. exists []. by rewrite app_nil_r. Qed.

Lemma extends_log (P : ext_call -> Prop) c w : P c -> extends P w (log c w).
Proof. intros Hc. exists [c]. split; [done | by repeat constructor]. Qed.

Section moves.
Context `{Env} (P : ext_call -> Prop).

Lemma moves_call c : P c -> moves (extends P) (call c).
Proof. intros Hc w. by apply extends_log. Qed.

Lemma moves_set_fs f : moves (extends P) (modify (set_fs f)).
Proof. intros w. apply extends_set_fs. Qed.
End moves.
#[export] Hint Resolve moves_call moves_set_fs : moves.
