(* ===== verification/Encryption.v ===== *)
(** * Secrets at rest: internal/service/encryption.go

    [sealString] and [openString] over any AEAD of [Crypto.Aead]. Sealing draws
    its nonce from the world; opening is pure. *)

From S2P Require Import Prelude GoStrings Encoding Crypto Sdk World.

Definition sealedPrefix : string := "v1:".

(** The [cipher.AEAD] value [aeadForKey] returns: its two methods, for one key. *)
Record aead := MkAead {
  Seal : bytes -> bytes -> bytes;
  Open : bytes -> bytes -> result bytes;
}.

Definition auth_failed : error := ENew "cipher: message authentication failed".

Section encryption.
Context `{Env} `{Aead}.

Definition aeadForKey (key : bytes) : result aead :=
  if negb (length key =? 32)%nat then Err (ENew "data key must be 32 bytes")
  else Ok {| Seal := aead_seal key;
             Open := fun nonce ct =>
               match aead_open key nonce ct with Some p => Ok p | None => Err auth_failed end |}.

Definition sealString (key : bytes) (plaintext : string) : M world string :=
  if String.eqb plaintext "" then mret "" else
  a ← lift (aeadForKey key);
  '(nonce, err) ← rand_read nonce_size;
  match err with
  | Some e => throw e
  | None =>
      let ciphertext := Seal a nonce (bytes_of_string plaintext) in
      let buf := nonce ++ ciphertext in
      mret (sealedPrefix +:+ b64_encode RawURLEncoding buf)
  end.

Definition openString (key : bytes) (sealed : string) : result string :=
  if String.eqb sealed "" then Ok "" else
  if negb (has_prefix sealed sealedPrefix) then Err (ENew "unsupported sealed value") else
  raw ← b64_decode RawURLEncoding (trim_prefix sealed sealedPrefix);
  a ← aeadForKey key;
  if (length raw <? nonce_size)%nat then Err (ENew "sealed value too short") else
  let nonce := take nonce_size raw in
  let ciphertext := drop nonce_size raw in
  plaintext ← Open a nonce ciphertext;
  Ok (string_of_bytes plaintext).

(** ** Lemmas *)

Lemma aeadForKey_ok key a : aeadForKey key = Ok a ->
  length key = 32%nat /\ Seal a = aead_seal key /\
  Open a = fun nonce ct =>
    match aead_open key nonce ct with Some p => Ok p | None => Err auth_failed end.
Proof.
  unfold aeadForKey. destruct (Nat.eqb_spec (length key) 32); cbn; [|done].
  by intros [= <-].
Qed.

Lemma aeadForKey_32 key : length key = 32%nat -> exists a, aeadForKey key = Ok a.
Proof. intros E. unfold aeadForKey. rewrite E. by eexists. Qed.

Lemma rand_read_ok n w b w' : rand_read n w = (Ok (b, None), w') ->
  length b = n /\ w' = log (HostCall (RandRead n)) w.
Proof.
  rewrite rand_read_run. intros [= Hb <-].
  destruct (oracle (w_trace w) (HostCall (RandRead n))); simplify_eq; by rewrite fill_length.
Qed.

(** Opening what a 32-byte key and a full nonce sealed. *)
Lemma openString_sealed key nonce p :
  length key = 32%nat -> length nonce = nonce_size ->
  openString key (sealedPrefix +:+ b64_encode RawURLEncoding
    (nonce ++ aead_seal key nonce (bytes_of_string p))) = Ok p.
Proof.
  intros Hk Hn. unfold openString.
  rewrite has_prefix_app, trim_prefix_app, b64_decode_encode by auto. cbn [negb mbind result_bind].
  unfold aeadForKey. rewrite Hk. cbn [negb Nat.eqb mbind result_bind].
  replace (length _ <? nonce_size)%nat with false
    by (symmetry; apply Nat.ltb_ge; rewrite length_app; lia).
  cbn [Open]. rewrite <- Hn at 1 2. rewrite take_app_length, drop_app_length.
  rewrite aead_open_seal by done. cbn. by rewrite string_of_bytes_of_string.
Qed.

(** The outcome of sealing a non-empty secret. *)
Lemma sealString_inv key p s w w' : p <> "" -> sealString key p w = (Ok s, w') ->
  length key = 32%nat /\ w' = log (HostCall (RandRead nonce_size)) w /\
  exists nonce, length nonce = nonce_size /\
    s = sealedPrefix +:+ b64_encode RawURLEncoding
          (nonce ++ aead_seal key nonce (bytes_of_string p)).
Proof.
  intros Hp. unfold sealString. rewrite (proj2 (String.eqb_neq p "")) by done.
  intros Hs. apply bind_ok_inv in Hs as (a & w1 & Ha & Hs). injection Ha as Ha <-.
  destruct (aeadForKey_ok _ _ Ha) as (Hk & Hseal & _).
  apply bind_ok_inv in Hs as ([nonce [e|]] & w2 & Hr & Hs); [by unfold throw in Hs; simplify_eq|].
  destruct (rand_read_ok _ _ _ _ Hr) as [Hn ->].
  unfold mret, M_ret in Hs. simplify_eq. rewrite Hseal. eauto.
Qed.

Lemma openString_sealString key p s w w' :
  sealString key p w = (Ok s, w') -> openString key s = Ok p.
Proof.
  destruct (String.eqb_spec p "") as [->|Hp].
  - unfold sealString. cbn. by intros [= <- <-].
  - intros Hs. destruct (sealString_inv _ _ _ _ _ Hp Hs) as (Hk & _ & nonce & Hn & ->).
    by apply openString_sealed.
Qed.

Lemma sealString_empty key w : sealString key "" w = (Ok "", w).
Proof. done. Qed.

(** A sealed value is empty exactly when the secret is. *)
Lemma sealString_nonempty key p s w w' :
  sealString key p w = (Ok s, w') -> s = "" <-> p = "".
Proof.
  destruct (String.eqb_spec p "") as [->|Hp].
  - unfold sealString. cbn. by intros [= <- <-].
  - intros Hs. destruct (sealString_inv _ _ _ _ _ Hp Hs) as (_ & _ & nonce & _ & ->). done.
Qed.

Lemma sealString_total key p w b : length key = 32%nat ->
  oracle (w_trace w) (HostCall (RandRead nonce_size)) = Ok b ->
  exists s w', sealString key p w = (Ok s, w').
Proof.
  intros Hk Hr. unfold sealString. destruct (String.eqb p ""); [by do 2 eexists|].
  destruct (aeadForKey_32 key Hk) as [a Ha].
  rewrite (bind_run _ _ _ a w) by (unfold lift; by rewrite Ha).
  erewrite bind_run by apply rand_read_run. rewrite Hr. by do 2 eexists.
Qed.

(** Sealing touches nothing of the world but the entropy source. *)
Lemma sealString_moves key p :
  moves (fun w w' => w_fs w' = w_fs w /\ extends (fun c => c = HostCall (RandRead nonce_size)) w w')
        (sealString key p).
Proof.
  intros w. unfold sealString. destruct (String.eqb p ""); [by cbn|].
  unfold mbind at 1, M_bind at 1, lift. destruct (aeadForKey key); [|by cbn].
  unfold mbind, M_bind. rewrite rand_read_run.
  destruct (oracle (w_trace w) (HostCall (RandRead nonce_size))); split; try done; by apply extends_log.
Qed.

(** Only values this version wrote are opened. *)
Lemma openString_prefix key s p :
  openString key s = Ok p -> s = "" /\ p = "" \/ exists t, s = sealedPrefix +:+ t.
Proof.
  unfold openString. destruct (String.eqb_spec s "") as [->|Hs]; [intros [= <-]; by left|].
  destruct (has_prefix s sealedPrefix) eqn:E; [|done]. intros _. right.
  by apply has_prefix_spec.
Qed.

(** What is stored for a secret, given the nonce. *)
Definition sealed_with (key nonce : bytes) (p : string) : string :=
  "v1:" +:+ b64_encode RawURLEncoding (nonce ++ aead_seal key nonce (bytes_of_string p)).
Lemma sealString_run key p w b : length key = 32%nat -> p <> "" ->
  oracle (w_trace w) (HostCall (RandRead nonce_size)) = Ok b ->
  sealString key p w = (Ok (sealed_with key (fill nonce_size b) p), log (HostCall (RandRead nonce_size)) w).
Proof.
  intros Hk Hp Hr. destruct (sealString_total key p w b Hk Hr) as (s & w' & E). rewrite E.
  destruct (aeadForKey_32 key Hk) as [a Ha]. destruct (aeadForKey_ok _ _ Ha) as (_ & Es & _).
  unfold sealString in E. rewrite (proj2 (String.eqb_neq _ _) Hp) in E. unfold mbind, M_bind, lift in E.
  rewrite Ha, rand_read_run, Hr in E. cbn in E. by rewrite Es in E.
Qed.
(** The values a key opens, and to what. *)
Definition opens (key : bytes) (s p : string) : Prop :=
  s = "" /\ p = "" \/
  length key = 32%nat /\ exists t nonce ct, s = "v1:" +:+ t /\
    b64_decode RawURLEncoding t = Ok (nonce ++ ct) /\ length nonce = nonce_size /\
    aead_open key nonce ct = Some (bytes_of_string p).
Lemma openString_opens key s p : openString key s = Ok p <-> opens key s p.
Proof.
  unfold openString, opens. fold sealedPrefix. destruct (String.eqb_spec s "") as [->|Hs].
  { split; [intros [= <-]; by left|]. by intros [[_ ->]|(_ & t & ? & ? & ? & _)]. }
  destruct (has_prefix s sealedPrefix) eqn:Ep; cbn [negb].
  2: { split; [done|]. intros [[-> _]|(_ & t & n & ct & -> & _)]; [done|]. by rewrite has_prefix_app in Ep. }
  apply has_prefix_spec in Ep as [t ->]. rewrite trim_prefix_app. split.
  - intros (raw & Hd & Ho)%result_bind_ok. apply result_bind_ok in Ho as (a & Ha & Ho).
    destruct (aeadForKey_ok _ _ Ha) as (Hk & _ & Eo). destruct (Nat.ltb_spec (length raw) nonce_size) as [|Hl]; [done|].
    rewrite Eo in Ho. destruct (aead_open key _ _) as [q|] eqn:Eq; [|done]. injection Ho as <-.
    right. split; [done|]. exists t, (take nonce_size raw), (drop nonce_size raw). rewrite take_drop, length_take.
    split; [done|]. split; [done|]. split; [lia|]. by rewrite bytes_of_string_of_bytes.
  - intros [[? _]|(Hk & t' & n & ct & Et & Hd & Hn & Ho)]; [done|].
    apply (f_equal (fun s => trim_prefix s sealedPrefix)) in Et. rewrite !trim_prefix_app in Et. subst t'.
    rewrite Hd. cbn [mbind result_bind]. unfold aeadForKey. rewrite Hk. cbn [Nat.eqb negb mbind result_bind].
    rewrite (proj2 (Nat.ltb_ge _ _)) by (rewrite length_app; lia). cbn [Open].
    rewrite <- Hn at 1 2. rewrite take_app_length, drop_app_length, Ho. cbn. by rewrite string_of_bytes_of_string.
Qed.
(** Under another key a sealed secret is what the cipher makes of it. *)
Lemma openString_other key key' nonce p : length key' = 32%nat -> length nonce = nonce_size ->
  openString key' (sealed_with key nonce p) =
  match aead_open key' nonce (aead_seal key nonce (bytes_of_string p)) with
  | Some q => Ok (string_of_bytes q) | None => Err auth_failed end.
Proof.
  intros Hk Hn. unfold openString, sealed_with. fold sealedPrefix.
  rewrite has_prefix_app, trim_prefix_app, b64_decode_encode by auto. cbn [negb mbind result_bind].
  unfold aeadForKey. rewrite Hk. cbn [negb Nat.eqb mbind result_bind].
  rewrite (proj2 (Nat.ltb_ge _ _)) by (rewrite length_app; lia). cbn [Open].
  rewrite <- Hn at 1 2. rewrite take_app_length, drop_app_length. by destruct (aead_open _ _ _).
Qed.

Lemma openString_bad_key key s p : length key <> 32%nat -> openString key s = Ok p -> p = "".
Proof.
  intros Hk. unfold openString. destruct (String.eqb s ""); [by intros [= <-]|].
  destruct (negb _); [done|]. intros Ho. apply result_bind_ok in Ho as (raw & _ & Ho).
  apply result_bind_ok in Ho as (a & Ha & _). by destruct (aeadForKey_ok _ _ Ha) as [? _].
Qed.
End encryption.
