(* ===== verification/Options.v ===== *)
(** * Service options: internal/service/options.go

    [withDefaults] and [loadOrCreateSecret], on the world's files. *)

From S2P Require Import Prelude GoStrings GoTime GoPath Encoding Crypto Sdk World.

Record Options := MkOptions {
  AuthEnabled : bool;
  EnableCustomSpend : bool;
  JWTSecret : bytes;
  DataKey : bytes;
  AccessTTL : Z;
  RefreshTTL : Z;
  BroadcastFanout : Z;
  DisablePendingTxTracking : bool;
}.

Definition defaultOptions : Options := {|
  AuthEnabled := false; EnableCustomSpend := false; JWTSecret := []; DataKey := [];
  AccessTTL := 15 * Minute; RefreshTTL := 24 * Hour;
  BroadcastFanout := 0; DisablePendingTxTracking := false |}.

Definition set_AccessTTL (d : Z) (o : Options) : Options :=
  {| AuthEnabled := AuthEnabled o; EnableCustomSpend := EnableCustomSpend o;
     JWTSecret := JWTSecret o; DataKey := DataKey o; AccessTTL := d; RefreshTTL := RefreshTTL o;
     BroadcastFanout := BroadcastFanout o; DisablePendingTxTracking := DisablePendingTxTracking o |}.
Definition set_RefreshTTL (d : Z) (o : Options) : Options :=
  {| AuthEnabled := AuthEnabled o; EnableCustomSpend := EnableCustomSpend o;
     JWTSecret := JWTSecret o; DataKey := DataKey o; AccessTTL := AccessTTL o; RefreshTTL := d;
     BroadcastFanout := BroadcastFanout o; DisablePendingTxTracking := DisablePendingTxTracking o |}.
Definition set_DataKey (k : bytes) (o : Options) : Options :=
  {| AuthEnabled := AuthEnabled o; EnableCustomSpend := EnableCustomSpend o;
     JWTSecret := JWTSecret o; DataKey := k; AccessTTL := AccessTTL o; RefreshTTL := RefreshTTL o;
     BroadcastFanout := BroadcastFanout o; DisablePendingTxTracking := DisablePendingTxTracking o |}.
Definition set_JWTSecret (k : bytes) (o : Options) : Options :=
  {| AuthEnabled := AuthEnabled o; EnableCustomSpend := EnableCustomSpend o;
     JWTSecret := k; DataKey := DataKey o; AccessTTL := AccessTTL o; RefreshTTL := RefreshTTL o;
     BroadcastFanout := BroadcastFanout o; DisablePendingTxTracking := DisablePendingTxTracking o |}.

(** [os.IsNotExist]: looks at the error itself, not through [%w]. *)
Definition os_IsNotExist (e : error) : bool :=
  match e with ESentinel ErrNotExist _ => true | _ => false end.

Section options.
Context `{Env}.

Definition loadOrCreateSecret (path : string) : M world bytes :=
  raw ← try_ (os_read_file path);
  match raw with
  | Ok raw => lift (b64_decode StdEncoding raw)
  | Err err =>
      if negb (os_IsNotExist err) then throw err else
      '(key, err) ← rand_read 32;
      match err with
      | Some err => throw err
      | None =>
          _ ← os_mkdir_all (Dir path) 448 (* 0o700 *);
          _ ← os_write_file path (b64_encode StdEncoding key) 384 (* 0o600 *);
          mret key
      end
  end.

Definition withDefaults (o : Options) (dataDir : string) : M world Options :=
  let o := if (AccessTTL o =? 0)%Z then set_AccessTTL (15 * Minute) o else o in
  let o := if (RefreshTTL o =? 0)%Z then set_RefreshTTL (24 * Hour) o else o in
  o ← (if (length (DataKey o) =? 0)%nat then
         key ← on_error (EWrap "data key") (loadOrCreateSecret (Join dataDir "data.key"));
         mret (set_DataKey key o)
       else mret o);
  if negb (length (DataKey o) =? 32)%nat then throw (ENew "data key must be 32 bytes") else
  o ← (if AuthEnabled o && (length (JWTSecret o) =? 0)%nat then
         key ← on_error (EWrap "jwt secret") (loadOrCreateSecret (Join dataDir "jwt.secret"));
         mret (set_JWTSecret key o)
       else mret o);
  if AuthEnabled o && (length (JWTSecret o) <? 32)%nat
  then throw (ENew "jwt secret must be at least 32 bytes") else
  mret o.
End options.

(** ** Secrets on disk *)

Section secrets.
Context `{Env}.

(** [k] is the secret stored at [p]. *)
Definition stored (fs : gmap string file) (p : string) (k : bytes) : Prop :=
  exists f, fs !! p = Some f /\ b64_decode StdEncoding (file_data f) = Ok k.

Lemma loadOrCreateSecret_ok p k w w' : loadOrCreateSecret p w = (Ok k, w') ->
  stored (w_fs w') p k /\
  (w_fs w' = w_fs w /\ is_Some (w_fs w !! p) \/
   w_fs w !! p = None /\ length k = 32%nat /\
   w_fs w' = <[p := {| file_data := b64_encode StdEncoding k; file_perm := 384 |}]> (w_fs w)).
Proof.
  unfold loadOrCreateSecret, try_, mbind at 1, M_bind at 1.
  destruct (os_read_file p w) as [r w1] eqn:Er. apply os_read_file_inv in Er as [-> Hr].
  destruct r as [data|e].
  - destruct Hr as (f & Hf & ->). intros [= Hk <-]. split; [by exists f|]. left. cbn. eauto.
  - destruct Hr as [[-> Hn]|[msg ->]]; [|done]. cbn [os_IsNotExist not_exist negb]. intros Hk.
    apply bind_ok_inv in Hk as ([key err] & w2 & Hr & Hk).
    destruct err as [err|]; [done|].
    assert (length key = 32%nat /\ w_fs w2 = w_fs w) as [Hl Hfs].
    { rewrite rand_read_run in Hr. injection Hr as Hr <-. split; [|done].
      destruct (oracle _ (HostCall (RandRead 32))); simplify_eq; by rewrite fill_length. }
    apply bind_ok_inv in Hk as ([] & w3 & H3 & Hk). apply os_mkdir_all_ok in H3 as ->.
    apply bind_ok_inv in Hk as ([] & w4 & H4 & Hk). apply os_write_file_ok in H4 as ->.
    injection Hk as <- <-. cbn. unfold write_file. rewrite Hfs, Hn. split.
    + eexists. rewrite lookup_insert_eq. split; [done|]. by apply b64_decode_encode, std_supported.
    + by right.
Qed.

Lemma loadOrCreateSecret_again p k w :
  reads_fine -> stored (w_fs w) p k ->
  loadOrCreateSecret p w = (Ok k, log (HostCall (OsReadFile p)) w).
Proof.
  intros Hr (f & Hf & Hk). unfold loadOrCreateSecret, try_, mbind, M_bind.
  rewrite (os_read_file_fine _ f) by done. cbn. by rewrite Hk.
Qed.

Lemma stored_other fs p q v k : p <> q -> stored fs p k -> stored (<[q := v]> fs) p k.
Proof. intros Hpq (f & Hf & Hk). exists f. by rewrite lookup_insert_ne. Qed.

Lemma loadOrCreateSecret_keeps p k w w' q k' : p <> q ->
  loadOrCreateSecret p w = (Ok k, w') -> stored (w_fs w) q k' -> stored (w_fs w') q k'.
Proof.
  intros Hpq Hl Hq. apply loadOrCreateSecret_ok in Hl as [_ [[-> _]|(_ & _ & ->)]]; [done|].
  by apply stored_other.
Qed.
End secrets.

(** ** Resolved options *)

Section resolved.
Context `{Env}.

(** What [withDefaults] promises of the options it returns. *)
Record resolved (o : Options) : Prop := {
  resolved_access : AccessTTL o <> 0%Z;
  resolved_refresh : RefreshTTL o <> 0%Z;
  resolved_data_key : length (DataKey o) = 32%nat;
  resolved_jwt : AuthEnabled o = true -> (32 <= length (JWTSecret o))%nat;
}.

Definition secret_step (b : bool) (name p : string) (g : bytes -> Options) (o : Options) :
    M world Options :=
  if b then key ← on_error (EWrap name) (loadOrCreateSecret p); mret (g key) else mret o.

Lemma secret_step_ok b name p g o w o1 w1 : secret_step b name p g o w = (Ok o1, w1) ->
  b = false /\ o1 = o /\ w1 = w \/
  b = true /\ exists k, loadOrCreateSecret p w = (Ok k, w1) /\ o1 = g k.
Proof.
  unfold secret_step. destruct b; [|by intros [= <- <-]; left].
  intros Hb. apply bind_ok_inv in Hb as (k & w2 & Hk & [= <- <-]). right. split; [done|].
  exists k. split; [|done]. unfold on_error in Hk.
  destruct (loadOrCreateSecret p w) as [[k'|e] w3]; by simplify_eq/=.
Qed.

Lemma secret_step_again name p g o k w : reads_fine -> stored (w_fs w) p k ->
  exists w', secret_step true name p g o w = (Ok (g k), w') /\ w_fs w' = w_fs w.
Proof.
  intros Hr Hk. eexists. split; [|shelve].
  unfold secret_step, on_error. unfold mbind, M_bind.
  by rewrite (loadOrCreateSecret_again p k w Hr Hk).
  Unshelve. done.
Qed.

(** [withDefaults] as its two time-to-live defaults and its two secrets. *)
Definition default_ttls (o : Options) : Options :=
  let o := if (AccessTTL o =? 0)%Z then set_AccessTTL (15 * Minute) o else o in
  if (RefreshTTL o =? 0)%Z then set_RefreshTTL (24 * Hour) o else o.

Lemma default_ttls_spec o :
  AccessTTL (default_ttls o) <> 0%Z /\ RefreshTTL (default_ttls o) <> 0%Z /\
  AuthEnabled (default_ttls o) = AuthEnabled o /\ JWTSecret (default_ttls o) = JWTSecret o /\
  DataKey (default_ttls o) = DataKey o.
Proof.
  unfold default_ttls. destruct (Z.eqb_spec (AccessTTL o) 0); cbn;
    destruct (Z.eqb_spec (RefreshTTL o) 0); cbn; repeat split; done.
Qed.

Lemma withDefaults_inv o d w o' w' : withDefaults o d w = (Ok o', w') ->
  exists o1 w1,
    secret_step (length (DataKey o) =? 0)%nat "data key" (Join d "data.key")
      (fun k => set_DataKey k (default_ttls o)) (default_ttls o) w = (Ok o1, w1) /\
    length (DataKey o1) = 32%nat /\
    secret_step (AuthEnabled o && (length (JWTSecret o) =? 0)%nat) "jwt secret"
      (Join d "jwt.secret") (fun k => set_JWTSecret k o1) o1 w1 = (Ok o', w') /\
    (AuthEnabled o = true -> 32 <= length (JWTSecret o'))%nat /\
    AuthEnabled o' = AuthEnabled o.
Proof.
  unfold withDefaults. fold (default_ttls o).
  destruct (default_ttls_spec o) as (_ & _ & EA & EJ & ED). rewrite ED.
  intros Hw. apply bind_ok_inv in Hw as (o1 & w1 & H1 & Hw).
  exists o1, w1. split; [exact H1|].
  assert (AuthEnabled o1 = AuthEnabled o /\ JWTSecret o1 = JWTSecret o) as [EA1 EJ1].
  { apply secret_step_ok in H1 as [(_ & -> & _)|(_ & k & _ & ->)]; done. }
  destruct (Nat.eqb_spec (length (DataKey o1)) 32) as [El|]; [|done]. split; [done|].
  cbn [negb] in Hw. apply bind_ok_inv in Hw as (o2 & w2 & H2 & Hw). rewrite EA1, EJ1 in H2.
  assert (AuthEnabled o2 = AuthEnabled o1) as EA2.
  { apply secret_step_ok in H2 as [(_ & -> & _)|(_ & k & _ & ->)]; done. }
  rewrite EA2, EA1 in Hw. destruct (AuthEnabled o && (length (JWTSecret o2) <? 32)%nat) eqn:Ej; [done|].
  injection Hw as <- <-. split; [exact H2|]. split; [|congruence]. intros HA. rewrite HA in Ej.
  by apply Nat.ltb_ge.
Qed.

Lemma withDefaults_run o d w o1 w1 o' w' :
  secret_step (length (DataKey o) =? 0)%nat "data key" (Join d "data.key")
    (fun k => set_DataKey k (default_ttls o)) (default_ttls o) w = (Ok o1, w1) ->
  length (DataKey o1) = 32%nat ->
  AuthEnabled o1 = AuthEnabled o -> JWTSecret o1 = JWTSecret o ->
  secret_step (AuthEnabled o && (length (JWTSecret o) =? 0)%nat) "jwt secret"
    (Join d "jwt.secret") (fun k => set_JWTSecret k o1) o1 w1 = (Ok o', w') ->
  AuthEnabled o' = AuthEnabled o ->
  (AuthEnabled o = true -> 32 <= length (JWTSecret o'))%nat ->
  withDefaults o d w = (Ok o', w').
Proof.
  intros H1 El EA1 EJ1 H2 EA2 Ej. unfold withDefaults. fold (default_ttls o).
  destruct (default_ttls_spec o) as (_ & _ & EA & EJ & ED). rewrite ED.
  rewrite (bind_run _ _ _ o1 w1 H1), El. cbn [Nat.eqb negb]. rewrite EA1, EJ1.
  rewrite (bind_run _ _ _ o' w' H2), EA2.
  destruct (AuthEnabled o) eqn:HA; [|done]. cbn [andb].
  by rewrite (proj2 (Nat.ltb_ge _ _)) by (by apply Ej).
Qed.

Lemma withDefaults_resolved o d w o' w' : withDefaults o d w = (Ok o', w') -> resolved o'.
Proof.
  intros Hw. destruct (withDefaults_inv _ _ _ _ _ Hw) as (o1 & w1 & H1 & El & H2 & Ej & EA).
  destruct (default_ttls_spec o) as (Ha & Hr & _).
  assert (AccessTTL o' <> 0%Z /\ RefreshTTL o' <> 0%Z /\ DataKey o' = DataKey o1) as (? & ? & E).
  { apply secret_step_ok in H1 as [(_ & -> & _)|(_ & k & _ & ->)];
      apply secret_step_ok in H2 as [(_ & -> & _)|(_ & k' & _ & ->)]; done. }
  split; [done|done|by rewrite E|]. by rewrite EA.
Qed.

(** Two file systems with the same secrets of a data directory. *)
Definition same_secrets (d : string) (fs fs' : gmap string file) : Prop :=
  fs !! Join d "data.key" = fs' !! Join d "data.key" /\
  fs !! Join d "jwt.secret" = fs' !! Join d "jwt.secret".

Lemma stored_same fs fs' p k : fs' !! p = fs !! p -> stored fs p k -> stored fs' p k.
Proof. unfold stored. by intros ->. Qed.

(** The options a start resolved are found again with the secrets it left. *)
Lemma withDefaults_again o d w o' w' u :
  withDefaults o d w = (Ok o', w') -> reads_fine -> same_secrets d (w_fs u) (w_fs w') ->
  exists u', withDefaults o d u = (Ok o', u') /\ w_fs u' = w_fs u.
Proof.
  intros Hw Hr [Hu1' Hu2']. destruct (withDefaults_inv _ _ _ _ _ Hw) as (o1 & w1 & H1 & El & H2 & Ej & EA).
  destruct (default_ttls_spec o) as (_ & _ & EA0 & EJ0 & _).
  assert (exists u1, secret_step (length (DataKey o) =? 0)%nat "data key" (Join d "data.key")
      (fun k => set_DataKey k (default_ttls o)) (default_ttls o) u = (Ok o1, u1) /\
      w_fs u1 = w_fs u /\ AuthEnabled o1 = AuthEnabled o /\ JWTSecret o1 = JWTSecret o)
    as (u1 & Hu1 & Efs & EA1 & EJ1).
  { apply secret_step_ok in H1 as [(-> & -> & ->)|(-> & k & Hk & ->)]; [by exists u|].
    destruct (secret_step_again "data key" (Join d "data.key")
      (fun k => set_DataKey k (default_ttls o)) (default_ttls o) k u Hr) as (u1 & ? & ?).
    - apply (stored_same (w_fs w')); [done|]. assert (stored (w_fs w1) (Join d "data.key") k) by apply (loadOrCreateSecret_ok _ _ _ _ Hk).
      apply secret_step_ok in H2 as [(_ & _ & ->)|(_ & k' & Hk' & _)]; [done|].
      eapply loadOrCreateSecret_keeps; [|exact Hk'|done]. intros E. by apply Join_inj in E.
    - by exists u1. }
  assert (exists u', secret_step (AuthEnabled o && (length (JWTSecret o) =? 0)%nat) "jwt secret"
      (Join d "jwt.secret") (fun k => set_JWTSecret k o1) o1 u1 = (Ok o', u') /\ w_fs u' = w_fs u1)
    as (u' & Hu' & Efs').
  { apply secret_step_ok in H2 as [(-> & -> & ->)|(-> & k & Hk & ->)]; [by exists u1|].
    apply (secret_step_again "jwt secret" _ (fun k => set_JWTSecret k o1)); [done|].
    rewrite Efs. apply (stored_same (w_fs w')); [done|]. apply (loadOrCreateSecret_ok _ _ _ _ Hk). }
  exists u'. split; [|congruence]. by eapply withDefaults_run.
Qed.
End resolved.
