(* ===== verification/Service.v ===== *)
(** * The service's state

    [Service], [stateFile], [walletMeta] and [tenantWallet] of
    internal/service/service.go. A [*tenantWallet] is a location in [heap], so
    the map, the handlers that looked a wallet up and the rescan guard share
    one object. Handlers run in the monad [M Service], one at a time; module
    Conc has their steps under [s.mu] and between calls, interleaved. *)

From S2P Require Import Prelude GoStrings GoPath Encoding Crypto Proto Broker Sdk Ids World Options.

Record walletMeta := MkMeta {
  TenantID : string;
  WalletID : string;
  SDKName : string;
  Mnemonic : string;
  Passphrase : string;
  MnemonicCiphertext : string;
  PassphraseCiphertext : string;
}.
#[export] Instance walletMeta_eq_dec : EqDecision walletMeta.
Proof. solve_decision. Defined.

Record tenantWallet := MkTW {
  tw_meta : walletMeta;
  tw_w : wallet_ptr;
  tw_store : store_ptr;
  tw_rescanning : bool;
}.
Definition set_rescanning (b : bool) (tw : tenantWallet) : tenantWallet :=
  {| tw_meta := tw_meta tw; tw_w := tw_w tw; tw_store := tw_store tw; tw_rescanning := b |}.

Abbreviation loc := nat.

Record brokers := MkBrokers {
  txBroker : broker pb.Transaction;
  blockBroker : broker pb.Block;
  paymentBroker : broker pb.Payment;
  walletTxBroker : broker pb.WalletTransaction;
  trafficBroker : broker pb.P2PTraffic;
  rejectBroker : broker pb.Reject;
}.
Definition newBrokers : brokers :=
  MkBrokers newBroker newBroker newBroker newBroker newBroker newBroker.

(** [sv_state] is [s.state.Wallets]; [sv_world] is what the calls to the SDK,
    the disk and the clock go through. *)
Record Service := MkService {
  sv_dataDir : string;
  sv_opts : Options;
  sv_state : list walletMeta;
  sv_heap : list tenantWallet;
  sv_wallets : gmap string loc;
  sv_brokers : brokers;
  sv_world : world;
}.

Definition set_state (f : list walletMeta -> list walletMeta) (s : Service) : Service :=
  MkService (sv_dataDir s) (sv_opts s) (f (sv_state s)) (sv_heap s) (sv_wallets s) (sv_brokers s) (sv_world s).
Definition set_heap (f : list tenantWallet -> list tenantWallet) (s : Service) : Service :=
  MkService (sv_dataDir s) (sv_opts s) (sv_state s) (f (sv_heap s)) (sv_wallets s) (sv_brokers s) (sv_world s).
Definition set_wallets (f : gmap string loc -> gmap string loc) (s : Service) : Service :=
  MkService (sv_dataDir s) (sv_opts s) (sv_state s) (sv_heap s) (f (sv_wallets s)) (sv_brokers s) (sv_world s).
Definition set_brokers (f : brokers -> brokers) (s : Service) : Service :=
  MkService (sv_dataDir s) (sv_opts s) (sv_state s) (sv_heap s) (sv_wallets s) (f (sv_brokers s)) (sv_world s).
Definition set_world (w : world) (s : Service) : Service :=
  MkService (sv_dataDir s) (sv_opts s) (sv_state s) (sv_heap s) (sv_wallets s) (sv_brokers s) w.

(** A step on the world, from the service. *)
Definition W {A} (m : M world A) : M Service A := zoom sv_world set_world m.

(** Following a pointer to a [tenantWallet]. *)
Definition nil_pointer : error := ENew "invalid memory address or nil pointer dereference".
Definition deref (l : loc) : M Service tenantWallet :=
  h ← gets sv_heap;
  match h !! l with Some tw => mret tw | None => throw nil_pointer end.

(** The entry of [s.wallets] for a pair of ids. *)
Definition lookup_wallet (s : Service) (tenantID walletID : string) : option loc :=
  sv_wallets s !! walletKey tenantID walletID.

(** ** Frames *)

(** Steps that move nothing of the service but its world. *)
Definition only_world (s s' : Service) : Prop := s' = set_world (sv_world s') s.

#[export] Instance only_world_preorder : PreOrder only_world.
Proof.
  split; unfold only_world.
  - by intros [].
  - intros s1 s2 s3 E1 E2. rewrite E2, E1. by destruct s1.
Qed.

Lemma moves_W {A} (m : M world A) : moves only_world (W m).
Proof. intros s. unfold W, zoom. by destruct (m (sv_world s)). Qed.
#[export] Hint Resolve moves_W : moves.

Lemma only_world_run {A} (m : M Service A) s r s' :
  moves only_world m -> m s = (r, s') -> s' = set_world (sv_world s') s.
Proof. intros Hm E. specialize (Hm s). by rewrite E in Hm. Qed.

Lemma moves_deref R `{!PreOrder R} l : moves R (deref l).
Proof.
  unfold deref. apply moves_bind; [done|by auto with moves|]. intros h.
  destruct (h !! l); auto with moves.
Qed.
#[export] Hint Resolve moves_deref : moves.

Lemma deref_ok l s tw s' : deref l s = (Ok tw, s') <-> sv_heap s !! l = Some tw /\ s' = s.
Proof.
  unfold deref, gets, mbind, M_bind. destruct (sv_heap s !! l); cbn; unfold mret, M_ret, throw.
  - split; [by intros [= -> ->]|]. by intros [[= ->] ->].
  - split; [done|]. by intros [].
Qed.

Lemma W_ok {A} (m : M world A) s a s' : W m s = (Ok a, s') ->
  exists w', m (sv_world s) = (Ok a, w') /\ s' = set_world w' s.
Proof. unfold W, zoom. destruct (m (sv_world s)). intros [= -> <-]. eauto. Qed.
