(* ===== verification/Auth.v ===== *)
(** * Authentication and authorisation: internal/service/auth.go

    Claims and tokens, the access policy [authorize], the two interceptors and
    [RefreshToken]. Incoming metadata is a map from keys to values; a token is
    signed with the MAC of class [Mac]. *)

From S2P Require Import Prelude GoStrings GoTime Encoding Crypto Json Decode Proto Broker Sdk Ids World.
From S2P Require Import Options Service.

(** ** Claims *)

Record jwtClaims := MkClaims {
  Subject : string;
  cl_TenantID : string;
  cl_WalletID : string;
  cl_Type : string;
  IssuedAt : Z;
  Expires : Z;
  JTI : string;
}.
Definition zero_claims : jwtClaims := MkClaims "" "" "" "" 0 0 "".

Record authSubject := MkSubject { sub_TenantID : string; sub_WalletID : string; sub_Type : string }.

(** [json.Marshal(claims)] *)
Definition claims_json (c : jwtClaims) : json := JObj
  [("sub", JStr (Subject c)); ("tenant_id", JStr (cl_TenantID c)); ("wallet_id", JStr (cl_WalletID c));
   ("typ", JStr (cl_Type c)); ("iat", JNum (itoa (IssuedAt c))); ("exp", JNum (itoa (Expires c)));
   ("jti", JStr (JTI c))].

Definition claims_fields : list (field jwtClaims) :=
  [string_field "sub" (fun v c => MkClaims v (cl_TenantID c) (cl_WalletID c) (cl_Type c) (IssuedAt c) (Expires c) (JTI c));
   string_field "tenant_id" (fun v c => MkClaims (Subject c) v (cl_WalletID c) (cl_Type c) (IssuedAt c) (Expires c) (JTI c));
   string_field "wallet_id" (fun v c => MkClaims (Subject c) (cl_TenantID c) v (cl_Type c) (IssuedAt c) (Expires c) (JTI c));
   string_field "typ" (fun v c => MkClaims (Subject c) (cl_TenantID c) (cl_WalletID c) v (IssuedAt c) (Expires c) (JTI c));
   int64_field "iat" (fun v c => MkClaims (Subject c) (cl_TenantID c) (cl_WalletID c) (cl_Type c) v (Expires c) (JTI c));
   int64_field "exp" (fun v c => MkClaims (Subject c) (cl_TenantID c) (cl_WalletID c) (cl_Type c) (IssuedAt c) v (JTI c));
   string_field "jti" (fun v c => MkClaims (Subject c) (cl_TenantID c) (cl_WalletID c) (cl_Type c) (IssuedAt c) (Expires c) v)].

(** [json.Unmarshal(body, &claims)] *)
Definition unmarshal_claims (body : bytes) : result jwtClaims :=
  j ← json_parse (string_of_bytes body);
  decode_struct claims_fields j zero_claims.

Definition jwt_header : json := JObj [("alg", JStr "HS256"); ("typ", JStr "JWT")].

Definition marshal (j : json) : bytes := bytes_of_string (json_print compact 0 j).

(** ** Requests *)

(** An incoming gRPC context: its metadata, if any. gRPC keys are lower case. *)
Record context := MkContext { ctx_md : option (gmap string (list string)) }.
Definition md_Get (md : gmap string (list string)) (k : string) : list string :=
  default [] (md !! to_lower k).

Definition unauthenticated (msg : string) : error := EStatus Unauthenticated msg.
Definition denied (msg : string) : error := EStatus PermissionDenied msg.

Definition nodeScopedMethods : list string :=
  ["Status"; "RefreshToken"; "ConnectPeer"; "BroadcastCustomSpend"; "P2PKHOutput";
   "OpReturnOutput"; "AnyoneCanSpendOutput"; "ParseTransaction"; "BroadcastRaw";
   "ExecuteScript"; "DecodeOutputAddress"; "PendingTransactions";
   "RebroadcastPendingTransactions"; "StreamTransactions"; "StreamBlocks";
   "StreamP2PTraffic"; "StreamRejects"; "VerifyTxSeen"; "WaitForTxRelay"].

Definition bsvmsServicePrefix : string := "/" +:+ service_name +:+ "/".
Definition isBSVMSMethod (fullMethod : string) : bool := has_prefix fullMethod bsvmsServicePrefix.

Definition shortMethod (fullMethod : string) : string :=
  match last_index "/" fullMethod with
  | Some i => str_drop (i + 1) fullMethod
  | None => fullMethod
  end.

Definition isBootstrapMethod (method : string) : bool :=
  has_suffix method "/CreateWallet" || has_suffix method "/RestoreWallet".

(** [fields.ByName(name)], when it is of string kind: its value. *)
Definition string_named (m : message) (name : string) : option string :=
  match List.find (fun f => String.eqb (fst f) name) m with
  | Some (_, KString v) => Some v
  | _ => None
  end.

(** [None] is a request that is not a valid [proto.Message]. *)
Definition tenantWalletFromRequest (req : option message) : string * string * bool :=
  match req with
  | None => ("", "", false)
  | Some m =>
      match string_named m "tenant_id" with
      | None => ("", "", false)
      | Some tenantID => (tenantID, default "" (string_named m "wallet_id"), true)
      end
  end.

(** The loop over the authorization headers. *)
Fixpoint bearer_token (values : list string) : string :=
  match values with
  | [] => ""
  | value :: rest =>
      if has_prefix (to_lower value) "bearer " then trim_space (str_drop 7 value)
      else bearer_token rest
  end.

(** The context of a caller that presents [token]. *)
Definition authContext (token : string) : context :=
  MkContext (Some {["authorization" := ["Bearer " +:+ token]]}).

(** [AuthEnabled()] of the service. *)
Definition Service_AuthEnabled (s : Service) : bool := AuthEnabled (sv_opts s).

Section auth.
Context `{Env} `{Mac}.

(** ** Tokens *)

Definition randomID : M world string :=
  '(b, _) ← rand_read 16;
  mret (b64_encode RawURLEncoding b).

Definition signature (secret : bytes) (unsigned : string) : bytes := mac secret (bytes_of_string unsigned).

Definition signJWT (secret : bytes) (claims : jwtClaims) : result string :=
  let head := marshal jwt_header in
  let body := marshal (claims_json claims) in
  let unsigned := b64_encode RawURLEncoding head +:+ "." +:+ b64_encode RawURLEncoding body in
  Ok (unsigned +:+ "." +:+ b64_encode RawURLEncoding (signature secret unsigned)).

Definition validateJWT (token typ : string) : M Service authSubject :=
  match split_char "." token with
  | [part0; part1; part2] =>
      let unsigned := part0 +:+ "." +:+ part1 in
      sig ← on_error (fun _ => unauthenticated "invalid token signature")
              (lift (b64_decode RawURLEncoding part2));
      secret ← gets (fun s => JWTSecret (sv_opts s));
      if negb (bool_decide (sig = signature secret unsigned))
      then throw (unauthenticated "invalid token signature") else
      body ← on_error (fun _ => unauthenticated "invalid token body")
               (lift (b64_decode RawURLEncoding part1));
      claims ← on_error (fun _ => unauthenticated "invalid token claims")
                 (lift (unmarshal_claims body));
      if negb (String.eqb (cl_Type claims) typ) then throw (unauthenticated "wrong token type") else
      now ← W time_now;
      if (Expires claims <=? Unix (MkTime now 0))%Z then throw (unauthenticated "token expired") else
      if String.eqb (cl_TenantID claims) "" || String.eqb (cl_WalletID claims) ""
      then throw (unauthenticated "missing token subject") else
      mret (MkSubject (cl_TenantID claims) (cl_WalletID claims) (cl_Type claims))
  | _ => throw (unauthenticated "invalid token")
  end.

Definition claims_for (tenantID walletID typ : string) (now exp : Time) (jti : string) : jwtClaims :=
  MkClaims (tenantID +:+ ":" +:+ walletID) tenantID walletID typ (Unix now) (Unix exp) jti.

Definition issueTokens (tenantID walletID : string) : M Service pb.AuthTokens :=
  nanos ← W time_now;
  o ← gets sv_opts;
  let now := UTC (MkTime nanos 0) in
  let accessExp := Add now (AccessTTL o) in
  let refreshExp := Add now (RefreshTTL o) in
  jti ← W randomID;
  access ← lift (signJWT (JWTSecret o) (claims_for tenantID walletID "access" now accessExp jti));
  jti ← W randomID;
  refresh ← lift (signJWT (JWTSecret o) (claims_for tenantID walletID "refresh" now refreshExp jti));
  mret (pb.MkAuthTokens access refresh "Bearer" (format_RFC3339Nano accessExp) tenantID walletID).

(** ** Authorisation *)

Definition authSubjectFromContext (ctx : context) : M Service authSubject :=
  match ctx_md ctx with
  | None => throw (unauthenticated "missing metadata")
  | Some md =>
      let token := bearer_token (md_Get md "authorization") in
      if String.eqb token "" then throw (unauthenticated "missing bearer token") else
      validateJWT token "access"
  end.

Definition bootstrapAllowed (req : option message) : M Service bool :=
  let '(tenantID, walletID, scoped) := tenantWalletFromRequest req in
  if negb scoped || String.eqb tenantID "" || String.eqb walletID "" then mret false else
  if negb (is_ok (validateTenantWallet tenantID walletID)) then mret false else
  gets (fun s => negb (bool_decide (is_Some (lookup_wallet s tenantID walletID)))).

(** The decision about a request once its token named a subject. *)
Definition authorize_subject (sub : authSubject) (method : string) (req : option message) : result unit :=
  if negb (String.eqb (sub_Type sub) "access") then Err (unauthenticated "access token required") else
  if negb (isBSVMSMethod method) then Ok () else
  let '(tenantID, walletID, scoped) := tenantWalletFromRequest req in
  if negb scoped then
    if bool_decide (shortMethod method ∈ nodeScopedMethods) then Ok ()
    else Err (denied "method is not tenant-scoped")
  else
  if String.eqb tenantID "" then Err (denied "tenant_id required") else
  if negb (String.eqb tenantID (sub_TenantID sub)) then Err (denied "tenant mismatch") else
  if negb (String.eqb walletID "") && negb (String.eqb walletID (sub_WalletID sub))
  then Err (denied "wallet mismatch") else
  Ok ().

Definition authorize (ctx : context) (method : string) (req : option message) : M Service unit :=
  enabled ← gets (fun s => AuthEnabled (sv_opts s));
  if negb enabled then mret () else
  boot ← (if isBootstrapMethod method then bootstrapAllowed req else mret false);
  if (boot : bool) then mret () else
  if has_suffix method "/RefreshToken" then mret () else
  sub ← authSubjectFromContext ctx;
  lift (authorize_subject sub method req).

(** [UnaryAuthInterceptor]: the handler runs only on an authorised request. *)
Definition UnaryAuthInterceptor {A} (ctx : context) (method : string) (req : option message)
    (handler : M Service A) : M Service A :=
  _ ← authorize ctx method req;
  handler.

(** The wrapped stream of [StreamAuthInterceptor]; [RecvMsg] is given what the
    underlying stream receives. *)
Record authServerStream := MkAuthStream { as_method : string; as_checked : bool }.
Definition RecvMsg (ctx : context) (a : authServerStream) (m : result message) :
    M Service unit * authServerStream :=
  match m with
  | Err e => (throw e, a)
  | Ok m =>
      if as_checked a then (mret (), a)
      else (authorize ctx (as_method a) (Some m), {| as_method := as_method a; as_checked := true |})
  end.

(** A generated server-streaming handler, under the interceptor: it receives
    the request through the wrapped stream, then runs the service's method. *)
Definition StreamAuthInterceptor {A} (ctx : context) (method : string) (m : result message)
    (handler : message -> M Service A) : M Service A :=
  let stream := {| as_method := method; as_checked := false |} in
  _ ← fst (RecvMsg ctx stream m);
  req ← lift m;
  handler req.

Definition RefreshToken (req : pb.RefreshTokenRequest) : M Service pb.AuthTokens :=
  enabled ← gets (fun s => AuthEnabled (sv_opts s));
  if negb enabled then throw (EStatus FailedPrecondition "auth disabled") else
  sub ← validateJWT (pb.RefreshTokenRequest_RefreshToken req) "refresh";
  issueTokens (sub_TenantID sub) (sub_WalletID sub).
End auth.
