(* ===== verification/AuthSpec.v ===== *)
(** * What authentication and authorisation promise

    [valid_token] says which tokens [validateJWT] accepts, [authorised] which
    requests [authorize] lets through; both are proved exact. *)

From S2P Require Import Prelude GoStrings GoTime Encoding Crypto Json Decode Proto Broker Sdk Ids World.
From S2P Require Import Options Service Auth.

(** ** Characters *)

Lemma id_char_safe a : id_char a = true -> html_safe a = true.
Proof.
  intros Ha. pose proof (ascii_forall (fun a => implb (id_char a) (html_safe a))
    ltac:(by vm_compute) a) as H. cbn beta in H. by rewrite Ha in H.
Qed.

Lemma b64_alpha_safe a : b64_alpha a = true -> html_safe a && negb (Ascii.eqb a ".") = true.
Proof.
  intros Ha. pose proof (ascii_forall (fun a => implb (b64_alpha a) (html_safe a && negb (Ascii.eqb a ".")))
    ltac:(by vm_compute) a) as H. cbn beta in H. by rewrite Ha in H.
Qed.

Lemma id_plain s : idRE_MatchString s = true -> plain_str s = true.
Proof. intros H. eapply str_forall_impl; [apply id_char_safe | by apply id_chars]. Qed.

Lemma rawurl_plain l : plain_str (b64_encode RawURLEncoding l) = true.
Proof.
  eapply str_forall_impl; [|apply rawurl_encode_chars].
  by intros a [H _]%b64_alpha_safe%andb_true_iff.
Qed.

Lemma rawurl_no_dot l : lacks "." (b64_encode RawURLEncoding l) = true.
Proof.
  eapply str_forall_impl; [|apply rawurl_encode_chars].
  by intros a [_ H]%b64_alpha_safe%andb_true_iff.
Qed.

Lemma plain_app s t : plain_str (s +:+ t) = plain_str s && plain_str t.
Proof. apply str_forall_app. Qed.

(** ** Claims *)

(** Claims whose text needs no escaping and whose times fit an [int64]. *)
Record plain_claims (c : jwtClaims) : Prop := {
  plain_subject : plain_str (Subject c) = true;
  plain_tenant : plain_str (cl_TenantID c) = true;
  plain_wallet : plain_str (cl_WalletID c) = true;
  plain_type : plain_str (cl_Type c) = true;
  plain_jti : plain_str (JTI c) = true;
  range_iat : in_int64 (IssuedAt c);
  range_exp : in_int64 (Expires c);
}.

Lemma claims_printable c : plain_claims c -> printable (claims_json c).
Proof.
  intros []. apply printable_obj.
  repeat (apply Forall_cons_2; [split; [done|]; cbn; by constructor|]). apply Forall_nil_2.
Qed.

Lemma decode_claims c : in_int64 (IssuedAt c) -> in_int64 (Expires c) ->
  decode_struct claims_fields (claims_json c) zero_claims = Ok c.
Proof.
  intros Hi He. unfold decode_struct, claims_json, claims_fields. cbn -[atoi itoa].
  rewrite (atoi_itoa (IssuedAt c)) by exact Hi. cbn -[atoi itoa].
  rewrite (atoi_itoa (Expires c)) by exact He. cbn. by destruct c.
Qed.

Lemma unmarshal_marshal_claims c : plain_claims c ->
  unmarshal_claims (marshal (claims_json c)) = Ok c.
Proof.
  intros Hc. unfold unmarshal_claims, marshal. rewrite string_of_bytes_of_string.
  rewrite json_parse_compact by by apply claims_printable.
  apply decode_claims; apply Hc.
Qed.

(** ** Tokens *)

Section tokens.
Context `{Env} `{Mac}.

(** The tokens accepted at Unix time [now], and the subject each names. *)
Definition valid_token (secret : bytes) (token typ : string) (now : Z) (sub : authSubject) : Prop :=
  exists head body sig raw claims,
    split_char "." token = [head; body; sig] /\
    b64_decode RawURLEncoding sig = Ok (signature secret (head +:+ "." +:+ body)) /\
    b64_decode RawURLEncoding body = Ok raw /\
    unmarshal_claims raw = Ok claims /\
    cl_Type claims = typ /\ (now < Expires claims)%Z /\
    cl_TenantID claims <> "" /\ cl_WalletID claims <> "" /\
    sub = MkSubject (cl_TenantID claims) (cl_WalletID claims) typ.

(** The clock as the service would read it now. *)
Definition clock (s : Service) : Z := oracle (w_trace (sv_world s)) (HostCall TimeNow).
Definition now_unix (s : Service) : Z := Unix (MkTime (clock s) 0).
Definition secret_of (s : Service) : bytes := JWTSecret (sv_opts s).

Lemma time_now_run s :
  W time_now s = (Ok (clock s), set_world (log (HostCall TimeNow) (sv_world s)) s).
Proof. reflexivity. Qed.

Lemma on_error_lift {S A} f (r : result A) (s : S) : on_error f (lift r) s = (map_error f r, s).
Proof. reflexivity. Qed.

Lemma validateJWT_sound token typ s sub s' :
  validateJWT token typ s = (Ok sub, s') ->
  valid_token (secret_of s) token typ (now_unix s) sub /\
  s' = set_world (log (HostCall TimeNow) (sv_world s)) s.
Proof.
  unfold validateJWT. destruct (split_char "." token) as [|h [|b [|g [|]]]] eqn:Ep; try done.
  intros Hv. apply bind_ok_inv in Hv as (sig & s1 & Hs & Hv).
  rewrite on_error_lift in Hs. injection Hs as Hs <-. apply map_error_ok in Hs.
  unfold mbind, M_bind, gets in Hv. cbn [fst snd] in Hv.
  case_bool_decide as Eg; [|done]. cbn [negb] in Hv.
  rewrite on_error_lift in Hv. destruct (b64_decode RawURLEncoding b) as [raw|] eqn:Eb; [|done].
  cbn [map_error] in Hv. rewrite on_error_lift in Hv.
  destruct (unmarshal_claims raw) as [c|] eqn:Ec; [|done]. cbn [map_error] in Hv.
  destruct (String.eqb_spec (cl_Type c) typ) as [Et|]; [|done]. cbn [negb] in Hv.
  rewrite time_now_run in Hv. destruct (Z.leb_spec (Expires c) (Unix (MkTime (clock s) 0))); [done|].
  destruct (String.eqb_spec (cl_TenantID c) ""), (String.eqb_spec (cl_WalletID c) ""); try done.
  cbn in Hv. injection Hv as <- <-. split; [|done].
  exists h, b, g, raw, c. subst sig. rewrite Et. repeat split; done.
Qed.

Lemma validateJWT_complete token typ s sub :
  valid_token (secret_of s) token typ (now_unix s) sub ->
  validateJWT token typ s = (Ok sub, set_world (log (HostCall TimeNow) (sv_world s)) s).
Proof.
  intros (h & b & g & raw & c & Ep & Hs & Hb & Hc & Ht & Hn & Hten & Hw & ->).
  unfold validateJWT. rewrite Ep. unfold mbind, M_bind.
  rewrite on_error_lift, Hs. cbn [map_error]. unfold gets. cbn [fst].
  rewrite bool_decide_true by done. cbn [negb].
  rewrite on_error_lift, Hb. cbn [map_error]. rewrite on_error_lift, Hc. cbn [map_error].
  rewrite Ht, String.eqb_refl. cbn [negb]. rewrite time_now_run.
  rewrite (proj2 (Z.leb_gt _ _)) by exact Hn.
  by rewrite !(proj2 (String.eqb_neq _ _)).
Qed.

Lemma list3_inj {A} (a b c a' b' c' : A) : [a; b; c] = [a'; b'; c'] -> a = a' /\ b = b' /\ c = c'.
Proof. by intros [= -> -> ->]. Qed.

Lemma split_jwt h b g : lacks "." h = true -> lacks "." b = true -> lacks "." g = true ->
  split_char "." ((h +:+ "." +:+ b) +:+ "." +:+ g) = [h; b; g].
Proof.
  intros Hh Hb Hg. rewrite <- !app_str_assoc. cbn [append].
  by rewrite !split_char_app, split_char_lacks.
Qed.

(** What a signed token is worth is decided by its claims alone. *)
Lemma signJWT_valid secret c token typ now sub : plain_claims c -> signJWT secret c = Ok token ->
  valid_token secret token typ now sub <->
  typ = cl_Type c /\ (now < Expires c)%Z /\ cl_TenantID c <> "" /\ cl_WalletID c <> "" /\
  sub = MkSubject (cl_TenantID c) (cl_WalletID c) typ.
Proof.
  unfold signJWT. cbv zeta. intros Hc <-%Ok_inj. unfold valid_token.
  rewrite split_jwt by apply rawurl_no_dot. split.
  - intros (h & b & g & raw & c' & (<- & <- & <-)%list3_inj & _ & Hb & Hu & Ht & Hn & Hten & Hw & ->).
    rewrite b64_decode_encode in Hb by auto. apply Ok_inj in Hb as <-.
    rewrite unmarshal_marshal_claims in Hu by done. apply Ok_inj in Hu as <-. done.
  - intros (-> & Hn & Hten & Hw & ->). do 4 eexists. exists c. split; [done|].
    rewrite !b64_decode_encode by auto. do 2 (split; [done|]).
    by rewrite unmarshal_marshal_claims.
Qed.

(** *** Issuing *)

Lemma randomID_run s : exists j, plain_str j = true /\
  W randomID s = (Ok j, set_world (log (HostCall (RandRead 16)) (sv_world s)) s).
Proof.
  unfold W, zoom, randomID. erewrite bind_run by apply rand_read_run.
  destruct (oracle (w_trace (sv_world s)) (HostCall (RandRead 16)));
    (eexists; split; [|reflexivity]); apply rawurl_plain.
Qed.

Definition now_of (s : Service) : Time := UTC (MkTime (clock s) 0).

Lemma issueTokens_run t w s : exists j1 j2 access refresh s',
  let o := sv_opts s in
  let claims typ exp j := claims_for t w typ (now_of s) exp j in
  plain_str j1 = true /\ plain_str j2 = true /\
  signJWT (secret_of s) (claims "access" (Add (now_of s) (AccessTTL o)) j1) = Ok access /\
  signJWT (secret_of s) (claims "refresh" (Add (now_of s) (RefreshTTL o)) j2) = Ok refresh /\
  issueTokens t w s = (Ok (pb.MkAuthTokens access refresh "Bearer"
    (format_RFC3339Nano (Add (now_of s) (AccessTTL o))) t w), s') /\ only_world s s'.
Proof.
  unfold issueTokens. erewrite bind_run by apply time_now_run.
  set (s1 := set_world _ s). erewrite bind_run by reflexivity. cbv zeta.
  destruct (randomID_run s1) as (j1 & H1 & E1). erewrite bind_run by exact E1.
  set (s2 := set_world _ s1). erewrite bind_run by reflexivity.
  destruct (randomID_run s2) as (j2 & H2 & E2). erewrite bind_run by exact E2.
  erewrite bind_run by reflexivity.
  do 5 eexists. split; [exact H1|]. split; [exact H2|].
  repeat (split; [reflexivity|]). reflexivity.
Qed.

(** Unix times of a sane clock, plus any duration, fit an [int64]. *)
Lemma unix_in_int64 n d : in_int64 n -> in_int64 d -> in_int64 (Unix (Add (UTC (MkTime n 0)) d)).
Proof. unfold in_int64, Unix, Add, UTC, Second. cbn. intros. split; [apply Z.div_le_lower_bound|apply Z.div_lt_upper_bound]; lia. Qed.

Lemma claims_for_plain s t w typ d j : idRE_MatchString t = true -> idRE_MatchString w = true ->
  plain_str typ = true -> plain_str j = true -> in_int64 (clock s) -> in_int64 d ->
  plain_claims (claims_for t w typ (now_of s) (Add (now_of s) d) j).
Proof.
  intros Ht Hw Hty Hj Hc Hd. pose proof (id_plain _ Ht) as Pt. pose proof (id_plain _ Hw) as Pw.
  split; cbn; try done.
  - change (plain_str (t +:+ (":" +:+ w)) = true). by rewrite !plain_app, Pt, Pw.
  - pose proof (unix_in_int64 (clock s) 0 Hc ltac:(done)) as E. unfold Add in E. cbn in E.
    by rewrite Z.add_0_r in E.
  - by apply unix_in_int64.
Qed.
End tokens.

(** ** Who may call what *)

Section authorised.
Context `{Env} `{Mac}.

(** The context bears an access token of [sub]. *)
Definition access_subject (s : Service) (ctx : context) (sub : authSubject) : Prop :=
  exists md, ctx_md ctx = Some md /\ bearer_token (md_Get md "authorization") <> "" /\
    valid_token (secret_of s) (bearer_token (md_Get md "authorization")) "access" (now_unix s) sub.

(** The request names a well-formed wallet that does not exist yet. *)
Definition names_new_wallet (s : Service) (req : option message) : Prop :=
  exists t w, tenantWalletFromRequest req = (t, w, true) /\
    idRE_MatchString t = true /\ idRE_MatchString w = true /\ lookup_wallet s t w = None.

Inductive authorised (s : Service) (ctx : context) (method : string) (req : option message) : Prop :=
  | auth_off : AuthEnabled (sv_opts s) = false -> authorised s ctx method req
  | auth_bootstrap :
      isBootstrapMethod method = true -> names_new_wallet s req -> authorised s ctx method req
  | auth_refresh : has_suffix method "/RefreshToken" = true -> authorised s ctx method req
  | auth_other_service sub :
      access_subject s ctx sub -> isBSVMSMethod method = false -> authorised s ctx method req
  | auth_node sub :
      access_subject s ctx sub -> snd (tenantWalletFromRequest req) = false ->
      shortMethod method ∈ nodeScopedMethods -> authorised s ctx method req
  | auth_tenant sub t w :
      access_subject s ctx sub -> tenantWalletFromRequest req = (t, w, true) ->
      t <> "" -> t = sub_TenantID sub -> w = "" \/ w = sub_WalletID sub ->
      authorised s ctx method req.

Lemma authSubjectFromContext_sound ctx s sub s' : authSubjectFromContext ctx s = (Ok sub, s') ->
  access_subject s ctx sub /\ sub_Type sub = "access".
Proof.
  unfold authSubjectFromContext, access_subject. destruct (ctx_md ctx) as [md|]; [|done].
  destruct (String.eqb_spec (bearer_token (md_Get md "authorization")) "") as [|Hne]; [done|].
  intros Hv. apply validateJWT_sound in Hv as [Hv _]. split; [by exists md|].
  by destruct Hv as (? & ? & ? & ? & ? & _ & _ & _ & _ & _ & _ & _ & _ & ->).
Qed.

Lemma authSubjectFromContext_complete ctx s sub : access_subject s ctx sub ->
  authSubjectFromContext ctx s = (Ok sub, set_world (log (HostCall TimeNow) (sv_world s)) s).
Proof.
  intros (md & E & Hne & Hv). unfold authSubjectFromContext. rewrite E.
  rewrite (proj2 (String.eqb_neq _ _) Hne). by apply validateJWT_complete.
Qed.

Lemma access_subject_type s ctx sub : access_subject s ctx sub -> sub_Type sub = "access".
Proof. intros Hs. by eapply authSubjectFromContext_sound, authSubjectFromContext_complete. Qed.

Lemma bootstrapAllowed_run s req : exists b, bootstrapAllowed req s = (Ok b, s) /\
  (b = true <-> names_new_wallet s req).
Proof.
  unfold bootstrapAllowed, names_new_wallet.
  destruct (tenantWalletFromRequest req) as [[t w] scoped].
  destruct scoped; cbn [negb orb]; [|by exists false; naive_solver].
  destruct (String.eqb_spec t "") as [->|Ht]; cbn [orb].
  { exists false. split; [done|]. split; [done|]. by intros (? & ? & [= <- <-] & ? & _). }
  destruct (String.eqb_spec w "") as [->|Hw].
  { exists false. split; [done|]. split; [done|]. by intros (? & ? & [= <- <-] & _ & ? & _). }
  destruct (validateTenantWallet t w) as [u|e] eqn:Ev; cbn [is_ok negb].
  - apply validateTenantWallet_ok in Ev. eexists. split; [reflexivity|].
    rewrite negb_true_iff, bool_decide_eq_false, <- eq_None_not_Some. naive_solver.
  - exists false. split; [done|]. split; [done|]. intros (? & ? & [= <- <-] & It & Iw & _).
    by rewrite (proj2 (validateTenantWallet_ok t w ()) (conj It Iw)) in Ev.
Qed.

Lemma authorize_subject_ok sub method req : sub_Type sub = "access" ->
  authorize_subject sub method req = Ok () <->
  isBSVMSMethod method = false \/
  snd (tenantWalletFromRequest req) = false /\ shortMethod method ∈ nodeScopedMethods \/
  exists t w, tenantWalletFromRequest req = (t, w, true) /\ t <> "" /\ t = sub_TenantID sub /\
    (w = "" \/ w = sub_WalletID sub).
Proof.
  intros Ht. unfold authorize_subject. rewrite Ht, String.eqb_refl. cbn [negb].
  destruct (isBSVMSMethod method); cbn [negb]; [|by naive_solver].
  destruct (tenantWalletFromRequest req) as [[t w] [|]]; cbn [negb snd].
  - destruct (String.eqb_spec t "") as [->|]; [split; [done|naive_solver]|].
    destruct (String.eqb_spec t (sub_TenantID sub)); cbn [negb]; [|split; [done|naive_solver]].
    destruct (String.eqb_spec w ""), (String.eqb_spec w (sub_WalletID sub)); cbn [negb andb];
      split; try done; naive_solver.
  - case_bool_decide; naive_solver.
Qed.

Lemma authorize_spec ctx method req s :
  (exists s', authorize ctx method req s = (Ok (), s')) <-> authorised s ctx method req.
Proof.
  unfold authorize. unfold mbind at 1, M_bind at 1, gets at 1.
  destruct (AuthEnabled (sv_opts s)) eqn:Hon; cbn [negb]; [|split; [by intros _; apply auth_off|by eexists]].
  assert (exists b, (if isBootstrapMethod method then bootstrapAllowed req else mret false) s = (Ok b, s) /\
    (b = true <-> isBootstrapMethod method = true /\ names_new_wallet s req)) as (b & Eb & Hb).
  { destruct (isBootstrapMethod method); [|by exists false; naive_solver].
    destruct (bootstrapAllowed_run s req) as (b & ? & ?). exists b. naive_solver. }
  rewrite (bind_run _ _ _ _ _ Eb). destruct b.
  { split; [|by eexists]. intros _. apply auth_bootstrap; by apply Hb. }
  destruct (has_suffix method "/RefreshToken") eqn:Hr; [split; [by intros _; apply auth_refresh|by eexists]|].
  split.
  - intros (s' & Ha). apply bind_ok_inv in Ha as (sub & s1 & Hs & Ha).
    injection Ha as Ha _. apply authSubjectFromContext_sound in Hs as [Hs Ht].
    apply authorize_subject_ok in Ha; [|done].
    destruct Ha as [?|[[? ?]|(t & w & ? & ? & ? & ?)]];
      [by eapply auth_other_service|by eapply auth_node|by eapply auth_tenant].
  - intros Ha. assert (exists sub, access_subject s ctx sub /\ authorize_subject sub method req = Ok ())
      as (sub & Hs & Hsub).
    { destruct Ha as [Hoff|Hm Hnew|Href|sub Hs Ho|sub Hs Hn Hin|sub t w Hs Et Hne Hten Hw];
        [congruence|by destruct Hb as [_ Hb]; discriminate Hb|congruence|..];
        exists sub; (split; [done|]); (apply authorize_subject_ok; [by eapply access_subject_type|]).
      - by left.
      - right. by left.
      - right. right. by exists t, w. }
    erewrite bind_run by (by apply authSubjectFromContext_complete).
    unfold lift. rewrite Hsub. by eexists.
Qed.

Lemma authorize_only_world ctx method req : moves only_world (authorize ctx method req).
Proof.
  assert (forall token typ, moves only_world (validateJWT token typ)) as Hv.
  { intros token typ. unfold validateJWT.
    destruct (split_char "." token) as [|? [|? [|? [|]]]]; auto with moves.
    repeat first [apply moves_bind; [by auto with moves|by auto with moves|intros ?] | case_match]; auto with moves. }
  unfold authorize, authSubjectFromContext, bootstrapAllowed.
  repeat first [apply moves_bind; [by auto with moves| |intros ?] | case_match]; auto with moves.
Qed.
End authorised.
