(* ===== verification/Registry.v ===== *)
(** * The wallet registry

    Start-up, wallet creation and restoration, the state file, snapshots and
    wallet lookup: the operations of internal/service/service.go that change
    [Service.state] and [Service.wallets]. *)

From S2P Require Import Prelude GoStrings GoPath Encoding Crypto Json Decode Proto Broker Sdk Ids World.
From S2P Require Import Encryption Options Service Auth.

(** ** The state file *)

(** A struct field with [omitempty]. *)
Definition omitempty (name value : string) : list (string * json) :=
  if String.eqb value "" then [] else [(name, JStr value)].
Definition meta_json (m : walletMeta) : json := JObj
  ([("tenant_id", JStr (TenantID m)); ("wallet_id", JStr (WalletID m)); ("sdk_name", JStr (SDKName m))]
   ++ omitempty "mnemonic" (Mnemonic m) ++ omitempty "passphrase" (Passphrase m)
   ++ omitempty "mnemonic_ciphertext" (MnemonicCiphertext m)
   ++ omitempty "passphrase_ciphertext" (PassphraseCiphertext m)).
Definition state_json (wallets : list walletMeta) : json :=
  JObj [("wallets", match wallets with [] => JNull | _ => JArr (meta_json <$> wallets) end)].

Definition zero_meta : walletMeta := MkMeta "" "" "" "" "" "" "".
Definition meta_fields : list (field walletMeta) :=
  [string_field "tenant_id" (fun v m => MkMeta v (WalletID m) (SDKName m) (Mnemonic m) (Passphrase m) (MnemonicCiphertext m) (PassphraseCiphertext m));
   string_field "wallet_id" (fun v m => MkMeta (TenantID m) v (SDKName m) (Mnemonic m) (Passphrase m) (MnemonicCiphertext m) (PassphraseCiphertext m));
   string_field "sdk_name" (fun v m => MkMeta (TenantID m) (WalletID m) v (Mnemonic m) (Passphrase m) (MnemonicCiphertext m) (PassphraseCiphertext m));
   string_field "mnemonic" (fun v m => MkMeta (TenantID m) (WalletID m) (SDKName m) v (Passphrase m) (MnemonicCiphertext m) (PassphraseCiphertext m));
   string_field "passphrase" (fun v m => MkMeta (TenantID m) (WalletID m) (SDKName m) (Mnemonic m) v (MnemonicCiphertext m) (PassphraseCiphertext m));
   string_field "mnemonic_ciphertext" (fun v m => MkMeta (TenantID m) (WalletID m) (SDKName m) (Mnemonic m) (Passphrase m) v (PassphraseCiphertext m));
   string_field "passphrase_ciphertext" (fun v m => MkMeta (TenantID m) (WalletID m) (SDKName m) (Mnemonic m) (Passphrase m) (MnemonicCiphertext m) v)].
Definition unmarshal_meta (j : json) : result walletMeta := decode_struct meta_fields j zero_meta.
Definition state_fields : list (field (list walletMeta)) :=
  [slice_field "wallets" unmarshal_meta (fun v _ => v)].
Definition unmarshal_state (raw : string) : result (list walletMeta) :=
  j ← json_parse raw; decode_struct state_fields j [].

(** ** Paths *)

Definition statePath (dataDir : string) : string := Join dataDir "bsvms-wallets.json".
Definition walletDir (dataDir : string) : string := Join dataDir "wallets".

(** Legacy records carry their secrets in the clear. *)
Definition has_plaintext (m : walletMeta) : bool :=
  negb (String.eqb (Mnemonic m) "") || negb (String.eqb (Passphrase m) "").

Section registry.
Context `{Env} `{Mac} `{Hash} `{Aead}.

Definition walletFileID (m : walletMeta) : string :=
  let sum := hash256 (bytes_of_string (TenantID m +:+ String nul (WalletID m))) in
  hex_encode sum.
Definition walletStorePath (dataDir : string) (m : walletMeta) : string :=
  Join (walletDir dataDir) (walletFileID m +:+ ".sqlite").
Definition walletSnapshotPath (dataDir : string) (m : walletMeta) : string :=
  Join (walletDir dataDir) (walletFileID m +:+ ".addrsnap").

Definition loadState : M Service unit :=
  path ← gets (fun s => statePath (sv_dataDir s));
  raw ← try_ (W (os_read_file path));
  match raw with
  | Err err => if errors_is err ErrNotExist then modify (set_state (fun _ => [])) else throw err
  | Ok raw =>
      st ← lift (unmarshal_state raw);
      modify (set_state (fun _ => st))
  end.

Definition saveStateLocked : M Service unit :=
  st ← gets sv_state;
  dir ← gets sv_dataDir;
  let raw := json_print indented 0 (state_json st) in
  let tmp := statePath dir +:+ ".tmp" in
  _ ← W (os_write_file tmp raw 384 (* 0o600 *));
  W (os_rename tmp (statePath dir)).

(** ** Secrets *)

Definition newWalletMeta (tenantID walletID sdkName mnemonic passphrase : string) : M Service walletMeta :=
  key ← gets (fun s => DataKey (sv_opts s));
  sealedMnemonic ← W (sealString key mnemonic);
  sealedPassphrase ← W (sealString key passphrase);
  mret (MkMeta tenantID walletID sdkName "" "" sealedMnemonic sealedPassphrase).

Definition openWalletSecrets (key : bytes) (m : walletMeta) : result (string * string) :=
  if has_plaintext m then Ok (Mnemonic m, Passphrase m) else
  mnemonic ← openString key (MnemonicCiphertext m);
  passphrase ← openString key (PassphraseCiphertext m);
  Ok (mnemonic, passphrase).

Definition tokensForWallet (m : walletMeta) : M Service (option pb.AuthTokens) :=
  enabled ← gets (fun s => AuthEnabled (sv_opts s));
  if negb enabled then mret None else
  tokens ← issueTokens (TenantID m) (WalletID m); mret (Some tokens).

(** ** Wallet calls through a pointer *)

Definition wcall (l : loc) (c : wallet_call) : M Service (wallet_ret c) :=
  tw ← deref l;
  W (wallet_call_ (tw_w tw) c).

Definition saveSnapshotLocked (l : loc) : M Service unit :=
  tw ← deref l;
  dir ← gets sv_dataDir;
  '(nextExternal, nextChange) ← wcall l NextIndices;
  entries ← wcall l SaveAddressSnapshot;
  r ← W (node (WriteAddressSnapshot (walletSnapshotPath dir (tw_meta tw)) nextExternal nextChange entries));
  lift r.
Definition saveSnapshot (l : loc) : M Service unit :=
  _ ← try_ (saveSnapshotLocked l);
  mret ().

(** The loop that keeps the first occurrence of each address. *)
Fixpoint dedup_addresses (seen : gset string) (entries : list bsv.SnapshotEntry) : list string :=
  match entries with
  | [] => []
  | e :: rest =>
      let a := bsv.SnapshotEntry_Address e in
      if bool_decide (a ∈ seen) then dedup_addresses seen rest
      else a :: dedup_addresses ({[a]} ∪ seen) rest
  end.
Definition walletAddresses (l : loc) : M Service (list string) :=
  entries ← wcall l SaveAddressSnapshot;
  if (length (entries : list bsv.SnapshotEntry) =? 0)%nat then wcall l Addresses else
  mret (dedup_addresses ∅ (sort_by_index entries)).

Definition walletProtoLocked (l : loc) : M Service pb.Wallet :=
  tw ← deref l;
  '(nextExternal, nextChange) ← wcall l NextIndices;
  addresses ← walletAddresses l;
  balance ← wcall l WBalance;
  balanceBSV ← wcall l BalanceBSV;
  spendable ← wcall l SpendableBalance;
  immature ← wcall l ImmatureBalance;
  selector ← wcall l Selector;
  mret {| pb.Wallet_TenantId := TenantID (tw_meta tw);
          pb.Wallet_WalletId := WalletID (tw_meta tw);
          pb.Wallet_Addresses := addresses;
          pb.Wallet_BalanceSatoshis := balance;
          pb.Wallet_BalanceBsv := balanceBSV;
          pb.Wallet_SpendableSatoshis := spendable;
          pb.Wallet_ImmatureSatoshis := immature;
          pb.Wallet_NextExternalIndex := nextExternal;
          pb.Wallet_NextChangeIndex := nextChange;
          pb.Wallet_Selector := selector |}.

(** Under the lock. *)
Definition walletProto (l : loc) : M Service pb.Wallet := walletProtoLocked l.

(** ** Attaching and looking up *)

Definition registerWalletEvents (l : loc) : M Service unit :=
  tw ← deref l;
  let tenantID := TenantID (tw_meta tw) in
  let walletID := WalletID (tw_meta tw) in
  _ ← wcall l (WOnPayment tenantID walletID);
  wcall l (WOnWalletTx tenantID walletID).

(** [&tenantWallet{...}] *)
Definition alloc (tw : tenantWallet) : M Service loc :=
  l ← gets (fun s => length (sv_heap s));
  _ ← modify (set_heap (fun h => h ++ [tw]));
  mret l.

(** The first half of [attachWalletLocked]: the store is opened, the address
    snapshot and the coins are loaded; a failure closes the store again. *)
Definition openStore (m : walletMeta) (w : wallet_ptr) : M Service store_ptr :=
  dir ← gets sv_dataDir;
  store ← on_error internal (W (call_result (host (StoreOpen (walletStorePath dir m)))));
  _ ← W (wallet_call_ w (SetStore store));
  snap ← W (node (ReadAddressSnapshot (walletSnapshotPath dir m)));
  _ ← match (snap : result (Z * Z * list bsv.SnapshotEntry)) with
      | Ok (nextExternal, nextChange, entries) =>
          _ ← W (wallet_call_ w (LoadAddressSnapshot entries));
          W (wallet_call_ w (SetNextIndices nextExternal nextChange))
      | Err err =>
          if negb (errors_is err ErrSnapshotNotFound) then
            _ ← W (host (StoreClose store));
            throw (internal err)
          else mret ()
      end;
  loaded ← W (wallet_call_ w LoadFromStore);
  match (loaded : result Z) with
  | Err err =>
      _ ← W (host (StoreClose store));
      throw (internal err)
  | Ok _ => mret store
  end.

Definition attachWalletLocked (m : walletMeta) (w : wallet_ptr) : M Service loc :=
  store ← openStore m w;
  l ← alloc {| tw_meta := m; tw_w := w; tw_store := store; tw_rescanning := false |};
  _ ← modify (set_wallets (fun ws => <[walletKey (TenantID m) (WalletID m) := l]> ws));
  _ ← registerWalletEvents l;
  mret l.

Definition wallet (tenantID walletID : string) : M Service loc :=
  _ ← lift (validateTenantWallet tenantID walletID);
  ws ← gets sv_wallets;
  match ws !! walletKey tenantID walletID with
  | None => throw (EStatus NotFound "wallet not found")
  | Some l => mret l
  end.

(** ** Start-up *)

(** The records of one wallet are replaced by the migrated one. *)
Definition replace_meta (m : walletMeta) (x : walletMeta) : walletMeta :=
  if String.eqb (TenantID x) (TenantID m) && String.eqb (WalletID x) (WalletID m) then m else x.

Definition restoreLoadedWallet (m : walletMeta) : M Service loc :=
  key ← gets (fun s => DataKey (sv_opts s));
  '(mnemonic, passphrase) ← lift (openWalletSecrets key m);
  w ← W (call_result (node (NodeRestoreWallet (SDKName m) mnemonic passphrase)));
  m ← (if has_plaintext m then
         migrated ← newWalletMeta (TenantID m) (WalletID m) (SDKName m) mnemonic passphrase;
         _ ← modify (set_state (fmap (replace_meta migrated)));
         mret migrated
       else mret m);
  attachWalletLocked m w.

Definition registerNodeEvents : M Service unit :=
  _ ← W (node OnTransaction);
  _ ← W (node OnBlock);
  _ ← W (node OnBlockDisconnected);
  _ ← W (node OnP2PTraffic);
  W (node OnReject).

(** [for _, meta := range s.state.Wallets]: the slice is read as the loop goes,
    so a record migrated on the way is seen migrated. Returns [migrated]. *)
Fixpoint load_wallets (i n : nat) (migrated : bool) : M Service bool :=
  match n with
  | O => mret migrated
  | S n =>
      st ← gets sv_state;
      match st !! i with
      | None => throw nil_pointer
      | Some m =>
          _ ← on_error (EWrap ("load wallet " +:+ TenantID m +:+ "/" +:+ WalletID m))
                (restoreLoadedWallet m);
          load_wallets (S i) n (migrated || has_plaintext m)
      end
  end.

(** The part of [NewWithOptions] that works on the new service. *)
Definition start : M Service unit :=
  o ← gets sv_opts;
  dir ← gets sv_dataDir;
  _ ← (if (0 <? BroadcastFanout o)%Z then W (node (SetBroadcastFanout (BroadcastFanout o))) else mret ());
  _ ← (if DisablePendingTxTracking o then W (node (SetPendingTxTracking false)) else mret ());
  _ ← W (os_mkdir_all (walletDir dir) 448 (* 0o700 *));
  _ ← loadState;
  _ ← registerNodeEvents;
  n ← gets (fun s => length (sv_state s));
  migrated ← load_wallets 0 n false;
  if (migrated : bool) then saveStateLocked else mret ().

Definition new_service (dataDir : string) (o : Options) (w : world) : Service :=
  MkService dataDir o [] [] ∅ newBrokers w.

Definition NewWithOptions (dataDir : string) (o : Options) : M world Service := fun w =>
  match withDefaults o dataDir w with
  | (Err err, w) => (Err err, w)
  | (Ok resolved, w) =>
      let '(r, s) := start (new_service dataDir resolved w) in
      (match r with Ok _ => Ok s | Err err => Err err end, sv_world s)
  end.

Definition New (dataDir : string) : M world Service := NewWithOptions dataDir defaultOptions.

(** [Close], visiting the wallets in some order of the map. *)
Fixpoint close_all (order : list loc) : M Service unit :=
  match order with
  | [] => mret ()
  | l :: rest =>
      tw ← deref l;
      _ ← W (host (StoreClose (tw_store tw)));
      close_all rest
  end.
Definition Close : M Service unit :=
  ws ← gets sv_wallets;
  close_all ((map_to_list ws).*2).

(** ** The registry's RPCs *)

(** What [CreateWallet] and [RestoreWallet] share once the wallet is attached. *)
Definition finishWallet (m : walletMeta) (l : loc) : M Service (pb.Wallet * option pb.AuthTokens) :=
  _ ← modify (set_state (fun st => st ++ [m]));
  _ ← on_error internal saveStateLocked;
  _ ← try_ (saveSnapshotLocked l);
  tokens ← on_error internal (tokensForWallet m);
  w ← walletProtoLocked l;
  mret (w, tokens).

Definition CreateWallet (req : pb.CreateWalletRequest) : M Service pb.CreateWalletResponse :=
  let tenantID := pb.CreateWalletRequest_TenantId req in
  let walletID := pb.CreateWalletRequest_WalletId req in
  _ ← lift (validateTenantWallet tenantID walletID);
  ws ← gets sv_wallets;
  if bool_decide (is_Some (ws !! walletKey tenantID walletID))
  then throw (EStatus AlreadyExists "wallet exists") else
  let sdkName := sdkWalletName tenantID walletID in
  '(w, mnemonic) ← on_error internal (W (call_result (node (NodeCreateWallet sdkName))));
  m ← on_error internal (newWalletMeta tenantID walletID sdkName mnemonic "");
  l ← attachWalletLocked m w;
  '(wp, tokens) ← finishWallet m l;
  mret (pb.MkCreateWalletResponse (Some wp) mnemonic tokens).

Definition RestoreWallet (req : pb.RestoreWalletRequest) : M Service pb.WalletResponse :=
  let tenantID := pb.RestoreWalletRequest_TenantId req in
  let walletID := pb.RestoreWalletRequest_WalletId req in
  let mnemonic := pb.RestoreWalletRequest_Mnemonic req in
  let passphrase := pb.RestoreWalletRequest_Passphrase req in
  _ ← lift (validateTenantWallet tenantID walletID);
  if String.eqb mnemonic "" then throw (invalid "mnemonic required") else
  ws ← gets sv_wallets;
  if bool_decide (is_Some (ws !! walletKey tenantID walletID))
  then throw (EStatus AlreadyExists "wallet exists") else
  m ← on_error internal
        (newWalletMeta tenantID walletID (sdkWalletName tenantID walletID) mnemonic passphrase);
  w ← on_error internal (W (call_result (node (NodeRestoreWallet (SDKName m) mnemonic passphrase))));
  l ← attachWalletLocked m w;
  '(wp, tokens) ← finishWallet m l;
  mret (pb.MkWalletResponse (Some wp) tokens).

Definition GetWallet (req : pb.GetWalletRequest) : M Service pb.WalletResponse :=
  l ← wallet (pb.GetWalletRequest_TenantId req) (pb.GetWalletRequest_WalletId req);
  w ← walletProto l;
  mret (pb.MkWalletResponse (Some w) None).

(** The keys of a tenant's wallets, in the order [sort.Strings] gives them. *)
Definition tenant_keys (s : Service) (tenantID : string) : list string :=
  merge_sort String.le
    (omap (fun '(key, l) =>
       match sv_heap s !! l with
       | Some tw => if String.eqb (TenantID (tw_meta tw)) tenantID then Some key else None
       | None => None
       end) (map_to_list (sv_wallets s))).
Fixpoint wallet_protos (ws : gmap string loc) (keys : list string) : M Service (list pb.Wallet) :=
  match keys with
  | [] => mret []
  | key :: rest =>
      match ws !! key with
      | None => throw nil_pointer
      | Some l =>
          w ← walletProtoLocked l;
          ps ← wallet_protos ws rest;
          mret (w :: ps)
      end
  end.
Definition ListWallets (req : pb.ListWalletsRequest) : M Service pb.ListWalletsResponse :=
  let tenantID := pb.ListWalletsRequest_TenantId req in
  _ ← lift (validateTenant tenantID);
  keys ← gets (fun s => tenant_keys s tenantID);
  ws ← gets sv_wallets;
  protos ← wallet_protos ws keys;
  mret (pb.MkListWalletsResponse protos).
End registry.
#[export] Hint Extern 0 (moves _ (walletProto _)) => unfold walletProto : moves.
