(* ===== verification/RegistrySpec.v ===== *)
(** * What the registry promises

    Frames of its operations, records that print and read back, the invariant
    [registry_ok] of map, heap and records, the outcomes of creation, what
    saving and start-up do to the files, and listing. *)

From S2P Require Import Prelude GoStrings GoPath Encoding Crypto Json Decode Proto Broker Sdk Ids World.
From S2P Require Import Encryption Options Service Auth AuthSpec Registry.

(** ** Frames of the operations *)

Section frames.
Context `{Env} `{Mac} `{Hash} `{Aead}.

Lemma wcall_only_world l c : moves only_world (wcall l c).
Proof. unfold wcall. moves_tac. Qed.
Hint Resolve wcall_only_world : moves.

Lemma saveSnapshotLocked_only_world l : moves only_world (saveSnapshotLocked l).
Proof. unfold saveSnapshotLocked. moves_tac. Qed.
Hint Resolve saveSnapshotLocked_only_world : moves.

Lemma saveSnapshot_only_world l : moves only_world (saveSnapshot l).
Proof. unfold saveSnapshot. moves_tac. Qed.

Lemma walletProtoLocked_only_world l : moves only_world (walletProtoLocked l).
Proof. unfold walletProtoLocked, walletAddresses. moves_tac. Qed.
Hint Resolve walletProtoLocked_only_world : moves.

Lemma saveStateLocked_only_world : moves only_world saveStateLocked.
Proof. unfold saveStateLocked. moves_tac. Qed.
Hint Resolve saveStateLocked_only_world : moves.

Lemma newWalletMeta_only_world t w n m p : moves only_world (newWalletMeta t w n m p).
Proof. unfold newWalletMeta. moves_tac. Qed.

Lemma issueTokens_only_world t w : moves only_world (issueTokens t w).
Proof. unfold issueTokens. moves_tac. Qed.
Hint Resolve issueTokens_only_world : moves.

Lemma tokensForWallet_only_world m : moves only_world (tokensForWallet m).
Proof. unfold tokensForWallet. moves_tac. Qed.
Hint Resolve tokensForWallet_only_world : moves.

Lemma openStore_only_world m w : moves only_world (openStore m w).
Proof. unfold openStore. moves_tac. Qed.

Lemma registerWalletEvents_only_world l : moves only_world (registerWalletEvents l).
Proof. unfold registerWalletEvents. moves_tac. Qed.

Lemma registerNodeEvents_only_world : moves only_world registerNodeEvents.
Proof. unfold registerNodeEvents. moves_tac. Qed.

Lemma wallet_only_world t w : moves only_world (wallet t w).
Proof. unfold wallet. moves_tac. Qed.

Lemma wallet_ok t w s l s' : wallet t w s = (Ok l, s') <->
  idRE_MatchString t = true /\ idRE_MatchString w = true /\ lookup_wallet s t w = Some l /\ s' = s.
Proof.
  unfold wallet, lookup_wallet, lift, gets, mbind, M_bind.
  destruct (validateTenantWallet t w) as [u|e] eqn:E.
  - apply validateTenantWallet_ok in E as [Et Ew].
    destruct (sv_wallets s !! walletKey t w); unfold mret, M_ret, throw;
      (split; [|by intros (_ & _ & [= ->] & ->)]); intros [= -> ->]; done.
  - split; [done|]. intros (Et & Ew & _).
    by rewrite (proj2 (validateTenantWallet_ok t w ()) (conj Et Ew)) in E.
Qed.

(** A wallet call through a valid pointer always answers. *)
Lemma wcall_run l c tw s : sv_heap s !! l = Some tw ->
  wcall l c s = (Ok (oracle (w_trace (sv_world s)) (WalletCall (tw_w tw) c)),
                 set_world (log (WalletCall (tw_w tw) c) (sv_world s)) s).
Proof. intros E. unfold wcall. by erewrite bind_run by (by apply deref_ok). Qed.

Lemma registerWalletEvents_ok l tw s : sv_heap s !! l = Some tw ->
  exists s', registerWalletEvents l s = (Ok (), s') /\ only_world s s'.
Proof.
  intros E. assert (exists u s', registerWalletEvents l s = (Ok u, s') /\ only_world s s') as (u & s' & Hr & Ho).
  { unfold registerWalletEvents. erewrite bind_run by (by apply deref_ok). cbv zeta.
    erewrite bind_run by (by apply wcall_run). rewrite (wcall_run _ _ tw) by done. by do 2 eexists. }
  destruct u. by exists s'.
Qed.
End frames.
#[export] Hint Resolve wcall_only_world saveSnapshotLocked_only_world saveSnapshot_only_world
  walletProtoLocked_only_world saveStateLocked_only_world newWalletMeta_only_world
  issueTokens_only_world tokensForWallet_only_world openStore_only_world
  registerWalletEvents_only_world registerNodeEvents_only_world wallet_only_world : moves.

(** ** Records that print and read back *)

Record plain_meta (m : walletMeta) : Prop := {
  pm_tenant : plain_str (TenantID m) = true;
  pm_wallet : plain_str (WalletID m) = true;
  pm_sdk : plain_str (SDKName m) = true;
  pm_mnemonic : plain_str (Mnemonic m) = true;
  pm_passphrase : plain_str (Passphrase m) = true;
  pm_mnemonic_ct : plain_str (MnemonicCiphertext m) = true;
  pm_passphrase_ct : plain_str (PassphraseCiphertext m) = true;
}.

Lemma meta_printable m : plain_meta m -> printable (meta_json m).
Proof.
  intros []. apply printable_obj. unfold omitempty.
  repeat (apply Forall_app; split); repeat case_match;
    repeat (apply Forall_cons_2; [split; [done|]; cbn; by constructor|]); apply Forall_nil_2.
Qed.

Lemma unmarshal_meta_json m : unmarshal_meta (meta_json m) = Ok m.
Proof.
  destruct m as [t w n mn pp mc pc]. unfold unmarshal_meta, meta_json, omitempty. cbn -[String.eqb].
  destruct (String.eqb_spec mn "") as [->|], (String.eqb_spec pp "") as [->|],
    (String.eqb_spec mc "") as [->|], (String.eqb_spec pc "") as [->|]; reflexivity.
Qed.

Lemma unmarshal_state_json st : Forall plain_meta st ->
  unmarshal_state (json_print indented 0 (state_json st)) = Ok st.
Proof.
  intros Hst. unfold unmarshal_state. rewrite json_parse_indented.
  - cbn [mbind result_bind]. destruct st as [|m st]; [done|].
    unfold decode_struct, state_json, state_fields. cbn [decode_members find_field List.find f_name String.eqb].
    change (find_field _ "wallets") with (Some (slice_field "wallets" unmarshal_meta (fun v (_ : list walletMeta) => v))).
    cbn [f_store slice_field]. rewrite (slice_elems _ meta_json id) by apply unmarshal_meta_json.
    by rewrite list_fmap_id.
  - apply printable_obj. apply Forall_cons_2; [|apply Forall_nil_2]. split; [done|]. cbn.
    destruct st as [|m st]; [constructor|]. apply printable_arr. apply Forall_fmap.
    eapply Forall_impl; [exact Hst|]. apply meta_printable.
Qed.

Lemma hex_plain l : plain_str (hex_encode l) = true.
Proof.
  induction l as [|b l IH]; [done|]. cbn [hex_encode].
  assert (html_safe (hex_digit (byte_val b / 16)) && html_safe (hex_digit (byte_val b mod 16)) = true)
    as [Hh Hl]%andb_true_iff by (by destruct b).
  unfold plain_str in *. cbn [str_forall]. by rewrite Hh, Hl, IH.
Qed.

(** ** Attaching a wallet *)

Section attach.
Context `{Env} `{Mac} `{Hash} `{Aead}.

(** The service after [tw] was entered under its own ids. *)
Definition attached (tw : tenantWallet) (s : Service) : Service :=
  set_wallets (<[walletKey (TenantID (tw_meta tw)) (WalletID (tw_meta tw)) := length (sv_heap s)]>)
    (set_heap (fun h => h ++ [tw]) s).

Lemma attachWalletLocked_spec m w s r s' : attachWalletLocked m w s = (r, s') ->
  match r with
  | Err _ => only_world s s'
  | Ok l => l = length (sv_heap s) /\ exists st, only_world (attached (MkTW m w st false) s) s'
  end.
Proof.
  unfold attachWalletLocked. unfold mbind at 1, M_bind at 1.
  destruct (openStore m w s) as [[st|e] s1] eqn:Eo;
    pose proof (openStore_only_world m w s) as Ho; rewrite Eo in Ho; cbn [snd] in Ho.
  2: by intros [= <- <-].
  unfold alloc, gets, modify. unfold mbind, M_bind, mret, M_ret. cbn [fst snd].
  set (tw := MkTW m w st false). set (s2 := set_wallets _ _).
  destruct (registerWalletEvents_ok (length (sv_heap s1)) tw s2) as (s3 & E3 & Ho3).
  { unfold s2. cbn. by rewrite lookup_app_r, Nat.sub_diag by lia. }
  rewrite E3. intros [= <- <-]. unfold only_world in Ho. rewrite Ho. split; [done|].
  exists st. transitivity s2; [|done]. unfold s2, only_world. rewrite Ho. by destruct s.
Qed.

(** ** The invariant

    Every entry of the map points to a wallet of its own ids whose record is
    in the state, and every record of the state has an entry. *)
Record registry_ok (s : Service) : Prop := {
  reg_ptr : forall k l, sv_wallets s !! k = Some l ->
    exists tw, sv_heap s !! l = Some tw /\ tw_meta tw ∈ sv_state s /\
      k = walletKey (TenantID (tw_meta tw)) (WalletID (tw_meta tw));
  reg_state : forall m, m ∈ sv_state s -> is_Some (lookup_wallet s (TenantID m) (WalletID m));
}.

#[global] Instance registry_ok_proper : Proper (only_world ==> impl) registry_ok.
Proof. intros s s' -> [Hp Hs]. by split. Qed.

(** A new wallet with its record. *)
Definition added (tw : tenantWallet) (s : Service) : Service :=
  set_state (fun st => st ++ [tw_meta tw]) (attached tw s).

Lemma registry_ok_added tw s : registry_ok s -> registry_ok (added tw s).
Proof.
  intros [Hp Hs]. split; cbn.
  - intros k l [[<- <-]|[_ Hk]]%lookup_insert_Some.
    + exists tw. rewrite lookup_app_r, Nat.sub_diag by lia. split; [done|]. split; [set_solver|done].
    + destruct (Hp _ _ Hk) as (tw' & Hl & Hm & ->). exists tw'.
      rewrite lookup_app_l by (by eapply lookup_lt_Some). set_solver.
  - unfold lookup_wallet. cbn. intros m [Hm| ->%list_elem_of_singleton]%elem_of_app;
      apply lookup_insert_is_Some'; [right; by apply Hs | by left].
Qed.

(** ** Creation *)

Lemma finishWallet_frame m l s : only_world (set_state (fun st => st ++ [m]) s) (snd (finishWallet m l s)).
Proof.
  unfold finishWallet. unfold mbind at 1, M_bind at 1. cbn [modify].
  generalize (set_state (fun st => st ++ [m]) s). intros u. revert u.
  change (moves only_world (_ ← on_error internal saveStateLocked; _ ← try_ (saveSnapshotLocked l);
    tokens ← on_error internal (tokensForWallet m); w ← walletProtoLocked l; mret (w, tokens))).
  moves_tac.
Qed.

Lemma sealString_plain key p s w w' : sealString key p w = (Ok s, w') -> plain_str s = true.
Proof.
  destruct (String.eqb_spec p "") as [->|Hp]; [by intros [= <- _]|].
  intros Hs. destruct (sealString_inv _ _ _ _ _ Hp Hs) as (_ & _ & nonce & _ & ->).
  by rewrite plain_app, rawurl_plain.
Qed.

Lemma newWalletMeta_ok t w n mn pp s m s' : newWalletMeta t w n mn pp s = (Ok m, s') ->
  TenantID m = t /\ WalletID m = w /\ SDKName m = n /\ has_plaintext m = false /\
  openWalletSecrets (DataKey (sv_opts s)) m = Ok (mn, pp) /\
  (plain_str t = true -> plain_str w = true -> plain_str n = true -> plain_meta m) /\ only_world s s'.
Proof.
  intros Hn. pose proof (newWalletMeta_only_world t w n mn pp s) as Hw. rewrite Hn in Hw. cbn in Hw.
  unfold newWalletMeta in Hn. apply bind_ok_inv in Hn as (key & s1 & [= <- <-] & Hn).
  apply bind_ok_inv in Hn as (c1 & s1 & H1' & Hn). apply bind_ok_inv in Hn as (c2 & s2 & H2' & Hn).
  injection Hn as <- <-. apply W_ok in H1' as (w1 & H1' & ->), H2' as (w2 & H2' & ->).
  do 4 (split; [done|]). split; [|split; [|done]].
  - unfold openWalletSecrets. cbn. rewrite (openString_sealString _ _ _ _ _ H1'). cbn.
    by rewrite (openString_sealString _ _ _ _ _ H2').
  - intros. split; try done; by eapply sealString_plain.
Qed.

(** How an attempt to add wallet [t]/[w] with the given secrets leaves the service. *)
Inductive add_outcome (t w mnemonic passphrase : string) {A} (s s' : Service) (r : result A) : Prop :=
  | add_failed e : r = Err e -> only_world s s' -> add_outcome t w mnemonic passphrase s s' r
  | add_done tw :
      idRE_MatchString t = true -> idRE_MatchString w = true -> lookup_wallet s t w = None ->
      TenantID (tw_meta tw) = t -> WalletID (tw_meta tw) = w -> SDKName (tw_meta tw) = sdkWalletName t w ->
      has_plaintext (tw_meta tw) = false -> plain_meta (tw_meta tw) ->
      openWalletSecrets (DataKey (sv_opts s)) (tw_meta tw) = Ok (mnemonic, passphrase) ->
      only_world (added tw s) s' -> add_outcome t w mnemonic passphrase s s' r.

Lemma attach_and_finish t w mn pp {A} (k : pb.Wallet * option pb.AuthTokens -> A) s s1 m p r s' :
  idRE_MatchString t = true -> idRE_MatchString w = true -> lookup_wallet s t w = None ->
  only_world s s1 -> TenantID m = t -> WalletID m = w -> SDKName m = sdkWalletName t w ->
  has_plaintext m = false -> plain_meta m -> openWalletSecrets (DataKey (sv_opts s)) m = Ok (mn, pp) ->
  (l ← attachWalletLocked m p; x ← finishWallet m l; mret (k x)) s1 = (r, s') ->
  add_outcome t w mn pp s s' r.
Proof.
  intros Ht Hw Hn Ho1 Hmt Hmw Hms Hmp Hmpl Hmo. unfold mbind at 1, M_bind at 1.
  destruct (attachWalletLocked m p s1) as [[l|e] s2] eqn:Ea;
    pose proof (attachWalletLocked_spec _ _ _ _ _ Ea) as Hs.
  - destruct Hs as (-> & st & Ho2). intros Hf. apply (add_done _ _ _ _ _ _ _ (MkTW m p st false)); try done.
    assert (s' = snd (finishWallet m (length (sv_heap s1)) s2)) as ->.
    { unfold mbind, M_bind, mret, M_ret in Hf. by destruct (finishWallet _ _ _) as [[]]; simplify_eq. }
    etransitivity; [|apply finishWallet_frame].
    unfold only_world in *. rewrite Ho2, Ho1. by destruct s.
  - intros [= <- <-]. eapply add_failed; [done|]. by transitivity s1.
Qed.
End attach.

Section create.
Context `{Env} `{Mac} `{Hash} `{Aead}.

Lemma sdkWalletName_plain t w : plain_str (sdkWalletName t w) = true.
Proof. unfold sdkWalletName. cbv zeta. by rewrite plain_app, hex_plain. Qed.

Lemma on_error_W_run {A} (f : error -> error) (m : M world A) s r s' : on_error f (W m) s = (r, s') ->
  only_world s s'.
Proof.
  intros E. pose proof (moves_on_error only_world f (W m) (moves_W m) s) as Hm. by rewrite E in Hm.
Qed.

Lemma newWalletMeta_run t w n mn pp s r s' : on_error internal (newWalletMeta t w n mn pp) s = (r, s') ->
  only_world s s' /\ forall m, r = Ok m ->
    TenantID m = t /\ WalletID m = w /\ SDKName m = n /\ has_plaintext m = false /\
    openWalletSecrets (DataKey (sv_opts s)) m = Ok (mn, pp) /\
    (plain_str t = true -> plain_str w = true -> plain_str n = true -> plain_meta m).
Proof.
  unfold on_error. destruct (newWalletMeta t w n mn pp s) as [[m|e] s1] eqn:En; intros [= <- <-].
  - apply newWalletMeta_ok in En as (? & ? & ? & ? & ? & ? & ?). split; [done|]. by intros ? [= <-].
  - split; [|done]. pose proof (newWalletMeta_only_world t w n mn pp s) as Hw. by rewrite En in Hw.
Qed.

Lemma CreateWallet_outcome req s r s' : CreateWallet req s = (r, s') ->
  exists mnemonic,
    add_outcome (pb.CreateWalletRequest_TenantId req) (pb.CreateWalletRequest_WalletId req)
      mnemonic "" s s' r /\
    forall resp, r = Ok resp -> pb.CreateWalletResponse_Mnemonic resp = mnemonic.
Proof.
  unfold CreateWallet. set (t := pb.CreateWalletRequest_TenantId req).
  set (w := pb.CreateWalletRequest_WalletId req). cbv zeta.
  unfold mbind at 1, M_bind at 1. unfold lift at 1.
  destruct (validateTenantWallet t w) as [u|e] eqn:Ev;
    [|intros [= <- <-]; exists ""; split; [by eapply add_failed|done]].
  apply validateTenantWallet_ok in Ev as [Ht Hw]. unfold mbind at 1, M_bind at 1, gets at 1.
  case_bool_decide as Hex; [intros [= <- <-]; exists ""; split; [by eapply add_failed|done]|].
  apply eq_None_not_Some in Hex. unfold mbind at 1, M_bind at 1.
  destruct (on_error internal (W _) s) as [[[p mn]|e] s1] eqn:Ec;
    apply on_error_W_run in Ec; [|intros [= <- <-]; exists ""; split; [by eapply add_failed|done]].
  unfold mbind at 1, M_bind at 1.
  destruct (on_error internal (newWalletMeta t w (sdkWalletName t w) mn "") s1) as [[m|e] s2] eqn:Em;
    apply newWalletMeta_run in Em as [Ho Hm];
    [|intros [= <- <-]; exists ""; split; [eapply add_failed; [done|by transitivity s1]|done]].
  destruct (Hm m eq_refl) as (? & ? & ? & ? & Hopen & Hpl).
  specialize (Hpl (id_plain _ Ht) (id_plain _ Hw) (sdkWalletName_plain _ _)). intros Hf. exists mn. split.
  - eapply (attach_and_finish t w mn "" (fun '(wp, tokens) => pb.MkCreateWalletResponse (Some wp) mn tokens)
      s s2 m p); try done; [by transitivity s1|..].
    + unfold only_world in Ec. by rewrite Ec in Hopen.
    + rewrite <- Hf. unfold mbind, M_bind. destruct (attachWalletLocked m p s2) as [[l|] ?]; [|done].
      by destruct (finishWallet m l _) as [[[]|] ?].
  - intros resp ->. apply bind_ok_inv in Hf as (l & s3 & _ & Hf).
    apply bind_ok_inv in Hf as ([wp tk] & s4 & _ & Hf). by injection Hf as <- _.
Qed.

Lemma RestoreWallet_outcome req s r s' : RestoreWallet req s = (r, s') ->
  add_outcome (pb.RestoreWalletRequest_TenantId req) (pb.RestoreWalletRequest_WalletId req)
    (pb.RestoreWalletRequest_Mnemonic req) (pb.RestoreWalletRequest_Passphrase req) s s' r.
Proof.
  unfold RestoreWallet. set (t := pb.RestoreWalletRequest_TenantId req).
  set (w := pb.RestoreWalletRequest_WalletId req). set (mn := pb.RestoreWalletRequest_Mnemonic req).
  set (pp := pb.RestoreWalletRequest_Passphrase req). cbv zeta.
  unfold mbind at 1, M_bind at 1. unfold lift at 1.
  destruct (validateTenantWallet t w) as [u|e] eqn:Ev; [|intros [= <- <-]; by eapply add_failed].
  apply validateTenantWallet_ok in Ev as [Ht Hw].
  destruct (String.eqb mn ""); [intros [= <- <-]; by eapply add_failed|].
  unfold mbind at 1, M_bind at 1, gets at 1.
  case_bool_decide as Hex; [intros [= <- <-]; by eapply add_failed|].
  apply eq_None_not_Some in Hex. unfold mbind at 1, M_bind at 1.
  destruct (on_error internal (newWalletMeta t w (sdkWalletName t w) mn pp) s) as [[m|e] s1] eqn:Em;
    apply newWalletMeta_run in Em as [Ho Hm]; [|intros [= <- <-]; by eapply add_failed].
  destruct (Hm m eq_refl) as (? & ? & ? & ? & Hopen & Hpl).
  specialize (Hpl (id_plain _ Ht) (id_plain _ Hw) (sdkWalletName_plain _ _)). unfold mbind at 1, M_bind at 1.
  destruct (on_error internal (W _) s1) as [[p|e] s2] eqn:Ec; apply on_error_W_run in Ec;
    [|intros [= <- <-]; eapply add_failed; [done|by transitivity s1]].
  intros Hf.
  eapply (attach_and_finish t w mn pp (fun '(wp, tokens) => pb.MkWalletResponse (Some wp) tokens)
    s s2 m p); try done; [by transitivity s1|].
  rewrite <- Hf. unfold mbind, M_bind. destruct (attachWalletLocked m p s2) as [[l|] ?]; [|done].
  by destruct (finishWallet m l _) as [[[]|] ?].
Qed.

Lemma add_outcome_ok {A} t w mn pp s s' (r : result A) :
  add_outcome t w mn pp s s' r -> registry_ok s -> registry_ok s'.
Proof.
  intros [e _ Ho|tw _ _ _ _ _ _ _ _ _ Ho] Hok; rewrite <- Ho; [done|]. by apply registry_ok_added.
Qed.

(** An existing wallet is refused before anything is done. *)
Lemma CreateWallet_exists req s l :
  idRE_MatchString (pb.CreateWalletRequest_TenantId req) = true ->
  idRE_MatchString (pb.CreateWalletRequest_WalletId req) = true ->
  lookup_wallet s (pb.CreateWalletRequest_TenantId req) (pb.CreateWalletRequest_WalletId req) = Some l ->
  CreateWallet req s = (Err (EStatus AlreadyExists "wallet exists"), s).
Proof.
  intros Ht Hw Hl. unfold CreateWallet. cbv zeta.
  erewrite bind_run by (unfold lift; by rewrite (proj2 (validateTenantWallet_ok _ _ ()) (conj Ht Hw))).
  erewrite bind_run by reflexivity. unfold lookup_wallet in Hl. rewrite Hl. by rewrite bool_decide_true.
Qed.
End create.

(** ** The state file on disk *)

Section disk.
Context `{Env} `{Mac} `{Hash} `{Aead}.

Definition files (s : Service) : gmap string file := w_fs (sv_world s).
Definition keeps_files (s s' : Service) : Prop := files s' = files s.
#[export] Instance keeps_files_preorder : PreOrder keeps_files.
Proof. split; [done|]. unfold keeps_files. congruence. Qed.

(** The state file holds exactly the records in memory. *)
Definition saved (s : Service) : Prop := exists f,
  files s !! statePath (sv_dataDir s) = Some f /\ unmarshal_state (file_data f) = Ok (sv_state s).

Lemma tmp_ne p : p +:+ ".tmp" <> p.
Proof. intros E. apply (f_equal String.length) in E. rewrite length_app_str in E. cbn in E. lia. Qed.

Lemma moves_W_call c : moves keeps_files (W (call c)).
Proof. by intros s. Qed.

(** Whatever fails, the state file is the old one or the complete new one. *)
Lemma saveStateLocked_atomic s r s' : saveStateLocked s = (r, s') ->
  let p := statePath (sv_dataDir s) in
  let new f := f = {| file_data := json_print indented 0 (state_json (sv_state s)); file_perm := file_perm f |} in
  (is_ok r = false /\ files s' !! p = files s !! p \/ exists f, files s' !! p = Some f /\ new f) /\
  (is_ok r = true -> exists f, files s' !! p = Some f /\ new f).
Proof.
  unfold saveStateLocked. erewrite bind_run by reflexivity. erewrite bind_run by reflexivity. cbv zeta.
  generalize (json_print indented 0 (state_json (sv_state s))) as raw. intros raw.
  generalize (statePath (sv_dataDir s)) as p. intros p. pose proof (tmp_ne p) as Hne.
  unfold mbind, M_bind, W, zoom.
  destruct (os_write_file (p +:+ ".tmp") raw 384 (sv_world s)) as [[[]|e] w1] eqn:Ew.
  - pose proof (os_write_file_ok _ _ _ _ _ Ew) as ->. cbn [sv_world set_world].
    set (w1 := set_fs _ _). destruct (os_rename (p +:+ ".tmp") p w1) as [[[]|e] w2] eqn:Er; intros [= <- <-].
    + apply os_rename_ok in Er as (f & Hf & ->). unfold files. cbn. rewrite lookup_insert_eq.
      assert (f = {| file_data := raw; file_perm := file_perm f |}) as Ef.
      { unfold w1 in Hf. cbn in Hf. unfold write_file in Hf. rewrite lookup_insert_eq in Hf. by simplify_eq. }
      split; [right|intros _]; by exists f.
    + split; [|done]. left. split; [done|]. unfold files. cbn.
      rewrite (os_rename_err _ _ _ _ _ Er). unfold w1. cbn. unfold write_file.
      by rewrite lookup_insert_ne by done.
  - intros [= <- <-]. split; [|done]. left. split; [done|]. unfold files. cbn.
    by apply (os_write_file_other _ _ _ _ _ _ p Ew).
Qed.

Lemma saveStateLocked_saved s s' : Forall plain_meta (sv_state s) ->
  saveStateLocked s = (Ok (), s') -> saved s'.
Proof.
  intros Hp Hs. pose proof (saveStateLocked_only_world s) as Ho. rewrite Hs in Ho. cbn in Ho.
  destruct (saveStateLocked_atomic _ _ _ Hs) as [_ Hf]. destruct (Hf eq_refl) as (f & Hl & E).
  assert (sv_dataDir s' = sv_dataDir s /\ sv_state s' = sv_state s) as [Ed Es] by (by rewrite Ho).
  exists f. rewrite Ed, Es. split; [done|]. rewrite E. by apply unmarshal_state_json.
Qed.
End disk.

Section keeps.
Context `{Env} `{Mac} `{Hash} `{Aead}.

Lemma kf_wallet p c : moves keeps_files (W (wallet_call_ p c)).
Proof. by intros s. Qed.
Lemma kf_node c : moves keeps_files (W (node c)).
Proof. by intros s. Qed.
Lemma kf_host c : moves keeps_files (W (host c)).
Proof. by intros s. Qed.
Lemma kf_call_result {A} (m : M world (result A)) : moves keeps_files (W m) ->
  moves keeps_files (W (call_result m)).
Proof.
  intros Hm s. specialize (Hm s). unfold W, zoom, call_result, lift, mbind, M_bind in *.
  by destruct (m (sv_world s)) as [[]].
Qed.
Lemma kf_randomID : moves keeps_files (W randomID).
Proof. intros s. destruct (randomID_run s) as (j & _ & E). by rewrite E. Qed.
Lemma kf_time_now : moves keeps_files (W time_now).
Proof. by intros s. Qed.
Lemma kf_seal key p : moves keeps_files (W (sealString key p)).
Proof.
  intros s. destruct (sealString_moves key p (sv_world s)) as [E _].
  unfold W, zoom, keeps_files, files. by destruct (sealString key p (sv_world s)).
Qed.
Hint Resolve kf_wallet kf_node kf_host kf_call_result kf_randomID kf_time_now kf_seal : moves.

Lemma kf_wcall l c : moves keeps_files (wcall l c).
Proof. unfold wcall. moves_tac. Qed.
Hint Resolve kf_wcall : moves.
Lemma kf_saveSnapshotLocked l : moves keeps_files (saveSnapshotLocked l).
Proof. unfold saveSnapshotLocked. moves_tac. Qed.
Lemma kf_walletProtoLocked l : moves keeps_files (walletProtoLocked l).
Proof. unfold walletProtoLocked, walletAddresses. moves_tac. Qed.
Lemma kf_issueTokens t w : moves keeps_files (issueTokens t w).
Proof. unfold issueTokens. moves_tac. Qed.
Hint Resolve kf_saveSnapshotLocked kf_walletProtoLocked kf_issueTokens : moves.
Lemma kf_tokensForWallet m : moves keeps_files (tokensForWallet m).
Proof. unfold tokensForWallet. moves_tac. Qed.
Hint Resolve kf_tokensForWallet : moves.
Lemma kf_newWalletMeta t w n mn pp : moves keeps_files (newWalletMeta t w n mn pp).
Proof. unfold newWalletMeta. moves_tac. Qed.
Hint Resolve kf_newWalletMeta : moves.
Lemma kf_openStore m w : moves keeps_files (openStore m w).
Proof. unfold openStore. moves_tac. Qed.
Lemma kf_registerWalletEvents l : moves keeps_files (registerWalletEvents l).
Proof. unfold registerWalletEvents. moves_tac. Qed.
Lemma kf_registerNodeEvents : moves keeps_files registerNodeEvents.
Proof. unfold registerNodeEvents. moves_tac. Qed.
Hint Resolve kf_openStore kf_registerWalletEvents kf_registerNodeEvents : moves.
Lemma kf_attach m w : moves keeps_files (attachWalletLocked m w).
Proof. unfold attachWalletLocked, alloc. moves_tac. Qed.
Hint Resolve kf_attach : moves.
Lemma kf_restoreLoadedWallet m : moves keeps_files (restoreLoadedWallet m).
Proof. unfold restoreLoadedWallet. moves_tac. Qed.
Hint Resolve kf_restoreLoadedWallet : moves.
Lemma kf_load_wallets n : forall i b, moves keeps_files (load_wallets i n b).
Proof. induction n as [|n IH]; intros i b; cbn [load_wallets]; moves_tac. Qed.

Lemma saved_mono s s' : only_world s s' -> keeps_files s s' -> saved s -> saved s'.
Proof.
  intros Ho Hk (f & Hf & Hu). exists f. rewrite Hk.
  assert (sv_dataDir s' = sv_dataDir s /\ sv_state s' = sv_state s) as [-> ->] by (by rewrite Ho). done.
Qed.

Lemma finishWallet_saved m l s x s' : Forall plain_meta (sv_state s) -> plain_meta m ->
  finishWallet m l s = (Ok x, s') -> saved s'.
Proof.
  intros Hst Hm. unfold finishWallet. intros Hf.
  apply bind_ok_inv in Hf as (u & s1 & [= _ <-] & Hf).
  apply bind_ok_inv in Hf as ([] & s2 & Hs & Hf). unfold on_error in Hs.
  destruct (saveStateLocked _) as [[[]|] s3] eqn:Es; [|done]. injection Hs as <-.
  apply saveStateLocked_saved in Es; [|by apply Forall_app_2; [|apply Forall_singleton]].
  assert (moves only_world (_ ← try_ (saveSnapshotLocked l);
    tokens ← on_error internal (tokensForWallet m); w ← walletProtoLocked l; mret (w, tokens))) as H1' by moves_tac.
  assert (moves keeps_files (_ ← try_ (saveSnapshotLocked l);
    tokens ← on_error internal (tokensForWallet m); w ← walletProtoLocked l; mret (w, tokens))) as H2' by moves_tac.
  specialize (H1' s3). specialize (H2' s3). rewrite Hf in H1', H2'. by eapply saved_mono.
Qed.
End keeps.

(** ** Start-up *)

Section startup.
Context `{Env} `{Mac} `{Hash} `{Aead}.

Definition ids (m : walletMeta) : string * string := (TenantID m, WalletID m).

(** How the state changes when record [m] is loaded as [m']. *)
Definition migrate (m m' : walletMeta) (st : list walletMeta) : list walletMeta :=
  if has_plaintext m then replace_meta m' <$> st else st.

Lemma restoreLoadedWallet_spec m s l s' : restoreLoadedWallet m s = (Ok l, s') ->
  exists m' w st, ids m' = ids m /\ has_plaintext m' = false /\ (has_plaintext m = false -> m' = m) /\
    (openWalletSecrets (DataKey (sv_opts s)) m' = openWalletSecrets (DataKey (sv_opts s)) m /\
     (plain_meta m -> plain_meta m')) /\
    only_world (attached (MkTW m' w st false) (set_state (migrate m m') s)) s'.
Proof.
  unfold restoreLoadedWallet, migrate. intros Hr. apply bind_ok_inv in Hr as (key & s0 & [= <- <-] & Hr).
  apply bind_ok_inv in Hr as ([mn pp] & s0 & Ho & Hr). injection Ho as Ho <-.
  apply bind_ok_inv in Hr as (w & s1 & Hw & Hr). apply W_ok in Hw as (w1 & _ & ->).
  apply bind_ok_inv in Hr as (m' & s2 & Hm & Hr). pose proof (attachWalletLocked_spec _ _ _ _ _ Hr) as Ha.
  destruct Ha as (_ & st & Ha). exists m', w, st. destruct (has_plaintext m) eqn:Ep.
  - apply bind_ok_inv in Hm as (m1 & s3 & Hn & Hm). apply newWalletMeta_ok in Hn as (Et & Ew & _ & Hp & Hopen & Hpl & Hw3).
    apply bind_ok_inv in Hm as (u & s4 & [= _ <-] & [= <- <-]). unfold ids. rewrite Et, Ew.
    repeat (split; [done|]). split; [split; [by rewrite Ho|]; intros []; by apply Hpl|].
    unfold only_world in *. rewrite Ha, Hw3. by destruct s.
  - injection Hm as <- <-. repeat (split; [done|]). unfold only_world in *. rewrite Ha. by destruct s.
Qed.

Lemma replace_meta_ids m x : ids (replace_meta m x) = ids x.
Proof.
  unfold replace_meta, ids. destruct (String.eqb_spec (TenantID x) (TenantID m)),
    (String.eqb_spec (WalletID x) (WalletID m)); cbn; congruence.
Qed.

Lemma replace_meta_cases m x : replace_meta m x = m \/ replace_meta m x = x /\ ids x <> ids m.
Proof.
  unfold replace_meta, ids. destruct (String.eqb_spec (TenantID x) (TenantID m)),
    (String.eqb_spec (WalletID x) (WalletID m)); cbn; auto; right; split; congruence.
Qed.

Lemma migrate_ids m m' st : ids <$> migrate m m' st = ids <$> st.
Proof.
  unfold migrate. destruct (has_plaintext m); [|done]. rewrite <- list_fmap_compose.
  apply list_fmap_ext. intros i x _. apply replace_meta_ids.
Qed.

(** The first [i] records are loaded. *)
Record loaded (i : nat) (s : Service) : Prop := {
  ld_ptr : forall k l, sv_wallets s !! k = Some l ->
    exists tw, sv_heap s !! l = Some tw /\ tw_meta tw ∈ sv_state s /\
      k = walletKey (TenantID (tw_meta tw)) (WalletID (tw_meta tw));
  ld_state : forall j m, (j < i)%nat -> sv_state s !! j = Some m ->
    is_Some (lookup_wallet s (TenantID m) (WalletID m)) /\ has_plaintext m = false;
}.

#[global] Instance loaded_proper i : Proper (only_world ==> impl) (loaded i).
Proof. intros s s' -> [Hp Hs]. by split. Qed.

Lemma migrate_lookup m m' st j x : migrate m m' st !! j = Some x ->
  exists y, st !! j = Some y /\ ids x = ids y /\ (x = m' \/ x = y /\ (has_plaintext m = false \/ ids y <> ids m')).
Proof.
  unfold migrate. destruct (has_plaintext m).
  - rewrite list_lookup_fmap. intros (y & Hy & ->)%fmap_Some. exists y. rewrite replace_meta_ids.
    split; [done|]. split; [done|]. destruct (replace_meta_cases m' y) as [?|[? ?]]; [by left|right; by auto].
  - intros Hx. exists x. repeat (split; [done|]). right. by auto.
Qed.

Lemma migrate_elem m m' st x : x ∈ st -> ids x <> ids m' -> x ∈ migrate m m' st.
Proof.
  unfold migrate. destruct (has_plaintext m); [|done]. intros Hx Hne. apply list_elem_of_fmap.
  exists x. split; [|done]. destruct (replace_meta_cases m' x) as [E|[-> _]]; [|done].
  exfalso. apply Hne. by rewrite <- (replace_meta_ids m' x), E.
Qed.

Lemma migrate_self m m' st : m ∈ st -> ids m' = ids m -> (has_plaintext m = false -> m' = m) ->
  m' ∈ migrate m m' st.
Proof.
  unfold migrate. intros Hm Hi Hp. destruct (has_plaintext m); [|by rewrite Hp].
  apply list_elem_of_fmap. exists m. split; [|done].
  destruct (replace_meta_cases m' m) as [->|[_ Hne]]; [done|]. by rewrite Hi in Hne.
Qed.

Lemma loaded_step i m m' w st s : loaded i s -> sv_state s !! i = Some m ->
  ids m' = ids m -> has_plaintext m' = false -> (has_plaintext m = false -> m' = m) ->
  loaded (S i) (attached (MkTW m' w st false) (set_state (migrate m m') s)).
Proof.
  intros [Hp Hs] Hi Hids Hpl Hsame. assert (m ∈ sv_state s) as Hin by (by eapply list_elem_of_lookup_2).
  injection Hids as Et Ew. split; cbn.
  - intros k l [[<- <-]|[Hne Hk]]%lookup_insert_Some.
    + eexists. rewrite lookup_app_r, Nat.sub_diag by lia. split; [done|]. split; [|done].
      apply migrate_self; [done| by unfold ids; rewrite Et, Ew | done].
    + destruct (Hp _ _ Hk) as (tw & Hl & Hm & ->). exists tw.
      rewrite lookup_app_l by (by eapply lookup_lt_Some). split; [done|]. split; [|done].
      apply migrate_elem; [done|]. intros [= E1 E2]. apply Hne. by rewrite E1, E2.
  - intros j x Hj (y & Hy & [= E1 E2] & Hx)%migrate_lookup. unfold lookup_wallet. cbn. split.
    + rewrite E1, E2. apply lookup_insert_is_Some'. destruct (decide (j = i)) as [->|].
      * rewrite Hi in Hy. injection Hy as <-. left. by rewrite Et, Ew.
      * right. apply (Hs j y); [lia|done].
    + destruct Hx as [->|[-> Hx]]; [done|]. destruct (decide (j = i)) as [->|].
      * rewrite Hi in Hy. injection Hy as <-. destruct Hx as [?|Hx]; [done|].
        exfalso. apply Hx. unfold ids. by rewrite Et, Ew.
      * by apply (Hs j y); [lia|].
Qed.
End startup.

Section new.
Context `{Env} `{Mac} `{Hash} `{Aead}.

Lemma on_error_ok {S A} f (m : M S A) s a s' : on_error f m s = (Ok a, s') -> m s = (Ok a, s').
Proof. unfold on_error. by destruct (m s) as [[]]; intros [= <- <-]. Qed.

Lemma load_wallets_true n : forall i s b' s', load_wallets i n true s = (Ok b', s') -> b' = true.
Proof.
  induction n as [|n IH]; intros i s b' s'; cbn [load_wallets]; [by intros [= <- _]|].
  intros Hl. apply bind_ok_inv in Hl as (st & s1 & _ & Hl). destruct (st !! i); [|done].
  apply bind_ok_inv in Hl as (? & ? & _ & Hl). by eapply IH.
Qed.

Lemma load_wallets_spec n : forall i b s b' s',
  load_wallets i n b s = (Ok b', s') -> length (sv_state s) = (i + n)%nat -> loaded i s ->
  loaded (i + n) s' /\ ids <$> sv_state s' = ids <$> sv_state s /\
  (b' = false -> sv_state s' = sv_state s) /\ sv_dataDir s' = sv_dataDir s /\ sv_opts s' = sv_opts s.
Proof.
  induction n as [|n IH]; intros i b s b' s'; cbn [load_wallets].
  - intros [= <- <-] _. by rewrite Nat.add_0_r.
  - intros Hl Hlen Hld. apply bind_ok_inv in Hl as (st & s0 & [= <- <-] & Hl).
    destruct (sv_state s !! i) as [m|] eqn:Hm; [|done].
    apply bind_ok_inv in Hl as (l & s1 & Hr & Hl). apply on_error_ok in Hr.
    destruct (restoreLoadedWallet_spec _ _ _ _ Hr) as (m' & w & sp & Hi & Hp & Hsame & _ & Ho).
    assert (sv_state s1 = migrate m m' (sv_state s) /\ sv_dataDir s1 = sv_dataDir s /\
      sv_opts s1 = sv_opts s) as (Es & Ed & Eo) by (by rewrite Ho).
    destruct (IH _ _ _ _ _ Hl) as (Hld' & E & Hb & Ed' & Eo').
    + rewrite Es, <- (length_fmap ids), migrate_ids, length_fmap. lia.
    + rewrite <- Ho. by apply loaded_step.
    + rewrite <- Nat.add_succ_comm. split; [done|]. rewrite E, Es, migrate_ids. split; [done|].
      split; [|by rewrite Ed', Eo'].
      intros ->. rewrite Hb, Es by done. unfold migrate. destruct (has_plaintext m); [|done].
      rewrite orb_true_r in Hl. by apply load_wallets_true in Hl.
Qed.

Lemma load_wallets_clean n : forall i b s b' s', load_wallets i n b s = (Ok b', s') ->
  Forall (fun m => has_plaintext m = false) (sv_state s) -> sv_state s' = sv_state s.
Proof.
  induction n as [|n IH]; intros i b s b' s'; cbn [load_wallets]; [by intros [= _ <-]|].
  intros Hl Hc. apply bind_ok_inv in Hl as (st & s0 & [= <- <-] & Hl).
  destruct (sv_state s !! i) as [m|] eqn:Hm; [|done].
  apply bind_ok_inv in Hl as (l & s1 & Hr & Hl). apply on_error_ok in Hr.
  destruct (restoreLoadedWallet_spec _ _ _ _ Hr) as (m' & w & sp & _ & _ & _ & _ & Ho).
  assert (sv_state s1 = sv_state s) as Es.
  { rewrite Ho. cbn. unfold migrate. by rewrite (Forall_lookup_1 _ _ _ _ Hc Hm). }
  rewrite <- Es. eapply IH; [exact Hl|]. by rewrite Es.
Qed.

Lemma loadState_ok s s' : loadState s = (Ok (), s') ->
  exists st, only_world (set_state (fun _ => st) s) s' /\
    match files s !! statePath (sv_dataDir s) with
    | None => st = []
    | Some f => unmarshal_state (file_data f) = Ok st
    end.
Proof.
  unfold loadState. intros Hl. apply bind_ok_inv in Hl as (p & s0 & [= <- <-] & Hl).
  apply bind_ok_inv in Hl as (raw & s1 & Hr & Hl). unfold try_, W, zoom in Hr.
  destruct (os_read_file _ _) as [r w1] eqn:Er. injection Hr as <- <-.
  apply os_read_file_inv in Er as [-> Hr]. unfold files. destruct r as [data|e].
  - destruct Hr as (f & -> & ->). apply bind_ok_inv in Hl as (st & s2 & Hu & Hl).
    injection Hu as Hu <-. injection Hl as <-. exists st. split; [by destruct s|done].
  - destruct Hr as [[-> ->]|[msg ->]]; [|done]. injection Hl as <-. exists []. split; [by destruct s|done].
Qed.

Lemma kf_mkdir p perm : moves keeps_files (W (os_mkdir_all p perm)).
Proof.
  intros s. unfold W, zoom, os_mkdir_all, host, call, mbind, M_bind. cbn.
  by destruct (oracle (w_trace (sv_world s)) (HostCall (OsMkdirAll p perm))).
Qed.

Lemma kf_step {A} (m : M Service A) s r s' : moves keeps_files m -> moves only_world m -> m s = (r, s') ->
  only_world s s' /\ files s' = files s.
Proof. intros Hk Ho E. specialize (Hk s). specialize (Ho s). by rewrite E in Hk, Ho. Qed.

Lemma if_node_step (b : bool) c (v : node_ret c) s r s' :
  (if b then W (node c) else mret v) s = (r, s') -> only_world s s' /\ files s' = files s.
Proof. apply kf_step; destruct b; auto with moves; by intros ?. Qed.

Lemma kf_loadState : moves keeps_files loadState.
Proof.
  assert (forall p, moves keeps_files (W (os_read_file p))) as Hr.
  { intros p s. unfold W, zoom. destruct (os_read_file p (sv_world s)) as [r w] eqn:E.
    by apply os_read_file_inv in E as [-> _]. }
  assert (forall f, moves keeps_files (modify (set_state f))) by (by intros f s).
  unfold loadState. moves_tac.
Qed.

(** What start-up makes of the state file. *)
Definition on_disk (fs : gmap string file) (dir : string) (st : list walletMeta) : Prop :=
  match fs !! statePath dir with
  | None => st = []
  | Some f => unmarshal_state (file_data f) = Ok st
  end.

Lemma start_inv s s' : start s = (Ok (), s') ->
  exists st s1 b s2, on_disk (files s) (sv_dataDir s) st /\
    only_world (set_state (fun _ => st) s) s1 /\ files s1 = files s /\
    load_wallets 0 (length (sv_state s1)) false s1 = (Ok b, s2) /\
    (if (b : bool) then saveStateLocked else mret ()) s2 = (Ok (), s').
Proof.
  unfold start. intros Hs. apply bind_ok_inv in Hs as (o & s0 & [= <- <-] & Hs).
  apply bind_ok_inv in Hs as (dir & s0 & [= <- <-] & Hs).
  apply bind_ok_inv in Hs as (u1 & s1 & E1 & Hs). apply if_node_step in E1 as [O1 K1].
  apply bind_ok_inv in Hs as (u2 & s2 & E2 & Hs). apply if_node_step in E2 as [O2 K2].
  apply bind_ok_inv in Hs as (u3 & s3 & E3 & Hs). apply kf_step in E3 as [O3 K3];
    [|apply kf_mkdir|auto with moves].
  assert (only_world s s3) as O by (by rewrite O1, O2). rewrite K2, K1 in K3. clear O1 O2 O3 K1 K2.
  apply bind_ok_inv in Hs as ([] & s4 & E4 & Hs). pose proof (kf_loadState s3) as K4. rewrite E4 in K4.
  apply loadState_ok in E4 as (st & O4 & Hst).
  rewrite K3 in Hst. replace (sv_dataDir s3) with (sv_dataDir s) in Hst by (by rewrite O).
  apply bind_ok_inv in Hs as ([] & s5 & E5 & Hs). apply kf_step in E5 as [O5 K5];
    [|apply kf_registerNodeEvents|auto with moves].
  apply bind_ok_inv in Hs as (n & s6 & [= <- <-] & Hs).
  apply bind_ok_inv in Hs as (b & s7 & E7 & Hs).
  exists st, s5, b, s7. split; [done|]. split; [|split; [|by split]].
  - unfold only_world in *. rewrite O5, O4, O. by destruct s.
  - cbn [snd] in K4. unfold keeps_files in K4. congruence.
Qed.

Lemma start_ok s s' : sv_wallets s = ∅ -> start s = (Ok (), s') ->
  loaded (length (sv_state s')) s' /\ sv_opts s' = sv_opts s /\ sv_dataDir s' = sv_dataDir s /\
  exists st, on_disk (files s) (sv_dataDir s) st /\ ids <$> sv_state s' = ids <$> st /\
    (Forall (fun m => has_plaintext m = false) st -> sv_state s' = st).
Proof.
  intros Hempty Hs. destruct (start_inv _ _ Hs) as (st & s5 & b & s7 & Hst & O' & _ & E7 & Hs').
  assert (only_world s7 s') as O7.
  { destruct b; [pose proof (saveStateLocked_only_world s7) as O7; by rewrite Hs' in O7|].
    by injection Hs' as <-. }
  assert (sv_state s5 = st /\ sv_opts s5 = sv_opts s /\ sv_dataDir s5 = sv_dataDir s) as (Es & Eo & Ed)
    by (by rewrite O').
  destruct (load_wallets_spec _ _ _ _ _ _ E7) as (Hl & Ei & _ & Ed' & Eo'); [done| |].
  { split; [|intros ? ? ?; lia]. intros k l. rewrite O'. cbn. rewrite Hempty. by intros ?%lookup_empty_Some. }
  pose proof (load_wallets_clean _ _ _ _ _ _ E7) as Hc. rewrite Es in Hc, Ei.
  assert (sv_state s' = sv_state s7 /\ sv_opts s' = sv_opts s7 /\ sv_dataDir s' = sv_dataDir s7)
    as (Es' & -> & ->) by (by rewrite O7).
  split; [|split; [congruence|split; [congruence|]]].
  - apply (loaded_proper _ s7 s' O7). rewrite Es'. replace (length (sv_state s7)) with (0 + length (sv_state s5))%nat; [done|].
    rewrite Es. apply (f_equal length) in Ei. by rewrite !length_fmap in Ei.
  - exists st. rewrite Es'. by split.
Qed.

Lemma NewWithOptions_ok dir o w s w' : NewWithOptions dir o w = (Ok s, w') ->
  registry_ok s /\ Forall (fun m => has_plaintext m = false) (sv_state s) /\ resolved (sv_opts s) /\
  sv_dataDir s = dir /\ sv_world s = w' /\
  exists w1, withDefaults o dir w = (Ok (sv_opts s), w1) /\
  exists st, on_disk (w_fs w1) dir st /\ ids <$> sv_state s = ids <$> st /\
    (Forall (fun m => has_plaintext m = false) st -> sv_state s = st).
Proof.
  unfold NewWithOptions. destruct (withDefaults o dir w) as [[o'|] w1] eqn:Ew; [|done].
  destruct (start _) as [[[]|] s1] eqn:Es; [|done]. intros [= <- <-].
  apply start_ok in Es; [|done]. destruct Es as (Hl & Eo & Ed & st & Hst & Hi & Hc). cbn in *.
  split; [|split; [|split; [|split; [done|split; [done|]]]]].
  - split; [apply Hl|]. intros m (j & Hj)%list_elem_of_lookup_1.
    eapply (ld_state _ _ Hl); [by eapply lookup_lt_Some|done].
  - apply Forall_lookup_2. intros j m Hj. eapply (ld_state _ _ Hl); [by eapply lookup_lt_Some|done].
  - rewrite Eo. by eapply withDefaults_resolved.
  - exists w1. rewrite Eo. split; [done|]. by exists st.
Qed.
End new.

(** ** Durability *)

Section durable.
Context `{Env} `{Mac} `{Hash} `{Aead}.

Lemma CreateWallet_saved req s resp s' : Forall plain_meta (sv_state s) ->
  CreateWallet req s = (Ok resp, s') -> saved s'.
Proof.
  intros Hpl Hc. unfold CreateWallet in Hc. cbv zeta in Hc.
  apply bind_ok_inv in Hc as (u & s0 & Hv & Hc). injection Hv as Hv <-.
  apply validateTenantWallet_ok in Hv as [Ht Hw].
  apply bind_ok_inv in Hc as (ws & s0 & [= <- <-] & Hc). case_bool_decide; [done|].
  apply bind_ok_inv in Hc as ([p mn] & s1 & Hp & Hc). apply on_error_W_run in Hp.
  apply bind_ok_inv in Hc as (m & s2 & Hm & Hc). apply newWalletMeta_run in Hm as [Ho2 Hm].
  destruct (Hm m eq_refl) as (_ & _ & _ & _ & _ & Hpm).
  apply bind_ok_inv in Hc as (l & s3 & Ha & Hc). apply attachWalletLocked_spec in Ha as (_ & st & Ha).
  apply bind_ok_inv in Hc as (x & s4 & Hf & Hc). destruct x as [wp tk]. injection Hc as _ <-.
  eapply finishWallet_saved; [| |exact Hf].
  - assert (sv_state s3 = sv_state s) as -> by (by rewrite Ha, Ho2, Hp). done.
  - apply Hpm; [by apply id_plain|by apply id_plain|apply sdkWalletName_plain].
Qed.

Lemma RestoreWallet_saved req s resp s' : Forall plain_meta (sv_state s) ->
  RestoreWallet req s = (Ok resp, s') -> saved s'.
Proof.
  intros Hpl Hc. unfold RestoreWallet in Hc. cbv zeta in Hc.
  apply bind_ok_inv in Hc as (u & s0 & Hv & Hc). injection Hv as Hv <-.
  apply validateTenantWallet_ok in Hv as [Ht Hw]. destruct (String.eqb _ ""); [done|].
  apply bind_ok_inv in Hc as (ws & s0 & [= <- <-] & Hc). case_bool_decide; [done|].
  apply bind_ok_inv in Hc as (m & s1 & Hm & Hc). apply newWalletMeta_run in Hm as [Ho1 Hm].
  destruct (Hm m eq_refl) as (_ & _ & _ & _ & _ & Hpm).
  apply bind_ok_inv in Hc as (p & s2 & Hp & Hc). apply on_error_W_run in Hp.
  apply bind_ok_inv in Hc as (l & s3 & Ha & Hc). apply attachWalletLocked_spec in Ha as (_ & st & Ha).
  apply bind_ok_inv in Hc as (x & s4 & Hf & Hc). destruct x as [wp tk]. injection Hc as _ <-.
  eapply finishWallet_saved; [| |exact Hf].
  - assert (sv_state s3 = sv_state s) as -> by (by rewrite Ha, Hp, Ho1). done.
  - apply Hpm; [by apply id_plain|by apply id_plain|apply sdkWalletName_plain].
Qed.

Lemma registry_keys s k : registry_ok s ->
  is_Some (sv_wallets s !! k) <-> exists m, m ∈ sv_state s /\ k = walletKey (TenantID m) (WalletID m).
Proof.
  intros [Hp Hs]. split.
  - intros [l Hl]. destruct (Hp _ _ Hl) as (tw & _ & Hm & ->). eauto.
  - intros (m & Hm & ->). by apply Hs.
Qed.

(** ** Listing *)

Lemma bind_wcall {A} l c tw (k : wallet_ret c -> M Service A) s : sv_heap s !! l = Some tw ->
  (wcall l c ≫= k) s = k (oracle (w_trace (sv_world s)) (WalletCall (tw_w tw) c))
    (set_world (log (WalletCall (tw_w tw) c) (sv_world s)) s).
Proof. intros E. unfold mbind, M_bind. by rewrite (wcall_run l c tw). Qed.

Lemma walletAddresses_run l tw s : sv_heap s !! l = Some tw ->
  exists a w, walletAddresses l s = (Ok a, set_world w s).
Proof.
  intros E. unfold walletAddresses. rewrite (bind_wcall l SaveAddressSnapshot tw) by done.
  case_match; [rewrite (wcall_run l Addresses tw) by done|]; by do 2 eexists.
Qed.

(** The balances in [p] are what the SDK answered for the wallet [tw]. *)
Definition shows_funds (tw : tenantWallet) (p : pb.Wallet) : Prop := exists tr tr',
  pb.Wallet_BalanceSatoshis p = oracle tr (WalletCall (tw_w tw) WBalance) /\
  pb.Wallet_SpendableSatoshis p = oracle tr' (WalletCall (tw_w tw) SpendableBalance).
Lemma walletProtoLocked_run l tw s : sv_heap s !! l = Some tw ->
  exists p s', walletProtoLocked l s = (Ok p, s') /\ only_world s s' /\
    pb.Wallet_TenantId p = TenantID (tw_meta tw) /\ pb.Wallet_WalletId p = WalletID (tw_meta tw) /\ shows_funds tw p.
Proof.
  intros E. pose proof (walletProtoLocked_only_world l s) as Ho.
  destruct (walletProtoLocked l s) as [r s'] eqn:Ew. cbn in Ho.
  assert (exists p, r = Ok p /\ pb.Wallet_TenantId p = TenantID (tw_meta tw) /\
    pb.Wallet_WalletId p = WalletID (tw_meta tw) /\ shows_funds tw p) as (p & -> & ? & ? & ?); [|by exists p, s'].
  revert Ew. unfold walletProtoLocked. erewrite bind_run by (by apply deref_ok).
  rewrite (bind_wcall l NextIndices tw) by done. case_match.
  edestruct (walletAddresses_run l tw) as (a & w & Ea); [|erewrite bind_run by exact Ea]; [done|].
  rewrite (bind_wcall l WBalance tw), (bind_wcall l BalanceBSV tw), (bind_wcall l SpendableBalance tw),
    (bind_wcall l ImmatureBalance tw), (bind_wcall l Selector tw) by done.
  intros [= <- _]. eexists. split; [done|]. split; [done|]. split; [done|]. by eexists _, _.
Qed.

Lemma wallet_protos_run ws keys s :
  (forall k, k ∈ keys -> exists l tw, ws !! k = Some l /\ sv_heap s !! l = Some tw /\
     k = walletKey (TenantID (tw_meta tw)) (WalletID (tw_meta tw))) ->
  exists ps s', wallet_protos ws keys s = (Ok ps, s') /\ only_world s s' /\
    (fun p => walletKey (pb.Wallet_TenantId p) (pb.Wallet_WalletId p)) <$> ps = keys /\
    forall p, p ∈ ps -> exists l tw, ws !! walletKey (pb.Wallet_TenantId p) (pb.Wallet_WalletId p) = Some l /\
      sv_heap s !! l = Some tw /\ shows_funds tw p.
Proof.
  revert s. induction keys as [|k keys IH]; intros s Hk.
  { exists [], s. split; [done|]. split; [done|]. split; [done|]. by intros p ?%elem_of_nil. }
  destruct (Hk k) as (l & tw & Hl & Ht & ->); [set_solver|]. cbn [wallet_protos]. rewrite Hl.
  destruct (walletProtoLocked_run l tw s Ht) as (p & s1 & E1 & O1 & Et & Ew & Hf).
  destruct (IH s1) as (ps & s2 & E2 & O2 & Hps & Hfs).
  { intros k' Hk'. destruct (Hk k') as (l' & tw' & ? & ? & ?); [set_solver|].
    exists l', tw'. split; [done|]. split; [|done]. by rewrite O1. }
  exists (p :: ps), s2. erewrite bind_run by exact E1. erewrite bind_run by exact E2.
  split; [done|]. split; [by transitivity s1|]. cbn. rewrite Et, Ew, Hps. split; [done|].
  intros q [->|Hq]%elem_of_cons; [by rewrite Et, Ew; exists l, tw|].
  destruct (Hfs q Hq) as (l' & tw' & ? & Htw' & ?). exists l', tw'. by rewrite O1 in Htw'.
Qed.

Lemma tenant_keys_sorted s t : StronglySorted String.le (tenant_keys s t).
Proof. apply Sorted_StronglySorted; [apply _|]. apply Sorted_merge_sort, _. Qed.

Lemma tenant_keys_elem s t k : registry_ok s ->
  k ∈ tenant_keys s t <-> exists l tw, sv_wallets s !! k = Some l /\ sv_heap s !! l = Some tw /\
    TenantID (tw_meta tw) = t.
Proof.
  intros Hok. unfold tenant_keys. rewrite merge_sort_Permutation, list_elem_of_omap. split.
  - intros ([k' l] & Hin%elem_of_map_to_list & E). destruct (sv_heap s !! l) as [tw|] eqn:Eh; [|done].
    destruct (String.eqb_spec (TenantID (tw_meta tw)) t); simplify_eq. by exists l, tw.
  - intros (l & tw & Hk & Hl & <-). exists (k, l). split; [by apply elem_of_map_to_list|].
    by rewrite Hl, String.eqb_refl.
Qed.

Lemma tenant_keys_NoDup s t : NoDup (tenant_keys s t).
Proof.
  unfold tenant_keys. rewrite merge_sort_Permutation.
  pose proof (NoDup_fst_map_to_list (sv_wallets s)) as Hn.
  induction (map_to_list (sv_wallets s)) as [|[k l] r IH]; [constructor|].
  cbn in Hn. apply NoDup_cons in Hn as [Hk Hn]. cbn. repeat case_match; simplify_eq; auto.
  apply NoDup_cons. split; [|auto]. intros ([k' l'] & Hin & E)%list_elem_of_omap.
  repeat case_match; simplify_eq. apply Hk. apply list_elem_of_fmap. by eexists (_, l').
Qed.
End durable.
