(* ===== verification/Handlers.v ===== *)
(** * The RPC handlers

    Every unary method of [*Service] in internal/service/service.go besides the
    registry's own (module Registry), the converters they use, and the
    dispatch table of gen/bsvms/v1/bsvms_grpc.pb.go under the interceptor. *)

From S2P Require Import Prelude GoStrings GoTime Encoding Crypto Proto Broker Sdk Ids World Options.
From S2P Require Import Service Auth Registry.

(** ** Converters *)

Definition derivedAddress (a : bsv.DerivedAddress) : pb.DerivedAddress :=
  pb.MkDerivedAddress (bsv.DerivedAddress_Address a) (bsv.DerivedAddress_Path a)
    (bsv.DerivedAddress_PubKey a) (bsv.DerivedAddress_Script a)
    (bsv.DerivedAddress_Branch a) (bsv.DerivedAddress_Index a).
Definition outputSpec (o : bsv.OutputSpec) : pb.OutputSpec :=
  pb.MkOutputSpec (bsv.OutputSpec_Script o) (bsv.OutputSpec_Value o).
Definition outputSpecs (src : list pb.OutputSpec) : list bsv.OutputSpec :=
  (fun o => bsv.MkOutputSpec (pb.OutputSpec_Script o) (pb.OutputSpec_Value o)) <$> src.
Definition utxo (u : bsv.UTXO) : pb.UTXO :=
  pb.MkUTXO (bsv.UTXO_TxID u) (bsv.UTXO_Vout u) (bsv.UTXO_Value u) (bsv.UTXO_Script u)
    (bsv.UTXO_Height u) (bsv.UTXO_IsCoinbase u).
Definition utxos (src : list bsv.UTXO) : list pb.UTXO := utxo <$> src.
Definition spendDetail (d : option bsv.SpendDetail) : option pb.SpendDetail :=
  d ← d;
  Some (pb.MkSpendDetail (bsv.SpendDetail_TxID d) (utxos (bsv.SpendDetail_SpentUTXOs d))
          (utxo <$> bsv.SpendDetail_ChangeUTXO d) (bsv.SpendDetail_RawTx d)).

(** A [[32]byte] hash, shown in display (reversed) order. *)
Definition blockHashHex (h : bytes) : string :=
  hex_encode ((fun i => default Byte.x00 (h !! (31 - i)%nat)) <$> seq 0 32).

Definition relayTimeout (ms : Z) : Z :=
  if (ms <=? 0)%Z then 10 * Second else int64 (ms * Millisecond).

Section handlers.
Context `{Env} `{Mac} `{Hash} `{Aead}.

(** A wallet or node call whose error becomes [codes.Internal]. *)
Definition wcall_or {A} (f : error -> error) (m : M Service (result A)) : M Service A :=
  on_error f (r ← m; lift r).

Fixpoint outPoints (src : list pb.OutPoint) : M Service (list bsv.OutPoint) :=
  match src with
  | [] => mret []
  | op :: rest =>
      txid ← wcall_or (fun _ => invalid "invalid from_inputs txid")
               (W (node (TxIDFromHex (pb.OutPoint_Txid op))));
      out ← outPoints rest;
      mret (bsv.MkOutPoint txid (pb.OutPoint_Vout op) :: out)
  end.

Fixpoint tx_inputs (tx : bsv.Transaction) (i : nat) (ins : list bsv.TxIn) : M Service (list pb.TxInput) :=
  match ins with
  | [] => mret []
  | inp :: rest =>
      '(sender, _) ← W (node (SenderAddressFromInput tx i));
      out ← tx_inputs tx (S i) rest;
      mret (pb.MkTxInput (bsv.TxIn_PrevTxID inp) (bsv.TxIn_PrevVout inp) (bsv.TxIn_ScriptSig inp)
              (bsv.TxIn_IsCoinbase inp) sender :: out)
  end.
Fixpoint tx_outputs (i : Z) (outs : list bsv.TxOut) : M Service (list pb.TxOutput) :=
  match outs with
  | [] => mret []
  | o :: rest =>
      '(address, _) ← W (node (NodeDecodeOutputAddress (bsv.TxOut_Script o)));
      out ← tx_outputs (i + 1)%Z rest;
      mret (pb.MkTxOutput (uint32 i) (bsv.TxOut_Value o) (bsv.TxOut_Script o) address :: out)
  end.
Definition tx_proto (tx : bsv.Transaction) : M Service pb.Transaction :=
  inputs ← tx_inputs tx 0 (bsv.Transaction_Inputs tx);
  outputs ← tx_outputs 0 (bsv.Transaction_Outputs tx);
  mret (pb.MkTransaction (bsv.Transaction_TxID tx) (bsv.Transaction_Bytes tx) inputs outputs).
Definition transactionProto (tx : option bsv.Transaction) : M Service (option pb.Transaction) :=
  match tx with
  | None => mret None
  | Some tx => p ← tx_proto tx; mret (Some p)
  end.

(** ** Node *)

Definition Status (req : pb.StatusRequest) : M Service pb.StatusResponse :=
  network ← W (node Network);
  chainHeight ← W (node ChainHeight);
  bestPeerHeight ← W (node BestPeerHeight);
  peerCount ← W (node PeerCount);
  dir ← gets sv_dataDir;
  peerHeights ← W (node PeerHeights);
  mret (pb.MkStatusResponse network chainHeight bestPeerHeight (int32 peerCount) dir peerHeights
          coinbase_maturity).

Definition ConnectPeer (req : pb.ConnectPeerRequest) : M Service pb.ConnectPeerResponse :=
  if String.eqb (pb.ConnectPeerRequest_Address req) "" then throw (invalid "address required") else
  _ ← wcall_or internal (W (node (NodeConnectPeer (pb.ConnectPeerRequest_Address req))));
  mret pb.MkConnectPeerResponse.

(** ** Addresses and keys *)

Definition NewAddress (req : pb.NewAddressRequest) : M Service pb.AddressResponse :=
  tw ← wallet (pb.NewAddressRequest_TenantId req) (pb.NewAddressRequest_WalletId req);
  addr ← wcall_or internal (wcall tw NewDerivedAddress);
  _ ← saveSnapshot tw;
  mret (pb.MkAddressResponse (Some (derivedAddress addr))).

Definition BatchNewAddresses (req : pb.BatchNewAddressesRequest) : M Service pb.BatchNewAddressesResponse :=
  tw ← wallet (pb.BatchNewAddressesRequest_TenantId req) (pb.BatchNewAddressesRequest_WalletId req);
  if (pb.BatchNewAddressesRequest_Count req <=? 0)%Z then throw (invalid "count must be positive") else
  addrs ← wcall_or internal (wcall tw (BatchNewDerivedAddresses (pb.BatchNewAddressesRequest_Count req)));
  _ ← saveSnapshot tw;
  mret (pb.MkBatchNewAddressesResponse (derivedAddress <$> addrs)).

Definition DeriveAt (req : pb.DeriveAtRequest) : M Service pb.AddressResponse :=
  let branch := pb.DeriveAtRequest_Branch req in
  let index := pb.DeriveAtRequest_Index req in
  tw ← wallet (pb.DeriveAtRequest_TenantId req) (pb.DeriveAtRequest_WalletId req);
  address ← wcall_or internal (wcall tw (WDeriveAt branch index));
  '(pub, _) ← wcall_or internal (wcall tw (WPubKeyAt branch index));
  spec ← wcall_or internal (W (node (NodeP2PKHOutput address 0)));
  _ ← saveSnapshot tw;
  mret (pb.MkAddressResponse (Some (pb.MkDerivedAddress address (itoa branch +:+ "/" +:+ itoa index)
          pub (bsv.OutputSpec_Script spec) branch index))).

Definition PubKeyAt (req : pb.PubKeyAtRequest) : M Service pb.PubKeyAtResponse :=
  tw ← wallet (pb.PubKeyAtRequest_TenantId req) (pb.PubKeyAtRequest_WalletId req);
  '(pub, address) ← wcall_or internal
     (wcall tw (WPubKeyAt (pb.PubKeyAtRequest_Branch req) (pb.PubKeyAtRequest_Index req)));
  _ ← saveSnapshot tw;
  mret (pb.MkPubKeyAtResponse pub address).

Definition SignHashAt (req : pb.SignHashAtRequest) : M Service pb.SignHashAtResponse :=
  tw ← wallet (pb.SignHashAtRequest_TenantId req) (pb.SignHashAtRequest_WalletId req);
  '(sig, pub) ← wcall_or internal
     (wcall tw (WSignHashAt (pb.SignHashAtRequest_Branch req) (pb.SignHashAtRequest_Index req)
                  (pb.SignHashAtRequest_Hash req)));
  mret (pb.MkSignHashAtResponse sig pub).

Definition NextIndex (req : pb.NextIndexRequest) : M Service pb.NextIndexResponse :=
  tw ← wallet (pb.NextIndexRequest_TenantId req) (pb.NextIndexRequest_WalletId req);
  n ← wcall tw (WNextIndex (pb.NextIndexRequest_Branch req));
  mret (pb.MkNextIndexResponse n).

(** ** Coins *)

Definition Balance (req : pb.BalanceRequest) : M Service pb.BalanceResponse :=
  tw ← wallet (pb.BalanceRequest_TenantId req) (pb.BalanceRequest_WalletId req);
  satoshis ← wcall tw WBalance;
  bsv ← wcall tw BalanceBSV;
  spendable ← wcall tw SpendableBalance;
  immature ← wcall tw ImmatureBalance;
  mret (pb.MkBalanceResponse satoshis bsv spendable immature).

Definition ListUTXOs (req : pb.ListUTXOsRequest) : M Service pb.ListUTXOsResponse :=
  tw ← wallet (pb.ListUTXOsRequest_TenantId req) (pb.ListUTXOsRequest_WalletId req);
  us ← wcall tw UTXOs;
  mret (pb.MkListUTXOsResponse (utxos us)).

Definition ImportUTXO (req : pb.ImportUTXORequest) : M Service pb.ImportUTXOResponse :=
  tw ← wallet (pb.ImportUTXORequest_TenantId req) (pb.ImportUTXORequest_WalletId req);
  _ ← (if pb.ImportUTXORequest_Force req then
         wcall_or internal (wcall tw (ForceImportCoin (bsv.MkUTXO (pb.ImportUTXORequest_Txid req)
           (pb.ImportUTXORequest_Vout req) (pb.ImportUTXORequest_Value req) (pb.ImportUTXORequest_Script req)
           (pb.ImportUTXORequest_Height req) (pb.ImportUTXORequest_IsCoinbase req))))
       else
         wcall_or internal (wcall tw (WImportUTXO (pb.ImportUTXORequest_Txid req)
           (pb.ImportUTXORequest_Vout req) (pb.ImportUTXORequest_Value req) (pb.ImportUTXORequest_Script req)
           (pb.ImportUTXORequest_Height req))));
  mret pb.MkImportUTXOResponse.

Definition ProcessRawTx (req : pb.ProcessRawTxRequest) : M Service pb.ProcessRawTxResponse :=
  tw ← wallet (pb.ProcessRawTxRequest_TenantId req) (pb.ProcessRawTxRequest_WalletId req);
  _ ← wcall_or internal (wcall tw (WProcessRawTx (pb.ProcessRawTxRequest_RawTx req)
        (pb.ProcessRawTxRequest_Height req)));
  mret pb.MkProcessRawTxResponse.

Definition ClearUTXOs (req : pb.ClearUTXOsRequest) : M Service pb.ClearUTXOsResponse :=
  tw ← wallet (pb.ClearUTXOsRequest_TenantId req) (pb.ClearUTXOsRequest_WalletId req);
  n ← wcall tw WClearUTXOs;
  mret (pb.MkClearUTXOsResponse (int32 n)).

Definition ReloadFromStore (req : pb.ReloadFromStoreRequest) : M Service pb.ReloadFromStoreResponse :=
  tw ← wallet (pb.ReloadFromStoreRequest_TenantId req) (pb.ReloadFromStoreRequest_WalletId req);
  n ← wcall_or internal (wcall tw WReloadFromStore);
  mret (pb.MkReloadFromStoreResponse (int32 n)).

Definition WipeWallet (req : pb.WipeWalletRequest) : M Service pb.WipeWalletResponse :=
  tw ← wallet (pb.WipeWalletRequest_TenantId req) (pb.WipeWalletRequest_WalletId req);
  n ← wcall_or internal (wcall tw Wipe);
  mret (pb.MkWipeWalletResponse (int32 n)).

Definition PruneUnknownUTXOs (req : pb.PruneUnknownUTXOsRequest) : M Service pb.PruneUnknownUTXOsResponse :=
  tw ← wallet (pb.PruneUnknownUTXOsRequest_TenantId req) (pb.PruneUnknownUTXOsRequest_WalletId req);
  n ← wcall tw WPruneUnknownUTXOs;
  mret (pb.MkPruneUnknownUTXOsResponse (int32 n)).

Definition IgnoreOutpoint (req : pb.IgnoreOutpointRequest) : M Service pb.IgnoreOutpointResponse :=
  tw ← wallet (pb.IgnoreOutpointRequest_TenantId req) (pb.IgnoreOutpointRequest_WalletId req);
  _ ← (if pb.IgnoreOutpointRequest_Unignore req
       then wcall tw (WUnignoreOutpoint (pb.IgnoreOutpointRequest_Txid req) (pb.IgnoreOutpointRequest_Vout req))
       else wcall tw (WIgnoreOutpoint (pb.IgnoreOutpointRequest_Txid req) (pb.IgnoreOutpointRequest_Vout req)));
  mret pb.MkIgnoreOutpointResponse.

Definition IsOutpointIgnored (req : pb.IsOutpointIgnoredRequest) : M Service pb.IsOutpointIgnoredResponse :=
  tw ← wallet (pb.IsOutpointIgnoredRequest_TenantId req) (pb.IsOutpointIgnoredRequest_WalletId req);
  b ← wcall tw (WIsOutpointIgnored (pb.IsOutpointIgnoredRequest_Txid req) (pb.IsOutpointIgnoredRequest_Vout req));
  mret (pb.MkIsOutpointIgnoredResponse b).

Definition UntrackUTXO (req : pb.UntrackUTXORequest) : M Service pb.UntrackUTXOResponse :=
  tw ← wallet (pb.UntrackUTXORequest_TenantId req) (pb.UntrackUTXORequest_WalletId req);
  v ← wcall tw (WUntrackUTXO (pb.UntrackUTXORequest_Txid req) (pb.UntrackUTXORequest_Vout req));
  mret (pb.MkUntrackUTXOResponse v).

Definition CanCover (req : pb.CanCoverRequest) : M Service pb.CanCoverResponse :=
  tw ← wallet (pb.CanCoverRequest_TenantId req) (pb.CanCoverRequest_WalletId req);
  _ ← wcall_or internal (wcall tw (WCanCover (pb.CanCoverRequest_TotalOut req)
        (pb.CanCoverRequest_FeePerByte req) (pb.CanCoverRequest_FixedOutputs req)));
  mret pb.MkCanCoverResponse.

(** ** Spending *)

Definition Send (req : pb.SendRequest) : M Service pb.SpendResponse :=
  tw ← wallet (pb.SendRequest_TenantId req) (pb.SendRequest_WalletId req);
  txid ← wcall_or internal (wcall tw (WSend (pb.SendRequest_ToAddress req) (pb.SendRequest_AmountSatoshis req)));
  _ ← saveSnapshot tw;
  mret (pb.MkSpendResponse txid).

Definition SendAll (req : pb.SendAllRequest) : M Service pb.SpendResponse :=
  tw ← wallet (pb.SendAllRequest_TenantId req) (pb.SendAllRequest_WalletId req);
  txid ← wcall_or internal (wcall tw (WSendAll (pb.SendAllRequest_ToAddress req)));
  _ ← saveSnapshot tw;
  mret (pb.MkSpendResponse txid).

Definition SpendToOutputs (req : pb.SpendToOutputsRequest) : M Service pb.SpendDetailResponse :=
  tw ← wallet (pb.SpendToOutputsRequest_TenantId req) (pb.SpendToOutputsRequest_WalletId req);
  let outs := outputSpecs (pb.SpendToOutputsRequest_Outputs req) in
  detail ← (if (0 <? length (pb.SpendToOutputsRequest_FromInputs req))%nat then
              if pb.SpendToOutputsRequest_IgnoreFixedOutputs req
              then throw (invalid "from_inputs and ignore_fixed_outputs are mutually exclusive")
              else
                inputs ← outPoints (pb.SpendToOutputsRequest_FromInputs req);
                wcall_or internal (wcall tw (SpendToOutputsDetailedFrom inputs outs))
            else if pb.SpendToOutputsRequest_IgnoreFixedOutputs req
            then wcall_or internal (wcall tw (SpendToOutputsDetailedIgnoringFixed outs))
            else wcall_or internal (wcall tw (SpendToOutputsDetailed outs)));
  _ ← saveSnapshot tw;
  mret (pb.MkSpendDetailResponse (spendDetail detail)).

Fixpoint customInputs (src : list pb.CustomInput) : M Service (list bsv.CustomInput) :=
  match src with
  | [] => mret []
  | inp :: rest =>
      txid ← wcall_or (fun _ => invalid "invalid input txid")
               (W (node (TxIDFromHex (pb.CustomInput_Txid inp))));
      out ← customInputs rest;
      mret (bsv.MkCustomInput txid (pb.CustomInput_Vout inp) (pb.CustomInput_ScriptSig inp)
              (pb.CustomInput_Sequence inp) :: out)
  end.
Definition BroadcastCustomSpend (req : pb.BroadcastCustomSpendRequest) : M Service pb.SpendResponse :=
  o ← gets sv_opts;
  if negb (EnableCustomSpend o) then throw (EStatus FailedPrecondition "BroadcastCustomSpend disabled") else
  inputs ← customInputs (pb.BroadcastCustomSpendRequest_Inputs req);
  txid ← wcall_or internal
           (W (node (SpendCustom inputs (outputSpecs (pb.BroadcastCustomSpendRequest_Outputs req)))));
  mret (pb.MkSpendResponse txid).

(** ** Scripts and raw transactions *)

Definition P2PKHOutput (req : pb.P2PKHOutputRequest) : M Service pb.OutputSpec :=
  out ← wcall_or internal
          (W (node (NodeP2PKHOutput (pb.P2PKHOutputRequest_Address req) (pb.P2PKHOutputRequest_Value req))));
  mret (outputSpec out).
Definition OpReturnOutput (req : pb.OpReturnOutputRequest) : M Service pb.OutputSpec :=
  out ← W (node (SdkOpReturnOutput (pb.OpReturnOutputRequest_Data req)));
  mret (outputSpec out).
Definition AnyoneCanSpendOutput (req : pb.AnyoneCanSpendOutputRequest) : M Service pb.OutputSpec :=
  out ← W (node (SdkAnyoneCanSpendOutput (pb.AnyoneCanSpendOutputRequest_Value req)));
  mret (outputSpec out).

Definition ParseTransaction (req : pb.ParseTransactionRequest) : M Service pb.Transaction :=
  tx ← wcall_or internal (W (node (SdkParseTransaction (pb.ParseTransactionRequest_RawTx req))));
  tx_proto tx.

Definition BroadcastRaw (req : pb.BroadcastRawRequest) : M Service pb.BroadcastRawResponse :=
  txid ← wcall_or internal (W (node (NodeBroadcastRaw (pb.BroadcastRawRequest_RawTx req))));
  mret (pb.MkBroadcastRawResponse txid).

(** A script failure is an answer, not an RPC error. *)
Definition ExecuteScript (req : pb.ExecuteScriptRequest) : M Service pb.ExecuteScriptResponse :=
  let raw := pb.ExecuteScriptRequest_RawTx req in
  tx ← (if (0 <? length raw)%nat then
          parsed ← wcall_or internal (W (node (SdkParseTransaction raw)));
          mret (Some parsed)
        else mret None);
  r ← W (node (NodeExecuteScript (pb.ExecuteScriptRequest_Strict req) (pb.ExecuteScriptRequest_ScriptSig req)
           (pb.ExecuteScriptRequest_ScriptPubKey req) tx (pb.ExecuteScriptRequest_InputIndex req)
           (pb.ExecuteScriptRequest_Amount req)));
  match (r : result unit) with
  | Err err => mret (pb.MkExecuteScriptResponse false (error_string err))
  | Ok _ => mret (pb.MkExecuteScriptResponse true "")
  end.

Definition DecodeOutputAddress (req : pb.DecodeOutputAddressRequest) : M Service pb.DecodeOutputAddressResponse :=
  '(addr, ok) ← W (node (NodeDecodeOutputAddress (pb.DecodeOutputAddressRequest_ScriptPubKey req)));
  mret (pb.MkDecodeOutputAddressResponse addr ok).

Definition pendingTransaction (tx : bsv.PendingTx) : pb.PendingTransaction :=
  pb.MkPendingTransaction (bsv.PendingTx_TxID tx) (format_RFC3339Nano (bsv.PendingTx_FirstBroadcast tx))
    (format_RFC3339Nano (bsv.PendingTx_LastBroadcast tx)) (format_RFC3339Nano (bsv.PendingTx_LastAnnounce tx))
    (int32 (bsv.PendingTx_Rebroadcasts tx)).
Definition PendingTransactions (req : pb.PendingTransactionsRequest) : M Service pb.PendingTransactionsResponse :=
  src ← W (node NodePendingTransactions);
  mret (pb.MkPendingTransactionsResponse (pendingTransaction <$> src)).
Definition RebroadcastPendingTransactions (req : pb.RebroadcastPendingTransactionsRequest) :
    M Service pb.RebroadcastPendingTransactionsResponse :=
  n ← W (node NodeRebroadcastPendingTransactions);
  mret (pb.MkRebroadcastPendingTransactionsResponse (int32 n)).

(** ** Transaction state *)

Definition TxState (req : pb.TxStateRequest) : M Service pb.TxStateResponse :=
  tw ← wallet (pb.TxStateRequest_TenantId req) (pb.TxStateRequest_WalletId req);
  '(state, known) ← wcall_or internal (wcall tw (WTxState (pb.TxStateRequest_Txid req)));
  if negb known then mret (pb.MkTxStateResponse false (-1) false false) else
  mret (pb.MkTxStateResponse true (bsv.TxState_Height state) (bsv.TxState_Confirmed state)
          (bsv.TxState_Conflicted state)).

Definition AbandonTransaction (req : pb.AbandonTransactionRequest) : M Service pb.AbandonTransactionResponse :=
  tw ← wallet (pb.AbandonTransactionRequest_TenantId req) (pb.AbandonTransactionRequest_WalletId req);
  _ ← wcall_or internal (wcall tw (WAbandonTransaction (pb.AbandonTransactionRequest_Txid req)));
  _ ← saveSnapshot tw;
  mret pb.MkAbandonTransactionResponse.

Definition ClearIgnoredOutpoints (req : pb.ClearIgnoredOutpointsRequest) :
    M Service pb.ClearIgnoredOutpointsResponse :=
  tw ← wallet (pb.ClearIgnoredOutpointsRequest_TenantId req) (pb.ClearIgnoredOutpointsRequest_WalletId req);
  n ← wcall tw WClearIgnoredOutpoints;
  mret (pb.MkClearIgnoredOutpointsResponse (int32 n)).

Definition OwnsScript (req : pb.OwnsScriptRequest) : M Service pb.OwnsScriptResponse :=
  tw ← wallet (pb.OwnsScriptRequest_TenantId req) (pb.OwnsScriptRequest_WalletId req);
  b ← wcall tw (WOwnsScript (pb.OwnsScriptRequest_ScriptPubKey req));
  mret (pb.MkOwnsScriptResponse b).

(** The answer of a delivery probe: unverified in time is not a failure. *)
Definition probe (m : M Service (result bool)) : M Service bool :=
  r ← m;
  match r with
  | Ok b => mret b
  | Err err => if errors_is err ErrTxUnverified then mret false else throw (internal err)
  end.
Definition VerifyTxSeen (req : pb.VerifyTxSeenRequest) : M Service pb.VerifyTxSeenResponse :=
  let txid := pb.VerifyTxSeenRequest_Txid req in
  if String.eqb txid "" then throw (invalid "txid required") else
  let peers := if (pb.VerifyTxSeenRequest_PeersToAsk req <=? 0)%Z then 1%Z
               else pb.VerifyTxSeenRequest_PeersToAsk req in
  let timeout := relayTimeout (pb.VerifyTxSeenRequest_TimeoutMs req) in
  seen ← probe (W (node (NodeVerifyTxSeen txid peers timeout)));
  mret (pb.MkVerifyTxSeenResponse seen).
Definition WaitForTxRelay (req : pb.WaitForTxRelayRequest) : M Service pb.WaitForTxRelayResponse :=
  let txid := pb.WaitForTxRelayRequest_Txid req in
  if String.eqb txid "" then throw (invalid "txid required") else
  let timeout := relayTimeout (pb.WaitForTxRelayRequest_TimeoutMs req) in
  relayed ← probe (W (node (NodeWaitForTxRelay txid timeout)));
  mret (pb.MkWaitForTxRelayResponse relayed).

Definition GetIncompleteCursor (req : pb.GetIncompleteCursorRequest) : M Service pb.GetIncompleteCursorResponse :=
  tw ← wallet (pb.GetIncompleteCursorRequest_TenantId req) (pb.GetIncompleteCursorRequest_WalletId req);
  '(cursor, found) ← wcall_or internal (wcall tw WGetIncompleteCursor);
  match found, cursor with
  | true, Some c =>
      mret (pb.MkGetIncompleteCursorResponse true (blockHashHex (bsv.Cursor_BlockHash c))
              (bsv.Cursor_Height c) (int32 (bsv.Cursor_TxDone c)) (int32 (bsv.Cursor_TxTotal c)))
  | _, _ => mret (pb.MkGetIncompleteCursorResponse false "" 0 0 0)
  end.

(** ** Dispatch *)

(** The unary methods of [BSVMS_ServiceDesc]; [None] for a streaming one. *)
Definition unary (r : rpc) : option (rpc_request r -> M Service (rpc_response r)) :=
  match r with
  | BSVMS_Status => Some Status
  | BSVMS_RefreshToken => Some RefreshToken
  | BSVMS_ConnectPeer => Some ConnectPeer
  | BSVMS_ListWallets => Some ListWallets
  | BSVMS_CreateWallet => Some CreateWallet
  | BSVMS_RestoreWallet => Some RestoreWallet
  | BSVMS_GetWallet => Some GetWallet
  | BSVMS_NewAddress => Some NewAddress
  | BSVMS_BatchNewAddresses => Some BatchNewAddresses
  | BSVMS_DeriveAt => Some DeriveAt
  | BSVMS_PubKeyAt => Some PubKeyAt
  | BSVMS_SignHashAt => Some SignHashAt
  | BSVMS_NextIndex => Some NextIndex
  | BSVMS_Balance => Some Balance
  | BSVMS_ListUTXOs => Some ListUTXOs
  | BSVMS_ImportUTXO => Some ImportUTXO
  | BSVMS_ProcessRawTx => Some ProcessRawTx
  | BSVMS_ClearUTXOs => Some ClearUTXOs
  | BSVMS_ReloadFromStore => Some ReloadFromStore
  | BSVMS_WipeWallet => Some WipeWallet
  | BSVMS_PruneUnknownUTXOs => Some PruneUnknownUTXOs
  | BSVMS_IgnoreOutpoint => Some IgnoreOutpoint
  | BSVMS_IsOutpointIgnored => Some IsOutpointIgnored
  | BSVMS_UntrackUTXO => Some UntrackUTXO
  | BSVMS_CanCover => Some CanCover
  | BSVMS_Send => Some Send
  | BSVMS_SendAll => Some SendAll
  | BSVMS_SpendToOutputs => Some SpendToOutputs
  | BSVMS_BroadcastCustomSpend => Some BroadcastCustomSpend
  | BSVMS_P2PKHOutput => Some P2PKHOutput
  | BSVMS_OpReturnOutput => Some OpReturnOutput
  | BSVMS_AnyoneCanSpendOutput => Some AnyoneCanSpendOutput
  | BSVMS_ParseTransaction => Some ParseTransaction
  | BSVMS_BroadcastRaw => Some BroadcastRaw
  | BSVMS_ExecuteScript => Some ExecuteScript
  | BSVMS_DecodeOutputAddress => Some DecodeOutputAddress
  | BSVMS_PendingTransactions => Some PendingTransactions
  | BSVMS_RebroadcastPendingTransactions => Some RebroadcastPendingTransactions
  | BSVMS_StreamTransactions => None
  | BSVMS_StreamBlocks => None
  | BSVMS_StreamPayments => None
  | BSVMS_StreamWalletTransactions => None
  | BSVMS_StreamP2PTraffic => None
  | BSVMS_StreamRejects => None
  | BSVMS_TxState => Some TxState
  | BSVMS_AbandonTransaction => Some AbandonTransaction
  | BSVMS_ClearIgnoredOutpoints => Some ClearIgnoredOutpoints
  | BSVMS_OwnsScript => Some OwnsScript
  | BSVMS_VerifyTxSeen => Some VerifyTxSeen
  | BSVMS_WaitForTxRelay => Some WaitForTxRelay
  | BSVMS_Rescan => None
  | BSVMS_GetIncompleteCursor => Some GetIncompleteCursor
  end.

(** A unary call through the interceptor. *)
Definition serve (ctx : context) (r : rpc) (h : rpc_request r -> M Service (rpc_response r))
    (req : rpc_request r) : M Service (rpc_response r) :=
  UnaryAuthInterceptor ctx (full_method r) (Some (rpc_reflect r req)) (h req).
End handlers.
