(* ===== verification/HandlersSpec.v ===== *)
(** * What the handlers touch

    Every unary handler leaves the registry alone (creation and restoration
    apart), and the SDK wallet calls it makes are all on the wallet the request
    names. *)

From S2P Require Import Prelude GoStrings GoTime Encoding Crypto Proto Broker Sdk Ids World Encryption.
From S2P Require Import Options Service Auth AuthSpec Registry RegistrySpec Handlers.

(** ** Relations *)

(** Calls on a wallet satisfy [P]; other calls are free. *)
Definition about (P : wallet_ptr -> Prop) (c : ext_call) : Prop :=
  match c with WalletCall q _ => P q | _ => True end.

Definition calls (P : wallet_ptr -> Prop) (s s' : Service) : Prop :=
  extends (about P) (sv_world s) (sv_world s').
#[export] Instance calls_preorder P : PreOrder (calls P).
Proof. split; [by intros s; unfold calls|]. intros s1 s2 s3. unfold calls. by apply transitivity. Qed.

Lemma calls_impl (P Q : wallet_ptr -> Prop) s s' : (forall q, P q -> Q q) -> calls P s s' -> calls Q s s'.
Proof. intros HPQ. apply extends_impl. intros []; cbn; auto. Qed.

Definition no_wallet (q : wallet_ptr) : Prop := False.

(** From a state where [l] is a wallet: the heap stays, and wallet calls are on it. *)
Definition touches (l : loc) (s s' : Service) : Prop := forall tw, sv_heap s !! l = Some tw ->
  sv_heap s' = sv_heap s /\ calls (eq (tw_w tw)) s s'.
#[export] Instance touches_preorder l : PreOrder (touches l).
Proof.
  split; [by intros s tw|]. intros s1 s2 s3 H12 H23 tw Htw.
  destruct (H12 tw Htw) as [E1 C1]. destruct (H23 tw) as [E2 C2]; [by rewrite E1|].
  split; [congruence|]. by transitivity s2.
Qed.

Section hints.
Context `{Env} `{Mac} `{Hash} `{Aead}.

Lemma calls_W_log P (c : ext_call) s : about P c -> calls P s (set_world (log c (sv_world s)) s).
Proof. intros Hc. by apply extends_log. Qed.

Lemma calls_node P c : moves (calls P) (W (node c)).
Proof. intros s. by apply calls_W_log. Qed.
Lemma calls_host P c : moves (calls P) (W (host c)).
Proof. intros s. by apply calls_W_log. Qed.
Lemma touches_node l c : moves (touches l) (W (node c)).
Proof. intros s tw _. split; [done|]. by apply calls_W_log. Qed.
Lemma touches_host l c : moves (touches l) (W (host c)).
Proof. intros s tw _. split; [done|]. by apply calls_W_log. Qed.
Lemma touches_wcall l c : moves (touches l) (wcall l c).
Proof.
  intros s tw Htw. rewrite (wcall_run l c tw) by done. split; [done|]. by apply calls_W_log.
Qed.
Lemma calls_time_now P : moves (calls P) (W time_now).
Proof. intros s. by apply calls_W_log. Qed.
Lemma calls_randomID P : moves (calls P) (W randomID).
Proof. intros s. destruct (randomID_run s) as (j & _ & ->). by apply calls_W_log. Qed.
End hints.
#[export] Hint Resolve calls_time_now calls_randomID : moves.
(** The answer type of a call computes: these are matched up to conversion. *)
Ltac moves_call :=
  match goal with
  | |- moves (calls _) (@W _ (node ?c)) => exact (calls_node _ c)
  | |- moves (calls _) (@W _ (host ?c)) => exact (calls_host _ c)
  | |- moves (touches _) (@W _ (node ?c)) => exact (touches_node _ c)
  | |- moves (touches _) (@W _ (host ?c)) => exact (touches_host _ c)
  | |- moves (touches _) (@wcall _ ?l ?c) => exact (touches_wcall l c)
  | |- moves only_world (@wcall _ ?l ?c) => exact (wcall_only_world l c)
  | H : forall c, moves ?R (W (node c)) |- moves ?R (@W _ (node ?c)) => exact (H c)
  end.
#[export] Hint Extern 1 (moves _ _) => moves_call : moves.

Section helpers.
Context `{Env} `{Mac} `{Hash} `{Aead}.

Lemma moves_wcall_or R `{!PreOrder R} {A} f (m : M Service (result A)) : moves R m -> moves R (wcall_or f m).
Proof. intros Hm. unfold wcall_or. apply moves_on_error. moves_tac. Qed.
Hint Extern 1 (moves _ (wcall_or _ _)) => apply moves_wcall_or : moves.

Lemma moves_probe R `{!PreOrder R} m : moves R m -> moves R (probe m).
Proof. intros Hm. unfold probe. moves_tac. Qed.

(** A relation that every node call respects, every helper of node calls respects. *)
Section node_helpers.
Context (R : Service -> Service -> Prop) `{!PreOrder R} (Hnode : forall c, moves R (W (node c))).

Lemma moves_outPoints src : moves R (outPoints src).
Proof. induction src; cbn [outPoints]; moves_tac. Qed.
Lemma moves_customInputs src : moves R (customInputs src).
Proof. induction src; cbn [customInputs]; moves_tac. Qed.
Lemma moves_tx_inputs tx ins : forall i, moves R (tx_inputs tx i ins).
Proof. induction ins; intros i; cbn [tx_inputs]; moves_tac. Qed.
Lemma moves_tx_outputs outs : forall i, moves R (tx_outputs i outs).
Proof. induction outs; intros i; cbn [tx_outputs]; moves_tac. Qed.
Lemma moves_tx_proto tx : moves R (tx_proto tx).
Proof. unfold tx_proto. pose proof moves_tx_inputs. pose proof moves_tx_outputs. moves_tac. Qed.
End node_helpers.

Lemma touches_saveSnapshotLocked l : moves (touches l) (saveSnapshotLocked l).
Proof. unfold saveSnapshotLocked. moves_tac. Qed.
Hint Resolve touches_saveSnapshotLocked : moves.
Lemma touches_saveSnapshot l : moves (touches l) (saveSnapshot l).
Proof. unfold saveSnapshot. moves_tac. Qed.
Lemma touches_walletProtoLocked l : moves (touches l) (walletProtoLocked l).
Proof. unfold walletProtoLocked, walletAddresses. moves_tac. Qed.

Lemma calls_authorize P ctx method req : moves (calls P) (authorize ctx method req).
Proof.
  assert (forall token typ, moves (calls P) (validateJWT token typ)) as Hv.
  { intros token typ. unfold validateJWT.
    destruct (split_char "." token) as [|? [|? [|? [|]]]]; moves_tac. }
  unfold authorize, authSubjectFromContext, bootstrapAllowed. moves_tac.
Qed.
Lemma calls_RefreshToken P req : moves (calls P) (RefreshToken req).
Proof.
  assert (forall token typ, moves (calls P) (validateJWT token typ)) as Hv.
  { intros token typ. unfold validateJWT.
    destruct (split_char "." token) as [|? [|? [|? [|]]]]; moves_tac. }
  unfold RefreshToken, issueTokens. moves_tac.
Qed.
Lemma RefreshToken_only_world req : moves only_world (RefreshToken req).
Proof.
  assert (forall token typ, moves only_world (validateJWT token typ)) as Hv.
  { intros token typ. unfold validateJWT.
    destruct (split_char "." token) as [|? [|? [|? [|]]]]; moves_tac. }
  unfold RefreshToken. moves_tac.
Qed.
End helpers.
#[export] Hint Extern 1 (moves _ (wcall_or _ _)) => apply moves_wcall_or : moves.
#[export] Hint Extern 1 (moves _ (probe _)) => apply moves_probe : moves.
#[export] Hint Resolve moves_outPoints moves_customInputs moves_tx_proto
  touches_saveSnapshot touches_walletProtoLocked RefreshToken_only_world : moves.

(** ** Frames of the handlers *)

Ltac unfold_head t := match t with ?f _ => unfold_head f | ?f => unfold f end.

Section frames.
Context `{Env} `{Mac} `{Hash} `{Aead}.

Lemma wallet_protos_only_world ws keys : moves only_world (wallet_protos ws keys).
Proof. induction keys; cbn [wallet_protos]; moves_tac. Qed.
Hint Resolve wallet_protos_only_world : moves.

(** Apart from creation and restoration, no unary method changes the service. *)
Lemma unary_only_world r h req : unary r = Some h ->
  r <> BSVMS_CreateWallet -> r <> BSVMS_RestoreWallet -> moves only_world (h req).
Proof.
  intros Hr Hc Hs. destruct r; injection Hr as <- || discriminate Hr; try done; try (by auto with moves);
    match goal with |- moves _ ?m => unfold_head m end; cbv zeta; moves_tac.
Qed.
End frames.

(** ** The wallet a request acts on *)

Section scope.
Context `{Env} `{Mac} `{Hash} `{Aead}.

(** [q] is the SDK wallet registered for [t]/[w]; for some wallet of tenant [t]. *)
Definition acts_on (s : Service) (t w : string) (q : wallet_ptr) : Prop :=
  exists l tw, lookup_wallet s t w = Some l /\ sv_heap s !! l = Some tw /\ q = tw_w tw.
Definition owned_by (s : Service) (t : string) (q : wallet_ptr) : Prop :=
  exists k l tw, sv_wallets s !! k = Some l /\ sv_heap s !! l = Some tw /\
    TenantID (tw_meta tw) = t /\ q = tw_w tw.

Lemma calls_wallet {A} t w (body : loc -> M Service A) s r s' : registry_ok s ->
  (forall l, moves (touches l) (body l)) ->
  (l ← wallet t w; body l) s = (r, s') -> calls (acts_on s t w) s s'.
Proof.
  intros Hok Hb. unfold mbind, M_bind. destruct (wallet t w s) as [[l|e] s1] eqn:Ew.
  - apply wallet_ok in Ew as (_ & _ & Hl & ->). intros E.
    destruct (reg_ptr _ Hok _ _ Hl) as (tw & Htw & _).
    specialize (Hb l s tw Htw) as [_ Hc]. rewrite E in Hc. eapply calls_impl; [|exact Hc].
    intros q <-. by exists l, tw.
  - intros [= <- <-]. pose proof (wallet_only_world t w s) as Ho. rewrite Ew in Ho.
    assert (s1 = s) as ->; [|done]. unfold wallet, lift, gets, mbind, M_bind in Ew.
    destruct (validateTenantWallet t w); [|by injection Ew]. destruct (sv_wallets s !! _); [done|].
    by injection Ew.
Qed.

Lemma calls_ListWallets req s r s' : registry_ok s -> ListWallets req s = (r, s') ->
  calls (owned_by s (pb.ListWalletsRequest_TenantId req)) s s'.
Proof.
  intros Hok. unfold ListWallets. set (t := pb.ListWalletsRequest_TenantId req). cbv zeta.
  unfold mbind at 1, M_bind at 1, lift at 1. destruct (validateTenant t); [|by intros [= _ <-]].
  erewrite bind_run by reflexivity. erewrite bind_run by reflexivity.
  assert (forall keys u, only_world s u -> (forall k, k ∈ keys -> k ∈ tenant_keys s t) ->
    calls (owned_by s t) u (snd (wallet_protos (sv_wallets s) keys u))) as Hk.
  { induction keys as [|k keys IH]; intros u Hu Hin; [done|]. cbn [wallet_protos].
    destruct (proj1 (tenant_keys_elem s t k Hok)) as (l & tw & Hl & Htw & Ht); [apply Hin; set_solver|].
    rewrite Hl. unfold mbind, M_bind.
    assert (sv_heap u !! l = Some tw) as Htw' by (by rewrite Hu).
    destruct (touches_walletProtoLocked l u tw Htw') as [_ Hc].
    pose proof (walletProtoLocked_only_world l u) as Ho.
    destruct (walletProtoLocked l u) as [[p|e] u1]; cbn in Hc, Ho.
    2: { eapply calls_impl; [|exact Hc]. intros q <-. by exists k, l, tw. }
    assert (calls (owned_by s t) u u1) as Hc1.
    { eapply calls_impl; [|exact Hc]. intros q <-. by exists k, l, tw. }
    specialize (IH u1 ltac:(by transitivity u) ltac:(intros; apply Hin; set_solver)).
    destruct (wallet_protos (sv_wallets s) keys u1) as [[ps|e] u2]; cbn in *; by transitivity u1. }
  specialize (Hk (tenant_keys s t) s ltac:(done) ltac:(done)). unfold mbind, M_bind.
  destruct (wallet_protos _ _ _) as [[ps|e] u]; intros [= _ <-]; exact Hk.
Qed.

(** The wallets a request may act on, from the ids it carries. *)
Definition request_scope (s : Service) (r : rpc) (req : rpc_request r) : wallet_ptr -> Prop :=
  match tenantWalletFromRequest (Some (rpc_reflect r req)) with
  | (t, w, true) => if bool_decide (r = BSVMS_ListWallets) then owned_by s t else acts_on s t w
  | _ => no_wallet
  end.

Lemma unary_scope r h req s x s' : unary r = Some h ->
  r <> BSVMS_CreateWallet -> r <> BSVMS_RestoreWallet -> registry_ok s ->
  h req s = (x, s') -> calls (request_scope s r req) s s'.
Proof.
  intros Hr Hc Hs Hok. destruct r; injection Hr as <- || discriminate Hr; try done;
    unfold request_scope; cbn [tenantWalletFromRequest];
    try (intros E; pose proof (calls_RefreshToken no_wallet req s) as Hm; rewrite E in Hm; exact Hm);
    try (by apply calls_ListWallets);
    first
      [ (* methods on one wallet *)
        match goal with |- ?m s = _ -> _ => unfold_head m end; cbv zeta;
        rewrite bool_decide_false by done; apply calls_wallet; [done|]; intros l; moves_tac
      | (* methods on the node *)
        match goal with |- ?m s = _ -> _ => intros E; assert (moves (calls no_wallet) m) as Hm end;
        [ match goal with |- moves _ ?m => unfold_head m end; cbv zeta; moves_tac
        | specialize (Hm s); rewrite E in Hm; exact Hm ] ].
Qed.

(** Every method on one wallet looks it up first. *)
Lemma unary_wallet_first r h req t w : unary r = Some h ->
  r <> BSVMS_CreateWallet -> r <> BSVMS_RestoreWallet -> r <> BSVMS_ListWallets ->
  tenantWalletFromRequest (Some (rpc_reflect r req)) = (t, w, true) ->
  exists body, h req = (wallet t w ≫= body).
Proof.
  intros Hr Hc Hs Hl. destruct r; injection Hr as <- || discriminate Hr; try done;
    cbn [tenantWalletFromRequest]; intros Et; first [discriminate Et | injection Et as <- <-]; by eexists.
Qed.

(** Ids under which nothing is registered are refused before anything is done. *)
Lemma wallet_refused {A} t w (body : loc -> M Service A) s : lookup_wallet s t w = None ->
  snd ((wallet t w ≫= body) s) = s /\
  result_code (fst ((wallet t w ≫= body) s)) =
    Some (if idRE_MatchString t && idRE_MatchString w then NotFound else InvalidArgument).
Proof.
  intros Hn. unfold mbind, M_bind, wallet, lift. unfold mbind, M_bind, gets, validateTenantWallet, validateTenant.
  unfold lookup_wallet in Hn.
  destruct (idRE_MatchString t), (idRE_MatchString w); cbn; by rewrite ?Hn.
Qed.

(** Ids of every record are well formed. *)
Definition ids_ok (s : Service) : Prop :=
  Forall (fun m => idRE_MatchString (TenantID m) = true /\ idRE_MatchString (WalletID m) = true) (sv_state s).

Lemma ends_in_nul t x w : t +:+ String nul "" = x +:+ w -> w <> "" -> lacks nul w = false.
Proof.
  revert t. induction x as [|a x IH]; intros t E Hw; cbn [append] in E.
  - subst w. unfold lacks. by rewrite str_forall_app, andb_false_r.
  - destruct t as [|b t]; cbn [append] in E.
    + injection E as _ E. by destruct x; destruct w.
    + injection E as _ E. by eapply IH.
Qed.

(** No wallet is registered under the empty wallet id. *)
Lemma acts_on_empty s t q : registry_ok s -> ids_ok s -> ~ acts_on s t "" q.
Proof.
  intros Hok Hids (l & tw & Hl & _). destruct (reg_ptr _ Hok _ _ Hl) as (tw' & _ & Hm & Hk).
  destruct (proj1 (Forall_forall _ _) Hids _ Hm) as [_ Iw]. unfold walletKey in Hk.
  assert (lacks nul (WalletID (tw_meta tw')) = false) as Hn.
  { apply (ends_in_nul t (TenantID (tw_meta tw') +:+ String nul "")); [|by apply id_nonempty].
    rewrite Hk, <- app_str_assoc. reflexivity. }
  by rewrite id_lacks_nul in Hn.
Qed.

Lemma rpc_not_bootstrap r : r <> BSVMS_CreateWallet -> r <> BSVMS_RestoreWallet ->
  isBootstrapMethod (full_method r) = false.
Proof. by destruct r. Qed.

Lemma rpc_refresh r : has_suffix (full_method r) "/RefreshToken" = true -> r = BSVMS_RefreshToken.
Proof. by destruct r. Qed.

Lemma rpc_is_bsvms r : isBSVMSMethod (full_method r) = true.
Proof. by destruct r. Qed.
End scope.
