(* ===== verification/Lifecycle.v ===== *)
(** * The life of a service

    The invariant of a running service, the steps its unary methods take, what
    they keep, and a restart on the files they leave. *)

From S2P Require Import Prelude GoStrings GoTime GoPath Encoding Crypto Json Decode Proto Broker Sdk Ids.
From S2P Require Import World Encryption Options Service Auth AuthSpec Registry RegistrySpec Handlers.
From S2P Require Import HandlersSpec.

Section invariant.
Context `{Env} `{Mac} `{Hash} `{Aead}.

(** What every record made by a running service satisfies, for its data key. *)
Record record_ok (key : bytes) (m : walletMeta) : Prop := {
  rec_tenant : idRE_MatchString (TenantID m) = true;
  rec_wallet : idRE_MatchString (WalletID m) = true;
  rec_sealed : has_plaintext m = false;
  rec_plain : plain_meta m;
  rec_opens : exists mnemonic passphrase, openWalletSecrets key m = Ok (mnemonic, passphrase);
}.

(** The invariant of a running service. *)
Record service_ok (s : Service) : Prop := {
  so_registry : registry_ok s;
  so_records : Forall (record_ok (DataKey (sv_opts s))) (sv_state s);
  so_options : resolved (sv_opts s);
}.

#[global] Instance service_ok_proper : Proper (only_world ==> impl) service_ok.
Proof. intros s s' Ho [Hr Hs Hop]. split; [by rewrite <- Ho|..]; unfold only_world in Ho; by rewrite Ho. Qed.

(** [s'] has all wallets of [s], at the same places, and its records first. *)
Definition grows (s s' : Service) : Prop :=
  sv_state s `prefix_of` sv_state s' /\ sv_opts s' = sv_opts s /\
  (forall t w l, lookup_wallet s t w = Some l -> lookup_wallet s' t w = Some l) /\
  (forall l tw, sv_heap s !! l = Some tw -> sv_heap s' !! l = Some tw).

#[global] Instance grows_preorder : PreOrder grows.
Proof.
  split; [by intros s|]. intros s1 s2 s3 (P1 & O1 & L1 & H1') (P2 & O2 & L2 & H2').
  split; [by etransitivity|]. split; [congruence|]. auto.
Qed.
Lemma grows_only_world s s' : only_world s s' -> grows s s'.
Proof. unfold only_world. intros ->. by repeat split. Qed.

Lemma grows_add_outcome {A} t w mn pp s s' (r : result A) :
  add_outcome t w mn pp s s' r -> grows s s'.
Proof.
  intros [e _ Ho|tw Ht Hw Hn Et Ew _ _ _ _ Ho]; [by apply grows_only_world|].
  unfold only_world in Ho. rewrite Ho. split; [by apply prefix_app_r|]. split; [done|]. split; cbn.
  - intros t' w' l Hl. unfold lookup_wallet in *. cbn. rewrite Et, Ew.
    rewrite lookup_insert_ne; [done|]. intros E. rewrite E in Hn. congruence.
  - intros l tw' Hl. by rewrite lookup_app_l by (by eapply lookup_lt_Some).
Qed.

Lemma add_outcome_records {A} t w mn pp s s' (r : result A) :
  add_outcome t w mn pp s s' r -> service_ok s -> service_ok s'.
Proof.
  intros Ha Hok. pose proof (add_outcome_ok _ _ _ _ _ _ _ Ha (so_registry _ Hok)) as Hreg.
  destruct Ha as [e _ Ho|tw Ht Hw Hn Et Ew _ Hp Hpl Hop Ho]; [by rewrite <- Ho|].
  destruct Hok as [_ Hs Hopt]. split; [done|..]; unfold only_world in Ho; rewrite Ho; cbn; [|done].
  apply Forall_app. split; [done|]. apply Forall_singleton.
  split; [by rewrite Et|by rewrite Ew|done|done|eauto].
Qed.

Lemma unary_keeps r h req s x s' : unary r = Some h -> h req s = (x, s') ->
  service_ok s -> service_ok s' /\ grows s s'.
Proof.
  intros Hr Hh Hok.
  assert (forall t w mn pp (y : result (rpc_response r)), add_outcome t w mn pp s s' y -> service_ok s' /\ grows s s') as Hadd
    by (intros; split; [by eapply add_outcome_records|by eapply grows_add_outcome]).
  assert (r <> BSVMS_CreateWallet -> r <> BSVMS_RestoreWallet -> service_ok s' /\ grows s s') as Hother.
  { intros Hc Hs. pose proof (unary_only_world r h req Hr Hc Hs s) as Ho. rewrite Hh in Ho.
    split; [by rewrite <- Ho|by apply grows_only_world]. }
  destruct r; try (by apply Hother); injection Hr as <-.
  - destruct (CreateWallet_outcome _ _ _ _ Hh) as (mn & Ho & _). by eapply Hadd.
  - eapply Hadd. by eapply RestoreWallet_outcome.
Qed.

(** The wallet [t]/[w] was added to [s], with these secrets: it has a record,
    an entry and a handle, and the file on disk holds the whole registry. *)
Record wallet_added (t w mnemonic passphrase : string) (s s' : Service) : Prop := {
  wa_tenant : idRE_MatchString t = true;
  wa_wallet : idRE_MatchString w = true;
  wa_new : lookup_wallet s t w = None;
  wa_entry : exists l tw, lookup_wallet s' t w = Some l /\ sv_heap s' !! l = Some tw /\
    ids (tw_meta tw) = (t, w) /\ has_plaintext (tw_meta tw) = false /\
    openWalletSecrets (DataKey (sv_opts s)) (tw_meta tw) = Ok (mnemonic, passphrase) /\
    sv_state s' = sv_state s ++ [tw_meta tw];
  wa_saved : saved s';
}.

Lemma add_outcome_added {A} t w mn pp s s' (a : A) :
  add_outcome t w mn pp s s' (Ok a) -> saved s' -> wallet_added t w mn pp s s'.
Proof.
  intros [e|tw Ht Hw Hn Et Ew _ Hp _ Hop Ho] Hs; [done|]. split; try done.
  exists (length (sv_heap s)), tw. unfold only_world in Ho. rewrite Ho. unfold lookup_wallet. cbn.
  rewrite Et, Ew, lookup_insert_eq, lookup_app_r, Nat.sub_diag by lia. unfold ids. by rewrite Et, Ew.
Qed.
(** The keys listed for a tenant are those of its records. *)
Lemma tenant_keys_records s t k : service_ok s ->
  k ∈ tenant_keys s t <-> exists m, m ∈ sv_state s /\ TenantID m = t /\ k = walletKey t (WalletID m).
Proof.
  intros [Hok Hrec _]. rewrite tenant_keys_elem by done. split.
  - intros (l & tw & Hl & Htw & <-). destruct (reg_ptr _ Hok _ _ Hl) as (tw' & Htw' & Hm & ->).
    rewrite Htw in Htw'. injection Htw' as <-. by exists (tw_meta tw).
  - intros (m & Hm & <- & ->). destruct (reg_state _ Hok m Hm) as [l Hl].
    destruct (reg_ptr _ Hok _ _ Hl) as (tw & Htw & Hm' & Hk). exists l, tw. split; [done|]. split; [done|].
    pose proof (proj1 (Forall_forall _ _) Hrec _ Hm) as [I1 _ _ _ _].
    pose proof (proj1 (Forall_forall _ _) Hrec _ Hm') as [I2 _ _ _ _].
    by destruct (walletKey_inj _ _ _ _ (id_lacks_nul _ I1) (id_lacks_nul _ I2) Hk).
Qed.

(** A listing has every wallet of the tenant once, in order, with its funds. *)
Lemma ListWallets_lists t s : service_ok s -> idRE_MatchString t = true ->
  exists ps s', ListWallets (pb.MkListWalletsRequest t) s = (Ok (pb.MkListWalletsResponse ps), s') /\ only_world s s' /\
    (fun p => walletKey (pb.Wallet_TenantId p) (pb.Wallet_WalletId p)) <$> ps = tenant_keys s t /\
    forall p, p ∈ ps -> exists l tw, lookup_wallet s (pb.Wallet_TenantId p) (pb.Wallet_WalletId p) = Some l /\
      sv_heap s !! l = Some tw /\ shows_funds tw p.
Proof.
  intros Hs Ht. unfold ListWallets. cbn [pb.ListWalletsRequest_TenantId].
  erewrite bind_run by (unfold lift; by rewrite (proj2 (validateTenant_ok t ()) Ht)).
  do 2 erewrite bind_run by reflexivity.
  destruct (wallet_protos_run (sv_wallets s) (tenant_keys s t) s) as (ps & s' & E & Ho & Hk & Hf).
  { intros k (l & tw & Hl & Htw & _)%(tenant_keys_elem _ _ _ (so_registry _ Hs)). exists l, tw.
    destruct (reg_ptr _ (so_registry _ Hs) _ _ Hl) as (tw' & Htw' & _ & ->).
    rewrite Htw in Htw'. by injection Htw' as <-. }
  erewrite bind_run by exact E. by exists ps, s'.
Qed.
End invariant.


(** ** The secrets on disk stay *)

Section secrets_kept.
Context `{Env} `{Mac} `{Hash} `{Aead}.

Definition tame (s s' : Service) : Prop :=
  sv_dataDir s' = sv_dataDir s /\ same_secrets (sv_dataDir s) (files s) (files s').
#[global] Instance tame_preorder : PreOrder tame.
Proof.
  unfold tame, same_secrets. split; [done|]. intros s1 s2 s3 (E1 & A1 & B1) (E2 & A2 & B2).
  rewrite E1 in *. rewrite A1, B1. done.
Qed.

Lemma tame_keeps {A} (m : M Service A) : moves only_world m -> moves keeps_files m -> moves tame m.
Proof.
  intros Ho Hk s. specialize (Ho s). specialize (Hk s). split; [by rewrite Ho|].
  split; by rewrite Hk.
Qed.

(** The secrets are in files other than the state's. *)
Lemma same_secrets_elsewhere d fs fs' :
  (forall p, p <> statePath d -> p <> statePath d +:+ ".tmp" -> fs !! p = fs' !! p) -> same_secrets d fs fs'.
Proof.
  intros Hfs. assert (forall b, file_name b = true -> b <> "bsvms-wallets.json" -> b <> "bsvms-wallets.json.tmp" ->
    fs !! Join d b = fs' !! Join d b) as Hb; [|by split; apply Hb].
  intros b Hb N1 N2. apply Hfs; [by intros E%Join_inj|].
  unfold statePath. rewrite !Join_file_name, <- app_str_assoc by done. intros E%app_str_inj_l. done.
Qed.
Lemma tame_saveStateLocked : moves tame saveStateLocked.
Proof.
  intros s. split; [pose proof (saveStateLocked_only_world s) as Ho; by rewrite Ho|].
  apply same_secrets_elsewhere. intros p N1 N2. unfold saveStateLocked. do 2 erewrite bind_run by reflexivity. cbv zeta.
  unfold mbind, M_bind, W, zoom.
  destruct (os_write_file _ _ _ (sv_world s)) as [[[]|e] w1] eqn:Ew;
    pose proof (os_write_file_other _ _ _ _ _ _ p Ew N2) as E1; [|done]. cbn [sv_world set_world].
  unfold files. rewrite <- E1.
  destruct (os_rename _ _ w1) as [[[]|e] w2] eqn:Er; cbn.
  - apply os_rename_ok in Er as (f & _ & ->). cbn. by rewrite lookup_insert_ne, lookup_delete_ne.
  - by apply os_rename_err in Er as ->.
Qed.

Lemma kf_saveSnapshot l : moves keeps_files (saveSnapshot l).
Proof. unfold saveSnapshot. pose proof (kf_saveSnapshotLocked l). moves_tac. Qed.
Lemma kf_validateJWT token typ : moves keeps_files (validateJWT token typ).
Proof.
  unfold validateJWT. destruct (split_char "." token) as [|? [|? [|? [|]]]]; moves_tac; apply kf_time_now.
Qed.
Lemma kf_wallet_lookup t w : moves keeps_files (wallet t w).
Proof. unfold wallet. moves_tac. Qed.
Hint Resolve kf_wallet kf_node kf_host kf_call_result kf_wcall kf_saveSnapshotLocked kf_walletProtoLocked
  kf_issueTokens kf_tokensForWallet kf_saveSnapshot kf_validateJWT kf_wallet_lookup : moves.
Hint Extern 1 (moves keeps_files _) =>
  match goal with
  | |- moves _ (@W _ (node ?c)) => exact (kf_node c)
  | |- moves _ (@W _ (host ?c)) => exact (kf_host c)
  | |- moves _ (@wcall _ ?l ?c) => exact (kf_wcall l c)
  end : moves.
Lemma kf_wallet_protos ws keys : moves keeps_files (wallet_protos ws keys).
Proof. induction keys; cbn [wallet_protos]; moves_tac. Qed.
Hint Resolve kf_wallet_protos : moves.

Lemma unary_keeps_files r h req : unary r = Some h ->
  r <> BSVMS_CreateWallet -> r <> BSVMS_RestoreWallet -> moves keeps_files (h req).
Proof.
  intros Hr Hc Hs. destruct r; injection Hr as <- || discriminate Hr; try done;
    match goal with |- moves _ ?m => unfold_head m end; cbv zeta; moves_tac.
Qed.

Lemma tame_finishWallet m l : moves tame (finishWallet m l).
Proof.
  assert (moves tame (tokensForWallet m)) by (apply tame_keeps; auto with moves).
  assert (moves tame (try_ (saveSnapshotLocked l))) by (apply moves_try, tame_keeps; auto with moves).
  assert (moves tame (walletProtoLocked l)) by (apply tame_keeps; auto with moves).
  assert (moves tame (modify (set_state (fun st => st ++ [m])))) by (by intros s).
  pose proof tame_saveStateLocked. unfold finishWallet. moves_tac.
Qed.

Lemma tame_attach m w : moves tame (attachWalletLocked m w).
Proof.
  assert (moves tame (openStore m w)) by (apply tame_keeps; auto using kf_openStore with moves).
  assert (forall l, moves tame (registerWalletEvents l))
    by (intros l; apply tame_keeps; auto using kf_registerWalletEvents with moves).
  assert (forall f, moves tame (modify (set_heap f))) by (by intros f s).
  assert (forall f, moves tame (modify (set_wallets f))) by (by intros f s).
  unfold attachWalletLocked, alloc. moves_tac.
Qed.
Hint Resolve tame_finishWallet tame_attach : moves.

Lemma tame_newWalletMeta t w n mn pp : moves tame (newWalletMeta t w n mn pp).
Proof. apply tame_keeps; auto using kf_newWalletMeta with moves. Qed.
Lemma tame_node c : moves tame (W (node c)).
Proof. by intros s. Qed.
Hint Resolve tame_newWalletMeta : moves.

Lemma unary_tame r h req : unary r = Some h -> moves tame (h req).
Proof.
  intros Hr.
  assert (r <> BSVMS_CreateWallet -> r <> BSVMS_RestoreWallet -> moves tame (h req)) as Hother.
  { intros. apply tame_keeps; [by eapply unary_only_world|by eapply unary_keeps_files]. }
  assert (forall n, moves tame (W (call_result (node (NodeCreateWallet n))))) as Hc.
  { intros n. apply tame_keeps; [auto with moves|]. exact (kf_call_result _ (kf_node (NodeCreateWallet n))). }
  assert (forall n m p, moves tame (W (call_result (node (NodeRestoreWallet n m p))))) as Hs.
  { intros n m p. apply tame_keeps; [auto with moves|]. exact (kf_call_result _ (kf_node (NodeRestoreWallet n m p))). }
  destruct r; try (by apply Hother); injection Hr as <-; [unfold CreateWallet|unfold RestoreWallet];
    cbv zeta; moves_tac.
Qed.
End secrets_kept.

(** ** Starting on a disk and an SDK without faults *)

Section start.
Context `{Env} `{Mac} `{Hash} `{Aead}.

(** The disk reads and makes directories, stores open and load, the SDK
    restores wallets, and a snapshot is read or reported missing. *)
Record no_faults : Prop := {
  nf_reads : reads_fine;
  nf_mkdir : forall tr p perm, oracle tr (HostCall (OsMkdirAll p perm)) = None;
  nf_restore : forall tr n m p, exists w, oracle tr (NodeCall (NodeRestoreWallet n m p)) = Ok w;
  nf_store : forall tr p, exists st, oracle tr (HostCall (StoreOpen p)) = Ok st;
  nf_snapshot : forall tr p e, oracle tr (NodeCall (ReadAddressSnapshot p)) = Err e ->
    errors_is e ErrSnapshotNotFound = true;
  nf_load : forall tr w, exists n, oracle tr (WalletCall w LoadFromStore) = Ok n;
}.

Lemma openStore_fine m w s : no_faults -> exists st s', openStore m w s = (Ok st, s').
Proof.
  intros [_ _ _ Hst Hsn Hl]. unfold openStore. erewrite bind_run by reflexivity.
  unfold mbind, M_bind, on_error, W, zoom, call_result, host, node, wallet_call_, call, mbind, M_bind, lift. cbn.
  match goal with |- context [oracle ?tr (HostCall (StoreOpen ?p))] => destruct (Hst tr p) as [st ->] end. cbn.
  match goal with |- context [oracle ?tr (NodeCall (ReadAddressSnapshot ?p))] =>
    destruct (oracle tr (NodeCall (ReadAddressSnapshot p))) as [[[ne nc] es]|e] eqn:E;
    [|apply Hsn in E; rewrite E] end; cbn;
  match goal with |- context [oracle ?tr (WalletCall ?p LoadFromStore)] => destruct (Hl tr p) as [n ->] end;
  by do 2 eexists.
Qed.

Lemma attach_fine m w s : no_faults -> exists l s', attachWalletLocked m w s = (Ok l, s').
Proof.
  intros Hf. unfold attachWalletLocked, alloc. destruct (openStore_fine m w s Hf) as (st & s1 & E).
  erewrite bind_run by exact E. unfold mbind, M_bind, gets, modify, mret, M_ret.
  edestruct (registerWalletEvents_ok (length (sv_heap s1))) as (s' & Er & _); [|rewrite Er; by do 2 eexists].
  cbn. by rewrite lookup_app_r, Nat.sub_diag by lia.
Qed.

Lemma restoreLoadedWallet_fine m s : no_faults -> record_ok (DataKey (sv_opts s)) m ->
  exists l s', restoreLoadedWallet m s = (Ok l, s').
Proof.
  intros Hf [_ _ Hp _ (mn & pp & Ho)]. unfold restoreLoadedWallet. erewrite bind_run by reflexivity.
  erewrite bind_run by (unfold lift; by rewrite Ho).
  destruct (nf_restore Hf (w_trace (sv_world s)) (SDKName m) mn pp) as [w Hw].
  erewrite bind_run; [|unfold W, zoom, call_result, node, call, mbind, M_bind, lift; cbn; by rewrite Hw].
  rewrite Hp. erewrite bind_run by reflexivity. by apply attach_fine.
Qed.

Lemma load_wallets_fine n : forall i b s, no_faults -> (i + n)%nat = length (sv_state s) ->
  Forall (record_ok (DataKey (sv_opts s))) (sv_state s) ->
  exists s', load_wallets i n b s = (Ok b, s').
Proof.
  induction n as [|n IH]; intros i b s Hf Hlen Hr; cbn [load_wallets]; [by eexists|].
  erewrite bind_run by reflexivity.
  destruct (lookup_lt_is_Some_2 (sv_state s) i) as [m Hm]; [lia|]. rewrite Hm.
  pose proof (Forall_lookup_1 _ _ _ _ Hr Hm) as Hok. pose proof (rec_sealed _ _ Hok) as Hp.
  destruct (restoreLoadedWallet_fine m s Hf Hok) as (l & s1 & E1).
  erewrite bind_run by (unfold on_error; by rewrite E1). rewrite Hp, orb_false_r.
  destruct (restoreLoadedWallet_spec _ _ _ _ E1) as (m' & w & st & _ & _ & _ & _ & Ho).
  unfold migrate in Ho. rewrite Hp in Ho. unfold only_world in Ho.
  apply IH; [done|..]; rewrite Ho; cbn; [lia|done].
Qed.


Lemma loadState_fine s st : reads_fine -> on_disk (files s) (sv_dataDir s) st ->
  exists s', loadState s = (Ok (), s') /\ only_world (set_state (fun _ => st) s) s' /\ files s' = files s.
Proof.
  unfold on_disk, files. intros Hr Hd. unfold loadState. erewrite bind_run by reflexivity.
  destruct (w_fs (sv_world s) !! _) as [f|] eqn:Hf.
  - erewrite bind_run by (unfold try_, W, zoom; by rewrite (os_read_file_fine _ f)).
    unfold mbind, M_bind, lift. rewrite Hd. eexists. split; [reflexivity|]. by destruct s.
  - erewrite bind_run by (unfold try_, W, zoom, os_read_file, host, call, gets, mbind, M_bind; cbn; by rewrite (Hr _ _), Hf).
    rewrite Hd. eexists. split; [reflexivity|]. by destruct s.
Qed.

Lemma if_node_run (b : bool) c (v : node_ret c) s :
  exists v' s', (if b then W (node c) else mret v) s = (Ok v', s').
Proof. destruct b; by do 2 eexists. Qed.

(** Every step of [start] but the last keeps the files. *)
Lemma start_fine s st : no_faults -> on_disk (files s) (sv_dataDir s) st ->
  Forall (record_ok (DataKey (sv_opts s))) st -> exists s', start s = (Ok (), s') /\ files s' = files s.
Proof.
  intros Hf Hd Hst. unfold start. do 2 erewrite bind_run by reflexivity.
  edestruct if_node_run as (u1 & s1 & E1). erewrite bind_run by exact E1.
  apply if_node_step in E1 as [O1 K1].
  edestruct if_node_run as (u2 & s2 & E2). erewrite bind_run by exact E2.
  apply if_node_step in E2 as [O2 K2].
  erewrite bind_run; [|unfold W, zoom, os_mkdir_all, host, call, mbind, M_bind; cbn; by rewrite (nf_mkdir Hf)].
  set (s3 := set_world _ s2).
  assert (only_world s s3) as O3 by (by rewrite O1, O2). assert (files s3 = files s) as K3 by (by rewrite <- K1).
  clearbody s3. destruct (loadState_fine s3 st) as (s4 & E4 & O4 & K4); [apply Hf| |].
  { rewrite K3. unfold only_world in O3. by rewrite O3. }
  erewrite bind_run by exact E4.
  assert (sv_state s4 = st /\ sv_opts s4 = sv_opts s) as [S4 Op4]
    by (unfold only_world in O3, O4; by rewrite O4, O3).
  pose proof (kf_registerNodeEvents s4) as K5. pose proof (registerNodeEvents_only_world s4) as O5.
  destruct (registerNodeEvents s4) as [r s5] eqn:E5. cbn [snd] in K5, O5.
  assert (exists u, r = Ok u) as [[] ->] by (eexists; change r with (fst (r, s5)); rewrite <- E5; reflexivity).
  erewrite bind_run by exact E5.
  erewrite bind_run by reflexivity. assert (sv_state s5 = st) as S5 by (by rewrite O5).
  assert (sv_opts s5 = sv_opts s) as Op5 by (by rewrite O5).
  destruct (load_wallets_fine (length (sv_state s5)) 0 false s5 Hf) as [s6 E6]; [done|by rewrite Op5, S5|].
  erewrite bind_run by exact E6. exists s6. split; [done|].
  pose proof (kf_load_wallets (length (sv_state s5)) 0 false s5) as K6. rewrite E6 in K6.
  unfold keeps_files in *. cbn [snd] in K6. congruence.
Qed.
End start.

(** ** From one start to the next *)

Section restart.
Context `{Env} `{Mac} `{Hash} `{Aead}.

Lemma tame_W {A} (m : M world A) : moves keeps_files (W m) -> moves tame (W m).
Proof. apply tame_keeps. auto with moves. Qed.

Lemma tame_load_wallets n : forall i b, moves tame (load_wallets i n b).
Proof.
  assert (forall m, moves tame (restoreLoadedWallet m)) as Hr.
  { intros m. unfold restoreLoadedWallet.
    assert (forall n m p, moves tame (W (call_result (node (NodeRestoreWallet n m p))))) as Hs
      by (intros n' m' p'; apply tame_W; exact (kf_call_result _ (kf_node (NodeRestoreWallet n' m' p')))).
    assert (forall f, moves tame (modify (set_state f))) by (by intros f s).
    pose proof tame_newWalletMeta. pose proof tame_attach. moves_tac. }
  induction n as [|n IH]; intros i b; cbn [load_wallets]; moves_tac.
Qed.

Lemma tame_loadState : moves tame loadState.
Proof.
  assert (forall p, moves tame (W (os_read_file p))) as Hr.
  { intros p. apply tame_W. intros s. unfold W, zoom. destruct (os_read_file p (sv_world s)) as [r w] eqn:E.
    by apply os_read_file_inv in E as [-> _]. }
  assert (forall f, moves tame (modify (set_state f))) by (by intros f s).
  unfold loadState. moves_tac.
Qed.

Lemma tame_start : moves tame start.
Proof.
  assert (forall c, moves tame (W (node c))) as Hn by apply tame_node.
  assert (forall p perm, moves tame (W (os_mkdir_all p perm))) by (intros; apply tame_W, kf_mkdir).
  assert (moves tame registerNodeEvents) by (apply tame_keeps; auto using kf_registerNodeEvents with moves).
  pose proof tame_loadState. pose proof tame_load_wallets. pose proof tame_saveStateLocked.
  unfold start. moves_tac.
Qed.

Lemma secret_step_other b name d n g o w o1 w1 p :
  secret_step b name (Join d n) g o w = (Ok o1, w1) -> p <> Join d n -> w_fs w1 !! p = w_fs w !! p.
Proof.
  intros Hs Hp. apply secret_step_ok in Hs as [(_ & _ & ->)|(_ & k & Hk & _)]; [done|].
  apply loadOrCreateSecret_ok in Hk as [_ [[-> _]|(_ & _ & ->)]]; [done|]. by rewrite lookup_insert_ne.
Qed.

Lemma withDefaults_state o d w o' w' : withDefaults o d w = (Ok o', w') ->
  w_fs w' !! statePath d = w_fs w !! statePath d.
Proof.
  intros Hw. destruct (withDefaults_inv _ _ _ _ _ Hw) as (o1 & w1 & H1' & _ & H2' & _).
  rewrite (secret_step_other _ _ _ _ _ _ _ _ _ (statePath d) H2');
    [apply (secret_step_other _ _ _ _ _ _ _ _ _ (statePath d) H1')|]; by intros E%Join_inj.
Qed.

(** A unary method served, whatever it answered. *)
Inductive unary_step (s s' : Service) : Prop :=
  | unary_step_intro r h req x : unary r = Some h -> h req s = (x, s') -> unary_step s s'.

Lemma unary_steps_ok s s' : rtc unary_step s s' -> service_ok s -> service_ok s' /\ grows s s' /\ tame s s'.
Proof.
  induction 1 as [s|s s1 s' [r h req x Hr Hh] _ IH]; intros Hok.
  - split; [done|]. split; [by apply grows_only_world|reflexivity].
  - destruct (unary_keeps r h req s x s1 Hr Hh Hok) as [Hok1 (P1 & O1 & L1 & G1)].
    pose proof (unary_tame r h req Hr s) as T1. rewrite Hh in T1. cbn [snd] in T1.
    destruct (IH Hok1) as (Hok2 & (P2 & O2 & L2 & G2) & T2). split; [done|]. split; [|by transitivity s1].
    split; [by transitivity (sv_state s1)|]. split; [congruence|]. split; auto.
Qed.

Lemma NewWithOptions_inv dir o w s w' : NewWithOptions dir o w = (Ok s, w') ->
  exists w1, withDefaults o dir w = (Ok (sv_opts s), w1) /\ same_secrets dir (w_fs w1) (files s) /\
    sv_dataDir s = dir.
Proof.
  intros E. destruct (NewWithOptions_ok _ _ _ _ _ E) as (_ & _ & _ & Ed & _ & w1 & Ew & _).
  exists w1. split; [done|]. split; [|done]. unfold NewWithOptions in E. rewrite Ew in E.
  pose proof (tame_start (new_service dir (sv_opts s) w1)) as [_ Ht].
  destruct (start _) as [[[]|e] s1]; [|done]. by injection E as -> <-.
Qed.

Lemma on_disk_unique fs dir st st' : on_disk fs dir st -> on_disk fs dir st' -> st = st'.
Proof. unfold on_disk. destruct (fs !! statePath dir); congruence. Qed.
Lemma restart dir o u o' u1 st :
  withDefaults o dir u = (Ok o', u1) -> no_faults -> on_disk (w_fs u1) dir st -> Forall (record_ok (DataKey o')) st ->
  exists s u', NewWithOptions dir o u = (Ok s, u') /\ service_ok s /\ sv_opts s = o' /\ sv_state s = st /\
    sv_dataDir s = dir /\ files s = w_fs u1.
Proof.
  intros Hw Hf Hdisk Hst.
  destruct (start_fine (new_service dir o' u1) st Hf Hdisk Hst) as (s & Es & Efs).
  assert (NewWithOptions dir o u = (Ok s, sv_world s)) as E by (unfold NewWithOptions; by rewrite Hw, Es).
  exists s, (sv_world s). split; [done|].
  destruct (NewWithOptions_ok _ _ _ _ _ E) as (Hreg & _ & Hres & Ed & _ & w1 & Ew & st' & Hd & _ & Hsame).
  rewrite Hw in Ew. injection Ew as Eo <-. rewrite <- (on_disk_unique _ _ _ _ Hdisk Hd) in Hsame.
  assert (sv_state s = st) as E'.
  { apply Hsame. eapply Forall_impl; [exact Hst|]. apply rec_sealed. }
  split; [|done]. split; [done| |done]. by rewrite E', <- Eo.
Qed.

(** Start-up without a state file, or on one whose records a service wrote,
    gives a service that satisfies the invariant; on any state file it gives
    one whose registry is consistent and holds no secret in the clear, and
    whose options are complete: 32 bytes of data key and, with authentication,
    at least 32 bytes of JWT secret. *)
Lemma start_establishes dir o w s w' : NewWithOptions dir o w = (Ok s, w') ->
  registry_ok s /\ resolved (sv_opts s) /\ Forall (fun m => has_plaintext m = false) (sv_state s) /\
  (forall st, on_disk (w_fs w) dir st -> Forall (record_ok (DataKey (sv_opts s))) st ->
     sv_state s = st /\ service_ok s).
Proof.
  intros E. destruct (NewWithOptions_ok _ _ _ _ _ E) as (Hr & Hp & Ho & _ & _ & w1 & Ew & st & Hd & _ & Hsame).
  split; [done|]. split; [done|]. split; [done|]. intros st' Hd' Hst'.
  assert (st = st') as ->.
  { apply (on_disk_unique _ _ _ _ Hd). unfold on_disk. by rewrite (withDefaults_state _ _ _ _ _ Ew). }
  assert (sv_state s = st') as Es by (apply Hsame; eapply Forall_impl; [exact Hst'|]; apply rec_sealed).
  split; [done|]. split; [done|by rewrite Es|done].
Qed.
End restart.

(** ** Migration of records with secrets in the clear *)

Section migration.
Context `{Env} `{Mac} `{Hash} `{Aead}.

(** [m'] is [m] or the same wallet with the same secrets, sealed. *)
Record kept_as (key : bytes) (m m' : walletMeta) : Prop := {
  ka_ids : ids m' = ids m;
  ka_secrets : openWalletSecrets key m' = openWalletSecrets key m;
  ka_plain : plain_meta m -> plain_meta m';
}.
#[local] Instance kept_as_preorder key : PreOrder (kept_as key).
Proof. split; [by split|]. intros m1 m2 m3 [A1 B1 C1] [A2 B2 C2]. split; [congruence|congruence|auto]. Qed.

Lemma migrate_kept key m m' st : m ∈ st -> NoDup (ids <$> st) -> kept_as key m m' ->
  Forall2 (kept_as key) st (migrate m m' st).
Proof.
  intros Hm Hnd Hk. unfold migrate. destruct (has_plaintext m); [|reflexivity].
  apply Forall2_fmap_r, Forall_Forall2_diag, Forall_forall. intros x Hx. change (kept_as key x (replace_meta m' x)).
  destruct (replace_meta_cases m' x) as [E|[-> _]]; [|reflexivity]. rewrite E.
  assert (x = m) as ->; [|done].
  apply list_elem_of_lookup in Hx as [i Hi], Hm as [j Hj].
  assert (i = j); [|congruence].
  eapply NoDup_lookup; [exact Hnd|by rewrite list_lookup_fmap, Hi|].
  rewrite list_lookup_fmap, Hj. cbn. f_equal. rewrite <- (ka_ids _ _ _ Hk).
  by rewrite <- (replace_meta_ids m' x), E.
Qed.

Lemma load_wallets_kept n : forall i b s b' s', load_wallets i n b s = (Ok b', s') ->
  NoDup (ids <$> sv_state s) -> Forall2 (kept_as (DataKey (sv_opts s))) (sv_state s) (sv_state s').
Proof.
  induction n as [|n IH]; intros i b s b' s'; cbn [load_wallets]; [by intros [= _ <-]|].
  intros Hl Hnd. apply bind_ok_inv in Hl as (st & s0 & [= <- <-] & Hl).
  destruct (sv_state s !! i) as [m|] eqn:Hm; [|done].
  apply bind_ok_inv in Hl as (l & s1 & Hr & Hl). apply on_error_ok in Hr.
  destruct (restoreLoadedWallet_spec _ _ _ _ Hr) as (m' & w & sp & Hi & _ & _ & (Hs & Hp) & Ho).
  assert (sv_state s1 = migrate m m' (sv_state s) /\ sv_opts s1 = sv_opts s) as [Es Eo] by (by rewrite Ho).
  assert (Forall2 (kept_as (DataKey (sv_opts s))) (sv_state s) (sv_state s1)) as H1'.
  { rewrite Es. apply migrate_kept; [by eapply list_elem_of_lookup_2|done|by split]. }
  etransitivity; [exact H1'|]. rewrite <- Eo. eapply IH; [exact Hl|].
  rewrite Es, migrate_ids. done.
Qed.

Lemma load_wallets_migrated n : forall i b s b' s', load_wallets i n b s = (Ok b', s') ->
  b' = false -> sv_state s' = sv_state s.
Proof.
  induction n as [|n IH]; intros i b s b' s'; cbn [load_wallets]; [by intros [= _ <-]|].
  intros Hl ->. apply bind_ok_inv in Hl as (st & s0 & [= <- <-] & Hl).
  destruct (sv_state s !! i) as [m|]; [|done].
  apply bind_ok_inv in Hl as (l & s1 & Hr & Hl). apply on_error_ok in Hr.
  destruct (restoreLoadedWallet_spec _ _ _ _ Hr) as (m' & w & sp & _ & _ & _ & _ & Ho).
  destruct (has_plaintext m) eqn:Ep.
  - rewrite orb_true_r in Hl. by apply load_wallets_true in Hl.
  - rewrite (IH _ _ _ _ _ Hl eq_refl), Ho. cbn. unfold migrate. by rewrite Ep.
Qed.

(** What start-up leaves: each record of the file, kept, and the file up to date. *)
Lemma start_kept s s' st : start s = (Ok (), s') -> on_disk (files s) (sv_dataDir s) st ->
  NoDup (ids <$> st) -> Forall2 (kept_as (DataKey (sv_opts s))) st (sv_state s').
Proof.
  intros Hs Hdisk Hnd. destruct (start_inv _ _ Hs) as (st' & s1 & b & s2 & Hd & O1 & _ & E2 & E3).
  rewrite (on_disk_unique _ _ _ _ Hd Hdisk) in *. clear Hd st'.
  assert (sv_state s1 = st /\ sv_opts s1 = sv_opts s) as (Es & Eo) by (by rewrite O1).
  rewrite <- Es in Hnd. pose proof (load_wallets_kept _ _ _ _ _ _ E2 Hnd) as Hk. rewrite Es, Eo in Hk.
  assert (sv_state s' = sv_state s2) as ->; [|done].
  destruct b; [|by injection E3 as <-]. pose proof (saveStateLocked_only_world s2) as O3. rewrite E3 in O3. cbn [snd] in O3. by rewrite O3.
Qed.
Lemma start_on_disk s s' : start s = (Ok (), s') -> Forall plain_meta (sv_state s') ->
  on_disk (files s') (sv_dataDir s') (sv_state s') /\
  (is_Some (files s !! statePath (sv_dataDir s)) -> saved s').
Proof.
  intros Hs Hp. destruct (start_inv _ _ Hs) as (st & s1 & b & s2 & Hd & O1 & K1 & E2 & E3).
  assert (sv_state s1 = st /\ sv_dataDir s1 = sv_dataDir s) as (Es & Ed) by (by rewrite O1). destruct b.
  - assert (sv_state s' = sv_state s2) as Es'.
    { pose proof (saveStateLocked_only_world s2) as O3. rewrite E3 in O3. cbn [snd] in O3. by rewrite O3. }
    rewrite Es' in Hp. pose proof (saveStateLocked_saved _ _ Hp E3) as Hsaved. split; [|done].
    destruct Hsaved as (f & Hf & Hu). unfold on_disk. by rewrite Hf.
  - injection E3 as <-. rewrite (load_wallets_migrated _ _ _ _ _ _ E2 eq_refl), Es.
    pose proof (kf_load_wallets (length (sv_state s1)) 0 false s1) as K2.
    pose proof (tame_load_wallets (length (sv_state s1)) 0 false s1) as [Ed2 _]. rewrite E2 in K2, Ed2. cbn [snd] in *.
    unfold saved. rewrite (load_wallets_migrated _ _ _ _ _ _ E2 eq_refl), Es, K2, K1, Ed2, Ed. split; [done|].
    intros [f Hf]. exists f. split; [done|]. unfold on_disk in Hd. by rewrite Hf in Hd.
Qed.
Lemma NewWithOptions_on_disk dir o w s w' : NewWithOptions dir o w = (Ok s, w') -> Forall plain_meta (sv_state s) ->
  on_disk (files s) dir (sv_state s).
Proof.
  intros E. destruct (NewWithOptions_ok _ _ _ _ _ E) as (_ & _ & _ & Ed & _). revert E. unfold NewWithOptions.
  destruct (withDefaults o dir w) as [[o'|] w1]; [|done]. destruct (start _) as [[[]|e] s1] eqn:Es; [|done].
  intros [= -> _]. rewrite <- Ed. by eapply start_on_disk.
Qed.
End migration.
