(* ===== verification/RegistryAbs.v ===== *)
(** * The registry as a directory of secrets

    What the registry promises, without maps of pointers, records, handles or
    files: a [directory] from pairs of ids to a wallet's secrets, and what each
    method may do to it and answer. The service refines it: every run of its
    unary methods is a run of the directory. *)

From S2P Require Import Prelude GoStrings GoTime Encoding Crypto Proto Broker Sdk Ids World Encryption.
From S2P Require Import Options Service Auth AuthSpec Registry RegistrySpec Handlers HandlersSpec Lifecycle.

(** ** The specification *)

Definition directory : Type := gmap (string * string) (string * string).
Definition valid_ids (t w : string) : bool := idRE_MatchString t && idRE_MatchString w.

(** Adding a wallet: refused for ids that are malformed or taken; otherwise it
    is entered with its secrets when the call succeeds, and a call that fails
    may have entered it too. *)
Definition spec_add {A} (d : directory) (t w : string) (x : result A) (secrets : string * string) (d' : directory) : Prop :=
  if negb (valid_ids t w) then result_code x = Some InvalidArgument /\ d' = d else
  match d !! (t, w) with
  | Some _ => result_code x = Some AlreadyExists /\ d' = d
  | None =>
      match x with
      | Ok _ => d' = <[(t, w) := secrets]> d
      | Err _ => d' = d \/ d' = <[(t, w) := secrets]> d
      end
  end.
Definition spec_create (d : directory) (req : pb.CreateWalletRequest) (x : result pb.CreateWalletResponse)
    (d' : directory) : Prop :=
  exists mnemonic, (forall resp, x = Ok resp -> pb.CreateWalletResponse_Mnemonic resp = mnemonic) /\
    spec_add d (pb.CreateWalletRequest_TenantId req) (pb.CreateWalletRequest_WalletId req) x (mnemonic, "") d'.
Definition spec_restore (d : directory) (req : pb.RestoreWalletRequest) (x : result pb.WalletResponse)
    (d' : directory) : Prop :=
  let t := pb.RestoreWalletRequest_TenantId req in
  let w := pb.RestoreWalletRequest_WalletId req in
  if String.eqb (pb.RestoreWalletRequest_Mnemonic req) "" then result_code x = Some InvalidArgument /\ d' = d else
  spec_add d t w x (pb.RestoreWalletRequest_Mnemonic req, pb.RestoreWalletRequest_Passphrase req) d'.
(** Listing: the wallets of the tenant, each once, in the order of their keys. *)
Definition spec_list (d : directory) (req : pb.ListWalletsRequest) (x : result pb.ListWalletsResponse) (d' : directory) : Prop :=
  let t := pb.ListWalletsRequest_TenantId req in
  d' = d /\
  if idRE_MatchString t
  then exists ps, x = Ok (pb.MkListWalletsResponse ps) /\
    let keys := (fun p => walletKey (pb.Wallet_TenantId p) (pb.Wallet_WalletId p)) <$> ps in
    StronglySorted String.le keys /\ NoDup keys /\
    forall k, k ∈ keys <-> exists w, is_Some (d !! (t, w)) /\ k = walletKey t w
  else result_code x = Some InvalidArgument.
(** The other methods leave the directory alone; those on one wallet are
    refused without it. *)
Definition spec_other (d : directory) (r : rpc) (req : rpc_request r) (x : result (rpc_response r)) (d' : directory) : Prop :=
  d' = d /\
  match tenantWalletFromRequest (Some (rpc_reflect r req)) with
  | (t, w, true) => d !! (t, w) = None ->
      result_code x = Some (if valid_ids t w then NotFound else InvalidArgument)
  | _ => True
  end.
Definition spec_get (d : directory) (req : pb.GetWalletRequest) (x : result pb.WalletResponse) (d' : directory) : Prop :=
  spec_other d BSVMS_GetWallet req x d' /\
  (is_Some (d !! (pb.GetWalletRequest_TenantId req, pb.GetWalletRequest_WalletId req)) ->
   exists wp, x = Ok (pb.MkWalletResponse (Some wp) None) /\
     pb.Wallet_TenantId wp = pb.GetWalletRequest_TenantId req /\
     pb.Wallet_WalletId wp = pb.GetWalletRequest_WalletId req).

Definition registry_spec (d : directory) (r : rpc) : rpc_request r -> result (rpc_response r) -> directory -> Prop :=
  match r return rpc_request r -> result (rpc_response r) -> directory -> Prop with
  | BSVMS_CreateWallet => spec_create d
  | BSVMS_RestoreWallet => spec_restore d
  | BSVMS_ListWallets => spec_list d
  | BSVMS_GetWallet => spec_get d
  | r => spec_other d r
  end.

(** A request served, with its answer. *)
Record exchange := Exchange { x_rpc : rpc; x_req : rpc_request x_rpc; x_answer : result (rpc_response x_rpc) }.

Inductive allows : directory -> list exchange -> directory -> Prop :=
  | allows_nil d : allows d [] d
  | allows_cons d d1 d2 r req x xs :
      registry_spec d r req x d1 -> allows d1 xs d2 -> allows d (Exchange r req x :: xs) d2.

(** ** The service *)

Section refinement.
Context `{Env} `{Mac} `{Hash} `{Aead}.

Inductive serves : Service -> list exchange -> Service -> Prop :=
  | serves_nil s : serves s [] s
  | serves_cons s s1 s2 r h req x xs :
      unary r = Some h -> h req s = (x, s1) -> serves s1 xs s2 -> serves s (Exchange r req x :: xs) s2.

(** The directory that a service's records stand for. *)
Definition opened (key : bytes) (m : walletMeta) : string * string :=
  match openWalletSecrets key m with Ok secrets => secrets | Err _ => ("", "") end.
Definition entries (key : bytes) (st : list walletMeta) : list ((string * string) * (string * string)) :=
  (fun m => (ids m, opened key m)) <$> st.
Definition directory_of (s : Service) : directory := list_to_map (entries (DataKey (sv_opts s)) (sv_state s)).

Lemma entries_fst key st : (entries key st).*1 = ids <$> st.
Proof. unfold entries. by rewrite <- list_fmap_compose. Qed.

Lemma directory_of_only_world s s' : only_world s s' -> directory_of s' = directory_of s.
Proof. unfold only_world, directory_of. by intros ->. Qed.

(** A wallet is in the directory exactly when it is registered. *)
Lemma directory_lookup s t w : service_ok s -> is_Some (directory_of s !! (t, w)) <->
  idRE_MatchString t = true /\ is_Some (lookup_wallet s t w).
Proof.
  intros [Hok Hrec _]. transitivity ((t, w) ∈ ids <$> sv_state s).
  { rewrite <- (entries_fst (DataKey (sv_opts s))). unfold directory_of. split.
    - intros [v Hv]. apply list_elem_of_fmap. exists ((t, w), v). split; [done|].
      by apply elem_of_list_to_map_2 in Hv.
    - intros Hin. destruct (list_to_map _ !! _) eqn:E; [by eexists|]. by apply not_elem_of_list_to_map in E. }
  rewrite list_elem_of_fmap. split.
  - intros (m & Ei & Hm). unfold ids in Ei. injection Ei as -> ->.
    pose proof (proj1 (Forall_forall _ _) Hrec _ Hm) as [It _ _ _ _]. split; [done|]. by apply (reg_state _ Hok).
  - intros [It [l Hl]]. destruct (reg_ptr _ Hok _ _ Hl) as (tw & _ & Hm & Hk). exists (tw_meta tw).
    split; [|done]. pose proof (proj1 (Forall_forall _ _) Hrec _ Hm) as [It' _ _ _ _].
    by destruct (walletKey_inj _ _ _ _ (id_lacks_nul _ It) (id_lacks_nul _ It') Hk) as [-> ->].
Qed.

Lemma directory_none s t w : service_ok s -> lookup_wallet s t w = None -> directory_of s !! (t, w) = None.
Proof.
  intros Hok Hn. apply eq_None_not_Some. rewrite (directory_lookup s t w Hok). intros [_ [l Hl]]. congruence.
Qed.

Lemma directory_added s s' tw mn pp : directory_of s !! ids (tw_meta tw) = None -> only_world (added tw s) s' ->
  openWalletSecrets (DataKey (sv_opts s)) (tw_meta tw) = Ok (mn, pp) ->
  directory_of s' = <[ids (tw_meta tw) := (mn, pp)]> (directory_of s).
Proof.
  intros Hn Ho Hs. rewrite (directory_of_only_world _ _ Ho). unfold directory_of in *.
  change (sv_state (added tw s)) with (sv_state s ++ [tw_meta tw]).
  change (sv_opts (added tw s)) with (sv_opts s).
  unfold entries at 1. rewrite fmap_app. cbn [fmap list_fmap]. unfold opened at 2. rewrite Hs.
  apply list_to_map_snoc. by apply not_elem_of_list_to_map.
Qed.

Lemma add_outcome_spec {A} t w mn pp s s' (x : result A) : service_ok s ->
  add_outcome t w mn pp s s' x ->
  (valid_ids t w = false -> result_code x = Some InvalidArgument) ->
  (valid_ids t w = true -> is_Some (lookup_wallet s t w) -> result_code x = Some AlreadyExists) ->
  spec_add (directory_of s) t w x (mn, pp) (directory_of s').
Proof.
  intros Hok Ha Hbad Htaken. unfold spec_add. destruct (valid_ids t w) eqn:Ev; cbn [negb].
  - apply andb_true_iff in Ev as [Et Ew]. destruct Ha as [e -> Ho|tw _ _ Hn <- <- _ _ _ Hop Ho].
    + destruct (directory_of s !! (t, w)) eqn:Ed; [|left; by apply directory_of_only_world].
      assert (is_Some (lookup_wallet s t w)) as Hl
        by (apply (directory_lookup s t w Hok); rewrite Ed; by eexists).
      split; [by apply Htaken|by apply directory_of_only_world].
    + pose proof (directory_none s _ _ Hok Hn) as Hd. rewrite Hd.
      pose proof (directory_added s s' tw mn pp Hd Ho Hop) as E. destruct x; [exact E|by right].
  - destruct Ha as [e -> Ho|tw Et Ew _ _ _ _ _ _ _ _]; [|unfold valid_ids in Ev; by rewrite Et, Ew in Ev].
    split; [by apply Hbad|by apply directory_of_only_world].
Qed.

(** Malformed ids are an invalid argument. *)
Lemma validate_code t w : valid_ids t w = false -> exists e,
  validateTenantWallet t w = Err e /\ status_code e = InvalidArgument.
Proof.
  unfold valid_ids, validateTenantWallet, validateTenant.
  destruct (idRE_MatchString t), (idRE_MatchString w); cbn; try done; intros _; by eexists.
Qed.
Lemma validate_valid t w : valid_ids t w = true -> validateTenantWallet t w = Ok ().
Proof. intros [Et Ew]%andb_true_iff. by apply validateTenantWallet_ok. Qed.

Lemma CreateWallet_refines req s x s' : service_ok s -> CreateWallet req s = (x, s') ->
  spec_create (directory_of s) req x (directory_of s').
Proof.
  intros Hok E. destruct (CreateWallet_outcome _ _ _ _ E) as (mn & Ha & Hm). exists mn. split; [exact Hm|].
  eapply add_outcome_spec; [exact Hok|exact Ha|..].
  - intros (e & Ev & Hc)%validate_code. unfold CreateWallet in E. cbv zeta in E.
    rewrite (bind_run_err _ _ s e s) in E by (unfold lift; by rewrite Ev). injection E as <- _. cbn. by rewrite Hc.
  - intros [Et Ew]%andb_true_iff [l Hl]. rewrite (CreateWallet_exists req s l) in E by done. by injection E as <- _.
Qed.

Lemma RestoreWallet_refines req s x s' : service_ok s -> RestoreWallet req s = (x, s') ->
  spec_restore (directory_of s) req x (directory_of s').
Proof.
  intros Hok E. pose proof (RestoreWallet_outcome _ _ _ _ E) as Ha. unfold spec_restore. cbv zeta.
  unfold RestoreWallet in E. cbv zeta in E.
  set (t := pb.RestoreWalletRequest_TenantId req) in *. set (w := pb.RestoreWalletRequest_WalletId req) in *.
  assert (valid_ids t w = false -> result_code x = Some InvalidArgument /\ s' = s) as Hbad.
  { intros (e & Ev & Hc)%validate_code. rewrite (bind_run_err _ _ s e s) in E by (unfold lift; by rewrite Ev).
    injection E as <- <-. cbn. by rewrite Hc. }
  destruct (String.eqb (pb.RestoreWalletRequest_Mnemonic req) "") eqn:Em.
  - destruct (valid_ids t w) eqn:Ev; [|destruct Hbad as [Hc ->]; done].
    erewrite bind_run in E by (unfold lift; by rewrite validate_valid). by injection E as <- <-.
  - eapply add_outcome_spec; [exact Hok|exact Ha|by apply Hbad|].
    intros Ev [l Hl]. erewrite bind_run in E by (unfold lift; by rewrite validate_valid).
    erewrite bind_run in E by reflexivity. unfold lookup_wallet in Hl. rewrite Hl in E.
    rewrite bool_decide_true in E by done. by injection E as <- _.
Qed.

Lemma tenant_keys_directory s t : service_ok s -> idRE_MatchString t = true ->
  StronglySorted String.le (tenant_keys s t) /\ NoDup (tenant_keys s t) /\
  forall k, k ∈ tenant_keys s t <-> exists w, is_Some (directory_of s !! (t, w)) /\ k = walletKey t w.
Proof.
  intros Hok Et. split; [apply tenant_keys_sorted|]. split; [apply tenant_keys_NoDup|].
  intros k. rewrite (tenant_keys_records _ _ _ Hok). split.
  - intros (m & Hm & <- & ->). exists (WalletID m). split; [|done]. apply directory_lookup; [done|].
    split; [done|]. by apply (reg_state _ (so_registry _ Hok)).
  - intros (w & Hw & ->). apply (directory_lookup _ _ _ Hok) in Hw as [_ [l Hl]].
    destruct (reg_ptr _ (so_registry _ Hok) _ _ Hl) as (tw & _ & Hm & Hkey). exists (tw_meta tw).
    pose proof (proj1 (Forall_forall _ _) (so_records _ Hok) _ Hm) as [It _ _ _ _].
    by destruct (walletKey_inj _ _ _ _ (id_lacks_nul _ Et) (id_lacks_nul _ It) Hkey) as [-> ->].
Qed.
Lemma ListWallets_refines req s x s' : service_ok s -> ListWallets req s = (x, s') ->
  spec_list (directory_of s) req x (directory_of s').
Proof.
  intros Hok E. unfold spec_list, ListWallets in *. cbv zeta in *. set (t := pb.ListWalletsRequest_TenantId req) in *.
  destruct (idRE_MatchString t) eqn:Et.
  - erewrite bind_run in E by (unfold lift; by rewrite (proj2 (validateTenant_ok t ()) Et)).
    do 2 erewrite bind_run in E by reflexivity.
    destruct (wallet_protos_run (sv_wallets s) (tenant_keys s t) s) as (ps & s1 & Ep & Ho & Hk & _).
    { intros k (l & tw & Hl & Htw & _)%(tenant_keys_elem _ _ _ (so_registry _ Hok)). exists l, tw.
      destruct (reg_ptr _ (so_registry _ Hok) _ _ Hl) as (tw' & Htw' & _ & ->).
      rewrite Htw in Htw'. by injection Htw' as <-. }
    erewrite bind_run in E by exact Ep. injection E as <- <-. split; [by apply directory_of_only_world|].
    exists ps. split; [done|]. rewrite Hk. by apply tenant_keys_directory.
  - unfold mbind, M_bind, lift, validateTenant in E. rewrite Et in E. by injection E as <- <-.
Qed.

Lemma other_refines r h req s x s' : service_ok s -> unary r = Some h ->
  r <> BSVMS_CreateWallet -> r <> BSVMS_RestoreWallet -> r <> BSVMS_ListWallets -> h req s = (x, s') ->
  spec_other (directory_of s) r req x (directory_of s').
Proof.
  intros Hok Hr Hc Hs Hl E. pose proof (unary_only_world r h req Hr Hc Hs s) as Ho. rewrite E in Ho.
  split; [by apply directory_of_only_world|].
  destruct (tenantWalletFromRequest _) as [[t w] [|]] eqn:Et; [|done]. intros Hn.
  destruct (unary_wallet_first r h req t w Hr Hc Hs Hl Et) as [body Eb]. rewrite Eb in E.
  destruct (lookup_wallet s t w) as [l|] eqn:El.
  - (* registered, so the tenant is malformed *)
    assert (idRE_MatchString t = false) as It.
    { destruct (idRE_MatchString t) eqn:It; [|done]. exfalso.
      destruct (proj2 (directory_lookup s t w Hok)) as [v Hv]; [split; [done|by exists l]|]. congruence. }
    unfold valid_ids. rewrite It. cbn [andb].
    unfold mbind, M_bind, Registry.wallet, lift in E. unfold mbind, M_bind in E.
    destruct (validate_code t w) as (e & Ev & Hcode); [unfold valid_ids; by rewrite It|].
    rewrite Ev in E. injection E as <- _. cbn. by rewrite Hcode.
  - destruct (wallet_refused t w body s El) as [_ Hcode]. by rewrite E in Hcode.
Qed.

(** A wallet of the directory, where the registry has it. *)
Lemma registered_ids s t w l : service_ok s -> idRE_MatchString t = true -> lookup_wallet s t w = Some l ->
  exists tw, sv_heap s !! l = Some tw /\ TenantID (tw_meta tw) = t /\ WalletID (tw_meta tw) = w /\ idRE_MatchString w = true.
Proof.
  intros Hok It Hl. destruct (reg_ptr _ (so_registry _ Hok) _ _ Hl) as (tw & Htw & Hm & Hk). exists tw.
  pose proof (proj1 (Forall_forall _ _) (so_records _ Hok) _ Hm) as [It' Iw' _ _ _].
  destruct (walletKey_inj _ _ _ _ (id_lacks_nul _ It) (id_lacks_nul _ It') Hk) as [-> ->]. done.
Qed.

Lemma GetWallet_refines req s x s' : service_ok s -> GetWallet req s = (x, s') ->
  spec_get (directory_of s) req x (directory_of s').
Proof.
  intros Hok E. split; [by eapply (other_refines BSVMS_GetWallet GetWallet)|].
  intros [It [l Hl]]%(directory_lookup _ _ _ Hok). unfold GetWallet in E.
  destruct (registered_ids _ _ _ _ Hok It Hl) as (tw & Htw & Ht & Hw & Iw).
  erewrite bind_run in E by (apply wallet_ok; split; [exact It|]; split; [exact Iw|]; split; [exact Hl|reflexivity]).
  destruct (walletProtoLocked_run l tw s Htw) as (p & s1 & Ep & _ & Et & Ew & _).
  erewrite bind_run in E by exact Ep. injection E as <- <-. exists p. by rewrite Et, Ew.
Qed.

(** One method served is one step of the directory. *)
Lemma unary_refines r h req s x s' : service_ok s -> unary r = Some h -> h req s = (x, s') ->
  registry_spec (directory_of s) r req x (directory_of s').
Proof.
  intros Hok Hr E. pose proof (fun Hc Hs Hl => other_refines r h req s x s' Hok Hr Hc Hs Hl E) as Hother.
  destruct r; try (apply Hother; discriminate); injection Hr as <-;
    first [by apply ListWallets_refines | by apply CreateWallet_refines | by apply RestoreWallet_refines
          | by apply GetWallet_refines].
Qed.

Lemma serves_allows s xs s' : serves s xs s' -> service_ok s ->
  service_ok s' /\ allows (directory_of s) xs (directory_of s').
Proof.
  induction 1 as [s|s s1 s2 r h req x xs Hr E _ IH]; intros Hok; [split; [done|constructor]|].
  destruct (unary_keeps r h req s x s1 Hr E Hok) as [Hok1 _]. destruct (IH Hok1) as [Hok2 Ha].
  split; [done|]. econstructor; [by eapply unary_refines|done].
Qed.
End refinement.
