(* ===== verification/Disk.v ===== *)
(** * What a call leaves on the disk

    [quiet] steps leave the registry and the files alone. The state file only ever
    changes to a whole registry between the one before the step and the one after
    it ([logged]), so whatever was once saved is found there for good. *)

From S2P Require Import Prelude GoStrings GoTime GoPath Encoding Crypto Json Decode Proto Broker Sdk Ids.
From S2P Require Import World Encryption Options Service Auth AuthSpec Registry RegistrySpec Handlers.
From S2P Require Import HandlersSpec Lifecycle RegistryAbs.

Section disk.
Context `{Env} `{Mac} `{Hash} `{Aead}.

(** Nothing moves but the outside world. *)
Definition untouched (s s' : Service) : Prop := only_world s s' /\ keeps_files s s'.
#[export] Instance untouched_preorder : PreOrder untouched.
Proof.
  split; [split; reflexivity|]. intros s1 s2 s3 [O1 K1] [O2 K2]. split; etransitivity; eauto.
Qed.
(** Nothing moves but the brokers and the outside world. *)
Definition around (s s' : Service) : Prop := s' = set_brokers (fun _ => sv_brokers s') (set_world (sv_world s') s).
#[export] Instance around_preorder : PreOrder around.
Proof.
  split; unfold around; [by intros []|]. intros s1 s2 s3 E1 E2. rewrite E2, E1. by destruct s1.
Qed.
Lemma only_world_around s s' : only_world s s' -> around s s'.
Proof. unfold only_world, around. intros ->. by destruct s. Qed.
Lemma around_ok s s' : around s s' -> service_ok s -> service_ok s'.
Proof. unfold around. intros -> [[Hp Hr] Hs Hop]. split; [by split|done|done]. Qed.
Lemma directory_of_around s s' : around s s' -> directory_of s' = directory_of s.
Proof. unfold around. by intros ->. Qed.

Definition quiet (s s' : Service) : Prop := around s s' /\ keeps_files s s'.
#[export] Instance quiet_preorder : PreOrder quiet.
Proof.
  split; [split; reflexivity|]. intros s1 s2 s3 [O1 K1] [O2 K2]. split; etransitivity; eauto.
Qed.
Lemma untouched_quiet s s' : untouched s s' -> quiet s s'.
Proof. intros [Ho Hk]. split; [by apply only_world_around|done]. Qed.
Lemma moves_quiet {A} (m : M Service A) : moves only_world m -> moves keeps_files m -> moves quiet m.
Proof. intros Ho Hk s. split; [apply only_world_around, Ho|apply Hk]. Qed.

(** The state file holds the records [st]. *)
Definition holds_state (s : Service) (st : list walletMeta) : Prop := exists f,
  files s !! statePath (sv_dataDir s) = Some f /\ file_data f = json_print indented 0 (state_json st).
(** It is the one of before, or holds some of the records since. *)
Definition logged (s s' : Service) : Prop :=
  sv_dataDir s' = sv_dataDir s /\ sv_state s `prefix_of` sv_state s' /\
  (files s' !! statePath (sv_dataDir s) = files s !! statePath (sv_dataDir s) \/
   exists st, sv_state s `prefix_of` st /\ st `prefix_of` sv_state s' /\ holds_state s' st).
#[export] Instance logged_preorder : PreOrder logged.
Proof.
  split; [by intros s; repeat split; [|left]|]. intros s1 s2 s3 (D1 & P1 & F1) (D2 & P2 & F2).
  split; [congruence|]. split; [by etransitivity|]. rewrite D1 in F2. destruct F2 as [F2|(st & A & B & Hf)].
  - destruct F1 as [F1|(st & A & B & f & Hf & E)]; [left; congruence|]. right. exists st. split; [done|].
    split; [by etransitivity|]. exists f. split; [|done]. rewrite D2, D1 in *. congruence.
  - right. exists st. split; [by etransitivity|]. done.
Qed.
Lemma quiet_logged s s' : quiet s s' -> logged s s'.
Proof.
  intros [Ho Hk]. unfold around in Ho. split; [by rewrite Ho|]. split; [by rewrite Ho|]. left. by rewrite Hk.
Qed.
Lemma quiet_moves_logged {A} (m : M Service A) : moves quiet m -> moves logged m.
Proof. intros Hm s. by apply quiet_logged. Qed.

Lemma logged_saveStateLocked : moves logged saveStateLocked.
Proof.
  intros s. pose proof (saveStateLocked_only_world s) as Ho. destruct (saveStateLocked s) as [r s'] eqn:E. cbn in *.
  destruct (saveStateLocked_atomic _ _ _ E) as [Hf _]. unfold only_world in Ho.
  assert (sv_dataDir s' = sv_dataDir s /\ sv_state s' = sv_state s) as [Ed Es] by (by rewrite Ho).
  split; [done|]. rewrite Es. split; [done|]. destruct Hf as [[_ Hf]|(f & Hf & Ef)]; [by left|right].
  exists (sv_state s). split; [done|]. split; [done|]. exists f. rewrite Ed. split; [done|]. by rewrite Ef.
Qed.
Lemma logged_modify f : (forall s, sv_dataDir (f s) = sv_dataDir s) -> (forall s, sv_state s `prefix_of` sv_state (f s)) ->
  (forall s, files (f s) = files s) -> moves logged (modify f).
Proof. intros Hd Hs Hf s. split; [apply Hd|]. split; [apply Hs|]. left. cbn. by rewrite Hf. Qed.

Lemma logged_finishWallet m l : moves logged (finishWallet m l).
Proof.
  assert (moves logged (tokensForWallet m))
    by (apply quiet_moves_logged, moves_quiet; [apply tokensForWallet_only_world|apply kf_tokensForWallet]).
  assert (moves logged (try_ (saveSnapshotLocked l)))
    by (apply moves_try, quiet_moves_logged, moves_quiet; [apply saveSnapshotLocked_only_world|apply kf_saveSnapshotLocked]).
  assert (moves logged (walletProtoLocked l))
    by (apply quiet_moves_logged, moves_quiet; [apply walletProtoLocked_only_world|apply kf_walletProtoLocked]).
  assert (moves logged (modify (set_state (fun st => st ++ [m]))))
    by (apply logged_modify; try done; intros s; by apply prefix_app_r).
  pose proof logged_saveStateLocked. unfold finishWallet. moves_tac.
Qed.
Lemma logged_attach m w : moves logged (attachWalletLocked m w).
Proof.
  assert (moves logged (openStore m w))
    by (apply quiet_moves_logged, moves_quiet; [apply openStore_only_world|apply kf_openStore]).
  assert (forall l, moves logged (registerWalletEvents l))
    by (intros l; apply quiet_moves_logged, moves_quiet; [apply registerWalletEvents_only_world|apply kf_registerWalletEvents]).
  assert (forall f, moves logged (modify (set_heap f))) by (intros f; by apply logged_modify).
  assert (forall f, moves logged (modify (set_wallets f))) by (intros f; by apply logged_modify).
  unfold attachWalletLocked, alloc. moves_tac.
Qed.

Lemma unary_untouched r h req : unary r = Some h -> r <> BSVMS_CreateWallet -> r <> BSVMS_RestoreWallet ->
  moves untouched (h req).
Proof. intros Hr Hc Hs s. split; [by eapply unary_only_world|by eapply unary_keeps_files]. Qed.
Lemma unary_quiet r h req : unary r = Some h -> r <> BSVMS_CreateWallet -> r <> BSVMS_RestoreWallet -> moves quiet (h req).
Proof. intros Hr Hc Hs s. by eapply untouched_quiet, unary_untouched. Qed.
Lemma unary_logged r h req : unary r = Some h -> moves logged (h req).
Proof.
  intros Hr. assert (r <> BSVMS_CreateWallet -> r <> BSVMS_RestoreWallet -> moves logged (h req)) as Hother
    by (intros; by apply quiet_moves_logged, (unary_quiet r)).
  assert (forall {A} (m : M world (result A)), moves keeps_files (W m) -> moves logged (W (call_result m))) as Hcall
    by (intros A m Hm; apply quiet_moves_logged, moves_quiet; [apply moves_W|by apply kf_call_result]).
  assert (forall t w n mn pp, moves logged (newWalletMeta t w n mn pp))
    by (intros; apply quiet_moves_logged, moves_quiet; [apply newWalletMeta_only_world|apply kf_newWalletMeta]).
  assert (forall n, moves logged (W (call_result (node (NodeCreateWallet n)))))
    by (intros n; exact (Hcall _ _ (kf_node (NodeCreateWallet n)))).
  assert (forall n m p, moves logged (W (call_result (node (NodeRestoreWallet n m p)))))
    by (intros n m p; exact (Hcall _ _ (kf_node (NodeRestoreWallet n m p)))).
  pose proof logged_attach. pose proof logged_finishWallet.
  destruct r; try (by apply Hother); injection Hr as <-; [unfold CreateWallet|unfold RestoreWallet];
    cbv zeta; moves_tac.
Qed.

(** ** What a call may change *)

(** Two states of a wallet: it may be rescanned in one and not in the other. *)
Definition same_wallet (tw tw' : tenantWallet) : Prop := set_rescanning false tw = set_rescanning false tw'.
#[export] Instance same_wallet_equiv : Equivalence same_wallet.
Proof. unfold same_wallet. split; congruence. Qed.
Lemma same_wallet_meta tw tw' : same_wallet tw tw' -> tw_meta tw' = tw_meta tw /\ tw_w tw' = tw_w tw.
Proof. unfold same_wallet, set_rescanning. by intros [= -> -> _]. Qed.

(** As [grows], but for the flags of rescans. *)
Definition outlives (s s' : Service) : Prop :=
  sv_state s `prefix_of` sv_state s' /\ sv_opts s' = sv_opts s /\
  (forall t w l, lookup_wallet s t w = Some l -> lookup_wallet s' t w = Some l) /\
  (forall l tw, sv_heap s !! l = Some tw -> exists tw', sv_heap s' !! l = Some tw' /\ same_wallet tw tw').
#[export] Instance outlives_preorder : PreOrder outlives.
Proof.
  split; [intros s; do 3 (split; [done|]); intros l tw Hl; by exists tw|].
  intros s1 s2 s3 (P1 & O1 & L1 & H12) (P2 & O2 & L2 & H23).
  split; [by etransitivity|]. split; [congruence|]. split; [auto|]. intros l tw Hl.
  destruct (H12 l tw Hl) as (tw2 & Hl2 & S2). destruct (H23 l tw2 Hl2) as (tw3 & Hl3 & S3). exists tw3.
  split; [done|by etransitivity].
Qed.
Lemma grows_outlives s s' : grows s s' -> outlives s s'.
Proof. intros (P & O & L & Hh). do 3 (split; [done|]). intros l tw Hl. exists tw. by split; [apply Hh|]. Qed.

Record lives (s s' : Service) : Prop := {
  lv_outlives : outlives s s';
  lv_tame : tame s s';
  lv_logged : logged s s';
}.
Lemma around_outlives s s' : around s s' -> outlives s s'.
Proof. unfold around. intros ->. apply grows_outlives. by split. Qed.
Lemma quiet_lives s s' : quiet s s' -> lives s s'.
Proof.
  intros Hq. pose proof Hq as [Ho Hk]. split; [by apply around_outlives| |by apply quiet_logged].
  split; [by rewrite Ho|]. by split; rewrite Hk.
Qed.
#[export] Instance lives_preorder : PreOrder lives.
Proof.
  split; [intros s; by apply quiet_lives|]. intros s1 s2 s3 [G1 T1 L1] [G2 T2 L2].
  split; by etransitivity.
Qed.
(** A step that adds no wallet. *)
Definition calm (s s' : Service) : Prop :=
  service_ok s -> service_ok s' /\ lives s s' /\ directory_of s' = directory_of s.
#[export] Instance calm_preorder : PreOrder calm.
Proof.
  split; [by intros s Hs|]. intros s1 s2 s3 H12 H23 Hs1. destruct (H12 Hs1) as (Hs2 & L12 & D12).
  destruct (H23 Hs2) as (Hs3 & L23 & D23). split; [done|]. split; [by etransitivity|congruence].
Qed.
Lemma quiet_calm s s' : quiet s s' -> calm s s'.
Proof.
  intros Hq Hs. split; [by eapply around_ok; [apply Hq|]|]. split; [by apply quiet_lives|].
  by apply directory_of_around, Hq.
Qed.
(** The flag of a wallet does not matter to the registry. *)
Lemma flag_calm l b s : calm s (set_heap (alter (set_rescanning b) l) s).
Proof.
  assert (forall l' tw, sv_heap s !! l' = Some tw -> exists tw',
    alter (set_rescanning b) l (sv_heap s) !! l' = Some tw' /\ same_wallet tw tw') as Hheap.
  { intros l' tw Hl'. destruct (decide (l' = l)) as [->|Hne].
    - exists (set_rescanning b tw). by rewrite list_lookup_alter_eq, Hl'.
    - exists tw. by rewrite list_lookup_alter_ne. }
  intros [[Hp Hr] Hrec Hop]. split; [|split; [|done]].
  - split; [split|done|done]; [|done]. intros k l' Hk. destruct (Hp k l' Hk) as (tw & Hl' & Hm & ->).
    destruct (Hheap l' tw Hl') as (tw' & Hl2 & [Em _]%same_wallet_meta). exists tw'. by rewrite Em.
  - split; [by split|done|]. split; [done|]. split; [done|by left].
Qed.
Lemma unary_lives r h req s x s' : unary r = Some h -> h req s = (x, s') -> service_ok s -> service_ok s' /\ lives s s'.
Proof.
  intros Hr E Hs. destruct (unary_keeps r h req s x s' Hr E Hs) as [Hs' Hg]. split; [done|]. apply grows_outlives in Hg.
  pose proof (unary_tame r h req Hr s) as Ht. pose proof (unary_logged r h req Hr s) as Hl. by rewrite E in Ht, Hl.
Qed.

(** ** What stays on disk *)

(** The state file holds a registry of the service that has the record [m]. *)
Definition stored (s : Service) (m : walletMeta) : Prop := exists f st,
  files s !! statePath (sv_dataDir s) = Some f /\ unmarshal_state (file_data f) = Ok st /\
  st `prefix_of` sv_state s /\ m ∈ st.

Lemma service_plain s : service_ok s -> Forall plain_meta (sv_state s).
Proof. intros Hok. eapply Forall_impl; [apply (so_records _ Hok)|]. apply rec_plain. Qed.
Lemma prefix_Forall {A} (P : A -> Prop) l k : l `prefix_of` k -> Forall P k -> Forall P l.
Proof. intros [l' ->] Hk. by apply Forall_app in Hk as [Hl _]. Qed.
Lemma prefix_elem {A} (x : A) l k : l `prefix_of` k -> x ∈ l -> x ∈ k.
Proof. intros [l' ->] Hx. apply elem_of_app. by left. Qed.

Lemma stored_lives s s' m : service_ok s' -> lives s s' -> stored s m -> stored s' m.
Proof.
  intros Hs' [_ _ (Ed & Hp & Hf)] (f & st & Hfile & Hu & Hst & Hm). unfold stored. rewrite Ed. destruct Hf as [Hf|(st' & A & B & f' & Hf & E)].
  - exists f, st. split; [congruence|]. split; [done|]. split; [by etransitivity|done].
  - exists f', st'. rewrite Ed in Hf. split; [done|]. split; [|split; [done|]].
    + rewrite E. apply unmarshal_state_json. eapply prefix_Forall; [done|by apply service_plain].
    + eapply prefix_elem; [|done]. by etransitivity.
Qed.
Lemma saved_stored s m : saved s -> m ∈ sv_state s -> stored s m.
Proof. intros (f & Hf & Hu) Hm. by exists f, (sv_state s). Qed.

(** The wallet that an answer acknowledges, with its secrets. *)
Definition added (r : rpc) : rpc_request r -> result (rpc_response r) -> option ((string * string) * (string * string)) :=
  match r return rpc_request r -> result (rpc_response r) -> _ with
  | BSVMS_CreateWallet => fun req x =>
      match x with
      | Ok resp => Some ((pb.CreateWalletRequest_TenantId req, pb.CreateWalletRequest_WalletId req),
                         (pb.CreateWalletResponse_Mnemonic resp, ""))
      | Err _ => None
      end
  | BSVMS_RestoreWallet => fun req x =>
      match x with
      | Ok _ => Some ((pb.RestoreWalletRequest_TenantId req, pb.RestoreWalletRequest_WalletId req),
                      (pb.RestoreWalletRequest_Mnemonic req, pb.RestoreWalletRequest_Passphrase req))
      | Err _ => None
      end
  | _ => fun _ _ => None
  end.
Lemma outcome_stored {A} t w mn pp s s' (a : A) : add_outcome t w mn pp s s' (Ok a) -> saved s' ->
  exists m, stored s' m /\ ids m = (t, w).
Proof.
  intros Ho Hs. destruct (add_outcome_added _ _ _ _ _ _ _ Ho Hs) as [_ _ _ (l & tw & _ & _ & Ei & _ & _ & Est) _].
  exists (tw_meta tw). split; [|done]. apply saved_stored; [done|]. rewrite Est. set_solver.
Qed.
Lemma unary_durable r h req s x s' k : unary r = Some h -> h req s = (x, s') -> service_ok s ->
  added r req x = Some k -> exists m, stored s' m /\ ids m = k.1.
Proof.
  intros Hr E Hs Ha. pose proof (service_plain _ Hs) as Hp. destruct r; try done; injection Hr as <-;
    destruct x as [resp|]; try done; injection Ha as <-.
  - destruct (CreateWallet_outcome _ _ _ _ E) as (mn & Ho & _). eapply outcome_stored; [done|]. by eapply CreateWallet_saved.
  - pose proof (RestoreWallet_outcome _ _ _ _ E) as Ho. eapply outcome_stored; [done|]. by eapply RestoreWallet_saved.
Qed.
End disk.
