(* ===== verification/Events.v ===== *)
(** * Event callbacks and stream methods

    The callbacks [registerNodeEvents] and [registerWalletEvents] install, and
    the six [Stream*] methods of internal/service/service.go up to the loop of
    [streamFiltered], which Streams models. A publish that would panic stops
    the callback with [panic]. *)

From S2P Require Import Prelude GoStrings Encoding Crypto Proto Broker Streams Sdk Ids World Options.
From S2P Require Import Service Auth Registry Handlers.

Definition panic : error := ENew "send on closed channel".

(** A part of the service's brokers. *)
Record broker_lens (T : Type) := MkLens {
  lens_get : brokers -> broker T;
  lens_set : broker T -> brokers -> brokers;
}.
Arguments MkLens {T}. Arguments lens_get {T}. Arguments lens_set {T}.

Definition tx_lens : broker_lens pb.Transaction := MkLens txBroker
  (fun b bs => MkBrokers b (blockBroker bs) (paymentBroker bs) (walletTxBroker bs) (trafficBroker bs) (rejectBroker bs)).
Definition block_lens : broker_lens pb.Block := MkLens blockBroker
  (fun b bs => MkBrokers (txBroker bs) b (paymentBroker bs) (walletTxBroker bs) (trafficBroker bs) (rejectBroker bs)).
Definition payment_lens : broker_lens pb.Payment := MkLens paymentBroker
  (fun b bs => MkBrokers (txBroker bs) (blockBroker bs) b (walletTxBroker bs) (trafficBroker bs) (rejectBroker bs)).
Definition wallet_tx_lens : broker_lens pb.WalletTransaction := MkLens walletTxBroker
  (fun b bs => MkBrokers (txBroker bs) (blockBroker bs) (paymentBroker bs) b (trafficBroker bs) (rejectBroker bs)).
Definition traffic_lens : broker_lens pb.P2PTraffic := MkLens trafficBroker
  (fun b bs => MkBrokers (txBroker bs) (blockBroker bs) (paymentBroker bs) (walletTxBroker bs) b (rejectBroker bs)).
Definition reject_lens : broker_lens pb.Reject := MkLens rejectBroker
  (fun b bs => MkBrokers (txBroker bs) (blockBroker bs) (paymentBroker bs) (walletTxBroker bs) (trafficBroker bs) b).

Definition publish_on {T} (L : broker_lens T) (v : T) : M Service unit :=
  bs ← gets sv_brokers;
  match publish v (lens_get L bs) with
  | Some b => modify (set_brokers (lens_set L b))
  | None => throw panic
  end.

Definition subscribe_on {T} (L : broker_lens T) : M Service (nat * nat) := fun s =>
  let '(id, ch, b) := subscribe (lens_get L (sv_brokers s)) in
  (Ok (id, ch), set_brokers (lens_set L b) s).

Section events.
Context `{Env} `{Mac} `{Hash} `{Aead}.

(** ** Node events: the closures of [registerNodeEvents] *)

(** [OnTransaction]; the SDK hands over a transaction, never nil. *)
Definition onTransaction (tx : bsv.Transaction) : M Service unit :=
  p ← tx_proto tx;
  publish_on tx_lens p.
Definition blockSpend (sp : bsv.InputSpend) : pb.BlockSpend :=
  pb.MkBlockSpend (bsv.InputSpend_PrevTxID sp) (bsv.InputSpend_PrevVout sp) (bsv.InputSpend_SpendingTxID sp).
Definition onBlock (b : bsv.Block) : M Service unit :=
  publish_on block_lens (pb.MkBlock (bsv.Block_Hash b) (bsv.Block_Height b) (bsv.Block_TxIDs b)
    (blockSpend <$> bsv.Block_InputSpends b) false).
Definition onBlockDisconnected (hash : string) (height : Z) : M Service unit :=
  publish_on block_lens (pb.MkBlock hash height [] [] true).
Definition onP2PTraffic (t : bsv.P2PTraffic) : M Service unit :=
  publish_on traffic_lens (pb.MkP2PTraffic (bsv.P2PTraffic_Peer t) (bsv.P2PTraffic_Direction t)
    (bsv.P2PTraffic_Command t) (int32 (bsv.P2PTraffic_PayloadBytes t)) (bsv.P2PTraffic_Summary t)).
Definition onReject (r : bsv.Reject) : M Service unit :=
  publish_on reject_lens (pb.MkReject (bsv.Reject_Peer r) (bsv.Reject_Command r) (uint32 (bsv.Reject_Code r))
    (bsv.Reject_CodeName r) (bsv.Reject_Reason r) (bsv.Reject_Hash r)).

(** ** Wallet events: the closures of [registerWalletEvents], with the ids they captured *)

Definition onPayment (tenantID walletID : string) (p : bsv.Payment) : M Service unit :=
  publish_on payment_lens (pb.MkPayment tenantID walletID (bsv.Payment_TxID p) (bsv.Payment_Amount p)
    (bsv.Payment_Address p) (bsv.Payment_Vout p) (bsv.Payment_Script p)).
Definition ownedOutput (o : bsv.OwnedOutput) : pb.OwnedOutput :=
  pb.MkOwnedOutput (bsv.OwnedOutput_Vout o) (bsv.OwnedOutput_Value o) (bsv.OwnedOutput_Script o)
    (bsv.OwnedOutput_Address o).
Definition spentOutPoint (o : bsv.SpentOutPoint) : pb.SpentOutPoint :=
  pb.MkSpentOutPoint (bsv.SpentOutPoint_TxID o) (bsv.SpentOutPoint_Vout o).
Definition onWalletTx (tenantID walletID : string) (tx : option bsv.Transaction)
    (owned : list bsv.OwnedOutput) (spent : list bsv.SpentOutPoint) : M Service unit :=
  p ← transactionProto tx;
  publish_on wallet_tx_lens (pb.MkWalletTransaction tenantID walletID p (ownedOutput <$> owned)
    (spentOutPoint <$> spent)).

(** ** Stream methods

    Each returns the subscription and the filter its loop runs with. *)

Definition keep_all {T} (v : T) : bool := true.
Definition payment_filter (req : pb.StreamPaymentsRequest) (v : pb.Payment) : bool :=
  matches (pb.StreamPaymentsRequest_TenantId req) (pb.StreamPaymentsRequest_WalletId req)
    (pb.Payment_TenantId v) (pb.Payment_WalletId v).
Definition wallet_tx_filter (req : pb.StreamWalletTransactionsRequest) (v : pb.WalletTransaction) : bool :=
  matches (pb.StreamWalletTransactionsRequest_TenantId req) (pb.StreamWalletTransactionsRequest_WalletId req)
    (pb.WalletTransaction_TenantId v) (pb.WalletTransaction_WalletId v).

(** Entering [streamFiltered]. *)
Definition open_stream {T} (L : broker_lens T) (keep : T -> bool) : M Service (stream T) :=
  '(id, ch) ← subscribe_on L;
  mret (MkStream id ch keep [] Looping).

Definition StreamTransactions (req : pb.StreamTransactionsRequest) : M Service (stream pb.Transaction) :=
  open_stream tx_lens keep_all.
Definition StreamBlocks (req : pb.StreamBlocksRequest) : M Service (stream pb.Block) :=
  open_stream block_lens keep_all.
Definition StreamP2PTraffic (req : pb.StreamP2PTrafficRequest) : M Service (stream pb.P2PTraffic) :=
  open_stream traffic_lens keep_all.
Definition StreamRejects (req : pb.StreamRejectsRequest) : M Service (stream pb.Reject) :=
  open_stream reject_lens keep_all.
Definition StreamPayments (ctx : context) (req : pb.StreamPaymentsRequest) : M Service (stream pb.Payment) :=
  _ ← authorize ctx "/bsvms.v1.BSVMS/StreamPayments" (Some (reflect_StreamPaymentsRequest req));
  open_stream payment_lens (payment_filter req).
Definition StreamWalletTransactions (ctx : context) (req : pb.StreamWalletTransactionsRequest) :
    M Service (stream pb.WalletTransaction) :=
  _ ← authorize ctx "/bsvms.v1.BSVMS/StreamWalletTransactions" (Some (reflect_StreamWalletTransactionsRequest req));
  open_stream wallet_tx_lens (wallet_tx_filter req).
End events.
