(* ===== verification/Rescan.v ===== *)
(** * Admission of rescans

    [Rescan] of internal/service/service.go up to the start of the walk: its
    checks, the per-wallet guard [beginRescan]/[endRescan], the option and event
    converters. RescanRun has the walk and its handler, Conc the call among others. *)

From S2P Require Import Prelude GoStrings GoTime Encoding Crypto Proto Broker Sdk Ids World Options.
From S2P Require Import Service Auth Registry Handlers.

(** ** Converters *)

Definition rescanOptions (req : pb.RescanRequest) : bsv.RescanOptions :=
  bsv.MkRescanOptions (pb.RescanRequest_MaxBlocks req)
    (int64 (pb.RescanRequest_HeadersTimeoutMs req * Millisecond))
    (int64 (pb.RescanRequest_BlockTimeoutMs req * Millisecond))
    (pb.RescanRequest_MaxConsecutiveBlockErrors req) (pb.RescanRequest_GcEvery req)
    (pb.RescanRequest_Prefetch req) (pb.RescanRequest_PrefetchBytes req)
    (pb.RescanRequest_StreamBlockBytes req) (pb.RescanRequest_StartHeight req).

Definition rescanProgressProto (p : bsv.RescanProgress) : pb.RescanProgress :=
  pb.MkRescanProgress (bsv.Progress_Phase p) (bsv.Progress_Peer p) (int32 (bsv.Progress_HeadersSeen p))
    (int32 (bsv.Progress_BatchHeaders p)) (int32 (bsv.Progress_BlocksFetched p))
    (int32 (bsv.Progress_TxsReplayed p)) (int32 (bsv.Progress_Errors p)) (bsv.Progress_BlockHash p)
    (bsv.Progress_Message p).

Definition zero_hash : bytes := repeat Byte.x00 32.
Definition rescanStatsProto (st : option bsv.RescanStats) : pb.RescanStats :=
  match st with
  | None => pb.MkRescanStats 0 0 0 "" (-1) 0 []
  | Some st =>
      pb.MkRescanStats (int32 (bsv.Stats_HeadersSeen st)) (int32 (bsv.Stats_BlocksFetched st))
        (int32 (bsv.Stats_TxsReplayed st))
        (if bool_decide (bsv.Stats_StoppedAt st = zero_hash) then "" else blockHashHex (bsv.Stats_StoppedAt st))
        (bsv.Stats_StoppedHeight st) (int32 (bsv.Stats_PeerSwitches st)) (error_string <$> bsv.Stats_Errors st)
  end.

(** ** The guard *)

Definition heap_begin (l : loc) (h : list tenantWallet) : bool * list tenantWallet :=
  match h !! l with
  | Some tw => if tw_rescanning tw then (false, h) else (true, <[l := set_rescanning true tw]> h)
  | None => (false, h)
  end.
Definition heap_end (l : loc) (h : list tenantWallet) : list tenantWallet := alter (set_rescanning false) l h.

Definition beginRescan (l : loc) : M Service bool := fun s =>
  let '(ok, h) := heap_begin l (sv_heap s) in (Ok ok, set_heap (fun _ => h) s).
Definition endRescan (l : loc) : M Service unit := modify (set_heap (heap_end l)).

Section rescan.
Context `{Env} `{Mac} `{Hash} `{Aead}.

(** [opts.CheckpointEvery], when checkpoints are asked for, and [opts.Checkpoint]. *)
Definition checkpointEvery (req : pb.RescanRequest) : option Z :=
  if (0 <? pb.RescanRequest_CheckpointEvery req)%Z then Some (pb.RescanRequest_CheckpointEvery req) else None.
Definition onCheckpoint (l : loc) : M Service unit := saveSnapshot l.

(** What [RescanFromHash] is called with. *)
Record rescan_run := MkRun {
  run_wallet : loc; run_start : bytes; run_options : bsv.RescanOptions; run_checkpoint : option Z }.

(** [Rescan] up to the start of the walk. *)
Definition Rescan_start (ctx : context) (req : pb.RescanRequest) : M Service rescan_run :=
  _ ← authorize ctx "/bsvms.v1.BSVMS/Rescan" (Some (reflect_RescanRequest req));
  tw ← wallet (pb.RescanRequest_TenantId req) (pb.RescanRequest_WalletId req);
  if String.eqb (pb.RescanRequest_StartBlockHash req) "" then throw (invalid "start_block_hash required") else
  startHash ← wcall_or (fun _ => invalid "invalid start_block_hash")
                (W (node (TxIDFromHex (pb.RescanRequest_StartBlockHash req))));
  ok ← beginRescan tw;
  if negb ok then throw (EStatus FailedPrecondition "rescan already running for this wallet") else
  mret (MkRun tw startHash (rescanOptions req) (checkpointEvery req)).
End rescan.
