(* ===== verification/RescanRun.v ===== *)
(** * Rescans under way

    The concurrent part of [Rescan] as a step relation. A call is two goroutines,
    the handler and the walk, that share the progress channel; calls on any number
    of wallets interleave. A checkpoint saves the wallet's snapshot and moves none
    of the state the steps are about. *)

From S2P Require Import Prelude GoStrings GoTime Encoding Crypto Proto Broker Sdk Ids World Options.
From S2P Require Import Service Auth Registry Handlers Rescan.

(** ** The call *)

(** The walk: running, or returned with stats or an error. *)
Inductive walk := WalkRunning | WalkDone (r : result (option bsv.RescanStats)).

(** The handler: in its loop; returning, with the deferred wait still to do;
    returned, with the guard released. *)
Inductive phase := Looping | Unwinding (r : result unit) | Returned (r : result unit).

(** [c_emitted] is every progress the walk reported, [c_chan] what is in the
    channel, [c_sent] the events sent to the client. The channel is closed when
    the walk is done. *)
Record call := MkCall {
  c_loc : loc; c_walk : walk; c_phase : phase;
  c_emitted : list pb.RescanProgress; c_chan : list pb.RescanProgress;
  c_sent : list pb.isRescanEvent_Event }.

Record rsys := MkRsys { r_heap : list tenantWallet; r_calls : gmap nat call }.

Definition with_walk (w : walk) (c : call) : call :=
  MkCall (c_loc c) w (c_phase c) (c_emitted c) (c_chan c) (c_sent c).
Definition with_phase (p : phase) (c : call) : call :=
  MkCall (c_loc c) (c_walk c) p (c_emitted c) (c_chan c) (c_sent c).

(** The [Progress] callback: [select { case progress <- p: default: }]. *)
Definition emit (p : bsv.RescanProgress) (c : call) : call :=
  let v := rescanProgressProto p in
  MkCall (c_loc c) (c_walk c) (c_phase c) (c_emitted c ++ [v])
    (if (length (c_chan c) <? chan_cap)%nat then c_chan c ++ [v] else c_chan c) (c_sent c).

(** One iteration of [for p := range progress]. *)
Definition send_progress (ok : bool) (send_error : error) (c : call) : option call :=
  match c_phase c, c_chan c with
  | Looping, v :: rest =>
      Some (MkCall (c_loc c) (c_walk c) (if ok then Looping else Unwinding (Err send_error)) (c_emitted c) rest
              (if ok then c_sent c ++ [pb.RescanEvent_Progress v] else c_sent c))
  | _, _ => None
  end.

(** After the loop: the channel is closed and drained, [finished] is closed. *)
Definition send_stats (ok : bool) (send_error : error) (c : call) : option call :=
  match c_phase c, c_chan c, c_walk c with
  | Looping, [], WalkDone (Err e) => Some (with_phase (Unwinding (Err (internal e))) c)
  | Looping, [], WalkDone (Ok st) =>
      Some (MkCall (c_loc c) (c_walk c) (Unwinding (if ok then Ok () else Err send_error)) (c_emitted c) []
              (if ok then c_sent c ++ [pb.RescanEvent_Stats (rescanStatsProto st)] else c_sent c))
  | _, _, _ => None
  end.

Definition fresh_call (l : loc) : call := MkCall l WalkRunning Looping [] [] [].

Inductive rstep : rsys -> rsys -> Prop :=
  (* beginRescan succeeds: the walk is started *)
  | r_begin h m k l h' :
      m !! k = None -> heap_begin l h = (true, h') ->
      rstep (MkRsys h m) (MkRsys h' (<[k := fresh_call l]> m))
  (* the walk reports progress *)
  | r_progress h m k c p :
      m !! k = Some c -> c_walk c = WalkRunning ->
      rstep (MkRsys h m) (MkRsys h (<[k := emit p c]> m))
  (* the walk returns, closing the channel and [finished] *)
  | r_finish h m k c r :
      m !! k = Some c -> c_walk c = WalkRunning ->
      rstep (MkRsys h m) (MkRsys h (<[k := with_walk (WalkDone r) c]> m))
  (* the handler sends a progress event, then the stats *)
  | r_send h m k c ok e c' :
      m !! k = Some c -> send_progress ok e c = Some c' ->
      rstep (MkRsys h m) (MkRsys h (<[k := c']> m))
  | r_stats h m k c ok e c' :
      m !! k = Some c -> send_stats ok e c = Some c' ->
      rstep (MkRsys h m) (MkRsys h (<[k := c']> m))
  (* the deferred cancel, wait for [finished], and endRescan *)
  | r_return h m k c r w :
      m !! k = Some c -> c_phase c = Unwinding r -> c_walk c = WalkDone w ->
      rstep (MkRsys h m) (MkRsys (heap_end (c_loc c) h) (<[k := with_phase (Returned r) c]> m)).

(** A service where no rescan is running yet. *)
Definition idle (h : list tenantWallet) : Prop := Forall (fun tw => tw_rescanning tw = false) h.

Inductive reachable : rsys -> Prop :=
  | reach_init h : idle h -> reachable (MkRsys h ∅)
  | reach_step s s' : reachable s -> rstep s s' -> reachable s'.

(** ** Invariant *)

Definition active (c : call) : Prop := match c_phase c with Returned _ => False | _ => True end.

(** What the client has been sent: progress in the order it was reported, then,
    on success only, the stats. *)
Definition final (c : call) : option (result unit) :=
  match c_phase c with Looping => None | Unwinding r | Returned r => Some r end.
Definition tail_ok (c : call) (tail : list pb.isRescanEvent_Event) : Prop :=
  match final c with
  | Some (Ok _) => exists st, c_walk c = WalkDone (Ok st) /\ tail = [pb.RescanEvent_Stats (rescanStatsProto st)]
  | _ => tail = []
  end.
Record call_ok (c : call) : Prop := {
  co_walk : c_walk c = WalkRunning -> active c;
  co_sent : exists prog tail, c_sent c = (pb.RescanEvent_Progress <$> prog) ++ tail /\
    prog ++ c_chan c `sublist_of` c_emitted c /\ tail_ok c tail;
}.

Record rinv (s : rsys) : Prop := {
  ri_guard : forall k c, r_calls s !! k = Some c -> active c ->
    exists tw, r_heap s !! c_loc c = Some tw /\ tw_rescanning tw = true;
  ri_single : forall k k' c c', r_calls s !! k = Some c -> r_calls s !! k' = Some c' ->
    active c -> active c' -> c_loc c = c_loc c' -> k = k';
  ri_busy : forall l tw, r_heap s !! l = Some tw -> tw_rescanning tw = true ->
    exists k c, r_calls s !! k = Some c /\ active c /\ c_loc c = l;
  ri_call : forall k c, r_calls s !! k = Some c -> call_ok c;
}.

(** A step of one call that keeps the guard. *)
Lemma rinv_update h m k c c' : rinv (MkRsys h m) -> m !! k = Some c ->
  c_loc c' = c_loc c -> (active c' <-> active c) -> call_ok c' -> rinv (MkRsys h (<[k := c']> m)).
Proof.
  intros [Hg Hs Hb Hc] Hk El Ha Hok. cbn in *. split; cbn.
  - intros k1 c1 [[<- <-]|[_ H1]]%lookup_insert_Some Hact; [|by eapply Hg]. rewrite El.
    apply (Hg k c); [done|]. by apply Ha.
  - intros k1 k2 c1 c2 [[<- <-]|[_ H1]]%lookup_insert_Some [[<- <-]|[_ H2]]%lookup_insert_Some;
      rewrite ?El; intros A1 A2 E; try apply Ha in A1; try apply Ha in A2; eauto.
  - intros l tw Hl Ht. destruct (Hb l tw Hl Ht) as (k1 & c1 & H1 & A1 & E1).
    destruct (decide (k1 = k)) as [->|Hne].
    + simplify_eq. exists k, c'. rewrite lookup_insert_eq. split; [done|]. split; [by apply Ha|done].
    + exists k1, c1. by rewrite lookup_insert_ne.
  - intros k1 c1 [[<- <-]|[_ H1]]%lookup_insert_Some; eauto.
Qed.

Lemma emit_ok p c : call_ok c -> c_walk c = WalkRunning -> call_ok (emit p c).
Proof.
  intros [Hw (prog & tail & Es & Hsub & Ht)] Hr. split; [exact Hw|].
  exists prog, tail. split; [done|]. split; [|done]. cbn -[Nat.ltb].
  destruct (_ <? _)%nat; [|by apply sublist_inserts_r].
  rewrite app_assoc. by apply sublist_app.
Qed.

Lemma finish_ok r c : call_ok c -> c_walk c = WalkRunning -> call_ok (with_walk (WalkDone r) c).
Proof.
  intros [Hw (prog & tail & Es & Hsub & Ht)] Hr. split; [done|].
  exists prog, tail. split; [done|]. split; [done|]. revert Ht. unfold tail_ok, final. cbn.
  destruct (c_phase c) as [|[[]|]|[[]|]]; try done; rewrite Hr; by intros (st & [=] & _).
Qed.

Lemma send_progress_ok ok e c c' : call_ok c -> send_progress ok e c = Some c' ->
  call_ok c' /\ c_loc c' = c_loc c /\ (active c' <-> active c).
Proof.
  intros [Hw (prog & tail & Es & Hsub & Ht)]. unfold send_progress.
  destruct (c_phase c) eqn:Ep; try done. destruct (c_chan c) as [|v rest] eqn:Ec; [done|]. intros [= <-].
  assert (tail = []) as -> by (unfold tail_ok, final in Ht; by rewrite Ep in Ht).
  rewrite app_nil_r in Es. split; [|split; [done|unfold active; rewrite Ep; by destruct ok]].
  split; [by intros _; destruct ok|].
  destruct ok; cbn.
  - exists (prog ++ [v]), []. rewrite app_nil_r, fmap_app, Es. split; [done|].
    split; [by rewrite <- app_assoc|done].
  - exists prog, []. rewrite app_nil_r, Es. split; [done|]. split; [|done].
    etransitivity; [|exact Hsub]. apply sublist_app; [done|]. by apply sublist_cons.
Qed.

Lemma send_stats_ok ok e c c' : call_ok c -> send_stats ok e c = Some c' ->
  call_ok c' /\ c_loc c' = c_loc c /\ (active c' <-> active c).
Proof.
  intros [Hw (prog & tail & Es & Hsub & Ht)]. unfold send_stats.
  destruct (c_phase c) eqn:Ep; try done. destruct (c_chan c) eqn:Ec; [|done].
  destruct (c_walk c) as [|[st|err]] eqn:Ew; try done; intros [= <-];
    (assert (tail = []) as -> by (unfold tail_ok, final in Ht; by rewrite Ep in Ht));
    rewrite app_nil_r in Es; (split; [|split; [done|unfold active; rewrite Ep; by destruct ok]]);
    (split; [done|]).
  - destruct ok; cbn.
    + exists prog, [pb.RescanEvent_Stats (rescanStatsProto st)]. rewrite Es. split; [done|].
      split; [done|]. by exists st.
    + exists prog, []. rewrite app_nil_r. by split.
  - exists prog, []. rewrite app_nil_r. cbn. by rewrite Ec.
Qed.

Lemma return_ok r w c : call_ok c -> c_phase c = Unwinding r -> c_walk c = WalkDone w ->
  call_ok (with_phase (Returned r) c).
Proof.
  intros [Hw (prog & tail & Es & Hsub & Ht)] Ep Ew. split; [cbn; by rewrite Ew|].
  exists prog, tail. split; [done|]. split; [done|]. unfold tail_ok, final in *. cbn. by rewrite Ep in Ht.
Qed.

Lemma heap_begin_inv l h h' : heap_begin l h = (true, h') -> exists tw,
  h !! l = Some tw /\ tw_rescanning tw = false /\ h' = <[l := set_rescanning true tw]> h.
Proof.
  unfold heap_begin. destruct (h !! l) as [tw|]; [|done]. destruct (tw_rescanning tw) eqn:E; [done|].
  intros [= <-]. by exists tw.
Qed.

Lemma rinv_begin h m k l h' : rinv (MkRsys h m) -> m !! k = None -> heap_begin l h = (true, h') ->
  rinv (MkRsys h' (<[k := fresh_call l]> m)).
Proof.
  intros [Hg Hs Hb Hc] Hk (tw & Hl & Hr & ->)%heap_begin_inv. cbn in *.
  assert (forall k' c, m !! k' = Some c -> active c -> c_loc c <> l) as Hfree.
  { intros k' c Hk' Ha E. destruct (Hg _ _ Hk' Ha) as (tw' & Ht & Hr'). rewrite E in Ht. congruence. }
  split; cbn.
  - intros k1 c1 [[<- <-]|[_ H1]]%lookup_insert_Some Ha.
    + exists (set_rescanning true tw). by rewrite list_lookup_insert_eq by (by eapply lookup_lt_Some).
    + rewrite list_lookup_insert_ne by (apply not_eq_sym; by eapply Hfree). by eapply Hg.
  - intros k1 k2 c1 c2 [[<- <-]|[_ H1]]%lookup_insert_Some [[<- <-]|[_ H2]]%lookup_insert_Some;
      cbn; intros A1 A2 E; eauto.
    + exfalso. by eapply (Hfree k2 c2).
    + exfalso. by eapply (Hfree k1 c1).
  - intros l' tw' Hl' Hr'. destruct (decide (l' = l)) as [->|Hne].
    + exists k, (fresh_call l). by rewrite lookup_insert_eq.
    + rewrite list_lookup_insert_ne in Hl' by done. destruct (Hb _ _ Hl' Hr') as (k1 & c1 & H1 & A1 & E1).
      exists k1, c1. rewrite lookup_insert_ne; [done|]. intros ->. by rewrite H1 in Hk.
  - intros k1 c1 [[<- <-]|[_ H1]]%lookup_insert_Some; [|eauto].
    split; [done|]. by exists [], [].
Qed.

Lemma rinv_return h m k c r w : rinv (MkRsys h m) -> m !! k = Some c ->
  c_phase c = Unwinding r -> c_walk c = WalkDone w ->
  rinv (MkRsys (heap_end (c_loc c) h) (<[k := with_phase (Returned r) c]> m)).
Proof.
  intros [Hg Hs Hb Hc] Hk Ep Ew. cbn in *. assert (active c) as Ha by (unfold active; by rewrite Ep).
  unfold heap_end. split; cbn.
  - intros k1 c1 [[<- <-]|[Hne H1]]%lookup_insert_Some A1; [done|].
    rewrite list_lookup_alter_ne; [by eapply Hg|]. intros E. apply Hne. by eapply (Hs k k1 c c1).
  - intros k1 k2 c1 c2 [[<- <-]|[_ H1]]%lookup_insert_Some [[<- <-]|[_ H2]]%lookup_insert_Some;
      intros A1 A2 E; try done. by eapply Hs.
  - intros l tw Hl Hr. destruct (decide (l = c_loc c)) as [->|Hne].
    + rewrite list_lookup_alter_eq in Hl. destruct (h !! c_loc c); [|done]. by injection Hl as <-.
    + rewrite list_lookup_alter_ne in Hl by done. destruct (Hb _ _ Hl Hr) as (k1 & c1 & H1 & A1 & <-).
      exists k1, c1. rewrite lookup_insert_ne; [done|]. intros ->. by simplify_eq.
  - intros k1 c1 [[<- <-]|[_ H1]]%lookup_insert_Some; [|eauto]. eapply return_ok; eauto.
Qed.

Lemma rinv_step s s' : rinv s -> rstep s s' -> rinv s'.
Proof.
  intros Hi Hst. destruct Hst as [h m k l h' Hk Hb|h m k c p Hk Hr|h m k c r Hk Hr
    |h m k c ok e c' Hk Hs|h m k c ok e c' Hk Hs|h m k c r w Hk Ep Ew].
  - by eapply rinv_begin.
  - eapply rinv_update; [done|done|done|done|]. apply emit_ok; [|done]. by apply (ri_call _ Hi k).
  - eapply rinv_update; [done|done|done|done|]. apply finish_ok; [|done]. by apply (ri_call _ Hi k).
  - destruct (send_progress_ok _ _ _ _ (ri_call _ Hi k c Hk) Hs) as (? & ? & ?). by eapply rinv_update.
  - destruct (send_stats_ok _ _ _ _ (ri_call _ Hi k c Hk) Hs) as (? & ? & ?). by eapply rinv_update.
  - by eapply rinv_return.
Qed.

Lemma rinv_reachable s : reachable s -> rinv s.
Proof.
  induction 1 as [h Hh|s s' _ IH Hst]; [|by eapply rinv_step].
  split; cbn; try (by intros ? ? ?%lookup_empty_Some).
  - by intros ? ? ? ? ?%lookup_empty_Some.
  - intros l tw Hl Hr. by rewrite (Forall_lookup_1 _ _ _ _ Hh Hl) in Hr.
Qed.
