(* ===== verification/Blackjack.v ===== *)
(** * The blackjack client: cmd/blackjack/main.go

    The game, the bet, the settlement record and the funding arithmetic.
    Standard input is the list of lines still to be read (an exhausted input
    reads as the empty line), the random source is the sequence of numbers it
    will produce, and an index out of range is [None] (Go panics). *)

From S2P Require Import Prelude GoStrings Json Proto.
From Corelib Require Import SpecFloat.

(** ** Constants *)

Definition tenantID : string := "blackjack".
Definition playerWallet : string := "player".
Definition houseWallet : string := "house".
Definition seedSatoshis : Z := 250000.
Definition defaultBet : Z := 1000.

(** ** Cards *)

Record card := MkCard { rank : string; suit : string }.
#[export] Instance card_eq_dec : EqDecision card.
Proof. solve_decision. Defined.

Definition card_String (c : card) : string := rank c +:+ suit c.

Definition ranks : list string :=
  ["A"; "2"; "3"; "4"; "5"; "6"; "7"; "8"; "9"; "10"; "J"; "Q"; "K"].
Definition suits : list string := ["S"; "H"; "D"; "C"].

(** [deck[i], deck[j] = deck[j], deck[i]] *)
Definition swap (i j : nat) (deck : list card) : option (list card) :=
  ci ← deck !! i; cj ← deck !! j;
  Some (<[j := ci]> (<[i := cj]> deck)).

(** [rng.Shuffle]: for [i] from [n-1] down to 1, swap [i] with a random index
    at most [i]; [rng i] is the number drawn at that point. *)
Fixpoint Shuffle (i : nat) (rng : nat -> nat) (deck : list card) : option (list card) :=
  match i with
  | O => Some deck
  | S i' => deck ← swap i (rng i) deck; Shuffle i' rng deck
  end.

Definition sorted_deck : list card := s ← suits; (fun r => MkCard r s) <$> ranks.
Definition newDeck (rng : nat -> nat) : option (list card) :=
  Shuffle (length sorted_deck - 1) rng sorted_deck.

Definition draw (deck : list card) : option (card * list card) :=
  match deck with [] => None | c :: rest => Some (c, rest) end.

Definition handStringParts (hand : list card) : list string := card_String <$> hand.
Definition handString (hand : list card) : string := str_join " " (handStringParts hand).

(** ** Hands *)

(** The switch on the rank: what a card adds, and whether it is an ace. *)
Definition card_points (c : card) : Z * nat :=
  if String.eqb (rank c) "A" then (11%Z, 1%nat)
  else if String.eqb (rank c) "K" || String.eqb (rank c) "Q" || String.eqb (rank c) "J" then (10%Z, 0%nat)
  else (default 0%Z (atoi (rank c)), 0%nat).
Fixpoint add_up (hand : list card) (total : Z) (aces : nat) : Z * nat :=
  match hand with
  | [] => (total, aces)
  | c :: rest => let '(n, a) := card_points c in add_up rest (total + n)%Z (aces + a)
  end.
(** [for total > 21 && aces > 0] *)
Fixpoint soften (aces : nat) (total : Z) : Z :=
  match aces with
  | O => total
  | S aces => if (21 <? total)%Z then soften aces (total - 10)%Z else total
  end.
Definition handValue (hand : list card) : Z :=
  let '(total, aces) := add_up hand 0 0 in soften aces total.

Definition outcome (playerTotal houseTotal : Z) : string :=
  if (21 <? playerTotal)%Z then "house"
  else if (21 <? houseTotal)%Z then "player"
  else if (houseTotal <? playerTotal)%Z then "player"
  else if (playerTotal <? houseTotal)%Z then "house"
  else "push".

(** ** A hand of play *)

(** [reader.ReadString], trimmed: the line and the input left. *)
Definition read_line (input : list string) : string * list string :=
  match input with [] => ("", []) | l :: rest => (trim_space l, rest) end.

Definition askBet (input : list string) : Z * list string :=
  let '(line, input) := read_line input in
  if String.eqb line "" then (defaultBet, input) else
  match atoi line with
  | Some n => if (n <=? 0)%Z then (defaultBet, input) else (n, input)
  | None => (defaultBet, input)
  end.

(** The player's loop: 21 or more ends it, anything but "h" stands. *)
Fixpoint player_turn (deck : list card) (hand : list card) (input : list string) :
    option (list card * list card * list string) :=
  if (21 <=? handValue hand)%Z then Some (hand, deck, input) else
  let '(line, input) := read_line input in
  if negb (String.eqb (to_lower line) "h") then Some (hand, deck, input) else
  match deck with
  | [] => None
  | c :: deck => player_turn deck (hand ++ [c]) input
  end.

(** The house draws to 17, unless the player is bust. *)
Fixpoint house_turn (player : list card) (deck : list card) (hand : list card) : option (list card * list card) :=
  if (handValue player <=? 21)%Z && (handValue hand <? 17)%Z then
    match deck with
    | [] => None
    | c :: deck => house_turn player deck (hand ++ [c])
    end
  else Some (hand, deck).

Record handResult := MkHandResult {
  Game : string; Player : list string; House : list string;
  PlayerTotal : Z; HouseTotal : Z; Bet : Z; Winner : string }.
(** [json.Marshal(result)]; the hands are never nil. *)
Definition handResult_json (r : handResult) : json := JObj
  [("game", JStr (Game r)); ("player", JArr (JStr <$> Player r)); ("house", JArr (JStr <$> House r));
   ("player_total", JNum (itoa (PlayerTotal r))); ("house_total", JNum (itoa (HouseTotal r)));
   ("bet", JNum (itoa (Bet r))); ("winner", JStr (Winner r))].

(** A settlement: who pays whom, how much, and the record that goes on chain. *)
Record settlement := MkSettlement { from_id : string; to_id : string; sats : Z; record : handResult }.

(** [playHand]: the hands, the totals and the settlement, if any. *)
Record played := MkPlayed {
  p_player : list card; p_house : list card; p_bet : Z; p_settle : option settlement; p_input : list string }.

Definition settle (bet : Z) (player house : list card) (winner : string) : option settlement :=
  let result := MkHandResult "blackjack" (handStringParts player) (handStringParts house)
                  (handValue player) (handValue house) bet winner in
  if String.eqb winner "player" then Some (MkSettlement houseWallet playerWallet bet result)
  else if String.eqb winner "house" then Some (MkSettlement playerWallet houseWallet bet result)
  else None.

Definition playHand (rng : nat -> nat) (input : list string) : option played :=
  let '(bet, input) := askBet input in
  deck ← newDeck rng;
  '(p1, deck) ← draw deck; '(p2, deck) ← draw deck;
  '(h1, deck) ← draw deck; '(h2, deck) ← draw deck;
  '(player, deck, input) ← player_turn deck [p1; p2] input;
  '(house, deck) ← house_turn player deck [h1; h2];
  Some (MkPlayed player house bet
          (settle bet player house (outcome (handValue player) (handValue house))) input).

(** ** Explorer links *)

Definition wocBaseURL (network explorerURL : string) : string :=
  let n := to_lower network in
  if String.eqb n "regtest" then explorerURL
  else if String.eqb n "mainnet" then "https://whatsonchain.com"
  else if String.eqb n "testnet" then "https://test.whatsonchain.com"
  else if String.eqb n "stn" then "https://stn.whatsonchain.com"
  else "".
Definition wocAddressURL (network explorerURL address : string) : string :=
  let base := wocBaseURL network explorerURL in
  if String.eqb base "" then "" else base +:+ "/address/" +:+ address.
Definition wocTxURL (network explorerURL txid : string) : string :=
  let base := wocBaseURL network explorerURL in
  if String.eqb base "" then "" else base +:+ "/tx/" +:+ txid.

(** ** Funding *)

(** The first pass of [fundMain] over the spendable balances. *)
Definition needed (spendable : list Z) : Z :=
  fold_left (fun acc b => if (b <? seedSatoshis)%Z then (acc + (seedSatoshis - b))%Z else acc) spendable 0%Z.
(** The second pass: what is sent to each wallet, [None] for a funded one. *)
Definition top_up (spendable : Z) : option Z :=
  if (seedSatoshis <=? spendable)%Z then None else Some (seedSatoshis - spendable)%Z.

(** [int64(bsv * 100_000_000)] and [float64(sats) / 100_000_000]; a float64 is
    a [spec_float] of precision 53 and maximal exponent 1024. *)
Definition float_of_Z (n : Z) : spec_float := binary_normalize 53 1024 n 0 false.
Definition hundred_million : spec_float := float_of_Z 100000000.
Definition truncate (f : spec_float) : Z :=
  match f with
  | S754_finite s m e =>
      let a := if (0 <=? e)%Z then (Zpos m * 2 ^ e)%Z else (Zpos m / 2 ^ (- e))%Z in
      if s then (- a)%Z else a
  | _ => 0%Z
  end.
Definition balanceSats (bsv : spec_float) : Z := truncate (SFmul 53 1024 bsv hundred_million).
Definition sendAmount (sats : Z) : spec_float := SFdiv 53 1024 (float_of_Z sats) hundred_million.

(** ** Hand values *)

(** Counting every ace as one; the aces. *)
Definition hard_points (c : card) : Z := let '(n, a) := card_points c in (n - 10 * Z.of_nat a)%Z.
Definition hard (hand : list card) : Z := foldr Z.add 0%Z (hard_points <$> hand).
Definition aces (hand : list card) : nat := sum_list ((fun c => snd (card_points c)) <$> hand).

Lemma add_up_spec hand t a :
  add_up hand t a = ((t + hard hand + 10 * Z.of_nat (aces hand))%Z, (a + aces hand)%nat).
Proof.
  revert t a. induction hand as [|c hand IH]; intros t a; cbn.
  - f_equal; unfold hard, aces; cbn; lia.
  - unfold hard, aces, hard_points in *. cbn. destruct (card_points c) as [n k]. rewrite IH. cbn.
    f_equal; lia.
Qed.

(** Aces go from eleven to one, one at a time, while the hand is over 21. *)
Lemma soften_spec a h : exists k, (k <= a)%nat /\ soften a (h + 10 * Z.of_nat a) = (h + 10 * Z.of_nat k)%Z /\
  (k = a \/ 21 < h + 10 * Z.of_nat (S k))%Z /\ (k = 0%nat \/ h + 10 * Z.of_nat k <= 21)%Z.
Proof.
  induction a as [|a IH].
  - exists 0%nat. cbn. repeat split; [lia|by left|by left].
  - cbn [soften]. destruct (Z.ltb_spec 21 (h + 10 * Z.of_nat (S a))) as [Hgt|Hle].
    + replace (h + 10 * Z.of_nat (S a) - 10)%Z with (h + 10 * Z.of_nat a)%Z by lia.
      destruct IH as (k & Hk & E & Hmax & Hok). exists k. rewrite E. repeat split; [lia| |done].
      right. destruct Hmax as [->|]; done.
    + exists (S a). repeat split; [lia|by left|by right].
Qed.

Lemma handValue_hard hand : exists k, (k <= aces hand)%nat /\ handValue hand = (hard hand + 10 * Z.of_nat k)%Z /\
  (k = aces hand \/ 21 < hard hand + 10 * Z.of_nat (S k))%Z /\
  (k = 0%nat \/ hard hand + 10 * Z.of_nat k <= 21)%Z.
Proof. unfold handValue. rewrite add_up_spec. apply soften_spec. Qed.

Lemma hard_perm hand hand' : hand ≡ₚ hand' -> hard hand = hard hand'.
Proof. unfold hard. induction 1; cbn; lia. Qed.
Lemma aces_perm hand hand' : hand ≡ₚ hand' -> aces hand = aces hand'.
Proof. unfold aces. induction 1; cbn; lia. Qed.

Lemma handValue_perm hand hand' : hand ≡ₚ hand' -> handValue hand = handValue hand'.
Proof.
  intros Hp. unfold handValue. by rewrite !add_up_spec, (hard_perm _ _ Hp), (aces_perm _ _ Hp).
Qed.

(** A card of the deck counts for at least one. *)
Definition valid_card (c : card) : Prop := c ∈ sorted_deck.
Lemma valid_card_points c : valid_card c -> (1 <= hard_points c)%Z.
Proof.
  unfold valid_card. revert c. apply Forall_forall. unfold sorted_deck. cbn.
  repeat (apply Forall_cons_2; [by vm_compute|]). apply Forall_nil_2.
Qed.

Lemma length_le_hard hand : Forall valid_card hand -> (Z.of_nat (length hand) <= hard hand)%Z.
Proof.
  unfold hard. induction 1 as [|c hand Hc Hh IH]; cbn; [lia|]. apply valid_card_points in Hc. lia.
Qed.

Lemma length_le_value hand : Forall valid_card hand -> (Z.of_nat (length hand) <= handValue hand)%Z.
Proof.
  intros Hv. apply length_le_hard in Hv. destruct (handValue_hard hand) as (k & _ & -> & _). lia.
Qed.

(** The rules of the game, card by card: an ace counts one or eleven, a court card
    ten, any other what it shows. *)
Definition worths (c : card) : list Z :=
  match rank c with
  | "A" => [1; 11]
  | "2" => [2] | "3" => [3] | "4" => [4] | "5" => [5] | "6" => [6] | "7" => [7] | "8" => [8] | "9" => [9]
  | "10" | "J" | "Q" | "K" => [10]
  | _ => []
  end%Z.
(** A total that a hand may be counted at. *)
Definition counts (hand : list card) (n : Z) : Prop :=
  exists vs, Forall2 (fun c v => v ∈ worths c) hand vs /\ foldr Z.add 0%Z vs = n.

Lemma valid_card_worths c : valid_card c ->
  snd (card_points c) = 0%nat /\ worths c = [hard_points c] \/
  snd (card_points c) = 1%nat /\ worths c = [hard_points c; hard_points c + 10]%Z.
Proof.
  unfold valid_card. revert c. apply Forall_forall. unfold sorted_deck. cbn.
  repeat (apply Forall_cons_2; [first [by left | by right]|]). apply Forall_nil_2.
Qed.
Lemma counts_hard hand n : Forall valid_card hand ->
  counts hand n <-> exists k, (k <= aces hand)%nat /\ n = (hard hand + 10 * Z.of_nat k)%Z.
Proof.
  intros Hv. revert n. induction Hv as [|c hand Hc Hv IH]; intros n.
  - split.
    + intros (vs & Hvs & <-). inversion Hvs. by exists 0%nat.
    + intros (k & Hk & ->). exists []. split; [constructor|]. unfold aces, hard in *. cbn in *. lia.
  - assert (counts (c :: hand) n <-> exists v, v ∈ worths c /\ counts hand (n - v)) as ->.
    { split.
      - intros (vs & Hvs & <-). inversion Hvs as [|? v ? vs' Hv1 Hvs']; subst. exists v. split; [done|]. exists vs'.
        split; [done|]. cbn. lia.
      - intros (v & Hv1 & vs & Hvs & E). exists (v :: vs). split; [by constructor|]. cbn. lia. }
    setoid_rewrite IH. assert (aces (c :: hand) = snd (card_points c) + aces hand)%nat as -> by done.
    assert (hard (c :: hand) = hard_points c + hard hand)%Z as -> by done.
    destruct (valid_card_worths c Hc) as [[-> ->]|[-> ->]]; split.
    + intros (v & ->%list_elem_of_singleton & k & Hk & E). exists k. lia.
    + intros (k & Hk & ->). exists (hard_points c). split; [by left|]. exists k. lia.
    + intros (v & [->| ->%list_elem_of_singleton]%elem_of_cons & k & Hk & E); [exists k|exists (S k)]; lia.
    + intros (k & Hk & ->). destruct (decide (k <= aces hand)%nat) as [Hle|Hgt].
      * exists (hard_points c). split; [by left|]. exists k. lia.
      * exists (hard_points c + 10)%Z. split; [by right; left|]. exists (k - 1)%nat. lia.
Qed.

(** ** Shuffling *)

Lemma swap_perm i j deck : (i < length deck)%nat -> (j < length deck)%nat ->
  exists deck', swap i j deck = Some deck' /\ deck' ≡ₚ deck.
Proof.
  intros Hi Hj. destruct (lookup_lt_is_Some_2 _ _ Hi) as [ci Ei]. destruct (lookup_lt_is_Some_2 _ _ Hj) as [cj Ej].
  unfold swap. rewrite Ei, Ej. cbn. eexists. split; [done|].
  apply Permutation_inj. split; [by rewrite !length_insert|].
  exists (fun n => if decide (n = j) then i else if decide (n = i) then j else n). split.
  - intros n n'. repeat case_decide; congruence.
  - intros n. destruct (decide (n = j)) as [->|Hnj].
    + by rewrite list_lookup_insert_eq by (by rewrite length_insert).
    + rewrite list_lookup_insert_ne by done. destruct (decide (n = i)) as [->|Hni].
      * by rewrite list_lookup_insert_eq.
      * by rewrite list_lookup_insert_ne.
Qed.

Lemma Shuffle_perm i rng deck : (forall n, (rng n <= n)%nat) -> (i < length deck)%nat ->
  exists deck', Shuffle i rng deck = Some deck' /\ deck' ≡ₚ deck.
Proof.
  intros Hr. revert deck. induction i as [|i IH]; intros deck Hi; cbn; [by exists deck|].
  destruct (swap_perm (S i) (rng (S i)) deck) as (d & E & Hp); [done|pose proof (Hr (S i)); lia|].
  rewrite E. cbn. destruct (IH d) as (d' & E' & Hp'); [rewrite Hp; lia|]. exists d'. split; [done|]. by rewrite Hp'.
Qed.

Lemma newDeck_perm rng : (forall n, (rng n <= n)%nat) ->
  exists deck, newDeck rng = Some deck /\ deck ≡ₚ sorted_deck.
Proof. intros Hr. apply Shuffle_perm; [done|]. vm_compute. lia. Qed.

Lemma sorted_deck_NoDup : NoDup sorted_deck.
Proof. apply (bool_decide_eq_true_1 (NoDup sorted_deck)). by vm_compute. Qed.

(** ** Turns *)

(** No card was drawn to a hand worth [n] or more. *)
Definition drawn_below (n : Z) (hand : list card) : Prop :=
  forall k, (2 <= k < length hand)%nat -> (handValue (take k hand) < n)%Z.
Lemma drawn_below_dealt n hand : (length hand <= 2)%nat -> drawn_below n hand.
Proof. intros Hl k Hk. lia. Qed.
Lemma drawn_below_snoc n hand c : drawn_below n hand -> (handValue hand < n)%Z -> drawn_below n (hand ++ [c]).
Proof.
  intros Hd Hn k. rewrite length_app. cbn. intros Hk. destruct (decide (k = length hand)) as [->|Hne].
  - by rewrite take_app_length.
  - rewrite take_app_le by lia. apply Hd. lia.
Qed.

Lemma player_turn_spec deck : forall hand input, Forall valid_card (hand ++ deck) ->
  (length hand <= 21)%nat -> (21 <= length hand + length deck)%nat ->
  exists hand' deck' input', player_turn deck hand input = Some (hand', deck', input') /\
    hand' ++ deck' ≡ₚ hand ++ deck /\ (length hand' <= 21)%nat /\ hand `prefix_of` hand' /\
    (drawn_below 21 hand -> drawn_below 21 hand').
Proof.
  induction deck as [|c deck IH]; intros hand input Hv Hl Hn; cbn [player_turn];
    pose proof (length_le_value hand (proj1 (proj1 (Forall_app _ _ _) Hv))) as Hlen;
    (destruct (Z.leb_spec 21 (handValue hand)) as [|Hlt]; [by do 3 eexists|]);
    destruct (read_line input) as [line input1];
    (destruct (negb (String.eqb (to_lower line) "h")); [by do 3 eexists|]); cbn [length] in *; [lia|].
  destruct (IH (hand ++ [c]) input1) as (hand' & deck' & input' & E & Hp & Hl' & Hpre & Hd).
  - by rewrite <- app_assoc.
  - rewrite length_app. cbn. lia.
  - rewrite length_app. cbn. lia.
  - exists hand', deck', input'. rewrite <- app_assoc in Hp. split; [done|]. split; [done|]. split; [done|].
    split; [etransitivity; [|exact Hpre]; by eexists|]. intros Hb. by apply Hd, drawn_below_snoc.
Qed.

Lemma house_turn_spec player deck : forall hand, Forall valid_card (hand ++ deck) ->
  (17 <= length hand + length deck)%nat ->
  exists hand' deck', house_turn player deck hand = Some (hand', deck') /\ hand' ++ deck' ≡ₚ hand ++ deck /\
    hand `prefix_of` hand' /\ ((handValue player <= 21)%Z -> (17 <= handValue hand')%Z) /\
    ((21 < handValue player)%Z -> hand' = hand) /\ (drawn_below 17 hand -> drawn_below 17 hand').
Proof.
  induction deck as [|c deck IH]; intros hand Hv Hn; cbn [house_turn];
    pose proof (length_le_value hand (proj1 (proj1 (Forall_app _ _ _) Hv))) as Hlen;
    destruct (Z.leb_spec (handValue player) 21) as [Hp|Hp], (Z.ltb_spec (handValue hand) 17) as [Hh|Hh];
    cbn [andb length] in *; try lia; try (by do 2 eexists; repeat split; intros; try lia).
  destruct (IH (hand ++ [c])) as (hand' & deck' & E & Hperm & Hpre & H17 & Hb & Hd).
  - by rewrite <- app_assoc.
  - rewrite length_app. cbn. lia.
  - exists hand', deck'. rewrite <- app_assoc in Hperm. split; [done|]. split; [done|].
    split; [etransitivity; [by eexists|exact Hpre]|]. split; [done|]. split; [intros; lia|].
    intros Hb'. by apply Hd, drawn_below_snoc.
Qed.
