(* ===== verification/Launch.v ===== *)
(** * The server binary: cmd/bsvms/main.go

    Configuration from the environment, secret decoding, the peer list, the
    connection retry loop and how the server is assembled. The environment is a
    function from names to values; flags default to it. *)

From S2P Require Import Prelude GoStrings GoTime Encoding Crypto Proto Sdk Ids World Options Service.
From S2P Require Import Auth Registry Handlers.

Section env.
Context (getenv : string -> string).

Definition env (key fallback : string) : string :=
  let v := getenv key in if negb (String.eqb v "") then v else fallback.

Definition envBool (key : string) (fallback : bool) : bool :=
  let v := to_lower (getenv key) in
  if bool_decide (v ∈ ["1"; "true"; "yes"; "on"]) then true
  else if bool_decide (v ∈ ["0"; "false"; "no"; "off"]) then false
  else fallback.

Definition envInt (key : string) (fallback : Z) : Z :=
  let v := getenv key in
  if negb (String.eqb v "") then match atoi v with Some n => n | None => fallback end else fallback.
End env.

Definition secretBytes (value : string) : bytes :=
  if String.eqb value "" then [] else
  match b64_decode StdEncoding value with
  | Ok decoded => decoded
  | Err _ =>
      match b64_decode RawURLEncoding value with
      | Ok decoded => decoded
      | Err _ => bytes_of_string value
      end
  end.

Definition splitList (value : string) : list string :=
  filter (fun item => item <> "") (trim_space <$> split_char "," value).

Definition network (name : string) : bsv.NetworkType :=
  let n := to_lower name in
  if String.eqb n "testnet" then bsv.Testnet
  else if String.eqb n "stn" then bsv.STN
  else if String.eqb n "regtest" then bsv.Regtest
  else bsv.Mainnet.

(** The flags, as the environment sets their defaults. *)
Record flags := MkFlags {
  f_addr : string; f_dataDir : string; f_networkName : string; f_connect : bool; f_peers : string;
  f_authEnabled : bool; f_enableCustomSpend : bool; f_jwtSecret : string; f_dataKey : string;
  f_broadcastFanout : Z; f_noPendingTracking : bool }.
Definition default_flags (getenv : string -> string) : flags := {|
  f_addr := env getenv "BSVMS_ADDR" ":50051";
  f_dataDir := env getenv "BSVMS_DATA_DIR" "data";
  f_networkName := env getenv "BSVMS_NETWORK" "mainnet";
  f_connect := envBool getenv "BSVMS_CONNECT" true;
  f_peers := env getenv "BSVMS_PEERS" "";
  f_authEnabled := envBool getenv "BSVMS_AUTH" false;
  f_enableCustomSpend := envBool getenv "BSVMS_ENABLE_CUSTOM_SPEND" false;
  f_jwtSecret := env getenv "BSVMS_JWT_SECRET" "";
  f_dataKey := env getenv "BSVMS_DATA_KEY" "";
  f_broadcastFanout := envInt getenv "BSVMS_BROADCAST_FANOUT" 0;
  f_noPendingTracking := envBool getenv "BSVMS_NO_PENDING_TX_TRACKING" false |}.

(** The [service.Options] literal; the times to live are left to default. *)
Definition options_of (f : flags) : Options := {|
  AuthEnabled := f_authEnabled f; EnableCustomSpend := f_enableCustomSpend f;
  JWTSecret := secretBytes (f_jwtSecret f); DataKey := secretBytes (f_dataKey f);
  AccessTTL := 0; RefreshTTL := 0;
  BroadcastFanout := f_broadcastFanout f; DisablePendingTxTracking := f_noPendingTracking f |}.

Section launch.
Context `{Env} `{Mac} `{Hash} `{Aead}.

(** The loop of [connectPeerWithRetry]; [None] when the fuel runs out. *)
Fixpoint retryPeer (fuel : nat) (peer : string) (deadline : Z) (lastErr : option error) :
    M world (option (result unit)) :=
  match fuel with
  | O => mret None
  | S fuel =>
      now ← time_now;
      if (now <? deadline)%Z then
        r ← node (NodeConnectPeer peer);
        match (r : result unit) with
        | Err err =>
            _ ← host (Sleep Second);
            retryPeer fuel peer deadline (Some err)
        | Ok _ => mret (Some (Ok ()))
        end
      else mret (Some (match lastErr with Some err => Err err | None => Ok () end))
  end.
Definition connectPeerWithRetry (fuel : nat) (peer : string) (timeout : Z) : M world (option (result unit)) :=
  start ← time_now;
  retryPeer fuel peer (start + timeout)%Z None.

(** A unary call as the server main assembles it: the interceptors are
    installed only when authentication is on. *)
Definition server_call (ctx : context) (r : rpc) (h : rpc_request r -> M Service (rpc_response r))
    (req : rpc_request r) : M Service (rpc_response r) :=
  enabled ← gets (fun s => AuthEnabled (sv_opts s));
  if (enabled : bool) then serve ctx r h req else h req.

(** Installing the interceptors only when authentication is on changes no
    answer and no effect: the server as assembled behaves as if every call went
    through the interceptor. *)
Lemma server_call_serve ctx r h req s : server_call ctx r h req s = serve ctx r h req s.
Proof.
  unfold server_call. unfold mbind at 1, M_bind at 1, gets.
  destruct (AuthEnabled (sv_opts s)) eqn:E; [done|].
  unfold serve, UnaryAuthInterceptor. erewrite bind_run; [reflexivity|].
  unfold authorize. erewrite bind_run by reflexivity. rewrite E. reflexivity.
Qed.

(** ** Retrying ends *)

(** The clock never goes back, and sleeping a second moves it a second on. *)
Record clock_advances : Prop := {
  ca_mono : forall tr c, (oracle tr (HostCall TimeNow) <= oracle (tr ++ [c]) (HostCall TimeNow))%Z;
  ca_sleep : forall tr,
    (oracle tr (HostCall TimeNow) + Second <= oracle (tr ++ [HostCall (Sleep Second)]) (HostCall TimeNow))%Z;
}.

Lemma retryPeer_total fuel peer deadline : clock_advances -> forall last w,
  (deadline <= oracle (w_trace w) (HostCall TimeNow) + (Z.of_nat fuel - 1) * Second)%Z -> (0 < fuel)%nat ->
  exists r w', retryPeer fuel peer deadline last w = (Ok (Some r), w').
Proof.
  intros [Hm Hs]. induction fuel as [|fuel IH]; intros last w Hd Hf; [lia|]. cbn [retryPeer].
  unfold time_now, node, host, call, mbind, M_bind. cbn [w_trace log].
  destruct (Z.ltb_spec (oracle (w_trace w) (HostCall TimeNow)) deadline) as [Hlt|]; [|by do 2 eexists].
  destruct (oracle (w_trace (log (HostCall TimeNow) w)) (NodeCall (NodeConnectPeer peer))) as [u|e]; [by do 2 eexists|].
  destruct fuel as [|fuel]; [exfalso; unfold Second in *; lia|]. apply IH; [|lia]. cbn [w_trace log].
  pose proof (Hm (w_trace w) (HostCall TimeNow)).
  pose proof (Hm (w_trace w ++ [HostCall TimeNow]) (NodeCall (NodeConnectPeer peer))).
  pose proof (Hs ((w_trace w ++ [HostCall TimeNow]) ++ [NodeCall (NodeConnectPeer peer)])). lia.
Qed.
End launch.

(** ** Secrets *)

Lemma secretBytes_std k : k <> [] -> secretBytes (b64_encode StdEncoding k) = k.
Proof.
  intros Hk. unfold secretBytes. rewrite b64_decode_encode by auto.
  destruct (String.eqb_spec (b64_encode StdEncoding k) "") as [E|]; [|done].
  exfalso. apply Hk. pose proof (b64_decode_encode StdEncoding k std_supported) as Hd.
  rewrite E in Hd. vm_compute in Hd. by injection Hd.
Qed.

(** A raw 32-character secret of base64 letters is taken for base64. *)
Lemma secretBytes_raw_alphabet k s : k <> 0%nat ->
  str_forall (b64_member StdEncoding) s = true -> String.length s = (4 * k)%nat ->
  length (secretBytes s) = (3 * k)%nat.
Proof.
  intros Hk Hs Hl. destruct (std_decode_length k s) as (raw & E & Hr); [done|done|].
  unfold secretBytes. destruct (String.eqb_spec s "") as [->|]; [cbn in Hl; lia|]. by rewrite E.
Qed.

(** ** Lists *)

Definition clean_item (s : string) : Prop := lacks "," s = true /\ trim_space s = s /\ s <> "".

Lemma splitList_join p parts : Forall clean_item (p :: parts) ->
  splitList (str_join "," (p :: parts)) = p :: parts.
Proof.
  intros Hc. unfold splitList. rewrite split_join.
  - assert (trim_space <$> (p :: parts) = p :: parts) as ->.
    { induction Hc as [|x l (_ & Hx & _) _ IH]; [done|]. cbn. rewrite Hx. by f_equal. }
    induction Hc as [|x l (_ & _ & Hx) _ IH]; [done|]. rewrite filter_cons_True by done. by rewrite IH.
  - eapply Forall_impl; [exact Hc|]. by intros x (? & _ & _).
Qed.
