(* ===== verification/ErrorTypes.v ===== *)
(** * The error type of every unary method

    A Go function only says that it may return an error; which status codes a
    method can answer with is settled by all the code it calls. [error_type] names
    them for each method. The judgement [typed E n m] says that on a registry
    whose pointers are good, [m] fails only with an error in [E] and leaves the
    pointers good; [n] is a size the heap is known to have, so that a pointer below
    it can be followed. It has a rule for each construct, and the methods are
    typed by applying them. *)

From S2P Require Import Prelude GoStrings GoTime Encoding Crypto Proto Broker Sdk Ids World Encryption.
From S2P Require Import Options Service Auth AuthSpec Registry RegistrySpec Handlers HandlersSpec Launch.

(** ** Error types *)

(** The codes of the status errors a method answers. *)
Definition error_type (r : rpc) : list code :=
  match r with
  | BSVMS_Status | BSVMS_OpReturnOutput | BSVMS_AnyoneCanSpendOutput | BSVMS_DecodeOutputAddress
  | BSVMS_PendingTransactions | BSVMS_RebroadcastPendingTransactions => []
  | BSVMS_RefreshToken => [FailedPrecondition; Unauthenticated]
  | BSVMS_ListWallets => [InvalidArgument]
  | BSVMS_CreateWallet | BSVMS_RestoreWallet => [InvalidArgument; AlreadyExists; Internal]
  | BSVMS_BroadcastCustomSpend => [FailedPrecondition; InvalidArgument; Internal]
  | BSVMS_ConnectPeer | BSVMS_VerifyTxSeen | BSVMS_WaitForTxRelay => [InvalidArgument; Internal]
  | BSVMS_P2PKHOutput | BSVMS_ParseTransaction | BSVMS_BroadcastRaw | BSVMS_ExecuteScript => [Internal]
  | BSVMS_GetWallet | BSVMS_NextIndex | BSVMS_Balance | BSVMS_ListUTXOs | BSVMS_ClearUTXOs
  | BSVMS_PruneUnknownUTXOs | BSVMS_IgnoreOutpoint | BSVMS_IsOutpointIgnored | BSVMS_UntrackUTXO
  | BSVMS_ClearIgnoredOutpoints | BSVMS_OwnsScript => [InvalidArgument; NotFound]
  | _ => [InvalidArgument; NotFound; Internal]
  end.
(** What the interceptor adds. *)
Definition access_errors : list code := [Unauthenticated; PermissionDenied].

(** A status error with one of the codes; any error at all. *)
Definition status_in (cs : list code) (e : error) : Prop := exists c msg, e = EStatus c msg /\ c ∈ cs.
Definition raw (e : error) : Prop := True.

Lemma status_in_weaken cs cs' e : cs ⊆ cs' -> status_in cs e -> status_in cs' e.
Proof. intros Hs (c & msg & -> & Hc). exists c, msg. split; [done|]. by apply Hs. Qed.

(** Every error [f] makes. *)
Definition always (E : error -> Prop) (f : error -> error) : Prop := forall e, E (f e).

Create HintDb typed discriminated.
#[export] Hint Extern 1 (status_in _ _) => eexists _, _; split; [reflexivity|set_solver] : typed.
#[export] Hint Extern 1 (raw _) => exact I : typed.
#[export] Hint Extern 2 (_ < _) => lia : typed.
#[export] Hint Unfold walletProto : typed.

(** ** The judgement *)

(** Every registered pointer points into the heap. *)
Definition pointers_ok (s : Service) : Prop :=
  forall k l, sv_wallets s !! k = Some l -> l < length (sv_heap s).
Lemma registry_pointers s : registry_ok s -> pointers_ok s.
Proof. intros Hok k l Hk. destruct (reg_ptr s Hok k l Hk) as (tw & Htw & _). by eapply lookup_lt_Some. Qed.

(** One run: where it leads, and how it may fail. *)
Definition sound_run {A} (E : error -> Prop) (s : Service) (out : result A * Service) : Prop :=
  pointers_ok (snd out) /\ length (sv_heap s) <= length (sv_heap (snd out)) /\
  match fst out with Ok _ => True | Err e => E e end.
Definition typed {A} (E : error -> Prop) (n : nat) (m : M Service A) : Prop :=
  forall s, pointers_ok s -> n <= length (sv_heap s) -> sound_run E s (m s).

Section rules.
Context (E : error -> Prop).

(** Steps that leave registry and heap alone are typed by how they fail. *)
Lemma typed_still {A} n (m : M Service A) : moves only_world m ->
  (forall s, pointers_ok s -> n <= length (sv_heap s) -> match fst (m s) with Ok _ => True | Err e => E e end) ->
  typed E n m.
Proof.
  intros Hm He s Hp Hn. split; [|split]; [| |by apply He]; specialize (Hm s); rewrite Hm; [exact Hp|done].
Qed.
Lemma typed_ret {A} n (a : A) : typed E n (mret a).
Proof. apply typed_still; [by auto with moves|done]. Qed.
Lemma typed_gets {A} n (f : Service -> A) : typed E n (gets f).
Proof. apply typed_still; [by auto with moves|done]. Qed.
Lemma typed_throw {A} n e : E e -> typed E n (throw e : M Service A).
Proof. intros He. apply typed_still; [by auto with moves|done]. Qed.
Lemma typed_lift {A} n (r : result A) : (forall e, r = Err e -> E e) -> typed E n (lift r).
Proof. intros He. apply typed_still; [by auto with moves|]. destruct r; cbn; auto. Qed.
Lemma typed_W {A} n (m : M world A) : (forall w e w', m w = (Err e, w') -> E e) -> typed E n (W m).
Proof.
  intros He. apply typed_still; [by auto with moves|]. intros s _ _. unfold W, zoom.
  destruct (m (sv_world s)) as [[a|e] w] eqn:Em; [done|]. by eapply He.
Qed.
Lemma typed_deref n l : l < n -> typed E n (deref l).
Proof.
  intros Hl. apply typed_still; [by auto with moves|]. intros s _ Hn. unfold deref, gets, mbind, M_bind.
  destruct (lookup_lt_is_Some_2 (sv_heap s) l) as [tw ->]; [lia|done].
Qed.
Lemma typed_modify n f : (forall s, sv_wallets (f s) = sv_wallets s /\ sv_heap (f s) = sv_heap s) ->
  typed E n (modify f).
Proof.
  intros Hf s Hp Hn. destruct (Hf s) as [Hw Hh]. unfold sound_run, pointers_ok. cbn. rewrite Hw, Hh. done.
Qed.

Lemma typed_weaken {A} n m (k : M Service A) : n <= m -> typed E n k -> typed E m k.
Proof. intros Hn Hk s Hp Hm. apply Hk; [done|lia]. Qed.
Lemma typed_bind {A B} n (m : M Service A) (k : A -> M Service B) :
  typed E n m -> (forall a, typed E n (k a)) -> typed E n (m ≫= k).
Proof.
  intros Hm Hk s Hp Hn. unfold mbind, M_bind. destruct (Hm s Hp Hn) as (Hp1 & Hl1 & He1).
  destruct (m s) as [[a|e] s1]; cbn in *; [|done].
  destruct (Hk a s1 Hp1 ltac:(lia)) as (Hp2 & Hl2 & He2). split; [done|]. split; [|done]. etrans; eassumption.
Qed.
End rules.

Lemma typed_any {A} (E E' : error -> Prop) n (m : M Service A) : (forall e, E e -> E' e) -> typed E n m -> typed E' n m.
Proof.
  intros HE Hm s Hp Hn. destruct (Hm s Hp Hn) as (Hp' & Hl & He). split; [done|]. split; [done|].
  destruct (fst (m s)); auto.
Qed.
Lemma typed_on_error {A} E n f (m : M Service A) : always E f -> typed raw n m -> typed E n (on_error f m).
Proof.
  intros HE Hm s Hp Hn. destruct (Hm s Hp Hn) as (Hp' & Hl & He). unfold on_error.
  destruct (m s) as [[a|e] s1]; cbn in *; (split; [done|split; [done|]]); cbn; auto.
Qed.
Lemma typed_try {A} E n (m : M Service A) : typed raw n m -> typed E n (try_ m).
Proof.
  intros Hm s Hp Hn. destruct (Hm s Hp Hn) as (Hp' & Hl & He). unfold try_. by destruct (m s).
Qed.
#[export] Hint Resolve typed_ret typed_gets typed_throw typed_deref typed_on_error typed_try : typed.
#[export] Hint Extern 1 (always _ _) => intros ?; cbv beta : typed.

(** ** Pointers *)

Section pointers.
Context `{Env} `{Mac} `{Hash} `{Aead}.

Lemma lookup_status t w e : validateTenantWallet t w = Err e -> status_in [InvalidArgument; NotFound] e.
Proof.
  unfold validateTenantWallet, validateTenant, reject_if.
  destruct (idRE_MatchString t), (idRE_MatchString w); cbn; intros [= <-]; auto with typed.
Qed.

(** A looked-up wallet can be followed. *)
Lemma typed_wallet {B} (E : error -> Prop) n t w (k : loc -> M Service B) :
  (forall e, status_in [InvalidArgument; NotFound] e -> E e) ->
  (forall l m, n <= m -> l < m -> typed E m (k l)) -> typed E n (wallet t w ≫= k).
Proof.
  intros HE Hk s Hp Hn. destruct (wallet t w s) as [[l|e] s1] eqn:Ew.
  - rewrite (bind_run _ _ _ _ _ Ew). apply wallet_ok in Ew as (_ & _ & Hl & ->).
    apply (Hk l (length (sv_heap s))); [done|by eapply Hp|done|done].
  - rewrite (bind_run_err _ _ _ _ _ Ew). pose proof (wallet_only_world t w s) as Ho. rewrite Ew in Ho. cbn in Ho.
    rewrite Ho. split; [exact Hp|]. split; [done|]. cbn. apply HE. clear Ho. revert Ew.
    unfold wallet, lift, gets, mbind, M_bind. destruct (validateTenantWallet t w) as [[]|e'] eqn:Ev; cbn.
    + destruct (sv_wallets s !! walletKey t w); cbn; intros [= <- _]; auto with typed.
    + intros [= <- _]. by eapply lookup_status.
Qed.
(** A new wallet can be followed and registered. *)
Lemma typed_alloc {B} (E : error -> Prop) n tw (k : loc -> M Service B) :
  (forall l m, n <= m -> l < m -> typed E m (k l)) -> typed E n (alloc tw ≫= k).
Proof.
  intros Hk s Hp Hn. unfold alloc, gets, modify, mbind, M_bind. cbn. set (s1 := set_heap _ s).
  assert (length (sv_heap s1) = S (length (sv_heap s))) as E1 by (unfold s1; cbn; rewrite length_app; cbn; lia).
  assert (pointers_ok s1) as Hp1 by (intros k' l' Hl'; rewrite E1; apply Hp in Hl'; lia).
  destruct (Hk (length (sv_heap s)) (length (sv_heap s1)) ltac:(lia) ltac:(lia) s1 Hp1 ltac:(done)) as (Ha & Hb & Hc).
  split; [done|]. split; [lia|done].
Qed.
Lemma typed_register E n key l : l < n -> typed E n (modify (set_wallets (fun ws => <[key := l]> ws))).
Proof.
  intros Hl s Hp Hn. split; [|done]. intros k l'. cbn. intros [[_ <-]|[_ Hk]]%lookup_insert_Some; [lia|by eapply Hp].
Qed.
End pointers.

Ltac typed_tac :=
  repeat first
    [ solve [auto 4 with typed]
    | apply typed_wallet; [intros ?; apply status_in_weaken; set_solver | intros ????]
    | apply typed_alloc; intros ????
    | apply typed_bind; [by auto with typed | intros ?]
    | apply typed_on_error; [by auto with typed|]
    | case_match ];
  auto with typed.
#[export] Hint Resolve typed_register : typed.

(** ** What the methods share *)

Section shared.
Context `{Env} `{Mac} `{Hash} `{Aead} (E : error -> Prop) (n : nat).

Lemma typed_W_raw {A} (m : M world A) : typed raw n (W m).
Proof. by apply typed_W. Qed.
Lemma typed_call c : typed E n (W (World.call c)).
Proof. by apply typed_W. Qed.
Lemma typed_wcall l c : l < n -> typed E n (wcall l c).
Proof. intros Hl. unfold wcall. apply typed_bind; [by apply typed_deref|]. intros tw. by apply typed_W. Qed.
Lemma typed_lift_raw {A} (r : result A) : typed raw n (lift r).
Proof. by apply typed_lift. Qed.
End shared.
#[export] Hint Resolve typed_bind : typed.
(** Calls, whose answer's type computes. *)
Ltac typed_calls :=
  match goal with
  | |- typed ?E ?n (@wcall _ ?l ?c) => refine (typed_wcall E n l c _); lia
  | |- typed ?E ?n (@W _ (@World.call _ ?c)) => exact (typed_call E n c)
  | |- typed ?E ?n (@W _ (node ?c)) => exact (typed_call E n (NodeCall c))
  | |- typed ?E ?n (@W _ (host ?c)) => exact (typed_call E n (HostCall c))
  | |- typed ?E ?n (@W _ (wallet_call_ ?q ?c)) => exact (typed_call E n (WalletCall q c))
  | |- typed ?E ?n (@W _ time_now) => exact (typed_call E n (HostCall TimeNow))
  | |- typed raw ?n (@W _ ?m) => exact (typed_W_raw n m)
  | |- typed raw ?n (@lift _ _ ?r) => exact (typed_lift_raw n r)
  end.
#[export] Hint Extern 1 (typed _ _ _) => typed_calls : typed.

Section helpers.
Context `{Env} `{Mac} `{Hash} `{Aead} (E : error -> Prop) (n : nat).

Lemma typed_wcall_or {A} f (m : M Service (result A)) : always E f -> typed raw n m -> typed E n (wcall_or f m).
Proof. intros Hf Hm. unfold wcall_or. typed_tac. Qed.
Hint Resolve typed_wcall_or : typed.
Lemma typed_saveSnapshotLocked l : l < n -> typed raw n (saveSnapshotLocked l).
Proof. intros Hl. unfold saveSnapshotLocked. typed_tac. Qed.
Hint Resolve typed_saveSnapshotLocked : typed.
Lemma typed_saveSnapshot l : l < n -> typed E n (saveSnapshot l).
Proof. intros Hl. unfold saveSnapshot. typed_tac. Qed.
Lemma typed_walletAddresses l : l < n -> typed E n (walletAddresses l).
Proof. intros Hl. unfold walletAddresses. typed_tac. Qed.
Hint Resolve typed_walletAddresses : typed.
Lemma typed_walletProtoLocked l : l < n -> typed E n (walletProtoLocked l).
Proof. intros Hl. unfold walletProtoLocked. typed_tac. Qed.
Lemma typed_randomID : typed E n (W randomID).
Proof.
  apply typed_W. intros w e w'. unfold randomID, mbind, M_bind. rewrite rand_read_run. cbn.
  by destruct (oracle (w_trace w) (HostCall (RandRead 16))).
Qed.
Hint Resolve typed_randomID : typed.
Lemma typed_sign k c : typed E n (lift (signJWT k c)).
Proof. by apply typed_lift. Qed.
Hint Resolve typed_sign : typed.
Lemma typed_issueTokens t w : typed E n (issueTokens t w).
Proof. unfold issueTokens. typed_tac. Qed.
Hint Resolve typed_issueTokens : typed.
Lemma typed_tokensForWallet m : typed E n (tokensForWallet m).
Proof. unfold tokensForWallet. typed_tac. Qed.
Lemma typed_probe m : always E internal -> typed E n m -> typed E n (probe m).
Proof. intros Hi Hm. unfold probe. apply typed_bind; [done|]. intros [b|e]; typed_tac. Qed.
Lemma typed_tx_outputs outs : forall i, typed E n (tx_outputs i outs).
Proof. induction outs; intros i; cbn [tx_outputs]; typed_tac. Qed.
Lemma typed_tx_inputs tx ins : forall i, typed E n (tx_inputs tx i ins).
Proof. induction ins; intros i; cbn [tx_inputs]; typed_tac. Qed.
Hint Resolve typed_tx_outputs typed_tx_inputs : typed.
Lemma typed_tx_proto tx : typed E n (tx_proto tx).
Proof. unfold tx_proto. typed_tac. Qed.
Lemma typed_outPoints src : always E (fun _ => invalid "invalid from_inputs txid") -> typed E n (outPoints src).
Proof. intros HE. induction src; cbn [outPoints]; typed_tac. Qed.
Lemma typed_customInputs src : always E (fun _ => invalid "invalid input txid") -> typed E n (customInputs src).
Proof. intros HE. induction src; cbn [customInputs]; typed_tac. Qed.
Lemma typed_saveStateLocked : typed raw n saveStateLocked.
Proof. unfold saveStateLocked. typed_tac. Qed.
Lemma typed_newWalletMeta t w sdk mn pp : typed raw n (newWalletMeta t w sdk mn pp).
Proof. unfold newWalletMeta. typed_tac. Qed.
End helpers.
#[export] Hint Resolve typed_wcall_or typed_saveSnapshotLocked typed_saveSnapshot typed_walletProtoLocked
  typed_issueTokens typed_tokensForWallet typed_probe typed_tx_proto typed_outPoints typed_customInputs
  typed_saveStateLocked typed_newWalletMeta : typed.

(** ** The methods *)

Section methods.
Context `{Env} `{Mac} `{Hash} `{Aead}.

Lemma openStore_typed E n m w : always E internal -> typed E n (openStore m w).
Proof. intros HE. unfold openStore. typed_tac. Qed.
Hint Resolve openStore_typed : typed.
Lemma attach_typed {B} E n m w (k : loc -> M Service B) : always E internal ->
  (forall l m, n <= m -> l < m -> typed E m (k l)) -> typed E n (attachWalletLocked m w ≫= k).
Proof.
  intros HE Hk s Hp Hn.
  assert (typed E n (store ← openStore m w;
    l ← alloc {| tw_meta := m; tw_w := w; tw_store := store; tw_rescanning := false |};
    (_ ← modify (set_wallets (fun ws => <[walletKey (TenantID m) (WalletID m) := l]> ws));
     _ ← registerWalletEvents l;
     k l))) as Ht.
  { apply typed_bind; [by auto with typed|]. intros store. apply typed_alloc. intros l m' Hm Hl.
    unfold registerWalletEvents. apply typed_bind; [by auto with typed|]. intros _.
    apply typed_bind; [typed_tac|]. intros _. by apply Hk. }
  specialize (Ht s Hp Hn). revert Ht. unfold attachWalletLocked, mbind, M_bind, mret, M_ret.
  destruct (openStore m w s) as [[st|e] s1]; [|done]. destruct (alloc _ s1) as [[l|e] s2]; [|done]. cbn.
  by destruct (registerWalletEvents _ _) as [[u|e] s3].
Qed.
Lemma finish_typed E n m l : always E internal -> l < n -> typed E n (finishWallet m l).
Proof. intros HE Hl. unfold finishWallet. typed_tac. Qed.
Hint Resolve finish_typed : typed.
Lemma validateJWT_typed n token typ : typed (status_in [Unauthenticated]) n (validateJWT token typ).
Proof.
  unfold validateJWT. destruct (split_char "." token) as [|? [|? [|? [|]]]]; typed_tac.
Qed.
Lemma validateJWT_within cs n token typ : Unauthenticated ∈ cs -> typed (status_in cs) n (validateJWT token typ).
Proof.
  intros Hc. eapply typed_any, validateJWT_typed. intros e. apply status_in_weaken. set_solver.
Qed.
Lemma invalid_ids cs n t w : InvalidArgument ∈ cs -> typed (status_in cs) n (lift (validateTenantWallet t w)).
Proof.
  intros Hc. apply typed_lift. unfold validateTenantWallet, validateTenant, reject_if.
  intros e. destruct (idRE_MatchString t), (idRE_MatchString w); cbn; intros [= <-]; by eexists _, _.
Qed.
Hint Extern 1 (typed _ _ (validateJWT _ _)) => apply validateJWT_within; set_solver : typed.
Hint Extern 1 (typed _ _ (lift (validateTenantWallet _ _))) => apply invalid_ids; set_solver : typed.

Lemma CreateWallet_typed req : typed (status_in (error_type BSVMS_CreateWallet)) 0 (CreateWallet req).
Proof.
  unfold CreateWallet. cbn [error_type]. cbv zeta. typed_tac.
  apply attach_typed; [by auto with typed|]. intros. typed_tac.
Qed.
Lemma RestoreWallet_typed req : typed (status_in (error_type BSVMS_RestoreWallet)) 0 (RestoreWallet req).
Proof.
  unfold RestoreWallet. cbn [error_type]. cbv zeta. typed_tac.
  apply attach_typed; [by auto with typed|]. intros. typed_tac.
Qed.
Lemma wallet_protos_typed E n ws keys : Forall (fun k => exists l, ws !! k = Some l /\ l < n) keys ->
  typed E n (wallet_protos ws keys).
Proof.
  induction 1 as [|k keys (l & Hk & Hl) _ IH]; cbn [wallet_protos]; [by auto with typed|]. rewrite Hk. typed_tac.
Qed.
(** The keys [ListWallets] collects are keys of the map it reads. *)
Lemma ListWallets_typed req : typed (status_in (error_type BSVMS_ListWallets)) 0 (ListWallets req).
Proof.
  unfold ListWallets. cbn [error_type]. cbv zeta. apply typed_bind.
  { apply typed_lift. unfold validateTenant, reject_if. intros e.
    destruct (idRE_MatchString _); cbn; intros [= <-]; by auto with typed. }
  intros _ s Hp Hn. unfold gets, mbind at 1 2, M_bind at 1 2.
  refine (typed_bind _ (length (sv_heap s)) _ _ _ _ s Hp _); [|intros; by auto with typed|done].
  apply wallet_protos_typed, Forall_forall. intros k Hk. unfold tenant_keys in Hk.
  rewrite merge_sort_Permutation in Hk. apply list_elem_of_omap in Hk as ([k' l] & Hin & Hs).
  apply elem_of_map_to_list in Hin. destruct (sv_heap s !! l); [|done]. case_match; [|done].
  injection Hs as <-. exists l. split; [done|]. by eapply Hp.
Qed.
Lemma RefreshToken_typed req : typed (status_in (error_type BSVMS_RefreshToken)) 0 (RefreshToken req).
Proof. unfold RefreshToken. cbn [error_type]. typed_tac. Qed.

Lemma unary_typed r h req : unary r = Some h -> typed (status_in (error_type r)) 0 (h req).
Proof.
  pose proof CreateWallet_typed. pose proof RestoreWallet_typed. pose proof ListWallets_typed. pose proof RefreshToken_typed.
  intros Hr. destruct r; injection Hr as <- || discriminate Hr; auto;
    match goal with |- typed _ _ ?m => unfold_head m end; cbn [error_type]; cbv zeta; typed_tac.
Qed.
Lemma subject_errors sub method req e : authorize_subject sub method req = Err e -> status_in access_errors e.
Proof. unfold authorize_subject, access_errors. repeat case_match; intros [= <-]; by auto with typed. Qed.
Lemma subject_typed n sub method req : typed (status_in access_errors) n (lift (authorize_subject sub method req)).
Proof. apply typed_lift. intros e. apply subject_errors. Qed.
Lemma bootstrap_typed E n req : typed E n (bootstrapAllowed req).
Proof. unfold bootstrapAllowed. typed_tac. Qed.
Hint Resolve subject_typed bootstrap_typed : typed.
Lemma subject_of_context_typed n ctx : typed (status_in access_errors) n (authSubjectFromContext ctx).
Proof. unfold authSubjectFromContext, access_errors. typed_tac. Qed.
Hint Resolve subject_of_context_typed : typed.
Lemma authorize_typed n ctx method req : typed (status_in access_errors) n (authorize ctx method req).
Proof. unfold authorize. typed_tac. Qed.
Lemma authorize_off ctx method req s : AuthEnabled (sv_opts s) = false -> authorize ctx method req s = (Ok (), s).
Proof. intros Ha. unfold authorize, gets, mbind, M_bind. by rewrite Ha. Qed.

(** A whole call: what the method answers, or a refusal while authentication is on. *)
Lemma server_call_typed ctx r h req s e s' : registry_ok s -> unary r = Some h ->
  server_call ctx r h req s = (Err e, s') ->
  status_in (error_type r) e \/ AuthEnabled (sv_opts s) = true /\ status_in access_errors e.
Proof.
  intros Hok Hr. apply registry_pointers in Hok.
  unfold server_call, serve, UnaryAuthInterceptor, gets, mbind, M_bind.
  pose proof (unary_typed r h req Hr) as Hm. destruct (AuthEnabled (sv_opts s)) eqn:Ea.
  - destruct (authorize_typed 0 ctx (full_method r) (Some (rpc_reflect r req)) s Hok ltac:(lia)) as (Hp & _ & He).
    destruct (authorize _ _ _ s) as [[u|e1] s1]; cbn in *.
    + specialize (Hm s1 Hp ltac:(lia)) as (_ & _ & Hm). intros E. rewrite E in Hm. by left.
    + intros [= <- _]. by right.
  - specialize (Hm s Hok ltac:(lia)) as (_ & _ & Hm). intros E. rewrite E in Hm. by left.
Qed.
End methods.
