(* ===== verification/Conc.v ===== *)
(** * Calls in flight: handlers as threads

    gRPC serves every call in a goroutine of its own; [s.mu] guards the registry.
    A [prog] is what such a goroutine still has to do: take or release the mutex,
    make a step, return. The handlers of internal/service are written here a
    second time, with every call to the SDK a step of its own, under the mutex or
    not, and the registry touched only between [Acquire] and [Release], where the
    code holds [s.mu]; [run] executes one of them alone, and ConcSeq shows that
    this is the handler of modules Registry and Handlers. A [pool] is the service with its calls in
    flight; [advance] moves one of them. *)

From S2P Require Import Prelude GoStrings GoTime Encoding Crypto Json Proto Broker Sdk Ids World Encryption Options.
From S2P Require Import Service Auth Registry Handlers Events Rescan.

(** ** Programs *)

Inductive prog (A : Type) : Type :=
  | Return (r : result A)
  | Acquire (k : prog A)                                  (* s.mu.Lock() *)
  | Release (k : prog A)                                  (* s.mu.Unlock() *)
  | Act {X : Type} (m : M Service X) (k : result X -> prog A).
Arguments Return {A} r.
Arguments Acquire {A} k.
Arguments Release {A} k.
Arguments Act {A X} m k.

Fixpoint prog_bind {A B} (p : prog A) (f : A -> prog B) : prog B :=
  match p with
  | Return (Ok a) => f a
  | Return (Err e) => Return (Err e)
  | Acquire k => Acquire (prog_bind k f)
  | Release k => Release (prog_bind k f)
  | Act m k => Act m (fun r => prog_bind (k r) f)
  end.
#[export] Instance prog_ret : MRet prog := fun A a => Return (Ok a).
#[export] Instance prog_mbind : MBind prog := fun A B f p => prog_bind p f.

(** What is returned, changed. *)
Fixpoint prog_map {A B} (f : result A -> result B) (p : prog A) : prog B :=
  match p with
  | Return r => Return (f r)
  | Acquire k => Acquire (prog_map f k)
  | Release k => Release (prog_map f k)
  | Act m k => Act m (fun r => prog_map f (k r))
  end.
Definition prog_error {A} (f : error -> error) : prog A -> prog A := prog_map (map_error f).
Definition prog_try {A} : prog A -> prog (result A) := prog_map Ok.

Definition act {A} (m : M Service A) : prog A := Act m Return.
Definition fail {A} (e : error) : prog A := Return (Err e).
(** [s.mu.Lock(); defer s.mu.Unlock()]: released on every way out. *)
Fixpoint then_release {A} (p : prog A) : prog A :=
  match p with
  | Return r => Release (Return r)
  | Acquire k => Acquire (then_release k)
  | Release k => Release (then_release k)
  | Act m k => Act m (fun r => then_release (k r))
  end.
Definition locked {A} (p : prog A) : prog A := Acquire (then_release p).
(** A call whose error becomes a status. *)
Definition or_status {A} (f : error -> error) (p : prog (result A)) : prog A := prog_error f (r ← p; Return r).

(** Alone, undisturbed. *)
Fixpoint run {A} (p : prog A) : M Service A := fun s =>
  match p with
  | Return r => (r, s)
  | Acquire k => run k s
  | Release k => run k s
  | Act m k => let '(r, s') := m s in run (k r) s'
  end.

Section handlers.
Context `{Env} `{Mac} `{Hash} `{Aead}.

Definition sdk (q : wallet_ptr) (c : wallet_call) : prog (wallet_ret c) := act (W (wallet_call_ q c)).
Definition on_node (c : node_call) : prog (node_ret c) := act (W (node c)).

(** [tw.w.X()], through the pointer. *)
Definition through (l : loc) (c : wallet_call) : prog (wallet_ret c) := act (wcall l c).

(** ** The registry's sections *)

(** [s.wallets[key]], and the SDK wallet of the entry, a field that never changes. *)
Definition find_wallet (tenantID walletID : string) : M Service (loc * wallet_ptr) :=
  ws ← gets sv_wallets;
  match ws !! walletKey tenantID walletID with
  | None => throw (EStatus NotFound "wallet not found")
  | Some l => tw ← deref l; mret (l, tw_w tw)
  end.
Definition wallet_c (tenantID walletID : string) : prog (loc * wallet_ptr) :=
  _ ← Return (validateTenantWallet tenantID walletID);
  locked (act (find_wallet tenantID walletID)).

(** The temporary file and the rename are steps of their own. *)
Definition saveStateLocked_c : prog unit :=
  st ← act (gets sv_state);
  dir ← act (gets sv_dataDir);
  let raw := json_print indented 0 (state_json st) in
  let tmp := statePath dir +:+ ".tmp" in
  _ ← act (W (os_write_file tmp raw 384));
  act (W (os_rename tmp (statePath dir))).
Definition saveSnapshotLocked_c (l : loc) : prog unit :=
  tw ← act (deref l);
  dir ← act (gets sv_dataDir);
  '(nextExternal, nextChange) ← through l NextIndices;
  entries ← through l SaveAddressSnapshot;
  r ← on_node (WriteAddressSnapshot (walletSnapshotPath dir (tw_meta tw)) nextExternal nextChange entries);
  Return r.
Definition saveSnapshot_c (l : loc) : prog unit :=
  locked (_ ← prog_try (saveSnapshotLocked_c l); mret ()).

Definition walletAddresses_c (l : loc) : prog (list string) :=
  entries ← through l SaveAddressSnapshot;
  if (length (entries : list bsv.SnapshotEntry) =? 0)%nat then through l Addresses else
  mret (dedup_addresses ∅ (sort_by_index entries)).
Definition walletProtoLocked_c (l : loc) : prog pb.Wallet :=
  tw ← act (deref l);
  '(nextExternal, nextChange) ← through l NextIndices;
  addresses ← walletAddresses_c l;
  balance ← through l WBalance;
  balanceBSV ← through l BalanceBSV;
  spendable ← through l SpendableBalance;
  immature ← through l ImmatureBalance;
  selector ← through l Selector;
  mret {| pb.Wallet_TenantId := TenantID (tw_meta tw);
          pb.Wallet_WalletId := WalletID (tw_meta tw);
          pb.Wallet_Addresses := addresses;
          pb.Wallet_BalanceSatoshis := balance;
          pb.Wallet_BalanceBsv := balanceBSV;
          pb.Wallet_SpendableSatoshis := spendable;
          pb.Wallet_ImmatureSatoshis := immature;
          pb.Wallet_NextExternalIndex := nextExternal;
          pb.Wallet_NextChangeIndex := nextChange;
          pb.Wallet_Selector := selector |}.
Fixpoint wallet_protos_c (ws : gmap string loc) (keys : list string) : prog (list pb.Wallet) :=
  match keys with
  | [] => mret []
  | k :: rest =>
      match ws !! k with
      | None => fail nil_pointer
      | Some l => p ← walletProtoLocked_c l; ps ← wallet_protos_c ws rest; mret (p :: ps)
      end
  end.
Definition list_locked (tenantID : string) : prog (list pb.Wallet) :=
  keys ← act (gets (fun s => tenant_keys s tenantID));
  ws ← act (gets sv_wallets);
  wallet_protos_c ws keys.

(** [attachWalletLocked] opens the store; entering the wallet, registering its
    callbacks and appending its record are one step. *)
Definition openStore_c (m : walletMeta) (w : wallet_ptr) : prog store_ptr :=
  dir ← act (gets sv_dataDir);
  store ← or_status internal (act (W (host (StoreOpen (walletStorePath dir m)))));
  _ ← sdk w (SetStore store);
  snap ← on_node (ReadAddressSnapshot (walletSnapshotPath dir m));
  _ ← match (snap : result (Z * Z * list bsv.SnapshotEntry)) with
      | Ok (nextExternal, nextChange, entries) =>
          _ ← sdk w (LoadAddressSnapshot entries);
          sdk w (SetNextIndices nextExternal nextChange)
      | Err err =>
          if negb (errors_is err ErrSnapshotNotFound) then
            _ ← act (W (host (StoreClose store)));
            fail (internal err)
          else mret ()
      end;
  loaded ← sdk w LoadFromStore;
  match (loaded : result Z) with
  | Err err =>
      _ ← act (W (host (StoreClose store)));
      fail (internal err)
  | Ok _ => mret store
  end.
Definition enter (m : walletMeta) (w : wallet_ptr) (store : store_ptr) : M Service loc :=
  l ← alloc {| tw_meta := m; tw_w := w; tw_store := store; tw_rescanning := false |};
  _ ← modify (set_wallets (fun ws => <[walletKey (TenantID m) (WalletID m) := l]> ws));
  _ ← registerWalletEvents l;
  _ ← modify (set_state (fun st => st ++ [m]));
  mret l.
(** What [CreateWallet] and [RestoreWallet] share. *)
Definition add_wallet (m : walletMeta) (w : wallet_ptr) : prog (pb.Wallet * option pb.AuthTokens) :=
  store ← openStore_c m w;
  l ← act (enter m w store);
  _ ← prog_error internal saveStateLocked_c;
  _ ← prog_try (saveSnapshotLocked_c l);
  tokens ← prog_error internal (act (tokensForWallet m));
  wp ← walletProtoLocked_c l;
  mret (wp, tokens).
Definition create_locked (req : pb.CreateWalletRequest) : prog pb.CreateWalletResponse :=
  let tenantID := pb.CreateWalletRequest_TenantId req in
  let walletID := pb.CreateWalletRequest_WalletId req in
  ws ← act (gets sv_wallets);
  if bool_decide (is_Some (ws !! walletKey tenantID walletID))
  then fail (EStatus AlreadyExists "wallet exists") else
  let sdkName := sdkWalletName tenantID walletID in
  '(w, mnemonic) ← or_status internal (on_node (NodeCreateWallet sdkName));
  m ← prog_error internal (act (newWalletMeta tenantID walletID sdkName mnemonic ""));
  '(wp, tokens) ← add_wallet m w;
  mret (pb.MkCreateWalletResponse (Some wp) mnemonic tokens).
Definition restore_locked (req : pb.RestoreWalletRequest) : prog pb.WalletResponse :=
  let tenantID := pb.RestoreWalletRequest_TenantId req in
  let walletID := pb.RestoreWalletRequest_WalletId req in
  let mnemonic := pb.RestoreWalletRequest_Mnemonic req in
  let passphrase := pb.RestoreWalletRequest_Passphrase req in
  ws ← act (gets sv_wallets);
  if bool_decide (is_Some (ws !! walletKey tenantID walletID))
  then fail (EStatus AlreadyExists "wallet exists") else
  m ← prog_error internal
        (act (newWalletMeta tenantID walletID (sdkWalletName tenantID walletID) mnemonic passphrase));
  w ← or_status internal (on_node (NodeRestoreWallet (SDKName m) mnemonic passphrase));
  '(wp, tokens) ← add_wallet m w;
  mret (pb.MkWalletResponse (Some wp) tokens).

Definition CreateWallet_c (req : pb.CreateWalletRequest) : prog pb.CreateWalletResponse :=
  _ ← Return (validateTenantWallet (pb.CreateWalletRequest_TenantId req) (pb.CreateWalletRequest_WalletId req));
  locked (create_locked req).
Definition RestoreWallet_c (req : pb.RestoreWalletRequest) : prog pb.WalletResponse :=
  _ ← Return (validateTenantWallet (pb.RestoreWalletRequest_TenantId req) (pb.RestoreWalletRequest_WalletId req));
  if String.eqb (pb.RestoreWalletRequest_Mnemonic req) "" then fail (invalid "mnemonic required") else
  locked (restore_locked req).
Definition ListWallets_c (req : pb.ListWalletsRequest) : prog pb.ListWalletsResponse :=
  _ ← Return (validateTenant (pb.ListWalletsRequest_TenantId req));
  protos ← locked (list_locked (pb.ListWalletsRequest_TenantId req));
  mret (pb.MkListWalletsResponse protos).
Definition GetWallet_c (req : pb.GetWalletRequest) : prog pb.WalletResponse :=
  '(l, _) ← wallet_c (pb.GetWalletRequest_TenantId req) (pb.GetWalletRequest_WalletId req);
  w ← locked (walletProtoLocked_c l);
  mret (pb.MkWalletResponse (Some w) None).

(** ** Methods on one wallet *)

Definition NewAddress_c (req : pb.NewAddressRequest) : prog pb.AddressResponse :=
  '(l, q) ← wallet_c (pb.NewAddressRequest_TenantId req) (pb.NewAddressRequest_WalletId req);
  addr ← or_status internal (sdk q NewDerivedAddress);
  _ ← saveSnapshot_c l;
  mret (pb.MkAddressResponse (Some (derivedAddress addr))).
Definition BatchNewAddresses_c (req : pb.BatchNewAddressesRequest) : prog pb.BatchNewAddressesResponse :=
  '(l, q) ← wallet_c (pb.BatchNewAddressesRequest_TenantId req) (pb.BatchNewAddressesRequest_WalletId req);
  if (pb.BatchNewAddressesRequest_Count req <=? 0)%Z then fail (invalid "count must be positive") else
  addrs ← or_status internal (sdk q (BatchNewDerivedAddresses (pb.BatchNewAddressesRequest_Count req)));
  _ ← saveSnapshot_c l;
  mret (pb.MkBatchNewAddressesResponse (derivedAddress <$> addrs)).
Definition DeriveAt_c (req : pb.DeriveAtRequest) : prog pb.AddressResponse :=
  let branch := pb.DeriveAtRequest_Branch req in
  let index := pb.DeriveAtRequest_Index req in
  '(l, q) ← wallet_c (pb.DeriveAtRequest_TenantId req) (pb.DeriveAtRequest_WalletId req);
  address ← or_status internal (sdk q (WDeriveAt branch index));
  '(pub, _) ← or_status internal (sdk q (WPubKeyAt branch index));
  spec ← or_status internal (on_node (NodeP2PKHOutput address 0));
  _ ← saveSnapshot_c l;
  mret (pb.MkAddressResponse (Some (pb.MkDerivedAddress address (itoa branch +:+ "/" +:+ itoa index)
          pub (bsv.OutputSpec_Script spec) branch index))).
Definition PubKeyAt_c (req : pb.PubKeyAtRequest) : prog pb.PubKeyAtResponse :=
  '(l, q) ← wallet_c (pb.PubKeyAtRequest_TenantId req) (pb.PubKeyAtRequest_WalletId req);
  '(pub, address) ← or_status internal
     (sdk q (WPubKeyAt (pb.PubKeyAtRequest_Branch req) (pb.PubKeyAtRequest_Index req)));
  _ ← saveSnapshot_c l;
  mret (pb.MkPubKeyAtResponse pub address).
Definition SignHashAt_c (req : pb.SignHashAtRequest) : prog pb.SignHashAtResponse :=
  '(_, q) ← wallet_c (pb.SignHashAtRequest_TenantId req) (pb.SignHashAtRequest_WalletId req);
  '(sig, pub) ← or_status internal
     (sdk q (WSignHashAt (pb.SignHashAtRequest_Branch req) (pb.SignHashAtRequest_Index req)
               (pb.SignHashAtRequest_Hash req)));
  mret (pb.MkSignHashAtResponse sig pub).
Definition NextIndex_c (req : pb.NextIndexRequest) : prog pb.NextIndexResponse :=
  '(_, q) ← wallet_c (pb.NextIndexRequest_TenantId req) (pb.NextIndexRequest_WalletId req);
  n ← sdk q (WNextIndex (pb.NextIndexRequest_Branch req));
  mret (pb.MkNextIndexResponse n).
Definition Balance_c (req : pb.BalanceRequest) : prog pb.BalanceResponse :=
  '(_, q) ← wallet_c (pb.BalanceRequest_TenantId req) (pb.BalanceRequest_WalletId req);
  satoshis ← sdk q WBalance;
  bsv ← sdk q BalanceBSV;
  spendable ← sdk q SpendableBalance;
  immature ← sdk q ImmatureBalance;
  mret (pb.MkBalanceResponse satoshis bsv spendable immature).
Definition ListUTXOs_c (req : pb.ListUTXOsRequest) : prog pb.ListUTXOsResponse :=
  '(_, q) ← wallet_c (pb.ListUTXOsRequest_TenantId req) (pb.ListUTXOsRequest_WalletId req);
  us ← sdk q UTXOs;
  mret (pb.MkListUTXOsResponse (utxos us)).
Definition ImportUTXO_c (req : pb.ImportUTXORequest) : prog pb.ImportUTXOResponse :=
  '(_, q) ← wallet_c (pb.ImportUTXORequest_TenantId req) (pb.ImportUTXORequest_WalletId req);
  _ ← (if pb.ImportUTXORequest_Force req then
         or_status internal (sdk q (ForceImportCoin (bsv.MkUTXO (pb.ImportUTXORequest_Txid req)
           (pb.ImportUTXORequest_Vout req) (pb.ImportUTXORequest_Value req) (pb.ImportUTXORequest_Script req)
           (pb.ImportUTXORequest_Height req) (pb.ImportUTXORequest_IsCoinbase req))))
       else
         or_status internal (sdk q (WImportUTXO (pb.ImportUTXORequest_Txid req)
           (pb.ImportUTXORequest_Vout req) (pb.ImportUTXORequest_Value req) (pb.ImportUTXORequest_Script req)
           (pb.ImportUTXORequest_Height req))));
  mret pb.MkImportUTXOResponse.
Definition ProcessRawTx_c (req : pb.ProcessRawTxRequest) : prog pb.ProcessRawTxResponse :=
  '(_, q) ← wallet_c (pb.ProcessRawTxRequest_TenantId req) (pb.ProcessRawTxRequest_WalletId req);
  _ ← or_status internal (sdk q (WProcessRawTx (pb.ProcessRawTxRequest_RawTx req)
        (pb.ProcessRawTxRequest_Height req)));
  mret pb.MkProcessRawTxResponse.
Definition ClearUTXOs_c (req : pb.ClearUTXOsRequest) : prog pb.ClearUTXOsResponse :=
  '(_, q) ← wallet_c (pb.ClearUTXOsRequest_TenantId req) (pb.ClearUTXOsRequest_WalletId req);
  n ← sdk q WClearUTXOs;
  mret (pb.MkClearUTXOsResponse (int32 n)).
Definition ReloadFromStore_c (req : pb.ReloadFromStoreRequest) : prog pb.ReloadFromStoreResponse :=
  '(_, q) ← wallet_c (pb.ReloadFromStoreRequest_TenantId req) (pb.ReloadFromStoreRequest_WalletId req);
  n ← or_status internal (sdk q WReloadFromStore);
  mret (pb.MkReloadFromStoreResponse (int32 n)).
Definition WipeWallet_c (req : pb.WipeWalletRequest) : prog pb.WipeWalletResponse :=
  '(_, q) ← wallet_c (pb.WipeWalletRequest_TenantId req) (pb.WipeWalletRequest_WalletId req);
  n ← or_status internal (sdk q Wipe);
  mret (pb.MkWipeWalletResponse (int32 n)).
Definition PruneUnknownUTXOs_c (req : pb.PruneUnknownUTXOsRequest) : prog pb.PruneUnknownUTXOsResponse :=
  '(_, q) ← wallet_c (pb.PruneUnknownUTXOsRequest_TenantId req) (pb.PruneUnknownUTXOsRequest_WalletId req);
  n ← sdk q WPruneUnknownUTXOs;
  mret (pb.MkPruneUnknownUTXOsResponse (int32 n)).
Definition IgnoreOutpoint_c (req : pb.IgnoreOutpointRequest) : prog pb.IgnoreOutpointResponse :=
  '(_, q) ← wallet_c (pb.IgnoreOutpointRequest_TenantId req) (pb.IgnoreOutpointRequest_WalletId req);
  _ ← (if pb.IgnoreOutpointRequest_Unignore req
       then sdk q (WUnignoreOutpoint (pb.IgnoreOutpointRequest_Txid req) (pb.IgnoreOutpointRequest_Vout req))
       else sdk q (WIgnoreOutpoint (pb.IgnoreOutpointRequest_Txid req) (pb.IgnoreOutpointRequest_Vout req)));
  mret pb.MkIgnoreOutpointResponse.
Definition IsOutpointIgnored_c (req : pb.IsOutpointIgnoredRequest) : prog pb.IsOutpointIgnoredResponse :=
  '(_, q) ← wallet_c (pb.IsOutpointIgnoredRequest_TenantId req) (pb.IsOutpointIgnoredRequest_WalletId req);
  b ← sdk q (WIsOutpointIgnored (pb.IsOutpointIgnoredRequest_Txid req) (pb.IsOutpointIgnoredRequest_Vout req));
  mret (pb.MkIsOutpointIgnoredResponse b).
Definition UntrackUTXO_c (req : pb.UntrackUTXORequest) : prog pb.UntrackUTXOResponse :=
  '(_, q) ← wallet_c (pb.UntrackUTXORequest_TenantId req) (pb.UntrackUTXORequest_WalletId req);
  v ← sdk q (WUntrackUTXO (pb.UntrackUTXORequest_Txid req) (pb.UntrackUTXORequest_Vout req));
  mret (pb.MkUntrackUTXOResponse v).
Definition CanCover_c (req : pb.CanCoverRequest) : prog pb.CanCoverResponse :=
  '(_, q) ← wallet_c (pb.CanCoverRequest_TenantId req) (pb.CanCoverRequest_WalletId req);
  _ ← or_status internal (sdk q (WCanCover (pb.CanCoverRequest_TotalOut req)
        (pb.CanCoverRequest_FeePerByte req) (pb.CanCoverRequest_FixedOutputs req)));
  mret pb.MkCanCoverResponse.

Definition Send_c (req : pb.SendRequest) : prog pb.SpendResponse :=
  '(l, q) ← wallet_c (pb.SendRequest_TenantId req) (pb.SendRequest_WalletId req);
  txid ← or_status internal (sdk q (WSend (pb.SendRequest_ToAddress req) (pb.SendRequest_AmountSatoshis req)));
  _ ← saveSnapshot_c l;
  mret (pb.MkSpendResponse txid).
Definition SendAll_c (req : pb.SendAllRequest) : prog pb.SpendResponse :=
  '(l, q) ← wallet_c (pb.SendAllRequest_TenantId req) (pb.SendAllRequest_WalletId req);
  txid ← or_status internal (sdk q (WSendAll (pb.SendAllRequest_ToAddress req)));
  _ ← saveSnapshot_c l;
  mret (pb.MkSpendResponse txid).
(** The inputs' ids are parsed in one step. *)
Definition SpendToOutputs_c (req : pb.SpendToOutputsRequest) : prog pb.SpendDetailResponse :=
  '(l, q) ← wallet_c (pb.SpendToOutputsRequest_TenantId req) (pb.SpendToOutputsRequest_WalletId req);
  let outs := outputSpecs (pb.SpendToOutputsRequest_Outputs req) in
  detail ← (if (0 <? length (pb.SpendToOutputsRequest_FromInputs req))%nat then
              if pb.SpendToOutputsRequest_IgnoreFixedOutputs req
              then fail (invalid "from_inputs and ignore_fixed_outputs are mutually exclusive")
              else
                inputs ← act (outPoints (pb.SpendToOutputsRequest_FromInputs req));
                or_status internal (sdk q (SpendToOutputsDetailedFrom inputs outs))
            else if pb.SpendToOutputsRequest_IgnoreFixedOutputs req
            then or_status internal (sdk q (SpendToOutputsDetailedIgnoringFixed outs))
            else or_status internal (sdk q (SpendToOutputsDetailed outs)));
  _ ← saveSnapshot_c l;
  mret (pb.MkSpendDetailResponse (spendDetail detail)).

Definition TxState_c (req : pb.TxStateRequest) : prog pb.TxStateResponse :=
  '(_, q) ← wallet_c (pb.TxStateRequest_TenantId req) (pb.TxStateRequest_WalletId req);
  '(state, known) ← or_status internal (sdk q (WTxState (pb.TxStateRequest_Txid req)));
  if negb known then mret (pb.MkTxStateResponse false (-1) false false) else
  mret (pb.MkTxStateResponse true (bsv.TxState_Height state) (bsv.TxState_Confirmed state)
          (bsv.TxState_Conflicted state)).
Definition AbandonTransaction_c (req : pb.AbandonTransactionRequest) : prog pb.AbandonTransactionResponse :=
  '(l, q) ← wallet_c (pb.AbandonTransactionRequest_TenantId req) (pb.AbandonTransactionRequest_WalletId req);
  _ ← or_status internal (sdk q (WAbandonTransaction (pb.AbandonTransactionRequest_Txid req)));
  _ ← saveSnapshot_c l;
  mret pb.MkAbandonTransactionResponse.
Definition ClearIgnoredOutpoints_c (req : pb.ClearIgnoredOutpointsRequest) : prog pb.ClearIgnoredOutpointsResponse :=
  '(_, q) ← wallet_c (pb.ClearIgnoredOutpointsRequest_TenantId req) (pb.ClearIgnoredOutpointsRequest_WalletId req);
  n ← sdk q WClearIgnoredOutpoints;
  mret (pb.MkClearIgnoredOutpointsResponse (int32 n)).
Definition OwnsScript_c (req : pb.OwnsScriptRequest) : prog pb.OwnsScriptResponse :=
  '(_, q) ← wallet_c (pb.OwnsScriptRequest_TenantId req) (pb.OwnsScriptRequest_WalletId req);
  b ← sdk q (WOwnsScript (pb.OwnsScriptRequest_ScriptPubKey req));
  mret (pb.MkOwnsScriptResponse b).
Definition GetIncompleteCursor_c (req : pb.GetIncompleteCursorRequest) : prog pb.GetIncompleteCursorResponse :=
  '(_, q) ← wallet_c (pb.GetIncompleteCursorRequest_TenantId req) (pb.GetIncompleteCursorRequest_WalletId req);
  '(cursor, found) ← or_status internal (sdk q WGetIncompleteCursor);
  match found, cursor with
  | true, Some c =>
      mret (pb.MkGetIncompleteCursorResponse true (blockHashHex (bsv.Cursor_BlockHash c))
              (bsv.Cursor_Height c) (int32 (bsv.Cursor_TxDone c)) (int32 (bsv.Cursor_TxTotal c)))
  | _, _ => mret (pb.MkGetIncompleteCursorResponse false "" 0 0 0)
  end.

(** ** Methods on the node *)

Definition Status_c (req : pb.StatusRequest) : prog pb.StatusResponse :=
  network ← on_node Network;
  chainHeight ← on_node ChainHeight;
  bestPeerHeight ← on_node BestPeerHeight;
  peerCount ← on_node PeerCount;
  dir ← act (gets sv_dataDir);
  peerHeights ← on_node PeerHeights;
  mret (pb.MkStatusResponse network chainHeight bestPeerHeight (int32 peerCount) dir peerHeights
          coinbase_maturity).
Definition ConnectPeer_c (req : pb.ConnectPeerRequest) : prog pb.ConnectPeerResponse :=
  if String.eqb (pb.ConnectPeerRequest_Address req) "" then fail (invalid "address required") else
  _ ← or_status internal (on_node (NodeConnectPeer (pb.ConnectPeerRequest_Address req)));
  mret pb.MkConnectPeerResponse.
Definition BroadcastCustomSpend_c (req : pb.BroadcastCustomSpendRequest) : prog pb.SpendResponse :=
  o ← act (gets sv_opts);
  if negb (EnableCustomSpend o) then fail (EStatus FailedPrecondition "BroadcastCustomSpend disabled") else
  inputs ← act (customInputs (pb.BroadcastCustomSpendRequest_Inputs req));
  txid ← or_status internal
           (on_node (SpendCustom inputs (outputSpecs (pb.BroadcastCustomSpendRequest_Outputs req))));
  mret (pb.MkSpendResponse txid).
Definition P2PKHOutput_c (req : pb.P2PKHOutputRequest) : prog pb.OutputSpec :=
  out ← or_status internal
          (on_node (NodeP2PKHOutput (pb.P2PKHOutputRequest_Address req) (pb.P2PKHOutputRequest_Value req)));
  mret (outputSpec out).
Definition OpReturnOutput_c (req : pb.OpReturnOutputRequest) : prog pb.OutputSpec :=
  out ← on_node (SdkOpReturnOutput (pb.OpReturnOutputRequest_Data req));
  mret (outputSpec out).
Definition AnyoneCanSpendOutput_c (req : pb.AnyoneCanSpendOutputRequest) : prog pb.OutputSpec :=
  out ← on_node (SdkAnyoneCanSpendOutput (pb.AnyoneCanSpendOutputRequest_Value req));
  mret (outputSpec out).
(** The addresses of a transaction are decoded in one step. *)
Definition ParseTransaction_c (req : pb.ParseTransactionRequest) : prog pb.Transaction :=
  tx ← or_status internal (on_node (SdkParseTransaction (pb.ParseTransactionRequest_RawTx req)));
  act (tx_proto tx).
Definition BroadcastRaw_c (req : pb.BroadcastRawRequest) : prog pb.BroadcastRawResponse :=
  txid ← or_status internal (on_node (NodeBroadcastRaw (pb.BroadcastRawRequest_RawTx req)));
  mret (pb.MkBroadcastRawResponse txid).
Definition ExecuteScript_c (req : pb.ExecuteScriptRequest) : prog pb.ExecuteScriptResponse :=
  let raw := pb.ExecuteScriptRequest_RawTx req in
  tx ← (if (0 <? length raw)%nat then
          parsed ← or_status internal (on_node (SdkParseTransaction raw));
          mret (Some parsed)
        else mret None);
  r ← on_node (NodeExecuteScript (pb.ExecuteScriptRequest_Strict req) (pb.ExecuteScriptRequest_ScriptSig req)
        (pb.ExecuteScriptRequest_ScriptPubKey req) tx (pb.ExecuteScriptRequest_InputIndex req)
        (pb.ExecuteScriptRequest_Amount req));
  match (r : result unit) with
  | Err err => mret (pb.MkExecuteScriptResponse false (error_string err))
  | Ok _ => mret (pb.MkExecuteScriptResponse true "")
  end.
Definition DecodeOutputAddress_c (req : pb.DecodeOutputAddressRequest) : prog pb.DecodeOutputAddressResponse :=
  '(addr, ok) ← on_node (NodeDecodeOutputAddress (pb.DecodeOutputAddressRequest_ScriptPubKey req));
  mret (pb.MkDecodeOutputAddressResponse addr ok).
Definition PendingTransactions_c (req : pb.PendingTransactionsRequest) : prog pb.PendingTransactionsResponse :=
  src ← on_node NodePendingTransactions;
  mret (pb.MkPendingTransactionsResponse (pendingTransaction <$> src)).
Definition RebroadcastPendingTransactions_c (req : pb.RebroadcastPendingTransactionsRequest) :
    prog pb.RebroadcastPendingTransactionsResponse :=
  n ← on_node NodeRebroadcastPendingTransactions;
  mret (pb.MkRebroadcastPendingTransactionsResponse (int32 n)).
Definition probe_c (p : prog (result bool)) : prog bool :=
  r ← p;
  match r with
  | Ok b => mret b
  | Err err => if errors_is err ErrTxUnverified then mret false else fail (internal err)
  end.
Definition VerifyTxSeen_c (req : pb.VerifyTxSeenRequest) : prog pb.VerifyTxSeenResponse :=
  let txid := pb.VerifyTxSeenRequest_Txid req in
  if String.eqb txid "" then fail (invalid "txid required") else
  let peers := if (pb.VerifyTxSeenRequest_PeersToAsk req <=? 0)%Z then 1%Z
               else pb.VerifyTxSeenRequest_PeersToAsk req in
  let timeout := relayTimeout (pb.VerifyTxSeenRequest_TimeoutMs req) in
  seen ← probe_c (on_node (NodeVerifyTxSeen txid peers timeout));
  mret (pb.MkVerifyTxSeenResponse seen).
Definition WaitForTxRelay_c (req : pb.WaitForTxRelayRequest) : prog pb.WaitForTxRelayResponse :=
  let txid := pb.WaitForTxRelayRequest_Txid req in
  if String.eqb txid "" then fail (invalid "txid required") else
  let timeout := relayTimeout (pb.WaitForTxRelayRequest_TimeoutMs req) in
  relayed ← probe_c (on_node (NodeWaitForTxRelay txid timeout));
  mret (pb.MkWaitForTxRelayResponse relayed).

(** ** Access *)

(** A token is read and checked, with the clock, in one step; so is a pair issued. *)
Definition RefreshToken_c (req : pb.RefreshTokenRequest) : prog pb.AuthTokens :=
  enabled ← act (gets (fun s => AuthEnabled (sv_opts s)));
  if negb enabled then fail (EStatus FailedPrecondition "auth disabled") else
  sub ← act (validateJWT (pb.RefreshTokenRequest_RefreshToken req) "refresh");
  act (issueTokens (sub_TenantID sub) (sub_WalletID sub)).
Definition bootstrapAllowed_c (req : option message) : prog bool :=
  let '(tenantID, walletID, scoped) := tenantWalletFromRequest req in
  if negb scoped || String.eqb tenantID "" || String.eqb walletID "" then mret false else
  if negb (is_ok (validateTenantWallet tenantID walletID)) then mret false else
  locked (act (gets (fun s => negb (bool_decide (is_Some (lookup_wallet s tenantID walletID)))))).
Definition authorize_c (ctx : context) (method : string) (req : option message) : prog unit :=
  enabled ← act (gets (fun s => AuthEnabled (sv_opts s)));
  if negb enabled then mret () else
  boot ← (if isBootstrapMethod method then bootstrapAllowed_c req else mret false);
  if (boot : bool) then mret () else
  if has_suffix method "/RefreshToken" then mret () else
  sub ← act (authSubjectFromContext ctx);
  Return (authorize_subject sub method req).

(** ** Rescans

    The goroutine of the handler and the one of the walk, in one line: what the
    registry sees of them is their order. The outside answers the walk's call with
    all its events; a progress that the channel drops is none of them. *)

Definition stream_send (ev : pb.isRescanEvent_Event) : prog (result unit) :=
  act (W (host (StreamSend (pb.MkRescanEvent (Some ev))))).
(** Once a send has failed the handler only waits for the walk. *)
Fixpoint walk_c (l : loc) (every : option Z) (sent : result unit) (evs : list walk_event) : prog (result unit) :=
  match evs with
  | [] => mret sent
  | Reported p :: evs =>
      sent ← match sent with
             | Ok _ => stream_send (pb.RescanEvent_Progress (rescanProgressProto p))
             | Err err => mret (Err err)
             end;
      walk_c l every sent evs
  | Checkpointed :: evs =>
      _ ← match every with Some _ => saveSnapshot_c l | None => mret () end;
      walk_c l every sent evs
  end.
Definition rescan_body_c (l : loc) (q : wallet_ptr) (startHash : bytes) (req : pb.RescanRequest) : prog pb.RescanEvent :=
  '(evs, stats) ← sdk q (WRescanFromHash startHash (rescanOptions req) (checkpointEvery req));
  sent ← walk_c l (checkpointEvery req) (Ok ()) evs;
  _ ← Return sent;
  stats ← Return (map_error internal stats);
  let ev := pb.RescanEvent_Stats (rescanStatsProto stats) in
  sent ← stream_send ev;
  _ ← Return sent;
  mret (pb.MkRescanEvent (Some ev)).
(** [beginRescan] and [endRescan] around what is in between; the answer of the
    stream is its last event. *)
Definition rescan_c (l : loc) (body : prog pb.RescanEvent) : prog pb.RescanEvent :=
  ok ← locked (act (beginRescan l));
  if negb ok then fail (EStatus FailedPrecondition "rescan already running for this wallet") else
  r ← prog_try body;
  _ ← locked (act (endRescan l));
  Return r.
Definition Rescan_c (ctx : context) (req : pb.RescanRequest) : prog pb.RescanEvent :=
  _ ← authorize_c ctx "/bsvms.v1.BSVMS/Rescan" (Some (reflect_RescanRequest req));
  '(l, q) ← wallet_c (pb.RescanRequest_TenantId req) (pb.RescanRequest_WalletId req);
  if String.eqb (pb.RescanRequest_StartBlockHash req) "" then fail (invalid "start_block_hash required") else
  startHash ← or_status (fun _ => invalid "invalid start_block_hash")
                (on_node (TxIDFromHex (pb.RescanRequest_StartBlockHash req)));
  rescan_c l (rescan_body_c l q startHash req).

(** ** Dispatch *)

Definition unary_c (r : rpc) : option (rpc_request r -> prog (rpc_response r)) :=
  match r with
  | BSVMS_Status => Some Status_c
  | BSVMS_RefreshToken => Some RefreshToken_c
  | BSVMS_ConnectPeer => Some ConnectPeer_c
  | BSVMS_ListWallets => Some ListWallets_c
  | BSVMS_CreateWallet => Some CreateWallet_c
  | BSVMS_RestoreWallet => Some RestoreWallet_c
  | BSVMS_GetWallet => Some GetWallet_c
  | BSVMS_NewAddress => Some NewAddress_c
  | BSVMS_BatchNewAddresses => Some BatchNewAddresses_c
  | BSVMS_DeriveAt => Some DeriveAt_c
  | BSVMS_PubKeyAt => Some PubKeyAt_c
  | BSVMS_SignHashAt => Some SignHashAt_c
  | BSVMS_NextIndex => Some NextIndex_c
  | BSVMS_Balance => Some Balance_c
  | BSVMS_ListUTXOs => Some ListUTXOs_c
  | BSVMS_ImportUTXO => Some ImportUTXO_c
  | BSVMS_ProcessRawTx => Some ProcessRawTx_c
  | BSVMS_ClearUTXOs => Some ClearUTXOs_c
  | BSVMS_ReloadFromStore => Some ReloadFromStore_c
  | BSVMS_WipeWallet => Some WipeWallet_c
  | BSVMS_PruneUnknownUTXOs => Some PruneUnknownUTXOs_c
  | BSVMS_IgnoreOutpoint => Some IgnoreOutpoint_c
  | BSVMS_IsOutpointIgnored => Some IsOutpointIgnored_c
  | BSVMS_UntrackUTXO => Some UntrackUTXO_c
  | BSVMS_CanCover => Some CanCover_c
  | BSVMS_Send => Some Send_c
  | BSVMS_SendAll => Some SendAll_c
  | BSVMS_SpendToOutputs => Some SpendToOutputs_c
  | BSVMS_BroadcastCustomSpend => Some BroadcastCustomSpend_c
  | BSVMS_P2PKHOutput => Some P2PKHOutput_c
  | BSVMS_OpReturnOutput => Some OpReturnOutput_c
  | BSVMS_AnyoneCanSpendOutput => Some AnyoneCanSpendOutput_c
  | BSVMS_ParseTransaction => Some ParseTransaction_c
  | BSVMS_BroadcastRaw => Some BroadcastRaw_c
  | BSVMS_ExecuteScript => Some ExecuteScript_c
  | BSVMS_DecodeOutputAddress => Some DecodeOutputAddress_c
  | BSVMS_PendingTransactions => Some PendingTransactions_c
  | BSVMS_RebroadcastPendingTransactions => Some RebroadcastPendingTransactions_c
  | BSVMS_StreamTransactions => None
  | BSVMS_StreamBlocks => None
  | BSVMS_StreamPayments => None
  | BSVMS_StreamWalletTransactions => None
  | BSVMS_StreamP2PTraffic => None
  | BSVMS_StreamRejects => None
  | BSVMS_TxState => Some TxState_c
  | BSVMS_AbandonTransaction => Some AbandonTransaction_c
  | BSVMS_ClearIgnoredOutpoints => Some ClearIgnoredOutpoints_c
  | BSVMS_OwnsScript => Some OwnsScript_c
  | BSVMS_VerifyTxSeen => Some VerifyTxSeen_c
  | BSVMS_WaitForTxRelay => Some WaitForTxRelay_c
  | BSVMS_Rescan => None
  | BSVMS_GetIncompleteCursor => Some GetIncompleteCursor_c
  end.
(** The calls that end: the unary ones, and rescans. *)
Definition method_c (ctx : context) (r : rpc) : option (rpc_request r -> prog (rpc_response r)) :=
  match r with
  | BSVMS_Rescan => Some (Rescan_c ctx)
  | r => unary_c r
  end.
(** A call as it arrives: past the interceptor, then the method. *)
Definition serve_c (ctx : context) (r : rpc) (h : rpc_request r -> prog (rpc_response r)) (req : rpc_request r) :
    prog (rpc_response r) :=
  _ ← authorize_c ctx (full_method r) (Some (rpc_reflect r req));
  h req.
End handlers.

(** ** The service with its calls in flight *)

Record call := MkCall { c_ctx : context; c_rpc : rpc; c_req : rpc_request c_rpc }.
Record thread := MkThread { t_call : call; t_prog : prog (rpc_response (c_rpc t_call)) }.
(** The holder of [s.mu], if it is taken, and the calls in order of arrival. *)
Record pool := MkPool { p_service : Service; p_holder : option nat; p_threads : list thread }.

(** One step of thread [i]; [None] while it waits for the mutex, and at its end. *)
Definition move {A} (i : nat) (p : prog A) (holder : option nat) (s : Service) :
    option (prog A * option nat * Service) :=
  match p with
  | Return _ => None
  | Acquire k => match holder with None => Some (k, Some i, s) | Some _ => None end
  | Release k => if bool_decide (holder = Some i) then Some (k, None, s) else None
  | Act m k => let '(r, s') := m s in Some (k r, holder, s')
  end.
Definition advance (i : nat) (pl : pool) : option pool :=
  t ← p_threads pl !! i;
  '(p, holder, s) ← move i (t_prog t) (p_holder pl) (p_service pl);
  Some (MkPool s holder (<[i := MkThread (t_call t) p]> (p_threads pl))).

Section pools.
Context `{Env} `{Mac} `{Hash} `{Aead}.

Definition arrive (c : call) (pl : pool) : option pool :=
  h ← method_c (c_ctx c) (c_rpc c);
  Some (MkPool (p_service pl) (p_holder pl)
    (p_threads pl ++ [MkThread c (serve_c (c_ctx c) (c_rpc c) h (c_req c))])).

(** What goes on beside the calls: the callbacks of the SDK, and streams that open
    (their check, then a subscriber), take an event or end. *)
Inductive callback : M Service unit -> Prop :=
  | cb_transaction tx : callback (onTransaction tx)
  | cb_block b : callback (onBlock b)
  | cb_disconnected hash height : callback (onBlockDisconnected hash height)
  | cb_traffic t : callback (onP2PTraffic t)
  | cb_reject r : callback (onReject r)
  | cb_payment t w p : callback (onPayment t w p)
  | cb_wallet_tx t w tx owned spent : callback (onWalletTx t w tx owned spent).
Inductive beside (s : Service) : Service -> Prop :=
  | beside_callback m : callback m -> beside s (snd (m s))
  | beside_check ctx method req : beside s (snd (authorize ctx method req s))
  | beside_subscribers f : beside s (set_brokers f s).

Inductive pool_step (pl pl' : pool) : Prop :=
  | step_thread i : advance i pl = Some pl' -> pool_step pl pl'
  | step_arrival c : arrive c pl = Some pl' -> pool_step pl pl'
  | step_beside s : beside (p_service pl) s -> pl' = MkPool s (p_holder pl) (p_threads pl) -> pool_step pl pl'.
End pools.

Definition idle (s : Service) : pool := MkPool s None [].
Definition answer (t : thread) : option (result (rpc_response (c_rpc (t_call t)))) :=
  match t_prog t with Return r => Some r | _ => None end.
(** Threads moved in turn; a turn that cannot be taken is skipped. *)
Definition schedule (turns : list nat) (pl : pool) : pool :=
  fold_left (fun pl i => default pl (advance i pl)) turns pl.
