(* ===== verification/ConcSpec.v ===== *)
(** * The lock discipline

    What [s.mu] is for: a call touches the registry only while it holds the mutex.
    [unshared] steps have nothing to do with the registry; [inside] is a critical
    section that leaves registry and files as they are; [disciplined] says of a
    program that its steps without the mutex are unshared and those with it calm,
    that it never takes the mutex twice and gives it back before it returns. Every
    method but the two that add wallets obeys it; ConcLin has those two. *)

From S2P Require Import Prelude GoStrings GoTime Encoding Crypto Proto Broker Sdk Ids World Encryption Options.
From S2P Require Import Service Auth Registry RegistrySpec Handlers HandlersSpec Rescan Lifecycle RegistryAbs Disk Conc.

(** ** Steps outside the lock

    They move nothing but the outside world, and do not depend on the registry. *)

Definition same_outside (s1 s2 : Service) : Prop :=
  sv_opts s1 = sv_opts s2 /\ sv_dataDir s1 = sv_dataDir s2 /\ sv_world s1 = sv_world s2.
Definition unshared {A} (m : M Service A) : Prop :=
  moves untouched m /\
  forall s1 s2, same_outside s1 s2 -> fst (m s1) = fst (m s2) /\ same_outside (snd (m s1)) (snd (m s2)).

Lemma unshared_quiet {A} (m : M Service A) : unshared m -> moves quiet m.
Proof. intros [Hm _] s. by apply untouched_quiet. Qed.

Create HintDb unshared discriminated.

Lemma unshared_pure {A} (f : Service -> result A) :
  (forall s1 s2, same_outside s1 s2 -> f s1 = f s2) -> unshared (fun s => (f s, s)).
Proof. intros Hf. split; [by intros s|]. intros s1 s2 Hs. cbn. auto. Qed.
Lemma unshared_ret {A} (a : A) : unshared (mret a).
Proof. by apply (unshared_pure (fun _ => Ok a)). Qed.
Lemma unshared_throw {A} e : unshared (throw e : M Service A).
Proof. by apply (unshared_pure (fun _ => Err e)). Qed.
Lemma unshared_lift {A} (r : result A) : unshared (lift r).
Proof. by apply (unshared_pure (fun _ => r)). Qed.
Lemma unshared_opts {A} (f : Options -> A) : unshared (gets (fun s => f (sv_opts s))).
Proof. apply (unshared_pure (fun s => Ok (f (sv_opts s)))). by intros s1 s2 (-> & _). Qed.
Lemma unshared_dataDir : unshared (gets sv_dataDir).
Proof. apply (unshared_pure (fun s => Ok (sv_dataDir s))). by intros s1 s2 (_ & -> & _). Qed.
Lemma unshared_W {A} (m : M world A) : moves keeps_files (W m) -> unshared (W m).
Proof.
  intros Hk. split; [intros s; split; [apply moves_W|apply Hk]|]. intros s1 s2 (Eo & Ed & Ew). unfold W, zoom. rewrite Ew.
  by destruct (m (sv_world s2)).
Qed.
Lemma unshared_bind {A B} (m : M Service A) (k : A -> M Service B) :
  unshared m -> (forall a, unshared (k a)) -> unshared (m ≫= k).
Proof.
  intros [Hm Hms] Hk. split; [apply moves_bind; [typeclasses eauto|done|intros a; apply Hk]|].
  intros s1 s2 Hs. unfold mbind, M_bind. destruct (Hms s1 s2 Hs) as [Er Hs'].
  destruct (m s1) as [r1 u1], (m s2) as [r2 u2]. cbn in Er, Hs'. subst r2.
  destruct r1 as [a|e]; [by apply Hk|done].
Qed.
Lemma unshared_on_error {A} f (m : M Service A) : unshared m -> unshared (on_error f m).
Proof.
  intros [Hm Hms]. split; [by apply moves_on_error|]. intros s1 s2 Hs. unfold on_error.
  destruct (Hms s1 s2 Hs) as [Er Hs']. destruct (m s1), (m s2). cbn in *. by subst.
Qed.
(** Calls to the outside leave the files alone. *)
Ltac unshared_call :=
  match goal with
  | |- moves keeps_files (W (node ?c)) => exact (kf_node c)
  | |- moves keeps_files (W (wallet_call_ ?q ?c)) => exact (kf_wallet q c)
  | |- moves keeps_files (W time_now) => exact kf_time_now
  | |- moves keeps_files (W randomID) => exact kf_randomID
  end.
#[export] Hint Resolve unshared_ret unshared_throw unshared_lift unshared_opts unshared_dataDir
  unshared_bind unshared_on_error : unshared.
#[export] Hint Extern 1 (unshared (W _)) => apply unshared_W; unshared_call : unshared.
#[export] Hint Extern 1 (unshared (gets sv_opts)) => exact (unshared_opts (fun o => o)) : unshared.
Ltac unshared_tac :=
  repeat first [ solve [auto 3 with unshared]
               | apply unshared_bind; [by auto with unshared | intros ?] | case_match ];
  auto with unshared.

Section outside.
Context `{Env} `{Mac} `{Hash} `{Aead}.
Lemma unshared_validateJWT token typ : unshared (validateJWT token typ).
Proof. unfold validateJWT. destruct (split_char "." token) as [|? [|? [|? [|]]]]; unshared_tac. Qed.
Hint Resolve unshared_validateJWT : unshared.
Lemma unshared_issueTokens t w : unshared (issueTokens t w).
Proof. unfold issueTokens. unshared_tac. Qed.
Lemma unshared_subject ctx : unshared (authSubjectFromContext ctx).
Proof. unfold authSubjectFromContext. unshared_tac. Qed.
Lemma unshared_outPoints src : unshared (outPoints src).
Proof. induction src; cbn [outPoints]; unfold wcall_or; unshared_tac. Qed.
Lemma unshared_customInputs src : unshared (customInputs src).
Proof. induction src; cbn [customInputs]; unfold wcall_or; unshared_tac. Qed.
Lemma unshared_tx_inputs tx ins : forall i, unshared (tx_inputs tx i ins).
Proof. induction ins; intros i; cbn [tx_inputs]; unshared_tac. Qed.
Lemma unshared_tx_outputs outs : forall i, unshared (tx_outputs i outs).
Proof. induction outs; intros i; cbn [tx_outputs]; unshared_tac. Qed.
Hint Resolve unshared_tx_inputs unshared_tx_outputs : unshared.
Lemma unshared_tx_proto tx : unshared (tx_proto tx).
Proof. unfold tx_proto. unshared_tac. Qed.
End outside.
#[export] Hint Resolve unshared_validateJWT unshared_issueTokens unshared_subject unshared_outPoints
  unshared_customInputs unshared_tx_proto : unshared.

(** ** Critical sections and whole calls *)

Lemma quiet_ok `{Aead} s s' : quiet s s' -> service_ok s -> service_ok s'.
Proof. intros [Ho _]. by apply around_ok. Qed.

Lemma moves_calm `{Aead} {A} (m : M Service A) : moves quiet m -> moves calm m.
Proof. intros Hm s. by apply quiet_calm. Qed.

(** A critical section that changes neither registry nor files. *)
Fixpoint inside {A} (p : prog A) : Prop :=
  match p with
  | Return _ => True
  | Acquire _ | Release _ => False
  | Act m k => moves quiet m /\ forall r, inside (k r)
  end.
(** [held] says whether the program starts with the mutex. *)
Fixpoint disciplined `{Aead} {A} (held : bool) (p : prog A) : Prop :=
  match p with
  | Return _ => held = false
  | Acquire k => held = false /\ disciplined true k
  | Release k => held = true /\ disciplined false k
  | Act m k => moves calm m /\ (held = false -> unshared m) /\ forall r, disciplined held (k r)
  end.

Section inside.
Context `{Env} `{Mac} `{Hash} `{Aead}.

Lemma inside_bind {A B} (p : prog A) (f : A -> prog B) : inside p -> (forall a, inside (f a)) -> inside (p ≫= f).
Proof.
  intros Hp Hf. induction p as [[a|e]|k IH|k IH|X m k IH]; cbn in *; auto; [done..|].
  destruct Hp as [Hm Hk]. split; [done|]. intros r. by apply IH.
Qed.
Lemma inside_map {A B} (f : result A -> result B) (p : prog A) : inside p -> inside (prog_map f p).
Proof. induction p as [r|k IH|k IH|X m k IH]; cbn; auto. intros [Hm Hk]. split; [done|]. intros r. by apply IH. Qed.
Lemma inside_act {A} (m : M Service A) : moves quiet m -> inside (act m).
Proof. by split. Qed.
Lemma inside_ret {A} (a : A) : inside (mret a).
Proof. done. Qed.
Lemma inside_fail {A} e : inside (fail e : prog A).
Proof. done. Qed.
Lemma inside_return {A} (r : result A) : inside (Return r).
Proof. done. Qed.
Lemma inside_or_status {A} f (p : prog (result A)) : inside p -> inside (or_status f p).
Proof. intros Hp. by apply inside_map, inside_bind. Qed.
Lemma inside_unshared {A} (m : M Service A) : unshared m -> inside (act m).
Proof. intros Hm. by apply inside_act, unshared_quiet. Qed.
Lemma quiet_wcall l c : moves quiet (wcall l c).
Proof. apply moves_quiet; [apply wcall_only_world|apply kf_wcall]. Qed.
Lemma quiet_gets {A} (f : Service -> A) : moves quiet (gets f).
Proof. by intros s. Qed.
Lemma quiet_deref l : moves quiet (deref l).
Proof. apply moves_deref. typeclasses eauto. Qed.
Lemma quiet_W {A} (m : M world A) : moves keeps_files (W m) -> moves quiet (W m).
Proof. intros Hk. apply moves_quiet; [apply moves_W|done]. Qed.
End inside.

Create HintDb inside discriminated.
#[export] Hint Resolve inside_bind inside_act inside_ret inside_fail inside_return inside_or_status quiet_wcall
  quiet_gets quiet_deref : inside.
Ltac inside_call :=
  match goal with
  | |- inside (@through _ ?l ?c) => exact (inside_act (wcall l c) (quiet_wcall l c))
  | |- inside (@sdk _ ?q ?c) => exact (inside_unshared (W (wallet_call_ q c)) (unshared_W _ (kf_wallet q c)))
  | |- inside (@on_node _ ?c) => exact (inside_unshared (W (node c)) (unshared_W _ (kf_node c)))
  | |- inside (act (W (@host _ ?c))) => exact (inside_act (W (host c)) (quiet_W _ (kf_host c)))
  | |- inside (prog_error _ _) => apply inside_map
  | |- inside (prog_try _) => apply inside_map
  end.
#[export] Hint Extern 1 (inside _) => inside_call : inside.
Ltac inside_tac :=
  repeat first [ solve [auto 3 with inside]
               | apply inside_bind; [by auto with inside | intros ?] | case_match
               | apply inside_bind; [|intros ?] ];
  auto with inside.

Section sections.
Context `{Env} `{Mac} `{Hash} `{Aead}.

Lemma inside_snapshot l : inside (saveSnapshotLocked_c l).
Proof. unfold saveSnapshotLocked_c. inside_tac. Qed.
Lemma inside_addresses l : inside (walletAddresses_c l).
Proof. unfold walletAddresses_c. inside_tac. Qed.
Lemma inside_proto l : inside (walletProtoLocked_c l).
Proof. pose proof (inside_addresses l). unfold walletProtoLocked_c. inside_tac. Qed.
Lemma inside_protos ws keys : inside (wallet_protos_c ws keys).
Proof. pose proof inside_proto. induction keys; cbn [wallet_protos_c]; inside_tac. Qed.
Lemma inside_list t : inside (list_locked t).
Proof. pose proof inside_protos. unfold list_locked. inside_tac. Qed.
Lemma inside_openStore m w : inside (openStore_c m w).
Proof. unfold openStore_c. inside_tac. Qed.
Lemma quiet_find t w : moves quiet (find_wallet t w).
Proof. apply moves_quiet; unfold find_wallet; moves_tac. Qed.
Lemma quiet_newWalletMeta t w n mn pp : moves quiet (newWalletMeta t w n mn pp).
Proof. apply moves_quiet; [apply newWalletMeta_only_world|apply kf_newWalletMeta]. Qed.
Lemma quiet_tokens m : moves quiet (tokensForWallet m).
Proof. apply moves_quiet; [apply tokensForWallet_only_world|apply kf_tokensForWallet]. Qed.

(** ** Programs without the mutex *)

Lemma disciplined_bind {A B} (p : prog A) (f : A -> prog B) : forall held,
  disciplined held p -> (forall a, disciplined false (f a)) -> disciplined held (p ≫= f).
Proof.
  induction p as [[a|e]|k IH|k IH|X m k IH]; intros held Hp Hf; cbn in *.
  - rewrite Hp. apply Hf.
  - done.
  - destruct Hp as [-> Hp]. split; [done|]. by apply IH.
  - destruct Hp as [-> Hp]. split; [done|]. by apply IH.
  - destruct Hp as (Hq & Hm & Hp). split; [done|]. split; [done|]. intros r. by apply IH.
Qed.
Lemma disciplined_map {A B} (f : result A -> result B) (p : prog A) : forall held,
  disciplined held p -> disciplined held (prog_map f p).
Proof.
  induction p as [r|k IH|k IH|X m k IH]; intros held Hp; cbn in *; [done|..].
  - destruct Hp as [-> Hp]. split; [done|]. by apply IH.
  - destruct Hp as [-> Hp]. split; [done|]. by apply IH.
  - destruct Hp as (Hq & Hm & Hp). split; [done|]. split; [done|]. intros r. by apply IH.
Qed.
Lemma disciplined_act {A} (m : M Service A) : unshared m -> disciplined false (act m).
Proof. intros Hm. split; [by apply moves_calm, unshared_quiet|by split]. Qed.
Lemma disciplined_locked {A} (p : prog A) : inside p -> disciplined false (locked p).
Proof.
  intros Hp. split; [done|]. induction p as [r|k IH|k IH|X m k IH]; cbn in *; [done..|].
  destruct Hp as [Hm Hk]. split; [by apply moves_calm|]. split; [done|]. intros r. by apply IH.
Qed.
(** A section of one step. *)
Lemma disciplined_section {A} (m : M Service A) : moves calm m -> disciplined false (locked (act m)).
Proof. intros Hm. split; [done|]. by split. Qed.
Lemma disciplined_ret {A} (a : A) : disciplined false (mret a).
Proof. done. Qed.
Lemma disciplined_fail {A} e : disciplined false (fail e : prog A).
Proof. done. Qed.
Lemma disciplined_return {A} (r : result A) : disciplined false (Return r).
Proof. done. Qed.
Lemma disciplined_or_status {A} f (p : prog (result A)) : disciplined false p -> disciplined false (or_status f p).
Proof. intros Hp. by apply disciplined_map, disciplined_bind. Qed.
Lemma disciplined_probe p : disciplined false p -> disciplined false (probe_c p).
Proof. intros Hp. apply disciplined_bind; [done|]. intros [b|e]; [done|]. by case_match. Qed.
Lemma disciplined_wallet t w : disciplined false (wallet_c t w).
Proof. apply disciplined_bind; [done|]. intros _. apply disciplined_locked, inside_act, quiet_find. Qed.
Lemma disciplined_snapshot l : disciplined false (saveSnapshot_c l).
Proof. pose proof (inside_snapshot l). apply disciplined_locked. inside_tac. Qed.
End sections.

Create HintDb disciplined discriminated.
#[export] Hint Resolve disciplined_bind disciplined_act disciplined_ret disciplined_fail disciplined_return
  disciplined_or_status disciplined_probe disciplined_wallet disciplined_snapshot disciplined_locked
  inside_proto inside_list : disciplined.
Ltac disciplined_call :=
  match goal with
  | |- disciplined false (@sdk _ ?q ?c) => exact (disciplined_act (W (wallet_call_ q c)) (unshared_W _ (kf_wallet q c)))
  | |- disciplined false (@on_node _ ?c) => exact (disciplined_act (W (node c)) (unshared_W _ (kf_node c)))
  | |- disciplined false (act _) => apply disciplined_act; by auto with unshared
  end.
#[export] Hint Extern 1 (disciplined _ _) => disciplined_call : disciplined.
Ltac disciplined_tac :=
  repeat first [ solve [auto 3 with disciplined]
               | apply disciplined_bind; [by auto with disciplined | intros ?] | case_match
               | apply disciplined_bind; [|intros ?] ];
  auto with disciplined.

Section methods.
Context `{Env} `{Mac} `{Hash} `{Aead}.

Lemma unary_disciplined r p req : unary_c r = Some p -> r <> BSVMS_CreateWallet -> r <> BSVMS_RestoreWallet ->
  disciplined false (p req).
Proof.
  intros Hp Hc Hs. destruct r; injection Hp as <- || discriminate Hp; try done;
    match goal with |- disciplined _ ?p => unfold_head p end; cbv zeta; disciplined_tac.
Qed.
Lemma disciplined_bootstrap req : disciplined false (bootstrapAllowed_c req).
Proof.
  unfold bootstrapAllowed_c. destruct (tenantWalletFromRequest req) as [[t w] b].
  repeat case_match; try done; apply disciplined_locked, inside_act, quiet_gets.
Qed.
Lemma disciplined_authorize ctx method req : disciplined false (authorize_c ctx method req).
Proof.
  pose proof (disciplined_bootstrap req).
  unfold authorize_c. apply disciplined_bind; [apply disciplined_act, (unshared_opts AuthEnabled)|]. intros ?.
  disciplined_tac.
Qed.

(** ** Rescans *)

Lemma beginRescan_run l s : exists b s', beginRescan l s = (Ok b, s') /\
  (if b then exists tw, sv_heap s !! l = Some tw /\ tw_rescanning tw = false /\
     s' = set_heap (alter (set_rescanning true) l) s
   else s' = s).
Proof.
  unfold beginRescan, heap_begin. destruct (sv_heap s !! l) as [tw|] eqn:El.
  - destruct (tw_rescanning tw) eqn:Et; eexists _, _; (split; [reflexivity|]); [by destruct s|].
    exists tw. split; [done|]. split; [done|]. unfold set_heap. do 2 f_equal. apply list_eq. intros l'.
    destruct (decide (l' = l)) as [->|Hne].
    + rewrite list_lookup_alter_eq, El. by rewrite list_lookup_insert_eq by (by eapply lookup_lt_Some).
    + by rewrite list_lookup_insert_ne, list_lookup_alter_ne.
  - eexists _, _. split; [reflexivity|]. by destruct s.
Qed.
Lemma calm_begin l : moves calm (beginRescan l).
Proof.
  intros s. destruct (beginRescan_run l s) as (b & s' & -> & Hb). cbn.
  destruct b; [destruct Hb as (tw & _ & _ & ->); apply flag_calm|by subst].
Qed.
Lemma calm_end l : moves calm (endRescan l).
Proof. intros s. apply flag_calm. Qed.
Lemma disciplined_send ev : disciplined false (stream_send ev).
Proof. apply disciplined_act, unshared_W, kf_host. Qed.
Lemma disciplined_walk l every evs : forall sent, disciplined false (walk_c l every sent evs).
Proof.
  pose proof disciplined_send. induction evs as [|[p|] evs IH]; intros sent; cbn [walk_c]; disciplined_tac.
Qed.
Lemma disciplined_rescan l body : disciplined false body -> disciplined false (rescan_c l body).
Proof.
  intros Hb. unfold rescan_c. apply disciplined_bind; [apply disciplined_section, calm_begin|]. intros ok.
  destruct ok; [|done]. apply disciplined_bind; [by apply disciplined_map|]. intros r.
  apply disciplined_bind; [apply disciplined_section, calm_end|done].
Qed.
Lemma disciplined_body l q h req : disciplined false (rescan_body_c l q h req).
Proof.
  pose proof disciplined_send. pose proof (disciplined_walk l (checkpointEvery req)). unfold rescan_body_c. disciplined_tac.
Qed.
End methods.
