(* ===== verification/ConcBeside.v ===== *)
(** * Beside the calls

    The callbacks of the SDK and the streams of other clients go on while calls are
    in flight. They touch the brokers and the outside world, and nothing else of the
    service: a callback that [registerNodeEvents] or [registerWalletEvents] has
    installed is one step, and each [Stream*] method is a run of such steps. *)

From S2P Require Import Prelude GoStrings GoTime Encoding Crypto Proto Broker Streams Sdk Ids World Encryption Options.
From S2P Require Import Service Auth Registry RegistrySpec Handlers HandlersSpec Lifecycle RegistryAbs Disk Events Conc ConcSpec.

Section beside.
Context `{Env} `{Mac} `{Hash} `{Aead}.

Lemma quiet_brokers f s : quiet s (set_brokers f s).
Proof. by split. Qed.
Lemma quiet_publish {T} (L : broker_lens T) v : moves quiet (publish_on L v).
Proof.
  unfold publish_on. apply moves_bind; [typeclasses eauto|apply quiet_gets|]. intros bs.
  destruct (publish v _); [|by apply moves_throw; typeclasses eauto]. intros s. apply quiet_brokers.
Qed.
Lemma quiet_tx_proto tx : moves quiet (tx_proto tx).
Proof. apply unshared_quiet, unshared_tx_proto. Qed.
Lemma quiet_transactionProto tx : moves quiet (transactionProto tx).
Proof. pose proof quiet_tx_proto. unfold transactionProto. moves_tac. Qed.
Lemma quiet_callback m : callback m -> moves quiet m.
Proof.
  intros Hc. destruct Hc; try apply quiet_publish.
  - apply moves_bind; [typeclasses eauto|apply quiet_tx_proto|]. intros p. apply quiet_publish.
  - apply moves_bind; [typeclasses eauto|apply quiet_transactionProto|]. intros p. apply quiet_publish.
Qed.
Lemma quiet_authorize ctx method req : moves quiet (authorize ctx method req).
Proof.
  pose proof (fun t ty => unshared_quiet _ (unshared_validateJWT t ty)) as Hv.
  pose proof (unshared_quiet _ (unshared_subject ctx)) as Hs.
  unfold authorize, bootstrapAllowed. moves_tac.
Qed.
Lemma beside_quiet s s' : beside s s' -> quiet s s'.
Proof.
  intros [m Hm|ctx method req|f]; [by apply quiet_callback|apply quiet_authorize|apply quiet_brokers].
Qed.

(** The stream methods, and what a subscriber does. *)
Lemma open_stream_beside {T} (L : broker_lens T) keep s : beside s (snd (open_stream L keep s)).
Proof.
  unfold open_stream, subscribe_on, mbind, M_bind. destruct (subscribe _) as [[id ch] b]. cbn.
  apply (beside_subscribers s (lens_set L b)).
Qed.
Lemma checked_stream_beside {A} ctx method req (m : M Service A) s :
  (forall s, beside s (snd (m s))) -> rtc beside s (snd ((_ ← authorize ctx method req; m) s)).
Proof.
  intros Hm. unfold mbind, M_bind. pose proof (beside_check s ctx method req) as Hc.
  destruct (authorize ctx method req s) as [[[]|e] s1]; cbn in *; [|by apply rtc_once].
  eapply rtc_l; [exact Hc|]. by apply rtc_once.
Qed.
Lemma StreamPayments_beside ctx req s : rtc beside s (snd (StreamPayments ctx req s)).
Proof. apply checked_stream_beside. intros s'. apply open_stream_beside. Qed.
Lemma StreamWalletTransactions_beside ctx req s : rtc beside s (snd (StreamWalletTransactions ctx req s)).
Proof. apply checked_stream_beside. intros s'. apply open_stream_beside. Qed.
End beside.
