(* ===== verification/ConcLogic.v ===== *)
(** * Reasoning about one call among others

    [wp T e Q held p g s]: thread [p], which last moved to state [s] and holds the
    mutex or not, obeys the lock discipline, makes only steps that [T] allows and
    ends, holding the mutex iff [e], in [Q], whatever the other calls do in
    between ([others]): everything when it does not hold the mutex, nothing to
    registry or files when it does. [g] is what the proof remembers of the past;
    each step says how it goes on. *)

From S2P Require Import Prelude GoStrings GoTime Encoding Crypto Proto Broker Sdk Ids World Encryption Options.
From S2P Require Import Service Auth Registry RegistrySpec Handlers HandlersSpec Lifecycle RegistryAbs Disk Conc ConcSpec.

Section others.
Context `{Aead} `{Hash}.

(** What the other calls may have done meanwhile. *)
Definition others (held : bool) (s s' : Service) : Prop := service_ok s' /\ if held then quiet s s' else lives s s'.
Lemma others_trans held s1 s2 s3 : others held s1 s2 -> others held s2 s3 -> others held s1 s3.
Proof. intros [_ R1] [H2 R2]. split; [done|]. destruct held; by etransitivity. Qed.
Lemma others_refl held s : service_ok s -> others held s s.
Proof. intros Hs. split; [done|]. destruct held; reflexivity. Qed.
Lemma others_lives held s s' : others held s s' -> lives s s'.
Proof. intros [_ R]. destruct held; [by apply quiet_lives|done]. Qed.
Lemma others_weaken held s s' : others true s s' -> others held s s'.
Proof. intros [Hs R]. split; [done|]. destruct held; [done|by apply quiet_lives]. Qed.

(** Facts the others leave true. *)
Definition lasting (J : Service -> Prop) : Prop := forall s s', service_ok s' -> lives s s' -> J s -> J s'.
Definition steady_inside (J : Service -> Prop) : Prop := forall s s', service_ok s' -> quiet s s' -> J s -> J s'.
Lemma lasting_inside J : lasting J -> steady_inside J.
Proof. intros HJ s s' Hs Hq. by apply HJ, quiet_lives. Qed.
End others.

Section wp.
Context `{Env} `{Mac} `{Hash} `{Aead} {G : Type} (T : G -> Service -> G -> Service -> Prop).

Fixpoint wp {A} (e : bool) (Q : G -> result A -> Service -> Prop) (held : bool) (p : prog A) (g : G) (s : Service) : Prop :=
  match p with
  | Return x => held = e /\ Q g x s
  | Acquire k => held = false /\ forall s1, others false s s1 -> exists g', T g s1 g' s1 /\ wp e Q true k g' s1
  | Release k => held = true /\ forall s1, others true s s1 -> exists g', T g s1 g' s1 /\ wp e Q false k g' s1
  | Act m k => (held = false -> unshared m) /\ forall s1, others held s s1 ->
      exists g', T g s1 g' (snd (m s1)) /\ wp e Q held (k (fst (m s1))) g' (snd (m s1))
  end.

Ltac wp_step := let Hh := fresh in let Hp := fresh in let HT := fresh in let Hw := fresh in
  intros [Hh Hp]; split; [exact Hh|]; intros s1 Hs1; destruct (Hp s1 Hs1) as (g' & HT & Hw); exists g'.
Lemma wp_mono {A} e (Q Q' : G -> result A -> Service -> Prop) p : forall held g s,
  (forall g x s, Q g x s -> Q' g x s) -> wp e Q held p g s -> wp e Q' held p g s.
Proof.
  induction p as [x|k IH|k IH|X m k IH]; intros held g s HQ; cbn.
  - intros [Eh Hx]. auto.
  - wp_step. auto.
  - wp_step. auto.
  - wp_step. auto.
Qed.
(** What others do in the meantime does not matter. *)
Lemma wp_others {A} e (Q : G -> result A -> Service -> Prop) held p g s s' :
  (forall x, others e s s' -> Q g x s -> Q g x s') -> others held s s' ->
  wp e Q held p g s -> wp e Q held p g s'.
Proof.
  intros HQ Ho. destruct p as [x|k|k|X m k]; cbn.
  - intros [-> Hx]. auto.
  - intros [-> Hp]. split; [done|]. intros s1 Hs1. apply Hp. by eapply others_trans.
  - intros [-> Hp]. split; [done|]. intros s1 Hs1. apply Hp. by eapply others_trans.
  - intros [Hu Hp]. split; [done|]. intros s1 Hs1. apply Hp. by eapply others_trans.
Qed.
Lemma wp_bind {A B} e (Q : G -> result B -> Service -> Prop) b (p : prog A) (f : A -> prog B) : forall held g s,
  wp b (fun g x s => wp e Q b (match x with Ok a => f a | Err err => Return (Err err) end) g s) held p g s ->
  wp e Q held (p ≫= f) g s.
Proof.
  induction p as [[a|err]|k IH|k IH|X m k IH]; intros held g s; cbn.
  - by intros [-> Hf].
  - by intros [-> Hf].
  - wp_step. split; [done|by apply IH].
  - wp_step. split; [done|by apply IH].
  - wp_step. split; [done|by apply IH].
Qed.
Lemma wp_map {A B} e (Q : G -> result B -> Service -> Prop) (f : result A -> result B) (p : prog A) : forall held g s,
  wp e (fun g x s => Q g (f x) s) held p g s -> wp e Q held (prog_map f p) g s.
Proof.
  induction p as [x|k IH|k IH|X m k IH]; intros held g s; cbn; [done|..].
  - wp_step. auto.
  - wp_step. auto.
  - wp_step. auto.
Qed.
Lemma wp_act {A} (Q : G -> result A -> Service -> Prop) held (m : M Service A) g s :
  (held = false -> unshared m) ->
  (forall s1, others held s s1 -> exists g', T g s1 g' (snd (m s1)) /\ Q g' (fst (m s1)) (snd (m s1))) ->
  wp held Q held (act m) g s.
Proof. intros Hu Hp. split; [done|]. intros s1 Hs1. destruct (Hp s1 Hs1) as (g' & HT & Hw). by exists g'. Qed.
(** The mutex is given back at the end: at that moment [Q] has to hold. *)
Definition given_back {A} (Q : G -> result A -> Service -> Prop) (g : G) (x : result A) (s : Service) : Prop :=
  forall s1, others true s s1 -> exists g', T g s1 g' s1 /\ Q g' x s1.
Lemma wp_locked {A} (Q : G -> result A -> Service -> Prop) (p : prog A) g s :
  (forall s1, others false s s1 -> exists g', T g s1 g' s1 /\ wp true (given_back Q) true p g' s1) ->
  wp false Q false (locked p) g s.
Proof.
  intros Hp. split; [done|]. intros s1 Hs1. destruct (Hp s1 Hs1) as (g' & HT & Hw). exists g'. split; [done|].
  clear Hp HT Hs1. assert (forall held g s, wp true (given_back Q) held p g s -> wp false Q held (then_release p) g s) as Hr.
  2: by apply Hr. clear. induction p as [x|k IH|k IH|X m k IH]; intros held g s; cbn.
  - intros [-> Hx]. split; [done|]. intros s1 Hs1. destruct (Hx s1 Hs1) as (g' & HT & Hq). by exists g'.
  - wp_step. auto.
  - wp_step. auto.
  - wp_step. auto.
Qed.
(** What a step remembers may be settled after it. *)
Lemma wp_settle {A} e (Q : G -> result A -> Service -> Prop)
    (HT : forall g1 s1 g2 s2 g3, T g1 s1 g2 s2 -> T g2 s2 g3 s2 -> T g1 s1 g3 s2)
    (Hid : forall g s, service_ok s -> T g s g s) p : forall held g s, service_ok s ->
  (forall g1 s1 g2 s2, T g1 s1 g2 s2 -> service_ok s1 -> service_ok s2) ->
  wp e (fun g x s => exists g', T g s g' s /\ Q g' x s) held p g s ->
  exists g', T g s g' s /\ wp e Q held p g' s.
Proof.
  induction p as [x|k IH|k IH|X m k IH]; intros held g s Hs Hok; cbn.
  - intros (-> & g' & Hg & Hx). by exists g'.
  - intros [-> Hp]. exists g. split; [auto|]. split; [done|]. intros s1 Hs1. destruct (Hp s1 Hs1) as (g' & Hg & Hw).
    destruct (IH true g' s1) as (g2 & Hg2 & Hw2); [apply Hs1|done|done|]. exists g2. split; [by eapply HT|done].
  - intros [-> Hp]. exists g. split; [auto|]. split; [done|]. intros s1 Hs1. destruct (Hp s1 Hs1) as (g' & Hg & Hw).
    destruct (IH false g' s1) as (g2 & Hg2 & Hw2); [apply Hs1|done|done|]. exists g2. split; [by eapply HT|done].
  - intros [Hu Hp]. exists g. split; [auto|]. split; [done|]. intros s1 Hs1. destruct (Hp s1 Hs1) as (g' & Hg & Hw).
    destruct (IH (fst (m s1)) held g' (snd (m s1))) as (g2 & Hg2 & Hw2); [eapply Hok; [done|apply Hs1]|done|done|].
    exists g2. split; [by eapply HT|done].
Qed.
End wp.

(** ** Steps that leave the registry alone *)

Section quiet.
Context `{Env} `{Mac} `{Hash} `{Aead} {G : Type} (T : G -> Service -> G -> Service -> Prop).
Hypothesis Tquiet : forall g s s', service_ok s' -> quiet s s' -> T g s g s'.

Lemma T_id g s : service_ok s -> T g s g s.
Proof. intros Hs. by apply Tquiet. Qed.
Lemma wp_quiet_act {A} (Q : G -> result A -> Service -> Prop) held (m : M Service A) g s :
  moves quiet m -> (held = false -> unshared m) ->
  (forall s1, others held s s1 -> service_ok (snd (m s1)) -> quiet s1 (snd (m s1)) -> Q g (fst (m s1)) (snd (m s1))) ->
  wp T held Q held (act m) g s.
Proof.
  intros Hm Hu HQ. apply wp_act; [done|]. intros s1 Hs1. pose proof (Hm s1) as Hq.
  pose proof (quiet_ok _ _ Hq (proj1 Hs1)) as Hok. exists g. auto.
Qed.
(** A section that changes nothing, when all that matters is a fact [J]. *)
Lemma wp_inside {A} (J : Service -> Prop) (Q : G -> result A -> Service -> Prop) p g : forall s,
  steady_inside J -> inside p -> service_ok s -> J s -> (forall x s', service_ok s' -> J s' -> Q g x s') ->
  wp T true Q true p g s.
Proof.
  induction p as [x|k IH|k IH|X m k IH]; intros s HJ Hp Hs Hj HQ; cbn in *; [by auto|done..|].
  destruct Hp as [Hm Hk]. split; [done|]. intros s1 [Hs1 Hq]. pose proof (Hm s1) as Hq1.
  pose proof (quiet_ok _ _ Hq1 Hs1) as Hok. exists g. split; [auto|].
  apply IH; try done. eapply HJ; [done..|]. by eapply HJ.
Qed.
End quiet.

(** ** Steps that add no wallet *)

Section calm.
Context `{Env} `{Mac} `{Hash} `{Aead} {G : Type} (T : G -> Service -> G -> Service -> Prop).
Hypothesis Tcalm : forall g s s', service_ok s' -> lives s s' -> directory_of s' = directory_of s -> T g s g s'.

(** A whole call, when all that matters lasts. *)
Lemma wp_disciplined {A} (J : Service -> Prop) (Q : G -> result A -> Service -> Prop) p g : forall held s,
  lasting J -> disciplined held p -> service_ok s -> J s -> (forall x s', service_ok s' -> J s' -> Q g x s') ->
  wp T false Q held p g s.
Proof.
  induction p as [x|k IH|k IH|X m k IH]; intros held s HJ Hp Hs Hj HQ; cbn in *.
  - auto.
  - destruct Hp as [-> Hp]. split; [done|]. intros s1 [Hs1 Hl]. exists g. split; [by apply Tcalm|].
    apply IH; try done. by eapply HJ.
  - destruct Hp as [-> Hp]. split; [done|]. intros s1 [Hs1 Hl]. exists g. split; [by apply Tcalm|].
    apply IH; try done. eapply HJ; [done| |done]. by apply quiet_lives.
  - destruct Hp as (Hm & Hu & Hk). split; [done|]. intros s1 Hs1. destruct (Hm s1 (proj1 Hs1)) as (Hok & Hl & Hd).
    exists g. split; [by apply Tcalm|]. apply IH; try done.
    eapply HJ; [done|done|]. eapply HJ; [apply Hs1|by eapply others_lives|done].
Qed.
End calm.
#[global] Arguments wp : simpl never.
