(* ===== verification/ConcAdd.v ===== *)
(** * Adding a wallet, step by step

    What [CreateWallet] and [RestoreWallet] do while they hold [s.mu]: every call
    to the SDK and every change of a file is a step of its own, and between two of
    them the service may be killed and calls that need no mutex go on. The wallet
    enters the directory at one step; if the call succeeds its record is on disk. *)

From S2P Require Import Prelude GoStrings GoTime GoPath Encoding Crypto Json Decode Proto Broker Sdk Ids World Encryption.
From S2P Require Import Options Service Auth AuthSpec Registry RegistrySpec Handlers HandlersSpec Lifecycle RegistryAbs Disk.
From S2P Require Import Conc ConcSpec ConcLogic.

(** ** The state file, in two steps *)

Section saving.
Context `{Env} `{Mac} `{Hash} `{Aead}.

Definition state_bytes (s : Service) : string := json_print indented 0 (state_json (sv_state s)).
Definition tmpPath (s : Service) : string := statePath (sv_dataDir s) +:+ ".tmp".

(** A step on files that leaves the state file alone, or puts the records there. *)
Lemma file_step {A} (m : M world A) s :
  let s' := snd (W m s) in
  (forall p, p <> statePath (sv_dataDir s) -> p <> tmpPath s -> files s !! p = files s' !! p) ->
  files s' !! statePath (sv_dataDir s) = files s !! statePath (sv_dataDir s) \/ holds_state s' (sv_state s) ->
  service_ok s -> service_ok s' /\ lives s s'.
Proof.
  intros s' Hother Hstate Hs. assert (only_world s s') as Ho by apply moves_W.
  assert (sv_dataDir s' = sv_dataDir s /\ sv_state s' = sv_state s) as [Ed Es] by (by rewrite Ho).
  split; [exact (service_ok_proper _ _ Ho Hs)|]. split; [by apply around_outlives, only_world_around|split; [done|]|].
  - by apply same_secrets_elsewhere.
  - split; [done|]. rewrite Es. split; [done|]. destruct Hstate as [?|?]; [by left|right].
    by exists (sv_state s).
Qed.
Lemma write_tmp_step s raw : let m := W (os_write_file (tmpPath s) raw 384) in
  service_ok s -> (service_ok (snd (m s)) /\ lives s (snd (m s))) /\ only_world s (snd (m s)) /\
  (is_ok (fst (m s)) = true -> exists f, files (snd (m s)) !! tmpPath s = Some f /\ file_data f = raw).
Proof.
  intros m Hs. assert (forall p, p <> tmpPath s -> files s !! p = files (snd (m s)) !! p) as Hp.
  { intros p Hp. unfold m, W, zoom, files. destruct (os_write_file _ _ _ (sv_world s)) as [r w] eqn:E. cbn.
    by rewrite (os_write_file_other _ _ _ _ _ _ p E). }
  split; [|split; [apply moves_W|]].
  - apply file_step; [auto| |done]. left. symmetry. apply Hp. intros E. by apply (tmp_ne (statePath (sv_dataDir s))).
  - unfold m, W, zoom, files. destruct (os_write_file _ _ _ (sv_world s)) as [[[]|e] w] eqn:E; cbn; [|done].
    apply os_write_file_ok in E as ->. intros _. cbn. unfold write_file. rewrite lookup_insert_eq. by eexists.
Qed.
Lemma rename_step s f : let m := W (os_rename (tmpPath s) (statePath (sv_dataDir s))) in
  service_ok s -> files s !! tmpPath s = Some f -> file_data f = state_bytes s ->
  (service_ok (snd (m s)) /\ lives s (snd (m s))) /\ only_world s (snd (m s)) /\
  (is_ok (fst (m s)) = true -> holds_state (snd (m s)) (sv_state s)).
Proof.
  intros m Hs Hf Ef.
  assert (files (snd (m s)) = files s /\ is_ok (fst (m s)) = false \/
    files (snd (m s)) = <[statePath (sv_dataDir s) := f]> (delete (tmpPath s) (files s))) as Hm.
  { unfold m, W, zoom, files in *. destruct (os_rename _ _ (sv_world s)) as [[[]|e] w] eqn:E; cbn.
    - apply os_rename_ok in E as (f' & Hf' & ->). right. cbn. congruence.
    - left. by rewrite (os_rename_err _ _ _ _ _ E). }
  assert (only_world s (snd (m s))) as Ho by apply moves_W.
  assert (holds_state (snd (m s)) (sv_state s) \/ files (snd (m s)) = files s /\ is_ok (fst (m s)) = false) as Hst.
  { destruct Hm as [?|E]; [by right|left]. exists f. assert (sv_dataDir (snd (m s)) = sv_dataDir s) as -> by (by rewrite Ho).
    rewrite E, lookup_insert_eq. done. }
  split; [|split; [done|]].
  - apply file_step; [|destruct Hst as [?|[E _]]; [by right|left; unfold m in E; by rewrite E]|done].
    intros p N1 N2. destruct Hm as [[E _]|E]; unfold m in E; rewrite E; [done|]. by rewrite lookup_insert_ne, lookup_delete_ne.
  - intros Hok. destruct Hst as [?|[_ E]]; [done|congruence].
Qed.
End saving.

(** ** Moments *)

Section moments.
Context `{Env} `{Mac} `{Hash} `{Aead}.

(** The directory before and after the step at which a call took effect; none yet. *)
Definition moment : Type := option (directory * directory).
(** A step leaves the directory alone, or it is the moment. *)
Definition effect (g : moment) (s : Service) (g' : moment) (s' : Service) : Prop :=
  (service_ok s' /\ lives s s') /\
  (g' = g /\ directory_of s' = directory_of s \/ g = None /\ g' = Some (directory_of s, directory_of s')).

Lemma quiet_directory s s' : quiet s s' -> directory_of s' = directory_of s.
Proof. intros [Ho _]. by apply directory_of_around. Qed.
Lemma effect_quiet g s s' : service_ok s' -> quiet s s' -> effect g s g s'.
Proof. intros Hs Hq. split; [split; [done|by apply quiet_lives]|]. left. by rewrite (quiet_directory _ _ Hq). Qed.
Lemma effect_calm g s s' : service_ok s' -> lives s s' -> directory_of s' = directory_of s -> effect g s g s'.
Proof. intros Hs Hl Hd. split; [done|by left]. Qed.
Lemma effect_now s s' : service_ok s' -> quiet s s' -> effect None s (Some (directory_of s, directory_of s)) s'.
Proof.
  intros Hs Hq. split; [split; [done|by apply quiet_lives]|]. right. by rewrite (quiet_directory _ _ Hq).
Qed.
Lemma effect_trans g1 s1 g2 s2 g3 : effect g1 s1 g2 s2 -> effect g2 s2 g3 s2 -> effect g1 s1 g3 s2.
Proof.
  intros [Hl E1] [_ E2]. split; [done|]. destruct E2 as [[-> _]|[-> ->]]; [done|].
  destruct E1 as [[<- Ed]|[_ E]]; [|done]. right. split; [done|]. by rewrite Ed.
Qed.

Abbreviation wpm := (wp effect).

#[local] Arguments json_print : simpl never.
(** The others, while the mutex is held. *)
Lemma others_inside s s' : others true s s' -> service_ok s' /\ sv_state s' = sv_state s /\
  sv_dataDir s' = sv_dataDir s /\ files s' = files s.
Proof. intros [Hs [Ho Hk]]. split; [done|]. by split; [rewrite Ho|split; [rewrite Ho|]]. Qed.
Lemma file_effect g s s' : service_ok s' /\ lives s s' -> only_world s s' -> effect g s g s'.
Proof. intros Hl Ho. split; [done|]. left. split; [done|]. by apply directory_of_only_world. Qed.

(** The state file is written, with all records. *)
Lemma wp_rename (Q : moment -> result unit -> Service -> Prop) f g s st dir :
  st = sv_state s -> dir = sv_dataDir s -> files s !! (statePath dir +:+ ".tmp") = Some f ->
  file_data f = json_print indented 0 (state_json st) ->
  (forall x s', service_ok s' -> lives s s' -> (x = Ok () -> holds_state s' (sv_state s')) -> Q g x s') ->
  wpm true Q true (act (W (os_rename (statePath dir +:+ ".tmp") (statePath dir)))) g s.
Proof.
  intros -> -> Hf Ef HQ. apply wp_act; [done|]. intros s1 Ho. pose proof (others_inside _ _ Ho) as (Hs1 & E & D & F).
  rewrite <- D in *. rewrite <- E, <- F in *.
  destruct (rename_step s1 f Hs1 Hf Ef) as (Hl & Hw & Hst). exists g. split; [by apply file_effect|].
  apply HQ; [apply Hl|etransitivity; [by eapply others_lives|apply Hl]|]. intros Hx. unfold tmpPath in *. rewrite Hx in Hst.
  specialize (Hst eq_refl). clear - Hst Hw. set (s2 := snd _) in *. assert (sv_state s2 = sv_state s1) as -> by (by rewrite Hw). done.
Qed.
Lemma wp_saveState (Q : moment -> result unit -> Service -> Prop) g s : service_ok s ->
  (forall x s', service_ok s' -> lives s s' -> (x = Ok () -> holds_state s' (sv_state s')) -> Q g x s') ->
  wpm true Q true saveStateLocked_c g s.
Proof.
  intros Hs HQ. unfold saveStateLocked_c. eapply wp_bind, wp_quiet_act; [apply effect_quiet|apply quiet_gets|done|].
  intros s1 Ho1 _ _. eapply wp_bind, wp_quiet_act; [apply effect_quiet|apply quiet_gets|done|].
  intros s2 Ho2 _ _. cbv zeta. cbn [gets fst snd]. eapply wp_bind, wp_act; [done|]. intros s3 Ho3.
  cbn [gets snd] in Ho2, Ho3. pose proof (others_inside _ _ Ho2) as (_ & <- & _). pose proof (others_inside _ _ Ho3) as (Hs3 & <- & <- & _).
  destruct (write_tmp_step s3 (state_bytes s3) Hs3) as (Hl & Hw & Hf). exists g. split; [by apply file_effect|].
  assert (lives s (snd (W (os_write_file (tmpPath s3) (state_bytes s3) 384) s3))) as Hlives.
  { do 3 (etransitivity; [by eapply others_lives|]). apply Hl. }
  unfold state_bytes, tmpPath in *. destruct (W _ s3) as [[[]|e] s4]; cbn in *; [|by split; [|apply HQ; [apply Hl|..]]].
  destruct (Hf eq_refl) as (f & Hf4 & Ef). apply (wp_rename _ f _ _ (sv_state s3)); [by rewrite Hw|by rewrite Hw|done|done|].
  intros x s' Hs' Hl' Hx. apply HQ; [done|by etransitivity|done].
Qed.

(** ** The wallet enters *)

(** A record of the wallet [t]/[w] with these secrets, as [newWalletMeta] makes it. *)
Record new_meta (t w mnemonic passphrase : string) (key : bytes) (m : walletMeta) : Prop := {
  nm_ids : ids m = (t, w);
  nm_name : SDKName m = sdkWalletName t w;
  nm_sealed : has_plaintext m = false;
  nm_plain : plain_meta m;
  nm_opens : openWalletSecrets key m = Ok (mnemonic, passphrase);
}.
Lemma newWalletMeta_new t w mn pp s m s' : idRE_MatchString t = true -> idRE_MatchString w = true ->
  newWalletMeta t w (sdkWalletName t w) mn pp s = (Ok m, s') -> new_meta t w mn pp (DataKey (sv_opts s)) m.
Proof.
  intros Ht Hw (Et & Ew & En & Hp & Ho & Hpl & _)%newWalletMeta_ok. split; [|done|done| |done].
  - unfold ids. congruence.
  - apply Hpl; [by apply id_plain..|apply sdkWalletName_plain].
Qed.

Lemma enter_step t w mn pp m q st s : service_ok s -> idRE_MatchString t = true -> idRE_MatchString w = true ->
  lookup_wallet s t w = None -> new_meta t w mn pp (DataKey (sv_opts s)) m ->
  exists l s', enter m q st s = (Ok l, s') /\ (service_ok s' /\ lives s s') /\ m ∈ sv_state s' /\
    directory_of s' = <[(t, w) := (mn, pp)]> (directory_of s).
Proof.
  intros Hs Ht Hw Hn [Ei En Hp Hpl Ho]. injection Ei as Et Ew. set (tw := MkTW m q st false).
  unfold enter, alloc, gets, modify, mbind, M_bind, mret, M_ret. cbn [fst snd].
  set (s1 := set_wallets _ _). destruct (registerWalletEvents_ok (length (sv_heap s)) tw s1) as (s2 & E2 & Ho2).
  { unfold s1. cbn. by rewrite lookup_app_r, Nat.sub_diag by lia. }
  pose proof (kf_registerWalletEvents (length (sv_heap s)) s1) as Hk. rewrite E2 in *. cbn [snd] in Hk.
  eexists _, _. split; [reflexivity|]. set (s3 := set_state _ s2).
  assert (only_world (RegistrySpec.added tw s) s3) as Hadd.
  { unfold s3, only_world in *. rewrite Ho2. unfold s1. by destruct s. }
  assert (add_outcome t w mn pp s s3 (Ok ())) as Hout by (by apply (add_done _ _ _ _ _ _ _ tw)).
  assert (files s3 = files s) as Hf by exact Hk. assert (sv_dataDir s3 = sv_dataDir s) as Hd by (by rewrite Hadd).
  pose proof (grows_add_outcome _ _ _ _ _ _ _ Hout) as Hg.
  split; [split; [by eapply add_outcome_records|split; [by apply grows_outlives|split; [done|by rewrite Hf]|]]|split].
  - split; [done|]. split; [apply Hg|]. left. by rewrite Hf.
  - assert (sv_state s3 = sv_state s ++ [m]) as -> by (by rewrite Hadd). set_solver.
  - assert ((t, w) = ids (tw_meta tw)) as -> by (by rewrite <- Et, <- Ew).
    apply (directory_added s s3 tw); [|done|done]. apply directory_none; [done|]. unfold ids. cbn. by rewrite Et, Ew.
Qed.

(** ** What creation and restoration share *)

Lemma holds_stored s m : service_ok s -> holds_state s (sv_state s) -> m ∈ sv_state s -> stored s m.
Proof.
  intros Hs (f & Hf & Ef) Hm. apply saved_stored; [|done]. exists f. split; [done|]. rewrite Ef.
  by apply unmarshal_state_json, service_plain.
Qed.
Definition free (t w : string) (s : Service) : Prop := lookup_wallet s t w = None.
Definition on_record (t w : string) (s : Service) : Prop := exists m, stored s m /\ ids m = (t, w).
Lemma lasting_record t w : lasting (on_record t w).
Proof. intros s s' Hs' Hl (m & Hm & Ei). exists m. split; [by eapply stored_lives|done]. Qed.

(** [add_wallet] fails before the wallet enters, or enters it, and then either
    fails or has its record on disk. *)
Lemma wp_add_wallet t w mn pp m q (Q : moment -> result (pb.Wallet * option pb.AuthTokens) -> Service -> Prop) s :
  idRE_MatchString t = true -> idRE_MatchString w = true -> service_ok s -> free t w s ->
  new_meta t w mn pp (DataKey (sv_opts s)) m ->
  (forall e s', service_ok s' -> free t w s' -> Q None (Err e) s') ->
  (forall d x s', service_ok s' -> d !! (t, w) = None -> (is_ok x = true -> on_record t w s') ->
     Q (Some (d, <[(t, w) := (mn, pp)]> d)) x s') ->
  wpm true Q true (add_wallet m q) None s.
Proof.
  intros Ht Hw Hs Hn Hm Hfail Hadd. unfold add_wallet.
  set (J := fun s => free t w s /\ new_meta t w mn pp (DataKey (sv_opts s)) m).
  assert (steady_inside J) as HJ by (intros s1 s2 _ [Ho _]; unfold J, free; by rewrite Ho).
  apply wp_bind with true, (wp_inside _ effect_quiet J); [done|apply inside_openStore|done|done|].
  intros [st|e] s1 Hs1 Hj1; [|by split; [|apply Hfail; [|apply Hj1]]].
  apply wp_bind with true, wp_act; [done|]. intros s2 [Hs2 Hq2].
  destruct (HJ _ _ Hs2 Hq2 Hj1) as [Hn2 Hm2]. destruct (enter_step t w mn pp m q st s2) as (l & s3 & E3 & Hl3 & Hin & Ed); try done.
  pose proof (directory_none _ _ _ Hs2 Hn2) as Hd. set (d := directory_of s2) in *.
  exists (Some (d, <[(t, w) := (mn, pp)]> d)). rewrite E3. cbn [fst snd].
  split; [split; [done|right; by rewrite Ed]|].
  apply wp_bind with true, wp_map, wp_saveState; [apply Hl3|]. intros x s4 Hs4 Hl4 Hx.
  destruct x as [[]|e]; cbn [map_error]; [|by split; [|apply Hadd]].
  assert (on_record t w s4) as Hr.
  { exists m. split; [|apply Hm]. apply holds_stored; [done|by apply Hx|].
    destruct Hl4 as [(Hp & _) _ _]. by eapply prefix_elem. }
  apply (wp_inside _ effect_quiet (on_record t w)); [by apply lasting_inside, lasting_record| |done|done|].
  - pose proof (inside_snapshot l). pose proof (inside_proto l). pose proof (quiet_tokens m). inside_tac.
  - intros x s5 Hs5 Hr5. by apply Hadd.
Qed.
End moments.
