(* ===== verification/ConcLin.v ===== *)
(** * Interleaved calls take effect one at a time

    Each call has a moment at which it takes effect: the step at which its wallet
    enters the directory, its tenant's keys are listed, its wallet is found or
    missed, or its error is settled. From then on its answer agrees with the
    directory before and after that moment, whatever the others do. *)

From S2P Require Import Prelude GoStrings GoTime Encoding Crypto Proto Broker Sdk Ids World Encryption Options.
From S2P Require Import Service Auth AuthSpec Registry RegistrySpec Handlers HandlersSpec Lifecycle RegistryAbs Disk.
From S2P Require Import Launch ErrorTypes Conc ConcSpec ConcLogic ConcAdd.

Section order.
Context `{Env} `{Mac} `{Hash} `{Aead} (o : Options) (r : rpc) (req : rpc_request r).

(** Turned away by the interceptor. *)
Definition refused {A} (x : result A) : Prop :=
  AuthEnabled o = true /\ exists e, x = Err e /\ status_in access_errors e.
(** The wallet a call acknowledges has its record on disk. *)
Definition durable (x : result (rpc_response r)) (s : Service) : Prop :=
  forall k, added r req x = Some k -> exists m, stored s m /\ ids m = k.1.
Definition final (g : moment) (x : result (rpc_response r)) (s : Service) : Prop :=
  match g with
  | None => refused x
  | Some (d, d') => registry_spec d r req x d' /\ durable x s
  end.
(** What is left of a call, in the state of its last step. *)
Definition in_order (held : bool) (p : prog (rpc_response r)) (g : moment) (s : Service) : Prop :=
  wp effect false final held p g s.
(** A program that may start at any time, under the options. *)
Definition ready (p : prog (rpc_response r)) : Prop :=
  forall s, service_ok s -> sv_opts s = o -> exists g, effect None s g s /\ in_order false p g s.

Lemma final_lasts g x s s' : service_ok s' -> lives s s' -> final g x s -> final g x s'.
Proof.
  intros Hs Hl. destruct g as [[d d']|]; [|done]. intros [Hr Hd]. split; [done|].
  intros k Hk. destruct (Hd k Hk) as (m & Hm & E). exists m. split; [by eapply stored_lives|done].
Qed.
Lemma in_order_others held p g s s' : others held s s' -> in_order held p g s -> in_order held p g s'.
Proof.
  intros Ho. apply wp_others; [|done]. intros x [Hs Hl]. by apply final_lasts.
Qed.

Lemma effect_here s : service_ok s -> effect None s (Some (directory_of s, directory_of s)) s.
Proof. intros Hs. by apply effect_now. Qed.
(** An answer at once. *)
Lemma ready_return x : (forall s, service_ok s -> registry_spec (directory_of s) r req x (directory_of s)) ->
  added r req x = None -> ready (Return x).
Proof.
  intros Hx Ha s Hs _. exists (Some (directory_of s, directory_of s)). split; [by apply effect_here|].
  split; [done|]. split; [auto|]. intros k. by rewrite Ha.
Qed.
Lemma final_none d d' x s : registry_spec d r req x d' -> added r req x = None -> final (Some (d, d')) x s.
Proof. intros Hx Ha. split; [done|]. intros k. by rewrite Ha. Qed.
Lemma given_back_final d d' x s : service_ok s -> final (Some (d, d')) x s -> given_back effect final (Some (d, d')) x s.
Proof.
  intros Hs Hf s1 [Hs1 Hq]. exists (Some (d, d')). split; [by apply effect_quiet|].
  eapply final_lasts; [done|by apply quiet_lives|done].
Qed.
(** A program that leaves the registry alone, with its moment behind it. *)
Lemma in_order_disciplined p d d' s : service_ok s -> disciplined false p ->
  (forall x, registry_spec d r req x d') -> (forall x, added r req x = None) -> in_order false p (Some (d, d')) s.
Proof.
  intros Hs Hp Hx Ha. apply (wp_disciplined _ effect_calm (fun _ => True)); try done. intros x s' _ _. by apply final_none.
Qed.

(** A check that keeps the registry alone, then the method. *)
Definition checks {A} (p : prog A) : Prop := forall s, service_ok s -> sv_opts s = o ->
  wp effect false (fun g x s => g = None /\ service_ok s /\ sv_opts s = o /\ match x with Ok _ => True | Err _ => refused x end)
    false p None s.
Lemma ready_after {A} (p : prog A) h : checks p -> ready h ->
  forall s, service_ok s -> sv_opts s = o -> exists g, effect None s g s /\ in_order false (p ≫= fun _ => h) g s.
Proof.
  intros Hp Hh s Hs Ho.
  destruct (wp_settle effect false
    (fun g x s => in_order false (match x with Ok _ => h | Err e => Return (Err e) end) g s)
    effect_trans (fun g s Hs => effect_quiet g s s Hs ltac:(reflexivity)) p false None s Hs) as (g & Hg & Hw).
  - by intros g1 s1 g2 s2 [[Hs2 _] _] _.
  - eapply wp_mono; [|by apply Hp]. intros g x s1 (-> & Hs1 & Ho1 & Hx).
    destruct x as [a|e]; [by apply Hh|]. exists None. split; [by apply effect_quiet|]. split; [done|].
    destruct Hx as (Ha & e' & [= <-] & He). split; [done|]. by exists e.
  - exists g. split; [done|]. by eapply wp_bind.
Qed.
End order.

(** ** The interceptor *)

Section interceptor.
Context `{Env} `{Mac} `{Hash} `{Aead}.

Lemma lasting_opts o : lasting (fun s => sv_opts s = o).
Proof. intros s s' _ [(_ & E & _) _ _]. congruence. Qed.
Lemma bootstrap_checks (J : Service -> Prop) req s : lasting J -> service_ok s -> J s ->
  wp effect false (fun g x s => g = None /\ service_ok s /\ J s /\ is_ok x = true) false (bootstrapAllowed_c req) None s.
Proof.
  intros HJ Hs Hj. unfold bootstrapAllowed_c. destruct (tenantWalletFromRequest req) as [[t w] b].
  repeat case_match; try (split; [done|]; by auto). apply wp_locked. intros s1 [Hs1 Hl1]. exists None.
  split; [by apply effect_quiet|]. apply wp_quiet_act; [apply effect_quiet|apply quiet_gets|done|].
  intros s2 [Hs2 Hq2] _ _ s3 [Hs3 Hq3]. exists None. cbn in Hq3. split; [by apply effect_quiet|]. split; [done|].
  split; [done|]. split; [|done].
  apply (HJ s s3 Hs3); [|done]. etransitivity; [exact Hl1|]. etransitivity; by apply quiet_lives.
Qed.
Lemma authorize_checks o ctx method req : checks o (authorize_c ctx method req).
Proof.
  intros s Hs Ho. unfold authorize_c. pose proof (lasting_opts o) as HJ.
  eapply wp_bind, wp_quiet_act; [apply effect_quiet|apply quiet_gets|intros _; apply (unshared_opts AuthEnabled)|].
  intros s1 [Hs1 Hl1] _ _. cbn [gets fst snd]. assert (sv_opts s1 = o) as Ho1 by by eapply HJ.
  rewrite Ho1. destruct (AuthEnabled o) eqn:Ea; cbn [negb]; [|split; [done|]; by auto].
  apply wp_bind with false, (wp_mono _ _ (fun g x s => g = None /\ service_ok s /\ sv_opts s = o /\ is_ok x = true)).
  { intros g x s2 (-> & Hs2 & Ho2 & Hx). destruct x as [boot|e]; [|done]. repeat case_match; try (split; [done|]; by auto).
    eapply wp_bind, wp_quiet_act; [apply effect_quiet|apply unshared_quiet, unshared_subject|intros _; apply (unshared_subject ctx)|].
    intros s3 [Hs3 Hl3] Hs4 Hq4. pose proof (HJ _ _ Hs4 (quiet_lives _ _ Hq4) (HJ _ _ Hs3 Hl3 Ho2)) as Ho4.
    pose proof (subject_of_context_typed 0 ctx s3 (registry_pointers _ (so_registry _ Hs3)) ltac:(lia)) as (_ & _ & He).
    destruct (authSubjectFromContext ctx s3) as [[sub|e] s4]; cbn in *.
    - destruct (authorize_subject sub method req) as [u|e] eqn:E; [split; [done|]; by auto|]. split; [done|].
      do 4 (split; [done|]). exists e. split; [done|]. by eapply subject_errors.
    - do 5 (split; [done|]). by exists e. }
  destruct (isBootstrapMethod method); [by apply bootstrap_checks|split; [done|]; by auto].
Qed.
End interceptor.

(** ** The methods *)

Section methods.
Context `{Env} `{Mac} `{Hash} `{Aead} (o : Options).

(** Malformed ids are never in the directory. *)
Lemma directory_valid s t w : service_ok s -> is_Some (directory_of s !! (t, w)) -> valid_ids t w = true.
Proof.
  intros Hs [It [l Hl]]%(directory_lookup s t w Hs). destruct (registered_ids s t w l Hs It Hl) as (_ & _ & _ & _ & Iw).
  unfold valid_ids. by rewrite It, Iw.
Qed.
(** The moment is the first step of a critical section. *)
Lemma ready_section r req {A X} (m : M Service X) (k : result X -> prog A) (f : result A -> prog (rpc_response r))
    (h : prog (rpc_response r)) :
  moves quiet m -> h = prog_bind (locked (Act m k)) (fun a => f (Ok a)) -> (forall e, f (Err e) = Return (Err e)) ->
  (forall s, service_ok s ->
     wp effect true (given_back effect (fun g x s => in_order o r req false (f x) g s)) true (k (fst (m s)))
       (Some (directory_of s, directory_of s)) (snd (m s))) ->
  ready o r req h.
Proof.
  intros Hm -> Hf Hk s Hs _. exists None. split; [by apply effect_quiet|]. apply wp_bind with false, wp_locked.
  intros s1 [Hs1 Hl1]. exists None. split; [by apply effect_quiet|]. split; [done|]. intros s2 [Hs2 Hq2].
  exists (Some (directory_of s2, directory_of s2)). pose proof (Hm s2) as Hq. split; [apply effect_now; [by eapply quiet_ok|done]|].
  eapply wp_mono; [|by apply Hk]. intros g x s3 Hx s4 Ho. destruct (Hx s4 Ho) as (g' & Hg & Hw). exists g'. split; [done|].
  destruct x as [a|e]; [done|]. by rewrite <- Hf.
Qed.

(** A method on a wallet: its moment is the lookup. *)
Lemma ready_wallet r req t w f :
  (forall d x, d !! (t, w) = None -> result_code x = Some (if valid_ids t w then NotFound else InvalidArgument) ->
     registry_spec d r req x d) ->
  (forall s l tw d, service_ok s -> sv_heap s !! l = Some tw -> TenantID (tw_meta tw) = t -> WalletID (tw_meta tw) = w ->
     is_Some (d !! (t, w)) -> in_order o r req false (f (l, tw_w tw)) (Some (d, d)) s) ->
  (forall x, added r req x = None) -> ready o r req (wallet_c t w ≫= f).
Proof.
  intros Hnone Hf Hadd. unfold wallet_c. destruct (valid_ids t w) eqn:Ev.
  - rewrite validate_valid by done.
    apply (ready_section r req (find_wallet t w) Return (fun x => match x with Ok lq => f lq | Err e => Return (Err e) end));
      [apply quiet_find|done|done|].
    intros s Hs. pose proof Ev as [It Iw]%andb_true_iff. unfold find_wallet, gets, mbind, M_bind.
    fold (lookup_wallet s t w). split; [done|]. intros s1 Ho. exists (Some (directory_of s, directory_of s)).
    split; [apply effect_quiet; [apply Ho|reflexivity]|]. destruct (lookup_wallet s t w) as [l|] eqn:El.
    + destruct (registered_ids s t w l Hs It El) as (tw & Htw & Ht & Hw & _).
      rewrite (proj2 (deref_ok l s tw s)) in * by done. cbn in *. destruct Ho as [Hs1 [Ho _]].
      apply (Hf s1 l tw); [done|by rewrite Ho|done|done|].
      apply (directory_lookup _ _ _ Hs). split; [done|by exists l].
    + split; [done|]. apply final_none; [|done]. apply Hnone; [by apply directory_none|done].
  - destruct (validate_code t w Ev) as (e & -> & Hc). apply ready_return; [|done]. intros s Hs.
    apply Hnone; [|cbn; by rewrite Hc]. apply eq_None_not_Some. intros Hd. apply (directory_valid _ _ _ Hs) in Hd. congruence.
Qed.
Lemma ready_plain_wallet r req t w f :
  (forall d x d', spec_other d r req x d' -> registry_spec d r req x d') ->
  tenantWalletFromRequest (Some (rpc_reflect r req)) = (t, w, true) ->
  (forall x, added r req x = None) -> (forall l q, disciplined false (f (l, q))) -> ready o r req (wallet_c t w ≫= f).
Proof.
  intros Hr Et Hadd Hf. apply ready_wallet; [..|done].
  - intros d x Hn Hx. apply Hr. split; [done|]. by rewrite Et.
  - intros s l tw d Hs _ _ _ [v Hv]. apply in_order_disciplined; [done|done| |done].
    intros x. apply Hr. split; [done|]. rewrite Et. congruence.
Qed.
Lemma ready_plain r req p :
  (forall d x d', spec_other d r req x d' -> registry_spec d r req x d') ->
  snd (tenantWalletFromRequest (Some (rpc_reflect r req))) = false ->
  (forall x, added r req x = None) -> disciplined false p -> ready o r req p.
Proof.
  intros Hr Et Hadd Hp s Hs _. exists (Some (directory_of s, directory_of s)). split; [by apply effect_here|].
  apply in_order_disciplined; [done|done| |done]. intros x. apply Hr. split; [done|].
  by destruct (tenantWalletFromRequest _) as [[t w] [|]].
Qed.

(** ** Reading wallets under the mutex *)

Abbreviation wpm := (wp effect).

(** Through a pointer that is good, a call always answers. *)
Lemma wp_through (J : Service -> Prop) l c tw (Q : moment -> result (wallet_ret c) -> Service -> Prop) g s :
  steady_inside J -> (forall s, J s -> sv_heap s !! l = Some tw) -> service_ok s -> J s ->
  (forall v s', service_ok s' -> J s' -> Q g (Ok v) s') -> wpm true Q true (through l c) g s.
Proof.
  intros HJ Hl Hs Hj HQ. apply wp_quiet_act; [apply effect_quiet|apply quiet_wcall|done|].
  intros s1 [Hs1 Hq1] Hs2 Hq2. pose proof (HJ _ _ Hs1 Hq1 Hj) as Hj1. pose proof (HJ _ _ Hs2 Hq2 Hj1) as Hj2.
  rewrite (wcall_run l c tw s1) in * by auto. by apply HQ.
Qed.
Lemma wp_through_bind {A} (J : Service -> Prop) (Q : moment -> result A -> Service -> Prop) l c tw f g s :
  steady_inside J -> (forall s, J s -> sv_heap s !! l = Some tw) -> service_ok s -> J s ->
  (forall v s', service_ok s' -> J s' -> wpm true Q true (f v) g s') -> wpm true Q true (through l c ≫= f) g s.
Proof. intros HJ Hl Hs Hj Hf. by eapply wp_bind, wp_through. Qed.
Ltac through_tac := eapply wp_through_bind; [eassumption..|intros ? ? ? ?].
Lemma wp_proto (J : Service -> Prop) (Q : moment -> result pb.Wallet -> Service -> Prop) l tw g s :
  steady_inside J -> (forall s, J s -> sv_heap s !! l = Some tw) -> service_ok s -> J s ->
  (forall p s', service_ok s' -> J s' -> pb.Wallet_TenantId p = TenantID (tw_meta tw) ->
     pb.Wallet_WalletId p = WalletID (tw_meta tw) -> Q g (Ok p) s') ->
  wpm true Q true (walletProtoLocked_c l) g s.
Proof.
  intros HJ Hl Hs Hj HQ. unfold walletProtoLocked_c.
  apply wp_bind with true, wp_quiet_act; [apply effect_quiet|apply quiet_deref|done|].
  intros s1 [Hs1 Hq1] _ _. pose proof (HJ _ _ Hs1 Hq1 Hj) as Hj1. rewrite (proj2 (deref_ok l s1 tw s1)) by auto. cbn [fst snd].
  through_tac. destruct v as [next change]. apply wp_bind with true.
  assert (forall (a : list string) s2, service_ok s2 -> J s2 -> wpm true Q true
    (balance ← through l WBalance; balanceBSV ← through l BalanceBSV; spendable ← through l SpendableBalance;
     immature ← through l ImmatureBalance; selector ← through l Selector;
     mret (pb.MkWallet (TenantID (tw_meta tw)) (WalletID (tw_meta tw)) a balance balanceBSV next change selector
             spendable immature)) g s2) as Hrest.
  { intros a s2 Hs2 Hj2. do 5 through_tac. split; [done|]. by apply HQ. }
  unfold walletAddresses_c. through_tac. case_match; [|split; [done|]; by apply Hrest].
  eapply wp_through; [eassumption..|]. intros a s2 Hs2 Hj2. by apply Hrest.
Qed.

Definition key_of (p : pb.Wallet) : string := walletKey (pb.Wallet_TenantId p) (pb.Wallet_WalletId p).
Lemma wp_protos (J : Service -> Prop) ws keys g : steady_inside J ->
  (forall k, k ∈ keys -> exists l tw, ws !! k = Some l /\ (forall s, J s -> sv_heap s !! l = Some tw) /\
     k = walletKey (TenantID (tw_meta tw)) (WalletID (tw_meta tw))) ->
  forall (Q : moment -> result (list pb.Wallet) -> Service -> Prop) s, service_ok s -> J s ->
  (forall ps s', service_ok s' -> J s' -> key_of <$> ps = keys -> Q g (Ok ps) s') ->
  wpm true Q true (wallet_protos_c ws keys) g s.
Proof.
  intros HJ. induction keys as [|k keys IH]; intros Hk Q s Hs Hj HQ; [split; [done|]; by apply HQ|].
  destruct (Hk k) as (l & tw & Hl & Htw & ->); [set_solver|]. cbn [wallet_protos_c]. rewrite Hl.
  eapply wp_bind, (wp_proto J); try done. intros p s1 Hs1 Hj1 Et Ew.
  eapply wp_bind, IH; [intros k Hin; apply Hk; set_solver|done|done|].
  intros ps s2 Hs2 Hj2 Hps. split; [done|]. apply HQ; [done|done|]. rewrite fmap_cons, Hps. unfold key_of. by rewrite Et, Ew.
Qed.

Lemma validateTenant_code t : idRE_MatchString t = false -> exists e,
  validateTenant t = Err e /\ status_code e = InvalidArgument.
Proof. unfold validateTenant. intros ->. by eexists. Qed.
Lemma ready_ListWallets req : ready o BSVMS_ListWallets req (ListWallets_c req).
Proof.
  unfold ListWallets_c. set (t := pb.ListWalletsRequest_TenantId req). destruct (idRE_MatchString t) eqn:It.
  - rewrite (proj2 (validateTenant_ok t ()) It).
    refine (ready_section BSVMS_ListWallets req (gets (fun s => tenant_keys s t)) _
      (fun x => match x with Ok ps => mret (pb.MkListWalletsResponse ps) | Err e => Return (Err e) end) _
      (quiet_gets _) eq_refl (fun e => eq_refl) _).
    intros s Hs. cbn [gets fst snd prog_bind].
    assert (steady_inside (around s)) as HJ by (intros s1 s2 _ [Ho _] Hj; by transitivity s1).
    apply wp_bind with true, wp_quiet_act; [apply effect_quiet|apply quiet_gets|done|]. intros s1 [_ [Ho1 _]] Hs1 _.
    cbn [gets fst snd] in *. assert (sv_wallets s1 = sv_wallets s) as -> by (by rewrite Ho1).
    apply (wp_protos (around s)); [done| |done|done|].
    + intros k (l & tw & Hl & Htw & _)%(tenant_keys_elem _ _ _ (so_registry _ Hs)).
      destruct (reg_ptr _ (so_registry _ Hs) _ _ Hl) as (tw' & Htw' & _ & ->). exists l, tw.
      rewrite Htw in Htw'. injection Htw' as <-. split; [done|]. split; [|done]. intros s2 Hj2. by rewrite Hj2.
    + intros ps s2 Hs2 _ Hps s3 [Hs3 Hq3]. exists (Some (directory_of s, directory_of s)). split; [by apply effect_quiet|].
      split; [done|]. apply final_none; [|done]. split; [done|]. fold t. rewrite It. exists ps. split; [done|].
      fold key_of. rewrite Hps. by apply tenant_keys_directory.
  - destruct (validateTenant_code t It) as (e & -> & Hc). apply ready_return; [|done]. intros s Hs.
    split; [done|]. fold t. rewrite It. cbn. by rewrite Hc.
Qed.
Lemma ready_GetWallet req : ready o BSVMS_GetWallet req (GetWallet_c req).
Proof.
  apply ready_wallet; cbn [registry_spec]; [..|done].
  - intros d x Hn Hx. split; [split; [done|exact (fun _ => Hx)]|]. rewrite Hn. by intros [].
  - intros s l tw d Hs Htw Ht Hw [v Hv]. apply wp_bind with false, wp_locked. intros s1 [Hs1 Hl1].
    exists (Some (d, d)). split; [by apply effect_quiet|].
    destruct (lv_outlives _ _ Hl1) as (_ & _ & _ & Hh). destruct (Hh l tw Htw) as (tw1 & Htw1 & [Em _]%same_wallet_meta).
    rewrite <- Em in Ht, Hw.
    pose (J := fun s => sv_heap s !! l = Some tw1). apply (wp_proto J _ _ tw1); [|done|done|done|].
    { intros s2 s3 _ [Ho _]. unfold J. by rewrite Ho. }
    intros p s2 Hs2 _ Et Ew s3 [Hs3 Hq3]. exists (Some (d, d)). split; [by apply effect_quiet|]. split; [done|].
    apply final_none; [|done]. split; [split; [done|]; cbn; congruence|]. intros _. exists p. by rewrite Et, Ew.
Qed.

(** ** Adding a wallet *)

(** A method that adds [t]/[w]; [good] says which secrets an answer stands for. *)
Section adds.
Context (r : rpc) (req : rpc_request r) (t w : string) (good : string -> string -> result (rpc_response r) -> Prop).
Hypothesis (It : idRE_MatchString t = true) (Iw : idRE_MatchString w = true).
Hypothesis Hgood : forall mn pp x d d', good mn pp x -> spec_add d t w x (mn, pp) d' -> registry_spec d r req x d'.
Hypothesis Herror : forall e, exists mn pp, good mn pp (Err e).
Hypothesis Hadded : forall x k, added r req x = Some k -> is_ok x = true /\ k.1 = (t, w).

Let Q := given_back effect (final o r req).
Lemma given_back_refused e s : service_ok s ->
  free t w s \/ is_Some (lookup_wallet s t w) /\ status_code e = AlreadyExists -> Q None (Err e) s.
Proof.
  intros Hs Hc s1 [Hs1 Hq1]. exists (Some (directory_of s1, directory_of s1)). split; [by apply effect_here|].
  rewrite (quiet_directory _ _ Hq1). split; [|by intros k [Hk _]%Hadded].
  destruct (Herror e) as (mn & pp & Hg). apply (Hgood mn pp); [done|]. unfold spec_add, valid_ids. rewrite It, Iw. cbn.
  destruct Hc as [Hn|[Hl Hc]]; [rewrite directory_none by done; by left|].
  destruct (proj2 (directory_lookup s t w Hs)) as [v ->]; [done|]. by rewrite Hc.
Qed.
Lemma wp_add_end mn pp m q (k : pb.Wallet -> option pb.AuthTokens -> rpc_response r) s :
  service_ok s -> free t w s -> new_meta t w mn pp (DataKey (sv_opts s)) m ->
  (forall e, good mn pp (Err e)) -> (forall wp tk, good mn pp (Ok (k wp tk))) ->
  wpm true Q true ('(wp, tokens) ← add_wallet m q; mret (k wp tokens)) None s.
Proof.
  intros Hs Hn Hm Hge Hgk. apply wp_bind with true, (wp_add_wallet t w mn pp); try done.
  - intros e s1 Hs1 Hn1. split; [done|]. apply given_back_refused; auto.
  - intros d x s1 Hs1 Hd Hr. assert (forall y, is_ok y = is_ok x -> good mn pp y ->
      Q (Some (d, <[(t, w) := (mn, pp)]> d)) y s1) as Hend.
    { intros y Hy Hg. apply given_back_final; [done|]. split; [|intros k' [Hk ->]%Hadded; apply Hr; congruence].
      apply (Hgood mn pp); [done|]. unfold spec_add, valid_ids. rewrite It, Iw, Hd. destruct y; [done|by right]. }
    destruct x as [[wp tk]|e]; (split; [done|]; by apply Hend).
Qed.
(** Up to there nothing has changed. *)
Lemma wp_before {A} (J : Service -> Prop) (p : prog A) f s : steady_inside J -> (forall s, J s -> free t w s) ->
  inside p -> service_ok s -> J s -> (forall a s', service_ok s' -> J s' -> wpm true Q true (f a) None s') ->
  wpm true Q true (p ≫= f) None s.
Proof.
  intros HJ Hfree Hp Hs Hj Hf. apply wp_bind with true, (wp_inside _ effect_quiet J); try done.
  intros [a|e] s1 Hs1 Hj1; [by apply Hf|]. split; [done|]. apply given_back_refused; auto.
Qed.
Lemma wp_taken p s : service_ok s -> (forall s', service_ok s' -> free t w s' -> wpm true Q true p None s') ->
  wpm true Q true (ws ← act (gets sv_wallets);
    if bool_decide (is_Some (ws !! walletKey t w)) then fail (EStatus AlreadyExists "wallet exists") else p) None s.
Proof.
  intros Hs Hp. apply wp_bind with true, wp_quiet_act; [apply effect_quiet|apply quiet_gets|done|].
  intros s1 [Hs1 Hq1] _ _. cbn [gets fst snd]. fold (lookup_wallet s1 t w). case_bool_decide as Hl.
  - split; [done|]. apply given_back_refused; [done|]. by right.
  - apply Hp; [done|]. by apply eq_None_not_Some.
Qed.
Lemma steady_free : steady_inside (free t w).
Proof. intros s1 s2 _ [Ho _]. unfold free. by rewrite Ho. Qed.
(** The record is made. *)
Lemma wp_newWalletMeta mn pp f s : service_ok s -> free t w s ->
  (forall m s', service_ok s' -> free t w s' -> new_meta t w mn pp (DataKey (sv_opts s')) m -> wpm true Q true (f m) None s') ->
  wpm true Q true (m ← prog_error internal (act (newWalletMeta t w (sdkWalletName t w) mn pp)); f m) None s.
Proof.
  intros Hs Hn Hf. apply wp_bind with true, wp_map, wp_quiet_act; [apply effect_quiet|apply quiet_newWalletMeta|done|].
  intros s1 [Hs1 Hq1] Hs2 Hq2. pose proof (steady_free _ _ Hs1 Hq1 Hn) as Hn1. pose proof (steady_free _ _ Hs2 Hq2 Hn1) as Hn2.
  destruct (newWalletMeta _ _ _ _ _ s1) as [[m|e] s2] eqn:E; cbn in *.
  - apply Hf; [done|done|]. assert (sv_opts s2 = sv_opts s1) as -> by (destruct Hq2 as [Ho _]; by rewrite Ho).
    by eapply newWalletMeta_new.
  - split; [done|]. apply given_back_refused; auto.
Qed.
Lemma ready_locked p : (forall s, service_ok s -> wpm true Q true p None s) -> ready o r req (locked p).
Proof.
  intros Hp s Hs _. exists None. split; [by apply effect_quiet|]. apply wp_locked. intros s1 [Hs1 _]. exists None.
  split; [by apply effect_quiet|]. by apply Hp.
Qed.
End adds.

Lemma ready_CreateWallet req : ready o BSVMS_CreateWallet req (CreateWallet_c req).
Proof.
  unfold CreateWallet_c, create_locked. cbv zeta. set (t := pb.CreateWalletRequest_TenantId req). set (w := pb.CreateWalletRequest_WalletId req).
  destruct (valid_ids t w) eqn:Ev.
  - rewrite validate_valid by done. apply andb_true_iff in Ev as [It Iw].
    pose (good := fun mn pp (x : result pb.CreateWalletResponse) => pp = "" /\
      forall resp, x = Ok resp -> pb.CreateWalletResponse_Mnemonic resp = mn).
    assert (forall mn pp x d d', good mn pp x -> spec_add d t w x (mn, pp) d' -> spec_create d req x d') as Hgood
      by (intros mn pp x d d' [-> Hx] Hs; by exists mn).
    assert (forall e, exists mn pp, good mn pp (Err e)) as Herr by (intros e; by exists "", "").
    assert (forall x k, added BSVMS_CreateWallet req x = Some k -> is_ok x = true /\ k.1 = (t, w)) as Hadd
      by (intros [x|e] k; [by intros [= <-]|done]).
    apply ready_locked. intros s Hs. apply (wp_taken BSVMS_CreateWallet req t w good); try done. intros s1 Hs1 Hn1.
    apply (wp_before BSVMS_CreateWallet req t w good) with (J := free t w); try done; [apply steady_free|inside_tac|].
    intros [q mn] s2 Hs2 Hn2. apply (wp_newWalletMeta BSVMS_CreateWallet req t w good); try done. intros m s3 Hs3 Hn3 Hm.
    apply (wp_add_end BSVMS_CreateWallet req t w good It Iw Hgood Herr Hadd mn "" m q (fun wp tk => pb.MkCreateWalletResponse (Some wp) mn tk)); try done.
    intros wp tk. split; [done|]. by intros resp [= <-].
  - destruct (validate_code t w Ev) as (e & -> & Hc). apply ready_return; [|done]. intros s Hs. exists "". split; [done|].
    unfold spec_add. fold t w. rewrite Ev. cbn. by rewrite Hc.
Qed.
Lemma ready_RestoreWallet req : ready o BSVMS_RestoreWallet req (RestoreWallet_c req).
Proof.
  unfold RestoreWallet_c, restore_locked. cbv zeta. set (t := pb.RestoreWalletRequest_TenantId req). set (w := pb.RestoreWalletRequest_WalletId req).
  set (mn := pb.RestoreWalletRequest_Mnemonic req). set (pp := pb.RestoreWalletRequest_Passphrase req).
  destruct (valid_ids t w) eqn:Ev.
  - rewrite validate_valid by done. apply andb_true_iff in Ev as [It Iw]. cbn [mbind prog_mbind prog_bind].
    destruct (String.eqb mn "") eqn:Em.
    + apply ready_return; [|done]. intros s Hs. cbn. unfold spec_restore. fold mn. by rewrite Em.
    + pose (good := fun mn' pp' (x : result pb.WalletResponse) => mn' = mn /\ pp' = pp).
      assert (forall mn' pp' x d d', good mn' pp' x -> spec_add d t w x (mn', pp') d' -> spec_restore d req x d') as Hgood
        by (intros mn' pp' x d d' [-> ->] Hs; unfold spec_restore; fold mn; by rewrite Em).
      assert (forall e, exists mn pp, good mn pp (Err e)) as Herr by (intros e; by exists mn, pp).
      assert (forall x k, added BSVMS_RestoreWallet req x = Some k -> is_ok x = true /\ k.1 = (t, w)) as Hadd
        by (intros [x|e] k; [by intros [= <-]|done]).
      apply ready_locked. intros s Hs. apply (wp_taken BSVMS_RestoreWallet req t w good); try done. intros s1 Hs1 Hn1.
      apply (wp_newWalletMeta BSVMS_RestoreWallet req t w good); try done. intros m s2 Hs2 Hn2 Hm.
      apply (wp_before BSVMS_RestoreWallet req t w good) with (J := fun s => free t w s /\ new_meta t w mn pp (DataKey (sv_opts s)) m); try done.
      * intros s3 s4 _ [Ho _]. unfold free. by rewrite Ho.
      * by intros s3 [Hn3 _].
      * inside_tac.
      * intros q s3 Hs3 [Hn3 Hm3].
        by apply (wp_add_end BSVMS_RestoreWallet req t w good It Iw Hgood Herr Hadd mn pp m q (fun wp tk => pb.MkWalletResponse (Some wp) tk)).
  - destruct (validate_code t w Ev) as (e & -> & Hc). apply ready_return; [|done]. intros s Hs. cbn. unfold spec_restore.
    case_match; [cbn; by rewrite Hc|]. unfold spec_add. fold t w. rewrite Ev. cbn. by rewrite Hc.
Qed.

(** ** Every call *)

Lemma unary_ready r p req : unary_c r = Some p -> ready o r req (p req).
Proof.
  intros Hp. destruct r; injection Hp as <- || discriminate Hp;
    try apply ready_CreateWallet; try apply ready_RestoreWallet; try apply ready_ListWallets; try apply ready_GetWallet;
    match goal with |- ready _ _ _ ?p => unfold_head p end; cbv zeta;
    first [ apply ready_plain_wallet; [by intros|reflexivity|done|intros l q] | apply ready_plain; [by intros|reflexivity|done|] ];
    disciplined_tac.
Qed.
Lemma ready_Rescan ctx req : ready o BSVMS_Rescan req (Rescan_c ctx req).
Proof.
  unfold Rescan_c. intros s. apply (ready_after o BSVMS_Rescan req); [apply authorize_checks|].
  apply ready_plain_wallet; [by intros|reflexivity|done|]. intros l q. case_match; [done|].
  apply disciplined_bind; [by auto with disciplined|]. intros h. by apply disciplined_rescan, disciplined_body.
Qed.
Lemma method_ready ctx r p req : method_c ctx r = Some p -> ready o r req (p req).
Proof.
  destruct r; try exact (unary_ready _ p req). intros [= <-]. apply ready_Rescan.
Qed.
(** A call arrives; if its answer is settled from the start, this is its moment. *)
Lemma serve_ready ctx r p req s : method_c ctx r = Some p -> service_ok s -> sv_opts s = o ->
  exists g, effect None s g s /\ in_order o r req false (serve_c ctx r p req) g s.
Proof. intros Hp Hs Ho. by apply (ready_after o r req _ _ (authorize_checks o ctx _ _) (method_ready ctx r p req Hp)). Qed.
End methods.
