(* ===== verification/ConcPool.v ===== *)
(** * Pools of calls

    The invariant of a service with calls in flight, which every interleaving of
    them keeps: each call is somewhere in a run of its own that the others do not
    disturb, and the moments at which calls took effect chain up from the first
    directory to the present one. With it: a step without [s.mu] is invisible to
    the registry and blind to it, some call can always move, and no schedule moves
    them for ever. *)

From S2P Require Import Prelude GoStrings GoTime Encoding Crypto Proto Broker Sdk Ids World Encryption Options.
From S2P Require Import Service Auth Registry RegistrySpec Handlers HandlersSpec Lifecycle RegistryAbs Disk.
From S2P Require Import Conc ConcSpec ConcBeside ConcLogic ConcAdd ConcLin.

(** ** One step of one program *)

(** What is left of a program after one of its steps. *)
Definition prog_step {A} (p p' : prog A) : Prop :=
  match p with
  | Return _ => False
  | Acquire k | Release k => p' = k
  | Act m k => exists r, p' = k r
  end.

Lemma move_step {A} i (p p' : prog A) holder holder' s s' :
  move i p holder s = Some (p', holder', s') -> prog_step p p'.
Proof.
  destruct p as [r|k|k|X m k]; cbn; [done|..].
  - destruct holder; [done|]. by injection 1.
  - case_bool_decide; [|done]. by injection 1.
  - destruct (m s) as [r s1]. injection 1 as <- <- <-. by exists r.
Qed.
(** A program has no infinite run. *)
Lemma prog_sn {A} (p : prog A) : sn prog_step p.
Proof.
  induction p as [r|k IH|k IH|X m k IH]; constructor; intros p' Hp; red in Hp; cbn in Hp; [done|by subst..|].
  destruct Hp as [r ->]. apply IH.
Qed.

Section pools.
Context `{Env} `{Mac} `{Hash} `{Aead}.

(** ** One step among others *)

(** The mutex after a step of [i], for another call. *)
Lemma move_mutex {A} i j (p p' : prog A) holder holder' s s' : j <> i -> move i p holder s = Some (p', holder', s') ->
  bool_decide (holder' = Some j) = bool_decide (holder = Some j).
Proof.
  intros Hn. destruct p as [r|k|k|X m k]; cbn; [done|..].
  - destruct holder; [done|]. injection 1 as <- <- <-. rewrite !bool_decide_false; congruence.
  - case_bool_decide as Eh; [|done]. injection 1 as <- <- <-. rewrite !bool_decide_false; congruence.
  - destruct (m s). by injection 1 as <- <- <-.
Qed.
Lemma move_in_order o r req i (p p' : prog (rpc_response r)) holder holder' s s' g : service_ok s ->
  in_order o r req (bool_decide (holder = Some i)) p g s -> move i p holder s = Some (p', holder', s') ->
  (exists g', effect g s g' s' /\ in_order o r req (bool_decide (holder' = Some i)) p' g' s') /\
  forall j, j <> i -> others (bool_decide (holder = Some j)) s s'.
Proof.
  intros Hs Hp Hm. destruct p as [x|k|k|X m k]; cbn in Hm; [done|..].
  - destruct holder; [done|]. injection Hm as <- <- <-. destruct Hp as [_ Hp]. split.
    + rewrite (bool_decide_true (Some i = Some i)) by done. apply Hp. by apply others_refl.
    + intros j _. by apply others_refl.
  - case_bool_decide as Eh; [|done]. injection Hm as <- <- <-. destruct Hp as [_ Hp]. split.
    + apply Hp. by apply others_refl.
    + intros j _. by apply others_refl.
  - destruct Hp as [Hu Hp]. destruct (Hp s (others_refl _ _ Hs)) as (g' & Hg & Hw).
    assert (forall j, j <> i -> others (bool_decide (holder = Some j)) s (snd (m s))) as Hoth.
    { intros j Hn. split; [apply Hg|]. destruct (bool_decide (holder = Some j)) eqn:Ej; [|apply Hg].
      apply bool_decide_eq_true_1 in Ej. apply unshared_quiet, Hu. apply bool_decide_eq_false. congruence. }
    destruct (m s) as [y s1]. injection Hm as <- <- <-. split; [by exists g'|done].
Qed.
Lemma move_unlocked o r req i (p p' : prog (rpc_response r)) holder holder' s s' g : service_ok s ->
  in_order o r req false p g s -> holder <> Some i -> move i p holder s = Some (p', holder', s') ->
  untouched s s' /\ forall u, same_outside s u -> exists u', move i p holder u = Some (p', holder', u') /\ same_outside s' u'.
Proof.
  intros Hs Hp Hh Hm. destruct p as [x|k|k|X m k]; cbn in Hm |- *; [done|..].
  - destruct holder; [done|]. injection Hm as <- <- <-. split; [reflexivity|]. intros u Hu. by exists u.
  - by rewrite bool_decide_false in Hm.
  - destruct Hp as [Hu _]. destruct (Hu eq_refl) as [Hq Hi]. specialize (Hq s). destruct (m s) as [y s1] eqn:E.
    injection Hm as <- <- <-. split; [exact Hq|]. intros u Hou. specialize (Hi _ _ Hou). rewrite E in Hi.
    destruct (m u) as [y' u'], Hi as [Ey Hou']. cbn in *. subst y'. by exists u'.
Qed.

(** ** The invariant *)

(** The calls that have taken effect, in that order, with the directory before and after. *)
Definition moments : Type := list (nat * (directory * directory)).
Fixpoint chain (d : directory) (ms : moments) (d' : directory) : Prop :=
  match ms with
  | [] => d = d'
  | (_, (d0, d1)) :: ms => d0 = d /\ chain d1 ms d'
  end.
Definition took_effect (ms : moments) (i : nat) (g : moment) : Prop :=
  match g with Some dd => (i, dd) ∈ ms | None => i ∉ ms.*1 end.

Record ordered (s0 : Service) (pl : pool) (ms : moments) : Prop := {
  or_service : service_ok (p_service pl);
  or_lives : lives s0 (p_service pl);
  or_holder i : p_holder pl = Some i -> i < length (p_threads pl);
  or_chain : chain (directory_of s0) ms (directory_of (p_service pl));
  or_once : NoDup ms.*1;
  or_calls i : i ∈ ms.*1 -> i < length (p_threads pl);
  or_threads i t g : p_threads pl !! i = Some t -> took_effect ms i g ->
    in_order (sv_opts s0) (c_rpc (t_call t)) (c_req (t_call t)) (bool_decide (p_holder pl = Some i)) (t_prog t) g (p_service pl);
}.

Lemma chain_snoc ms d d1 d2 i : chain d ms d1 -> chain d (ms ++ [(i, (d1, d2))]) d2.
Proof.
  revert d. induction ms as [|[j [a b]] ms IH]; intros d; cbn; [by intros ->|].
  intros [-> Hc]. split; [done|]. by apply IH.
Qed.
Lemma moment_in (ms : moments) i : i ∈ ms.*1 <-> exists dd, (i, dd) ∈ ms.
Proof.
  rewrite list_elem_of_fmap. split; [intros ([j dd] & -> & Hj); eauto|]. intros (dd & Hi). by exists (i, dd).
Qed.
Lemma took_effect_some ms i : exists g, took_effect ms i g.
Proof.
  destruct (decide (i ∈ ms.*1)) as [Hi|Hi]; [|by exists None].
  apply moment_in in Hi as [dd Hi]. by exists (Some dd).
Qed.
(** One call's step adds at most one moment, its own. *)
Definition adds_moment (i : nat) (g g' : moment) (new : moments) : Prop :=
  new = [] /\ g' = g \/ g = None /\ exists dd, g' = Some dd /\ new = [(i, dd)].
Lemma took_effect_others ms new i j g g' gj : adds_moment i g g' new -> j <> i -> took_effect (ms ++ new) j gj -> took_effect ms j gj.
Proof.
  intros [[-> _]|(_ & dd & _ & ->)] Hn; [by rewrite app_nil_r|]. destruct gj as [dd'|]; cbn.
  - intros [Hj|[= -> _]%list_elem_of_singleton]%elem_of_app; [done|done].
  - rewrite fmap_app, not_elem_of_app. by intros [Hj _].
Qed.
Lemma took_effect_own ms new i g g' h : NoDup ms.*1 -> took_effect ms i g -> adds_moment i g g' new ->
  took_effect (ms ++ new) i h -> h = g'.
Proof.
  assert (forall (ms : moments) g h, NoDup ms.*1 -> took_effect ms i g -> took_effect ms i h -> h = g) as Huniq.
  { intros ms' [dd|] [dd'|] Hn; cbn; [|intros Hi Ho|intros Ho Hi|done].
    - intros Hi Hi'. apply (elem_of_list_to_map_1 (M := gmap nat)) in Hi, Hi'; congruence.
    - destruct Ho. apply moment_in. eauto.
    - destruct Ho. apply moment_in. eauto. }
  intros Hn Hg [[-> ->]|(-> & dd & -> & ->)]; [rewrite app_nil_r; by apply Huniq|].
  apply Huniq; [|apply elem_of_app; right; by apply list_elem_of_singleton].
  rewrite fmap_app. apply NoDup_app. split; [done|]. split; [|apply NoDup_singleton].
  intros j Hj ->%list_elem_of_singleton. done.
Qed.

(** ** Its preservation *)

Lemma advance_inv i pl pl' : advance i pl = Some pl' -> exists t p holder s,
  p_threads pl !! i = Some t /\ move i (t_prog t) (p_holder pl) (p_service pl) = Some (p, holder, s) /\
  pl' = MkPool s holder (<[i := MkThread (t_call t) p]> (p_threads pl)).
Proof.
  unfold advance. destruct (p_threads pl !! i) as [t|] eqn:Et; [|done]. cbn.
  destruct (move _ _ _ _) as [[[p holder] s]|] eqn:Em; [|done]. cbn. injection 1 as <-. eauto 8.
Qed.
Lemma arrive_inv c pl pl' : arrive c pl = Some pl' -> exists h, method_c (c_ctx c) (c_rpc c) = Some h /\
  pl' = MkPool (p_service pl) (p_holder pl) (p_threads pl ++ [MkThread c (serve_c (c_ctx c) (c_rpc c) h (c_req c))]).
Proof. unfold arrive. destruct (method_c _ _) as [h|]; [|done]. cbn. injection 1 as <-. eauto. Qed.

Lemma ordered_idle s : service_ok s -> ordered s (idle s) [].
Proof.
  intros Hs. split; [done|reflexivity|done|done|constructor| |done]. intros i Hi. by apply not_elem_of_nil in Hi.
Qed.
(** The moments with those of one step. *)
Lemma chain_moment ms d s s' i g g' : chain d ms (directory_of s) -> effect g s g' s' -> exists new,
  adds_moment i g g' new /\ chain d (ms ++ new) (directory_of s').
Proof.
  intros Hc [_ [[-> Ed]|[-> ->]]].
  - exists []. split; [by left|]. by rewrite app_nil_r, Ed.
  - exists [(i, (directory_of s, directory_of s'))]. split; [right; eauto|]. by apply chain_snoc.
Qed.
Lemma moments_once ms i g g' new : NoDup ms.*1 -> took_effect ms i g -> adds_moment i g g' new -> NoDup (ms ++ new).*1.
Proof.
  intros Hn Hg [[-> _]|(-> & dd & _ & ->)]; [by rewrite app_nil_r|]. rewrite fmap_app. apply NoDup_app.
  split; [done|]. split; [|apply NoDup_singleton]. intros j Hj ->%list_elem_of_singleton. done.
Qed.
Lemma moments_calls ms i g g' new n : adds_moment i g g' new -> i < n -> (forall j, j ∈ ms.*1 -> j < n) ->
  forall j, j ∈ (ms ++ new).*1 -> j < n.
Proof.
  intros [[-> _]|(_ & dd & _ & ->)] Hi Hms j; [rewrite app_nil_r; apply Hms|].
  rewrite fmap_app, elem_of_app. intros [Hj| ->%list_elem_of_singleton]; auto.
Qed.

Lemma ordered_advance s0 pl pl' i ms : ordered s0 pl ms -> advance i pl = Some pl' -> exists new, ordered s0 pl' (ms ++ new).
Proof.
  intros [Hs Hl Hh Hc Hn Hcalls Ht] (t & p & holder & s & Et & Em & ->)%advance_inv.
  destruct (took_effect_some ms i) as [g Hg]. pose proof (lookup_lt_Some _ _ _ Et) as Hi.
  destruct (move_in_order _ _ _ _ _ _ _ _ _ _ _ Hs (Ht _ _ _ Et Hg) Em) as [(g' & He & Hp) Hoth].
  destruct (chain_moment _ _ _ _ i _ _ Hc He) as (new & Hnew & Hc'). exists new. split; cbn.
  - apply He.
  - etransitivity; [exact Hl|apply He].
  - intros j Hj. rewrite length_insert. destruct (decide (j = i)) as [->|Hne]; [done|]. apply Hh.
    pose proof (move_mutex _ j _ _ _ _ _ _ Hne Em) as E. rewrite bool_decide_true in E by done.
    by eapply bool_decide_eq_true_1.
  - done.
  - by eapply moments_once.
  - rewrite length_insert. by eapply moments_calls.
  - intros j tj gj Hj Hgj. destruct (decide (j = i)) as [->|Hne].
    + rewrite list_lookup_insert_eq in Hj by done. injection Hj as <-. cbn.
      by rewrite (took_effect_own _ _ _ _ _ _ Hn Hg Hnew Hgj).
    + rewrite list_lookup_insert_ne in Hj by done. rewrite (move_mutex _ j _ _ _ _ _ _ Hne Em).
      eapply in_order_others; [by apply Hoth|]. apply Ht; [done|]. by eapply took_effect_others.
Qed.
Lemma ordered_arrive s0 pl pl' c ms : ordered s0 pl ms -> arrive c pl = Some pl' -> exists new, ordered s0 pl' (ms ++ new).
Proof.
  intros [Hs Hl Hh Hc Hn Hcalls Ht] (h & Eh & ->)%arrive_inv. set (n := length (p_threads pl)).
  assert (took_effect ms n None) as Hg by (intros Hi%Hcalls; lia).
  destruct (serve_ready (sv_opts s0) (c_ctx c) (c_rpc c) h (c_req c) (p_service pl) Eh Hs) as (g' & He & Hp);
    [by destruct Hl as [(_ & -> & _) _ _]|].
  destruct (chain_moment _ _ _ _ n _ _ Hc He) as (new & Hnew & Hc'). exists new. split; cbn; try done.
  - intros j Hj. rewrite length_app. specialize (Hh _ Hj). lia.
  - by eapply moments_once.
  - rewrite length_app. eapply moments_calls; [done|unfold n; cbn; lia|]. intros j Hj. specialize (Hcalls _ Hj). lia.
  - intros j tj gj [Hj|[Hlen Hj]]%lookup_app_Some Hgj.
    + apply Ht; [done|]. eapply took_effect_others; [done| |done]. apply lookup_lt_Some in Hj. lia.
    + apply list_lookup_singleton_Some in Hj as [Ej <-]. assert (j = n) as -> by lia. cbn.
      rewrite bool_decide_false by (intros Hj; specialize (Hh _ Hj); lia).
      by rewrite (took_effect_own _ _ _ _ _ _ Hn Hg Hnew Hgj).
Qed.
(** What goes on beside the calls disturbs none, whether it holds the mutex or not. *)
Lemma ordered_beside s0 pl s ms : ordered s0 pl ms -> quiet (p_service pl) s ->
  ordered s0 (MkPool s (p_holder pl) (p_threads pl)) ms.
Proof.
  intros [Hs Hl Hh Hc Hn Hcalls Ht] Hq. pose proof (quiet_ok _ _ Hq Hs) as Hs'. split; cbn; try done.
  - etransitivity; [exact Hl|by apply quiet_lives].
  - by rewrite (quiet_directory _ _ Hq).
  - intros i t g Et Hg. eapply in_order_others; [|by apply Ht]. by apply others_weaken.
Qed.
Lemma ordered_step s0 pl pl' ms : ordered s0 pl ms -> pool_step pl pl' -> exists new, ordered s0 pl' (ms ++ new).
Proof.
  intros Hms [i E|c E|s Hb ->]; [by eapply ordered_advance|by eapply ordered_arrive|].
  exists []. rewrite app_nil_r. apply ordered_beside; [done|by apply beside_quiet].
Qed.

(** A pool that some interleaving reaches. *)
Definition pool_ok (s0 : Service) (pl : pool) : Prop := exists ms, ordered s0 pl ms.
Lemma idle_ok s : service_ok s -> pool_ok s (idle s).
Proof. intros Hs. exists []. by apply ordered_idle. Qed.
Lemma pool_step_ok s0 pl pl' : pool_ok s0 pl -> pool_step pl pl' -> pool_ok s0 pl'.
Proof. intros [ms Hms] Hst. destruct (ordered_step _ _ _ _ Hms Hst) as [new Hnew]. by exists (ms ++ new). Qed.
Lemma pool_steps_ok s0 pl pl' : rtc pool_step pl pl' -> pool_ok s0 pl -> pool_ok s0 pl'.
Proof. induction 1; [done|]. eauto using pool_step_ok. Qed.
Lemma pool_service s0 pl : pool_ok s0 pl -> service_ok (p_service pl) /\ lives s0 (p_service pl).
Proof. by intros [ms [Hs Hl _ _ _ _ _]]. Qed.
Lemma pool_thread s0 pl i t : pool_ok s0 pl -> p_threads pl !! i = Some t -> exists g,
  in_order (sv_opts s0) (c_rpc (t_call t)) (c_req (t_call t)) (bool_decide (p_holder pl = Some i)) (t_prog t) g (p_service pl).
Proof.
  intros [ms Hms] Et. destruct (took_effect_some ms i) as [g Hg]. exists g. by eapply or_threads.
Qed.
Lemma pool_advance s0 i pl pl' : pool_ok s0 pl -> advance i pl = Some pl' -> service_ok (p_service pl') /\ lives (p_service pl) (p_service pl').
Proof.
  intros Hok (t & p & holder & s & Et & Em & ->)%advance_inv. destruct (pool_service _ _ Hok) as [Hs _].
  destruct (pool_thread _ _ _ _ Hok Et) as [g Hg].
  by destruct (move_in_order _ _ _ _ _ _ _ _ _ _ _ Hs Hg Em) as [(g' & [Hl _] & _) _].
Qed.

(** ** Without the mutex *)

Lemma advance_unlocked s0 i pl pl' : pool_ok s0 pl -> p_holder pl <> Some i -> advance i pl = Some pl' ->
  untouched (p_service pl) (p_service pl') /\
  forall s, same_outside (p_service pl) s -> exists s',
    advance i (MkPool s (p_holder pl) (p_threads pl)) = Some (MkPool s' (p_holder pl') (p_threads pl')) /\
    same_outside (p_service pl') s'.
Proof.
  intros Hok Hn (t & p & holder & s & Et & Em & ->)%advance_inv. destruct (pool_service _ _ Hok) as [Hs _].
  destruct (pool_thread _ _ _ _ Hok Et) as [g Hg]. rewrite bool_decide_false in Hg by done.
  destruct (move_unlocked _ _ _ _ _ _ _ _ _ _ _ Hs Hg Hn Em) as [Hq Hu]. split; [exact Hq|].
  intros u Hou. destruct (Hu u Hou) as (u' & Eu & Hou'). exists u'. split; [|done].
  unfold advance. cbn [p_threads p_holder p_service]. rewrite Et. cbn [mbind option_bind]. by rewrite Eu.
Qed.

(** ** Progress *)

Lemma move_total s0 i pl t : pool_ok s0 pl -> p_threads pl !! i = Some t -> answer t = None ->
  p_holder pl = Some i \/ p_holder pl = None -> exists pl', advance i pl = Some pl'.
Proof.
  intros Hok Et Ha Hh. destruct (pool_thread _ _ _ _ Hok Et) as [g Hd]. unfold advance. rewrite Et. cbn.
  unfold answer in Ha. destruct (t_prog t) as [r|k|k|X m k]; cbn in *; [done|..].
  - destruct Hd as [Hn _]. apply bool_decide_eq_false_1 in Hn. destruct Hh as [Hh| ->]; [done|]. cbn. eauto.
  - destruct Hd as [-> _]. cbn. eauto.
  - destruct (m (p_service pl)). cbn. eauto.
Qed.
(** The holder of the mutex is never done. *)
Lemma holder_waits s0 i pl : pool_ok s0 pl -> p_holder pl = Some i ->
  exists t, p_threads pl !! i = Some t /\ answer t = None.
Proof.
  intros Hok Hi. pose proof Hok as [ms Hms].
  destruct (lookup_lt_is_Some_2 (p_threads pl) i (or_holder _ _ _ Hms _ Hi)) as [t Et]. exists t. split; [done|].
  destruct (pool_thread _ _ _ _ Hok Et) as [g Hd]. rewrite bool_decide_true in Hd by done. unfold answer.
  destruct (t_prog t); [|done..]. by destruct Hd.
Qed.
Definition answered (pl : pool) : Prop := Forall (fun t => is_Some (answer t)) (p_threads pl).
Lemma pool_progress s0 pl : pool_ok s0 pl -> (answered pl /\ p_holder pl = None) \/ exists i pl', advance i pl = Some pl'.
Proof.
  intros Hok. destruct (p_holder pl) as [i|] eqn:Eh.
  - right. destruct (holder_waits s0 i pl Hok Eh) as (t & Et & Ha). exists i. eapply move_total; eauto.
  - destruct (decide (Forall (fun t => is_Some (answer t)) (p_threads pl))) as [Ha|Hn]; [by left|right].
    apply not_Forall_Exists in Hn; [|typeclasses eauto]. apply Exists_exists in Hn as (t & Ht & Ha).
    apply list_elem_of_lookup in Ht as [i Et]. exists i. eapply move_total; eauto.
    by apply eq_None_not_Some.
Qed.
End pools.

(** ** Termination *)

Definition thread_step (t t' : thread) : Prop :=
  exists p, prog_step (t_prog t) p /\ t' = MkThread (t_call t) p.
Lemma thread_sn t : sn thread_step t.
Proof.
  destruct t as [c p]. induction (prog_sn p) as [p _ IH]. constructor.
  intros t' (p' & Hp & ->). by apply IH.
Qed.
Definition threads_step (ts ts' : list thread) : Prop :=
  exists i t t', ts !! i = Some t /\ thread_step t t' /\ ts' = <[i := t']> ts.
Lemma threads_sn ts : sn threads_step ts.
Proof.
  induction ts as [|t ts IH]; [constructor; intros ? (? & ? & ? & ? & _); done|].
  pose proof (thread_sn t) as Ht. revert t Ht. induction IH as [ts _ IHts].
  intros t Ht. pose proof Ht as Ht0. induction Ht as [t _ IHt]. constructor.
  intros ts' ([|i] & t0 & t1 & Ei & Hst & ->); cbn in Ei.
  - injection Ei as <-. cbn. apply IHt; [done|by eapply Acc_inv].
  - cbn. apply IHts; [|done]. by exists i, t0, t1.
Qed.

Section finish.
Context `{Env} `{Mac} `{Hash} `{Aead}.

(** Calls moving, callbacks and streams between them, none arriving. *)
Definition moves_on (pl pl' : pool) : Prop :=
  exists i s, rtc beside (p_service pl) s /\ advance i (MkPool s (p_holder pl) (p_threads pl)) = Some pl'.
Lemma pool_sn pl : sn moves_on pl.
Proof.
  destruct pl as [s h ts]. pose proof (threads_sn ts) as Ht. revert s h. induction Ht as [ts _ IH]. intros s h.
  constructor. intros pl' (i & s1 & _ & (t & p & h' & s' & Et & Em & ->)%advance_inv). cbn in *. apply IH.
  exists i, t, (MkThread (t_call t) p). split; [done|]. split; [|done]. exists p. split; [|done]. by eapply move_step.
Qed.
Lemma moves_on_steps pl pl' : rtc moves_on pl pl' -> rtc pool_step pl pl'.
Proof.
  assert (forall s s' h ts, rtc beside s s' -> rtc pool_step (MkPool s h ts) (MkPool s' h ts)) as Hbeside.
  { intros s s' h ts. induction 1 as [|s1 s2 s3 H12 _ IH]; [done|]. eapply rtc_l; [|exact IH]. by eapply step_beside. }
  induction 1 as [|[s h ts] pl2 pl3 (i & s1 & Hb & Hi) _ IH]; [done|]. etransitivity; [by apply Hbeside|].
  eapply rtc_l; [|exact IH]. by eapply step_thread.
Qed.
Lemma pool_finishes s0 pl : pool_ok s0 pl -> exists pl', rtc moves_on pl pl' /\ answered pl' /\ p_holder pl' = None.
Proof.
  induction (pool_sn pl) as [pl _ IH]. intros Hok. destruct (pool_progress s0 pl Hok) as [[Ha Hh]|(i & pl1 & Hi)].
  - by exists pl.
  - assert (moves_on pl pl1) as Hm1 by (exists i, (p_service pl); split; [done|by destruct pl]).
    destruct (IH pl1 Hm1) as (pl2 & Hm & Hd); [by eapply pool_step_ok, step_thread|].
    exists pl2. split; [|done]. by eapply rtc_l.
Qed.
End finish.
