(* ===== verification/ConcOrder.v ===== *)
(** * The order of calls in flight

    [linearizes s0 pl lin xs]: the calls [lin] of the pool [pl], in that order and
    with the answers in [xs], are a run of the directory from [s0]'s to the one
    [pl]'s service stands for. Every interleaving has such an order, which only
    grows at its end, so that a call answered before another arrives comes first. *)

From S2P Require Import Prelude GoStrings GoTime Encoding Crypto Proto Broker Sdk Ids World Encryption Options.
From S2P Require Import Service Auth AuthSpec Registry RegistrySpec Handlers HandlersSpec Lifecycle RegistryAbs Disk.
From S2P Require Import Launch ErrorTypes Conc ConcSpec ConcLogic ConcAdd ConcLin ConcPool.

Section order.
Context `{Env} `{Mac} `{Hash} `{Aead}.

(** From one pool to another, through those of a list. *)
Inductive evolves (pl : pool) : list pool -> pool -> Prop :=
  | evolves_nil : evolves pl [] pl
  | evolves_snoc past pl1 pl2 : evolves pl past pl1 -> pool_step pl1 pl2 -> evolves pl (past ++ [pl1]) pl2.

(** What call [i] of the pool asked, with its answer, or one it may still give. *)
Definition accounts (pl : pool) (i : nat) (x : exchange) : Prop :=
  exists t a, p_threads pl !! i = Some t /\ x = Exchange (c_rpc (t_call t)) (c_req (t_call t)) a /\
    forall a', answer t = Some a' -> a' = a.
Record linearizes (s0 : Service) (pl : pool) (lin : list nat) (xs : list exchange) : Prop := {
  lz_calls : Forall2 (accounts pl) lin xs;
  lz_once : NoDup lin;
  lz_directory : allows (directory_of s0) xs (directory_of (p_service pl));
  (* the others have no answer yet, or were turned away *)
  lz_others i t a : p_threads pl !! i = Some t -> i ∉ lin -> answer t = Some a -> refused (sv_opts s0) a;
}.

(** A call past its moment has an answer to come, or given. *)
Lemma in_order_answer o r req p dd : forall held s, service_ok s -> in_order o r req held p (Some dd) s ->
  exists a, registry_spec dd.1 r req a dd.2 /\ forall x, p = Return x -> x = a.
Proof.
  assert (forall held s (p' : prog (rpc_response r)), (exists g', effect (Some dd) s g' s /\ in_order o r req held p' g' s) ->
    in_order o r req held p' (Some dd) s) as Hsome by (by intros held s p' (g' & [_ [[-> _]|[? _]]] & Hw)).
  induction p as [x|k IH|k IH|X m k IH]; intros held s Hs.
  - destruct dd as [d d']. intros [_ [Hx _]]. exists x. split; [done|]. by intros x' [= ->].
  - intros [-> Hp]. destruct (IH true s Hs) as (a & Ha & _); [|by exists a]. apply Hsome, Hp. by apply others_refl.
  - intros [-> Hp]. destruct (IH false s Hs) as (a & Ha & _); [|by exists a]. apply Hsome, Hp. by apply others_refl.
  - intros [_ Hp]. destruct (Hp s (others_refl _ _ Hs)) as (g' & [[Hs' _] [[-> _]|[? _]]] & Hw); [|done].
    destruct (IH _ held _ Hs' Hw) as (a & Ha & _). by exists a.
Qed.
Lemma ordered_linearizes s0 pl ms : ordered s0 pl ms -> exists xs, linearizes s0 pl ms.*1 xs.
Proof.
  intros [Hs Hl Hh Hc Hn Hcalls Ht].
  assert (forall d0 d1 ms', ms' ⊆ ms -> chain d0 ms' d1 -> exists xs, Forall2 (accounts pl) ms'.*1 xs /\ allows d0 xs d1) as Hxs.
  { intros d0 d1 ms'. revert d0. induction ms' as [|[i [d d']] ms' IH]; intros d0 Hsub Hch; cbn in Hch.
    - exists []. subst. split; constructor.
    - destruct Hch as [-> Hch]. destruct (IH d') as (xs & Hxs & Hal); [set_solver|done|].
      assert ((i, (d0, d')) ∈ ms) as Hi by set_solver.
      destruct (lookup_lt_is_Some_2 (p_threads pl) i) as [t Et]; [apply Hcalls, moment_in; eauto|].
      destruct (in_order_answer _ _ _ _ _ _ _ Hs (Ht i t (Some (d0, d')) Et Hi)) as (a & Ha & Hret).
      exists (Exchange (c_rpc (t_call t)) (c_req (t_call t)) a :: xs). cbn. split; [|econstructor; [exact Ha|done]]. constructor; [|done].
      exists t, a. split; [done|]. split; [done|]. unfold answer. intros a'. destruct (t_prog t); try done.
      intros [= ->]. by apply Hret. }
  destruct (Hxs _ _ ms ltac:(done) Hc) as (xs & Hxs' & Hal). exists xs. split; [done..|].
  intros i t a Et Hi Ha. specialize (Ht i t None Et Hi). unfold answer in Ha. destruct (t_prog t); [|done..].
  injection Ha as <-. by destruct Ht.
Qed.

Lemma evolves_steps pl past pl' : evolves pl past pl' -> rtc pool_step pl pl'.
Proof. induction 1; [done|]. by eapply rtc_r. Qed.

(** Every interleaving has an order that extends those of its past. *)
Lemma evolves_ordered s0 past pl : service_ok s0 -> evolves (idle s0) past pl ->
  exists ms, ordered s0 pl ms /\ forall earlier, earlier ∈ past -> exists pre, pre `prefix_of` ms /\ ordered s0 earlier pre.
Proof.
  intros Hs0 Hev. induction Hev as [|past pl1 pl2 Hev IH Hst].
  - exists []. split; [by apply ordered_idle|]. intros ? He; by apply not_elem_of_nil in He.
  - destruct IH as (ms & Hms & Hpast). destruct (ordered_step _ _ _ _ Hms Hst) as [ms' Hms'].
    exists (ms ++ ms'). split; [done|]. intros e [He| ->%list_elem_of_singleton]%elem_of_app.
    + destruct (Hpast e He) as (pre & Hpre & Ho). exists pre. split; [|done]. by apply prefix_app_r.
    + exists ms. split; [by apply prefix_app_r|done].
Qed.
Lemma evolves_ok s0 past pl : service_ok s0 -> evolves (idle s0) past pl -> pool_ok s0 pl.
Proof. intros Hs0 Hev. by apply (pool_steps_ok s0 (idle s0)), idle_ok; [eapply evolves_steps|]. Qed.
Lemma evolves_linearizes s0 past pl : service_ok s0 -> evolves (idle s0) past pl ->
  exists lin xs, linearizes s0 pl lin xs /\ forall earlier, earlier ∈ past ->
    exists pre xs', pre `prefix_of` lin /\ linearizes s0 earlier pre xs'.
Proof.
  intros Hs0 Hev. destruct (evolves_ordered _ _ _ Hs0 Hev) as (ms & Hms & Hpast).
  destruct (ordered_linearizes _ _ _ Hms) as [xs Hxs]. exists ms.*1, xs. split; [done|].
  intros e He. destruct (Hpast e He) as (pre & [post ->] & Ho). destruct (ordered_linearizes _ _ _ Ho) as [xs' Hxs'].
  exists pre.*1, xs'. split; [|done]. exists post.*1. by rewrite fmap_app.
Qed.

(** ** Creations *)

(** The wallet a call has acknowledged, with its secrets. *)
Definition acknowledged (t : thread) : option ((string * string) * (string * string)) :=
  match answer t with
  | Some a => added (c_rpc (t_call t)) (c_req (t_call t)) a
  | None => None
  end.
Definition x_added (x : exchange) : option ((string * string) * (string * string)) :=
  added (x_rpc x) (x_req x) (x_answer x).

Lemma added_error r req e : added r req (Err e) = None.
Proof. by destruct r. Qed.
Lemma directory_insert (d : directory) k v : <[k := v]> d !! k = Some v.
Proof. apply lookup_insert_eq. Qed.
Lemma spec_add_ok {A} d t w (a : A) secrets d' : spec_add d t w (Ok a) secrets d' ->
  d !! (t, w) = None /\ d' = <[(t, w) := secrets]> d.
Proof. unfold spec_add. destruct (valid_ids t w); cbn; [|by intros []]. by destruct (d !! (t, w)); [intros []|]. Qed.
Lemma spec_add_keeps {A} d t w (x : result A) secrets d' : spec_add d t w x secrets d' -> d ⊆ d'.
Proof.
  unfold spec_add. destruct (valid_ids t w); cbn; [|by intros [_ ->]].
  destruct (d !! (t, w)) eqn:E; [by intros [_ ->]|]. destruct x; [intros ->|intros [->| ->]; [done|]]; by apply insert_subseteq.
Qed.
Lemma spec_added d r req x d' k secrets : registry_spec d r req x d' -> added r req x = Some (k, secrets) ->
  d !! k = None /\ d' = <[k := secrets]> d.
Proof.
  destruct r; try done; destruct x as [resp|]; try done; cbn; intros Hs [= <- <-].
  - destruct Hs as (mn & Hm & Hs). rewrite (Hm _ eq_refl). by eapply spec_add_ok.
  - unfold spec_restore in Hs. case_match; [by destruct Hs|]. by eapply spec_add_ok.
Qed.
Lemma spec_keeps d r req x d' : registry_spec d r req x d' -> d ⊆ d'.
Proof.
  destruct r; cbn; try (by intros [-> _]).
  - intros (mn & _ & Hs). by eapply spec_add_keeps.
  - unfold spec_restore. case_match; [by intros [_ ->]|]. apply spec_add_keeps.
  - by intros [[-> _] _].
Qed.
Lemma allows_keeps d xs d' : allows d xs d' -> d ⊆ d'.
Proof. induction 1; [done|]. etransitivity; [by eapply spec_keeps|done]. Qed.
(** What a run adds was free before it, and is there with its secrets after. *)
Lemma allows_added d xs d' a x k secrets : allows d xs d' -> xs !! a = Some x -> x_added x = Some (k, secrets) ->
  d !! k = None /\ d' !! k = Some secrets.
Proof.
  intros Ha. revert a. induction Ha as [|d d1 d2 r req y xs Hs Ha IH]; intros [|a] Hx Hk; try done.
  - injection Hx as <-. destruct (spec_added _ _ _ _ _ _ _ Hs Hk) as [Hn ->]. split; [done|].
    eapply lookup_weaken; [apply lookup_insert_eq|by eapply allows_keeps].
  - destruct (IH a Hx Hk) as [Hn Hd]. split; [|done]. eapply lookup_weaken_None; [done|by eapply spec_keeps].
Qed.
Lemma allows_added_once d xs d' a b x y k sx sy : allows d xs d' -> xs !! a = Some x -> xs !! b = Some y ->
  x_added x = Some (k, sx) -> x_added y = Some (k, sy) -> a = b.
Proof.
  intros Ha. revert a b. induction Ha as [|d d1 d2 r req z xs Hs Ha IH]; intros [|a] [|b] Hx Hy Hkx Hky; try done.
  - injection Hx as <-. destruct (spec_added _ _ _ _ _ _ _ Hs Hkx) as [_ ->].
    destruct (allows_added _ _ _ _ _ _ _ Ha Hy Hky) as [Hn _]. by rewrite directory_insert in Hn.
  - injection Hy as <-. destruct (spec_added _ _ _ _ _ _ _ Hs Hky) as [_ ->].
    destruct (allows_added _ _ _ _ _ _ _ Ha Hx Hkx) as [Hn _]. by rewrite directory_insert in Hn.
  - f_equal. by eapply IH.
Qed.

(** An acknowledged creation has its place in the order. *)
Lemma linearizes_acknowledged s0 pl lin xs i t k : linearizes s0 pl lin xs -> p_threads pl !! i = Some t ->
  acknowledged t = Some k -> exists a x, lin !! a = Some i /\ xs !! a = Some x /\ x_added x = Some k.
Proof.
  intros [Hc _ _ Ho] Et Hk. unfold acknowledged in Hk. destruct (answer t) as [r|] eqn:Ea; [|done].
  destruct (decide (i ∈ lin)) as [Hi|Hi].
  - apply list_elem_of_lookup in Hi as [a Hi]. destruct (Forall2_lookup_l _ _ _ _ _ Hc Hi) as (x & Hx & t' & r' & Et' & -> & Hr).
    rewrite Et in Et'. injection Et' as <-. exists a, (Exchange (c_rpc (t_call t)) (c_req (t_call t)) r'). split; [done|].
    split; [done|]. unfold x_added. cbn. by rewrite <- (Hr _ Ea).
  - destruct (Ho i t r Et Hi Ea) as (_ & e & -> & _). by rewrite added_error in Hk.
Qed.

(** At most one call is acknowledged for a pair of ids, and only if they were free. *)
Lemma creation_unique s0 past pl i j ti tj k si sj : service_ok s0 -> evolves (idle s0) past pl ->
  p_threads pl !! i = Some ti -> p_threads pl !! j = Some tj ->
  acknowledged ti = Some (k, si) -> acknowledged tj = Some (k, sj) ->
  i = j /\ directory_of s0 !! k = None /\ directory_of (p_service pl) !! k = Some si.
Proof.
  intros Hs Hev Ei Ej Hi Hj. destruct (evolves_linearizes _ _ _ Hs Hev) as (lin & xs & Hl & _).
  destruct (linearizes_acknowledged _ _ _ _ _ _ _ Hl Ei Hi) as (a & x & La & Xa & Ka).
  destruct (linearizes_acknowledged _ _ _ _ _ _ _ Hl Ej Hj) as (b & y & Lb & Xb & Kb).
  destruct Hl as [_ _ Ha _]. split; [|by apply (allows_added _ _ _ _ _ _ _ Ha Xa Ka)].
  pose proof (allows_added_once _ _ _ _ _ _ _ _ _ _ Ha Xa Xb Ka Kb) as ->. congruence.
Qed.

(** ** A crash *)

(** Whenever it comes, the record of every acknowledged wallet is in the state file. *)
Lemma acknowledged_stored s0 past pl i t k : service_ok s0 -> evolves (idle s0) past pl ->
  p_threads pl !! i = Some t -> acknowledged t = Some k -> exists m, stored (p_service pl) m /\ ids m = k.1.
Proof.
  intros Hs Hev Et Hk. destruct (pool_thread _ _ _ _ (evolves_ok _ _ _ Hs Hev) Et) as [g Hg].
  unfold acknowledged in Hk. destruct (answer t) as [r|] eqn:Ea; [|done]. unfold answer in Ea.
  destruct (t_prog t) as [r'| | |] eqn:Ep; try done. injection Ea as ->. destruct Hg as [_ Hf].
  destruct g as [[d d']|]; [by apply Hf|]. destruct Hf as (_ & e & -> & _). by rewrite added_error in Hk.
Qed.

(** The directory of some of the records. *)
Lemma entries_prefix key st st' : st `prefix_of` st' ->
  (list_to_map (entries key st) : gmap (string * string) (string * string)) ⊆ list_to_map (entries key st').
Proof. intros [l ->]. unfold entries. rewrite fmap_app, list_to_map_app. apply map_union_subseteq_l. Qed.
Lemma entries_in key st m : m ∈ st ->
  is_Some ((list_to_map (entries key st) : gmap (string * string) (string * string)) !! ids m).
Proof.
  intros Hm. destruct (list_to_map (entries key st) !! ids m) eqn:E; [by eexists|].
  apply not_elem_of_list_to_map in E. destruct E. rewrite entries_fst. by apply list_elem_of_fmap_2.
Qed.

(** What the state file says at any moment. *)
Lemma lives_on_disk s0 s : on_disk (files s0) (sv_dataDir s0) (sv_state s0) -> service_ok s -> lives s0 s ->
  exists st, on_disk (files s) (sv_dataDir s0) st /\ sv_state s0 `prefix_of` st /\ st `prefix_of` sv_state s.
Proof.
  intros Hd Hs [_ _ (Ed & Hp & [Hf|(st & Hp0 & Hp1 & f & Hf & Ef)])].
  - exists (sv_state s0). unfold on_disk in *. by rewrite Hf.
  - exists st. split; [|done]. rewrite Ed in Hf. unfold on_disk. rewrite Hf, Ef.
    apply unmarshal_state_json. eapply prefix_Forall; [done|by apply service_plain].
Qed.
(** A start on the files of any moment has the wallets of the start before it
    and every wallet acknowledged since. *)
Lemma crash_restart dir o w s0 w0 past pl u :
  NewWithOptions dir o w = (Ok s0, w0) -> service_ok s0 -> evolves (idle s0) past pl -> no_faults ->
  w_fs u = files (p_service pl) ->
  exists s u', NewWithOptions dir o u = (Ok s, u') /\ service_ok s /\
    directory_of s0 ⊆ directory_of s /\ directory_of s ⊆ directory_of (p_service pl) /\
    forall i t k, p_threads pl !! i = Some t -> acknowledged t = Some k -> directory_of s !! k.1 = Some k.2.
Proof.
  intros Hn Hs0 Hev Hf Hfs. destruct (NewWithOptions_inv _ _ _ _ _ Hn) as (w1 & Hw & Hs1 & Ed0).
  pose proof (NewWithOptions_on_disk _ _ _ _ _ Hn (service_plain _ Hs0)) as Hd0. rewrite <- Ed0 in Hd0.
  destruct (pool_service _ _ (evolves_ok _ _ _ Hs0 Hev)) as [Hok Hl].
  destruct (lives_on_disk _ _ Hd0 Hok Hl) as (st & Hdisk & Hp0 & Hp1). destruct Hl as [(_ & Eo & _) [Ed Hs2] _].
  rewrite Ed0 in *.
  destruct (withDefaults_again o dir w (sv_opts s0) w1 u Hw (nf_reads Hf)) as (u1 & Hu1 & Efs).
  { rewrite Hfs. unfold same_secrets in *. destruct Hs1 as [-> ->], Hs2 as [-> ->]. done. }
  rewrite <- Hfs, <- Efs in Hdisk.
  assert (Forall (record_ok (DataKey (sv_opts s0))) st) as Hst.
  { rewrite <- Eo. eapply prefix_Forall; [done|by apply so_records]. }
  destruct (restart dir o u (sv_opts s0) u1 st Hu1 Hf Hdisk Hst) as (s & u' & En & Hs & Eos & Est & _).
  assert (directory_of s ⊆ directory_of (p_service pl)) as Hsub.
  { unfold directory_of. rewrite Eos, Est, <- Eo. by apply entries_prefix. }
  exists s, u'. split; [done|]. split; [done|]. split; [|split; [done|]].
  { unfold directory_of. rewrite Eos, Est. by apply entries_prefix. }
  intros i t [k secrets] Et Hk. cbn.
  destruct (creation_unique _ _ _ _ _ _ _ _ _ _ Hs0 Hev Et Et Hk Hk) as (_ & _ & Hdir).
  destruct (acknowledged_stored _ _ _ _ _ _ Hs0 Hev Et Hk) as (m & (f & st' & Hfile & Hu & _ & Hm) & Eids).
  assert (st' = st) as ->.
  { apply (on_disk_unique (w_fs u1) dir); [|done]. rewrite Ed in Hfile. unfold on_disk. by rewrite Efs, Hfs, Hfile. }
  cbn in Eids. subst k. destruct (entries_in (DataKey (sv_opts s)) st m Hm) as [v Hv].
  assert (directory_of s !! ids m = Some v) as Hv' by (unfold directory_of; by rewrite Est).
  rewrite Hv'. f_equal. assert (directory_of (p_service pl) !! ids m = Some v) as Hv2 by exact (lookup_weaken _ _ _ _ Hv' Hsub). congruence.
Qed.
End order.
