(* ===== verification/ConcIso.v ===== *)
(** * Interleaved calls stay on their own wallets

    Authorisation and the work it allows are different steps, between which other
    calls run. [stage] says where a call is between them; from each stage its steps
    call SDK wallets only within what its token allows. *)

From S2P Require Import Prelude GoStrings GoTime Encoding Crypto Proto Broker Sdk Ids World Encryption Options.
From S2P Require Import Service Auth AuthSpec Registry RegistrySpec Handlers HandlersSpec Rescan Lifecycle RegistryAbs Disk.
From S2P Require Import Launch ErrorTypes Conc ConcSpec ConcBeside ConcLogic ConcAdd ConcLin ConcPool ConcOrder.

(** ** Programs within a scope *)

Section scope.
Context `{Env} `{Mac} `{Hash} `{Aead} (P : Service -> wallet_ptr -> Prop).

(** Each step calls only wallets that are in [P] at that moment. *)
Fixpoint confined {A} (J : Service -> Prop) (p : prog A) : Prop :=
  match p with
  | Return _ => True
  | Acquire k | Release k => confined J k
  | Act m k => forall s, service_ok s -> J s -> calls (P s) s (snd (m s)) /\ confined J (k (fst (m s)))
  end.
(** The same, where some step may learn which wallet the rest is about. *)
Fixpoint scoped {A} (p : prog A) : Prop :=
  match p with
  | Return _ => True
  | Acquire k | Release k => scoped k
  | Act m k => forall s, service_ok s -> calls (P s) s (snd (m s)) /\
      (scoped (k (fst (m s))) \/ exists J, lasting J /\ J (snd (m s)) /\ confined J (k (fst (m s))))
  end.

Lemma confined_bind {A B} J (p : prog A) (f : A -> prog B) :
  confined J p -> (forall a, confined J (f a)) -> confined J (p ≫= f).
Proof.
  intros Hp Hf. induction p as [[a|e]|k IH|k IH|X m k IH]; cbn in *; auto.
  intros s Hs Hj. destruct (Hp s Hs Hj) as [Hc Hk]. split; [done|]. by apply IH.
Qed.
Lemma confined_map {A B} J (f : result A -> result B) (p : prog A) : confined J p -> confined J (prog_map f p).
Proof.
  induction p as [r|k IH|k IH|X m k IH]; cbn; auto. intros Hp s Hs Hj.
  destruct (Hp s Hs Hj) as [Hc Hk]. split; [done|]. by apply IH.
Qed.
Lemma confined_locked {A} J (p : prog A) : confined J p -> confined J (locked p).
Proof.
  cbn. induction p as [r|k IH|k IH|X m k IH]; cbn; auto. intros Hp s Hs Hj.
  destruct (Hp s Hs Hj) as [Hc Hk]. split; [done|]. by apply IH.
Qed.
Lemma confined_ret {A} J (a : A) : confined J (mret a).
Proof. done. Qed.
Lemma confined_fail {A} J e : confined J (fail e : prog A).
Proof. done. Qed.
Lemma confined_return {A} J (r : result A) : confined J (Return r).
Proof. done. Qed.
Lemma confined_act {A} J (m : M Service A) : (forall s, J s -> calls (P s) s (snd (m s))) -> confined J (act m).
Proof. intros Hm s _ Hj. split; [by apply Hm|done]. Qed.
Lemma confined_free {A} J (m : M Service A) : moves (calls no_wallet) m -> confined J (act m).
Proof. intros Hm. apply confined_act. intros s _. eapply calls_impl; [|apply Hm]. by intros q. Qed.
Lemma confined_node J c : confined J (on_node c).
Proof. apply confined_free, calls_node. Qed.
Lemma confined_or_status {A} J f (p : prog (result A)) : confined J p -> confined J (or_status f p).
Proof. intros Hp. by apply confined_map, confined_bind. Qed.
Lemma confined_probe J p : confined J p -> confined J (probe_c p).
Proof. intros Hp. apply confined_bind; [done|]. intros [b|e]; [done|]. by case_match. Qed.
Lemma confined_scoped {A} (p : prog A) : confined (fun _ => True) p -> scoped p.
Proof.
  induction p as [r|k IH|k IH|X m k IH]; cbn; auto. intros Hp s Hs. destruct (Hp s Hs I) as [Hc Hk].
  split; [done|]. left. by apply IH.
Qed.
(** After steps that stay in the scope anyway. *)
Lemma scoped_after {A B} (p : prog A) (f : A -> prog B) :
  confined (fun _ => True) p -> (forall a, scoped (f a)) -> scoped (p ≫= f).
Proof.
  intros Hp Hf. induction p as [[a|e]|k IH|k IH|X m k IH]; cbn in *; auto.
  intros s Hs. destruct (Hp s Hs I) as [Hc Hk]. split; [done|]. left. by apply IH.
Qed.
End scope.

Create HintDb confined discriminated.
#[export] Hint Resolve confined_bind confined_ret confined_fail confined_return confined_node confined_or_status
  confined_probe confined_locked : confined.

Ltac confined_tac :=
  repeat first [ solve [auto 3 with confined]
               | apply confined_bind; [by auto with confined | intros ?] | case_match
               | apply confined_bind; [|intros ?] ];
  auto with confined.

(** ** Critical sections on one wallet *)

Section through.
Context `{Env} `{Mac} `{Hash} `{Aead} (P : Service -> wallet_ptr -> Prop) (J : Service -> Prop) (l : loc).
Hypothesis Hl : forall s, J s -> exists tw, sv_heap s !! l = Some tw /\ P s (tw_w tw).

Lemma confined_through c : confined P J (through l c).
Proof.
  apply confined_act. intros s Hj. destruct (Hl s Hj) as (tw & Etw & Hp).
  destruct (touches_wcall l c s tw Etw) as [_ Hc]. eapply calls_impl; [|exact Hc]. by intros q <-.
Qed.
Lemma confined_deref : confined P J (act (deref l)).
Proof. apply confined_free. moves_tac. Qed.
Lemma confined_gets {A} (f : Service -> A) : confined P J (act (gets f)).
Proof. apply confined_free. moves_tac. Qed.
Hint Resolve confined_deref confined_gets : confined.
Hint Extern 1 (confined _ _ (through l ?c)) => exact (confined_through c) : confined.
Hint Extern 1 (confined _ _ (on_node ?c)) => exact (confined_node P J c) : confined.

Lemma confined_snapshot_locked : confined P J (saveSnapshotLocked_c l).
Proof. unfold saveSnapshotLocked_c. confined_tac. Qed.
Lemma confined_snapshot : confined P J (saveSnapshot_c l).
Proof.
  apply confined_locked, confined_bind; [|auto with confined]. apply confined_map, confined_snapshot_locked.
Qed.
Lemma confined_proto : confined P J (walletProtoLocked_c l).
Proof.
  assert (confined P J (walletAddresses_c l)) by (unfold walletAddresses_c; confined_tac).
  unfold walletProtoLocked_c. confined_tac.
Qed.
End through.

(** ** Methods on a wallet, once it is found *)

Section wallet.
Context `{Env} `{Mac} `{Hash} `{Aead} (t w : string) (l : loc) (q : wallet_ptr).

Definition found (s : Service) : Prop :=
  exists tw, lookup_wallet s t w = Some l /\ sv_heap s !! l = Some tw /\ q = tw_w tw.
Lemma lasting_found : lasting found.
Proof.
  intros s s' _ [(_ & _ & Hl & Hh) _ _] (tw & E & Et & Eq). destruct (Hh _ _ Et) as (tw' & Et' & [_ Ew]%same_wallet_meta).
  exists tw'. rewrite Ew. auto.
Qed.
Lemma found_acts s : found s -> exists tw, sv_heap s !! l = Some tw /\ acts_on s t w (tw_w tw).
Proof. intros (tw & E & Et & _). exists tw. split; [done|]. by exists l, tw. Qed.
Lemma confined_sdk c : confined (fun s => acts_on s t w) found (sdk q c).
Proof.
  apply confined_act. intros s (tw & E & Et & ->). apply calls_W_log. by exists l, tw.
Qed.
End wallet.

Ltac confined_call :=
  match goal with
  | |- confined (fun s => acts_on s ?t ?w) (found ?t ?w ?l ?q) (@sdk _ ?q ?c) => exact (confined_sdk t w l q c)
  | |- confined _ (found ?t ?w ?l ?q) (saveSnapshot_c ?l) => exact (confined_snapshot _ _ l (found_acts t w l q))
  | |- confined _ (found ?t ?w ?l ?q) (walletProtoLocked_c ?l) => exact (confined_proto _ _ l (found_acts t w l q))
  | |- confined ?P ?J (@on_node _ ?c) => exact (confined_node P J c)
  | |- confined _ _ (act _) => apply confined_free; by moves_tac
  end.
#[export] Hint Extern 1 (confined _ _ _) => confined_call : confined.

Section methods.
Context `{Env} `{Mac} `{Hash} `{Aead}.

Lemma scoped_wallet {A} t w (f : loc * wallet_ptr -> prog A) :
  (forall l q, confined (fun s => acts_on s t w) (found t w l q) (f (l, q))) ->
  scoped (fun s => acts_on s t w) (wallet_c t w ≫= f).
Proof.
  intros Hf. unfold wallet_c. destruct (validateTenantWallet t w) as [[]|e]; [|done].
  intros s Hs. unfold find_wallet, gets, mbind, M_bind. fold (lookup_wallet s t w).
  destruct (lookup_wallet s t w) as [l|] eqn:El.
  - destruct (reg_ptr _ (so_registry _ Hs) _ _ El) as (tw & Htw & _).
    rewrite (proj2 (deref_ok l s tw s)) by done. cbn. split; [reflexivity|].
    right. exists (found t w l (tw_w tw)). split; [apply lasting_found|]. split; [by exists tw|]. apply Hf.
  - split; [reflexivity|]. by left.
Qed.
Lemma scoped_impl {A} (P Q : Service -> wallet_ptr -> Prop) (p : prog A) :
  (forall s q, P s q -> Q s q) -> scoped P p -> scoped Q p.
Proof.
  intros HPQ. assert (forall J (p : prog A), confined P J p -> confined Q J p) as Hc.
  { clear p. intros J p. induction p as [r|k IH|k IH|X m k IH]; cbn; auto. intros Hp s Hs Hj.
    destruct (Hp s Hs Hj) as [Hc Hk]. split; [by eapply calls_impl; [apply HPQ|]|]. by apply IH. }
  induction p as [r|k IH|k IH|X m k IH]; cbn; auto. intros Hp s Hs.
  destruct (Hp s Hs) as (Hcs & Hk). split; [by eapply calls_impl; [apply HPQ|]|].
  destruct Hk as [Hk|(J & HJ & Hj & Hk)]; [left; by apply IH|right]. exists J. auto.
Qed.

Lemma calls_validateJWT P token typ : moves (calls P) (validateJWT token typ).
Proof. unfold validateJWT. destruct (split_char "." token) as [|? [|? [|? [|]]]]; moves_tac. Qed.
Lemma calls_issueTokens P t w : moves (calls P) (issueTokens t w).
Proof. unfold issueTokens. moves_tac. Qed.
Hint Resolve calls_validateJWT calls_issueTokens : moves.
Lemma calls_subject ctx : moves (calls no_wallet) (authSubjectFromContext ctx).
Proof. unfold authSubjectFromContext. moves_tac. Qed.

(** The wallets whose keys were listed are the tenant's, then and later. *)
Lemma confined_protos s0 s1 t keys : service_ok s0 -> (forall k, k ∈ keys -> k ∈ tenant_keys s0 t) ->
  lives s0 s1 -> confined (fun s => owned_by s t) (lives s0) (wallet_protos_c (sv_wallets s1) keys).
Proof.
  intros Hs0 Hk Hl1. induction keys as [|k keys IH]; [done|]. cbn [wallet_protos_c].
  destruct (proj1 (tenant_keys_elem _ _ _ (so_registry _ Hs0)) (Hk k ltac:(set_solver))) as (l & tw & Hl & Htw & Ht).
  destruct (reg_ptr _ (so_registry _ Hs0) _ _ Hl) as (tw' & Htw' & _ & Ek). rewrite Htw in Htw'. injection Htw' as <-.
  assert (forall s, lives s0 s -> sv_wallets s !! k = Some l /\ exists tw', sv_heap s !! l = Some tw' /\ tw_meta tw' = tw_meta tw) as Hlater.
  { intros s [(_ & _ & Hlk & Hh) _ _]. rewrite Ek. rewrite Ek in Hl. split; [by apply Hlk|].
    destruct (Hh _ _ Htw) as (tw' & Htw' & [Em _]%same_wallet_meta). by exists tw'. }
  rewrite (proj1 (Hlater s1 Hl1)). apply confined_bind.
  - apply confined_proto. intros s Hs. destruct (Hlater s Hs) as (E & tw' & Eh & Em). exists tw'. split; [done|].
    exists k, l, tw'. by rewrite Em.
  - intros p. apply confined_bind; [|by auto with confined]. apply IH. intros k' Hk'. apply Hk. set_solver.
Qed.
Lemma scoped_ListWallets req : scoped (fun s => owned_by s (pb.ListWalletsRequest_TenantId req)) (ListWallets_c req).
Proof.
  unfold ListWallets_c. destruct (validateTenant _); [|done]. intros s Hs. cbn. split; [reflexivity|].
  right. exists (lives s). split; [intros s1 s2 _ H12 H1'; by transitivity s1|]. split; [reflexivity|].
  intros s1 Hs1 Hl1. split; [reflexivity|].
  assert (confined (fun s => owned_by s (pb.ListWalletsRequest_TenantId req)) (lives s)
    (prog_bind (locked (wallet_protos_c (sv_wallets s1) (tenant_keys s (pb.ListWalletsRequest_TenantId req))))
       (fun ps => mret (pb.MkListWalletsResponse ps)))) as Hc.
  { apply confined_bind; [apply confined_locked, confined_protos; auto|auto with confined]. }
  exact Hc.
Qed.
Lemma unary_scoped r p req : unary_c r = Some p -> r <> BSVMS_CreateWallet -> r <> BSVMS_RestoreWallet ->
  scoped (fun s => request_scope s r req) (p req).
Proof.
  intros Hp Hc Hs. destruct r; injection Hp as <- || discriminate Hp; try done; unfold request_scope;
    cbn [tenantWalletFromRequest rpc_reflect];
    try (rewrite bool_decide_true by done; apply scoped_ListWallets); rewrite ?bool_decide_false by done;
    match goal with |- scoped _ ?p => unfold_head p end; cbv zeta;
    first [ apply scoped_wallet; intros l q | apply confined_scoped ]; confined_tac.
Qed.

Lemma confined_authorize P J ctx method req : confined P J (authorize_c ctx method req).
Proof.
  pose proof (calls_subject ctx) as Hs. pose proof (fun A => confined_free (A := A) P J) as Hfree. unfold authorize_c.
  apply confined_bind; [apply Hfree; moves_tac|]. intros enabled. case_match; [done|]. apply confined_bind.
  { case_match; [|done]. unfold bootstrapAllowed_c. destruct (tenantWalletFromRequest req) as [[t w] b].
    repeat case_match; try done; apply confined_locked, Hfree; moves_tac. }
  intros boot. repeat case_match; try done. apply confined_bind; [by apply Hfree|done].
Qed.
Lemma confined_rescan P J l body : confined P J body -> confined P J (rescan_c l body).
Proof.
  assert (forall f, moves (calls no_wallet) (modify (set_heap f))) as Hheap
    by (intros f s; exact (reflexivity (R := calls no_wallet) s)).
  assert (moves (calls no_wallet) (beginRescan l)) as Hb.
  { intros s. unfold beginRescan. destruct (heap_begin l (sv_heap s)) as [b h]. apply (Hheap (fun _ => h)). }
  intros Hp. unfold rescan_c. apply confined_bind; [by apply confined_locked, confined_free|].
  intros ok. case_match; [done|]. apply confined_bind; [by apply confined_map|]. intros r.
  apply confined_bind; [|done]. by apply confined_locked, confined_free, Hheap.
Qed.
Lemma scoped_Rescan ctx req : scoped (fun s => request_scope s BSVMS_Rescan req) (Rescan_c ctx req).
Proof.
  unfold request_scope. cbn [tenantWalletFromRequest rpc_reflect]. rewrite bool_decide_false by done.
  unfold Rescan_c. apply scoped_after; [apply confined_authorize|]. intros _. apply scoped_wallet. intros l q.
  set (P := fun s => acts_on s _ _). set (J := found _ _ l q).
  assert (forall ev, confined P J (stream_send ev)) as Hsend by (intros ev; apply confined_free; moves_tac).
  assert (forall every evs sent, confined P J (walk_c l every sent evs)) as Hwalk.
  { intros every evs. induction evs as [|[p|] evs IH]; intros sent; cbn [walk_c]; unfold P, J in *; confined_tac. }
  case_match; [done|]. apply confined_bind; [by auto with confined|]. intros h. apply confined_rescan.
  unfold rescan_body_c. unfold P, J in *. confined_tac.
Qed.
Lemma method_scoped ctx r p req : method_c ctx r = Some p -> r <> BSVMS_CreateWallet -> r <> BSVMS_RestoreWallet ->
  scoped (fun s => request_scope s r req) (p req).
Proof. destruct r; try exact (unary_scoped _ p req). intros [= <-] _ _. apply scoped_Rescan. Qed.

(** ** A call, from the interceptor to its answer *)

Section stages.
Context (ctx : context) (r : rpc) (req : rpc_request r).
Let msg := Some (rpc_reflect r req).

(** [W sub]: the call presented a valid token of [sub] at some moment. *)
Definition permitted (W : authSubject -> Prop) : Prop :=
  snd (tenantWalletFromRequest msg) = true -> exists sub, W sub /\ sub_Type sub = "access" /\
    authorize_subject sub (full_method r) msg = Ok ().

Inductive stage (W : authSubject -> Prop) (s : Service) (p : prog (rpc_response r)) : Prop :=
  | stage_enter h : method_c ctx r = Some h -> p = serve_c ctx r h req -> stage W s p
  | stage_check k :
      p = Act (authSubjectFromContext ctx) k ->
      (forall sub, authorize_subject sub (full_method r) msg = Ok () ->
         scoped (fun s => request_scope s r req) (k (Ok sub))) ->
      (forall sub e, authorize_subject sub (full_method r) msg = Err e -> k (Ok sub) = Return (Err e)) ->
      (forall e, k (Err e) = Return (Err e)) -> stage W s p
  | stage_method : permitted W -> scoped (fun s => request_scope s r req) p -> stage W s p
  | stage_body J : permitted W -> lasting J -> J s -> confined (fun s => request_scope s r req) J p -> stage W s p
  | stage_end a : p = Return a -> stage W s p.

Lemma permitted_mono (W W' : authSubject -> Prop) : (forall sub, W sub -> W' sub) -> permitted W -> permitted W'.
Proof. intros HW Hp Hs. destruct (Hp Hs) as (sub & Hsub & Ha). exists sub. auto. Qed.
Lemma stage_mono (W W' : authSubject -> Prop) s s' p : (forall sub, W sub -> W' sub) -> service_ok s' -> lives s s' ->
  stage W s p -> stage W' s' p.
Proof.
  intros HW Hs' Hl [h Hh E|k E H1' H2' H3'|Hp Hsc|J Hp HJ Hj Hc|a E].
  - by eapply stage_enter.
  - by eapply stage_check.
  - apply stage_method; [by eapply permitted_mono|done].
  - eapply stage_body; [by eapply permitted_mono|done|by eapply HJ|done].
  - by eapply stage_end.
Qed.

(** What the step calls, given who was permitted. *)
Definition within (W : authSubject -> Prop) (s s' : Service) : Prop :=
  calls (fun q => permitted W /\ request_scope s r req q) s s'.
Lemma within_none W s s' : calls no_wallet s s' -> within W s s'.
Proof. intros Hc. eapply calls_impl; [|exact Hc]. by intros q. Qed.
Lemma within_scope W s s' : permitted W -> calls (request_scope s r req) s s' -> within W s s'.
Proof. intros Hp Hc. eapply calls_impl; [|exact Hc]. auto. Qed.

Hypothesis (Hnc : r <> BSVMS_CreateWallet) (Hns : r <> BSVMS_RestoreWallet).

(** The first step reads whether access is checked at all. *)
Lemma enter_stage W s h : method_c ctx r = Some h -> AuthEnabled (sv_opts s) = true ->
  exists k, serve_c ctx r h req = Act (gets (fun s => AuthEnabled (sv_opts s))) k /\ stage W s (k (Ok true)).
Proof.
  intros Hh Ha. pose proof (method_scoped ctx r h req Hh Hnc Hns) as Hsc. unfold serve_c, authorize_c.
  eexists. split; [reflexivity|]. cbn [mbind prog_mbind prog_bind act negb].
  assert (isBootstrapMethod (full_method r) = false) as -> by (by destruct r). cbn [mret prog_ret prog_bind].
  destruct (has_suffix (full_method r) "/RefreshToken") eqn:Er.
  - cbn. apply stage_method; [|exact Hsc]. intros Hs. by destruct r.
  - cbn. eapply stage_check; [reflexivity|..]; cbn; [intros sub Hok|intros sub e He|done]; fold msg.
    + by rewrite Hok.
    + by rewrite He.
Qed.

Lemma move_stage i (W : authSubject -> Prop) p p' holder holder' s s' : service_ok s -> AuthEnabled (sv_opts s) = true ->
  (forall sub, access_subject s ctx sub -> W sub) ->
  stage W s p -> move i p holder s = Some (p', holder', s') -> service_ok s' -> lives s s' -> within W s s' /\ stage W s' p'.
Proof.
  intros Hs Ha HW Hst Hm Hs' Hl. destruct Hst as [h Hh ->|k -> Hok Hno Herr|Hp Hsc|J Hp HJ Hj Hc|a ->].
  - destruct (enter_stage W s h Hh Ha) as (k & E & Hst). rewrite E in Hm. cbn in Hm. rewrite Ha in Hm.
    injection Hm as <- <- <-. split; [by apply within_none|done].
  - cbn in Hm. destruct (authSubjectFromContext ctx s) as [[sub|e] s1] eqn:E; injection Hm as <- <- <-.
    + split; [apply within_none; pose proof (calls_subject ctx s) as Hc; by rewrite E in Hc|].
      apply authSubjectFromContext_sound in E as [Hacc Hty].
      destruct (authorize_subject sub (full_method r) msg) as [[]|e] eqn:Eo.
      * apply stage_method; [|by apply Hok]. intros _. exists sub. auto.
      * eapply stage_end, Hno, Eo.
    + split; [apply within_none; pose proof (calls_subject ctx s) as Hc; by rewrite E in Hc|].
      eapply stage_end, Herr.
  - destruct p as [a|k|k|X m k]; cbn in Hm; [done|..].
    + destruct holder; [done|]. injection Hm as <- <- <-. split; [by apply within_none|by apply stage_method].
    + case_bool_decide; [|done]. injection Hm as <- <- <-. split; [by apply within_none|by apply stage_method].
    + destruct (Hsc s Hs) as (Hcs & Hk). destruct (m s) as [x s1]. injection Hm as <- <- <-. split; [by apply within_scope|].
      destruct Hk as [Hk|(J & HJ & Hj & Hk)]; [by apply stage_method|by eapply stage_body].
  - destruct p as [a|k|k|X m k]; cbn in Hm; [done|..].
    + destruct holder; [done|]. injection Hm as <- <- <-. split; [by apply within_none|by eapply stage_body].
    + case_bool_decide; [|done]. injection Hm as <- <- <-. split; [by apply within_none|by eapply stage_body].
    + destruct (Hc s Hs Hj) as [Hcs Hk]. destruct (m s) as [x s1]. injection Hm as <- <- <-.
      split; [by apply within_scope|]. eapply stage_body; [done|done| |exact Hk]. by eapply HJ.
  - done.
Qed.
End stages.
End methods.

(** ** In a pool *)

Section pools.
Context `{Env} `{Mac} `{Hash} `{Aead}.

(** At one of these moments the token in [ctx] was a valid one of [sub]. *)
Definition presented (pls : list pool) (ctx : context) (sub : authSubject) : Prop :=
  exists pl, pl ∈ pls /\ access_subject (p_service pl) ctx sub.
Lemma presented_app past pl ctx sub : presented past ctx sub -> presented (past ++ [pl]) ctx sub.
Proof. intros (e & He & Hs). exists e. split; [|done]. apply elem_of_app. by left. Qed.
Lemma presented_now past pl ctx sub : access_subject (p_service pl) ctx sub -> presented (past ++ [pl]) ctx sub.
Proof. intros Hs. exists pl. split; [|done]. apply elem_of_app. right. by apply list_elem_of_singleton. Qed.

Definition other (c : call) : Prop := c_rpc c <> BSVMS_CreateWallet /\ c_rpc c <> BSVMS_RestoreWallet.
Definition call_stage (past : list pool) (s : Service) (t : thread) : Prop :=
  stage (c_ctx (t_call t)) (c_rpc (t_call t)) (c_req (t_call t)) (presented past (c_ctx (t_call t))) s (t_prog t).

Lemma advance_stage s0 past pl i t pl' : service_ok s0 -> AuthEnabled (sv_opts s0) = true ->
  evolves (idle s0) past pl -> p_threads pl !! i = Some t -> other (t_call t) -> call_stage past (p_service pl) t ->
  advance i pl = Some pl' ->
  within (c_rpc (t_call t)) (c_req (t_call t)) (presented (past ++ [pl]) (c_ctx (t_call t))) (p_service pl) (p_service pl') /\
  exists t', p_threads pl' !! i = Some t' /\ t_call t' = t_call t /\ call_stage (past ++ [pl]) (p_service pl') t'.
Proof.
  intros Hs0 Ha Hev Et [Hc Hs] Hst Hadv.
  pose proof (evolves_ok _ _ _ Hs0 Hev) as Hpl. destruct (pool_service _ _ Hpl) as [Hok [(_ & Eo & _) _ _]].
  destruct (pool_advance _ _ _ _ Hpl Hadv) as [Hs' Hl].
  destruct (advance_inv _ _ _ Hadv) as (t0 & p & holder & s & Et0 & Em & ->). rewrite Et in Et0. injection Et0 as <-.
  cbn in *. destruct (move_stage _ _ _ Hc Hs i (presented (past ++ [pl]) (c_ctx (t_call t))) _ _ _ _ _ _
    Hok ltac:(by rewrite Eo) (presented_now past pl _) ltac:(eapply stage_mono; [apply presented_app|exact Hok|reflexivity|exact Hst]) Em Hs' Hl)
    as [Hw Hst'].
  split; [done|]. exists (MkThread (t_call t) p). rewrite list_lookup_insert_eq by (by eapply lookup_lt_Some). done.
Qed.

Lemma evolves_staged s0 past pl : service_ok s0 -> AuthEnabled (sv_opts s0) = true -> evolves (idle s0) past pl ->
  forall i t, p_threads pl !! i = Some t -> other (t_call t) -> call_stage past (p_service pl) t.
Proof.
  intros Hs0 Ha Hev. induction Hev as [|past pl1 pl2 Hev IH Hst]; [done|]. intros i t Et Ho.
  pose proof (evolves_ok _ _ _ Hs0 Hev) as Hpl. destruct (pool_service _ _ Hpl) as [Hok _].
  assert (service_ok (p_service pl2) /\ lives (p_service pl1) (p_service pl2)) as [Hok2 Hl].
  { destruct Hst as [j Hadv|c (h & _ & ->)%arrive_inv|s Hb%beside_quiet ->]; [by eapply pool_advance|by split|].
    split; [by eapply quiet_ok|by apply quiet_lives]. }
  assert (forall t1, p_threads pl1 !! i = Some t1 -> t1 = t -> call_stage (past ++ [pl1]) (p_service pl2) t) as Hkeep.
  { intros t1 Et1 ->. eapply stage_mono; [apply presented_app|exact Hok2|exact Hl|by eapply IH]. }
  destruct Hst as [j Hadv|c Harr|s Hb ->].
  - destruct (decide (i = j)) as [->|Hne].
    + destruct (advance_inv _ _ _ Hadv) as (t1 & p & holder & s & Et1 & _ & E).
      assert (t_call t1 = t_call t) as Ec.
      { rewrite E in Et. cbn in Et. rewrite list_lookup_insert_eq in Et by (by eapply lookup_lt_Some). by injection Et as <-. }
      destruct (advance_stage s0 past pl1 j t1 pl2 Hs0 Ha Hev Et1) as (_ & t' & Et' & _ & Hst'); [by rewrite Ec| |done|].
      { apply (IH j); [done|by rewrite Ec]. }
      rewrite Et in Et'. by injection Et' as <-.
    + destruct (advance_inv _ _ _ Hadv) as (t1 & p & holder & s & Et1 & _ & E). rewrite E in Et. cbn in Et.
      rewrite list_lookup_insert_ne in Et by done. by eapply Hkeep.
  - destruct (arrive_inv _ _ _ Harr) as (h & Eh & E). rewrite E in Et. cbn in Et.
    apply lookup_app_Some in Et as [Et|[_ Et]]; [by eapply Hkeep|].
    apply list_lookup_singleton_Some in Et as [_ <-]. by eapply stage_enter.
  - by eapply Hkeep.
Qed.

Lemma service_ids s : service_ok s -> ids_ok s.
Proof. intros Hs. eapply Forall_impl; [apply (so_records _ Hs)|]. by intros m [It Iw _ _ _]. Qed.

(** What a permitted call may reach is what its token names. *)
Lemma permitted_scope s r req W q : service_ok s -> permitted r req W -> request_scope s r req q ->
  exists sub, W sub /\ (acts_on s (sub_TenantID sub) (sub_WalletID sub) q \/
    r = BSVMS_ListWallets /\ owned_by s (sub_TenantID sub) q).
Proof.
  intros Hs Hp. unfold request_scope, permitted in *.
  destruct (tenantWalletFromRequest (Some (rpc_reflect r req))) as [[t w] [|]] eqn:Et; [|done].
  destruct (Hp eq_refl) as (sub & Hsub & Hty & Ha). apply authorize_subject_ok in Ha; [|done].
  destruct Ha as [Hm|[[Hn _]|(t' & w' & E & Hne & -> & Hw)]].
  - by rewrite rpc_is_bsvms in Hm.
  - by rewrite Et in Hn.
  - rewrite Et in E. injection E as -> ->. case_bool_decide as Hl; intros Hq; exists sub; (split; [done|]); [by right|].
    left. destruct Hw as [->| <-]; [|done]. by destruct (acts_on_empty s _ q (so_registry _ Hs) (service_ids s Hs) Hq).
Qed.
End pools.
