(* ===== verification/ConcRescan.v ===== *)
(** * Taking a wallet's flag and giving it back

    [tw.rescanning], for one call among others: [duly] says of a program that it
    takes a flag, starts a walk only on the wallet whose flag it has, and gives the
    flag back before it returns. Rescan does; the other methods leave the flags
    alone and start no walk ([flagless]). ConcOwner has the pool. *)

From S2P Require Import Prelude GoStrings GoTime Encoding Crypto Proto Broker Sdk Ids World Encryption Options.
From S2P Require Import Service Auth AuthSpec Registry RegistrySpec Handlers HandlersSpec Rescan Lifecycle RegistryAbs Disk.
From S2P Require Import Launch ErrorTypes Conc ConcSpec ConcBeside ConcLogic ConcAdd ConcLin ConcPool ConcOrder ConcIso.

(** ** Steps that leave the flags alone *)

Definition flag (s : Service) (l : loc) : bool :=
  match sv_heap s !! l with Some tw => tw_rescanning tw | None => false end.

(** Walks are started only on wallets in [P]. *)
Definition walk_in (P : wallet_ptr -> Prop) (c : ext_call) : Prop :=
  match c with WalletCall q (WRescanFromHash _ _ _) => P q | _ => True end.
Definition walks (P : wallet_ptr -> Prop) (s s' : Service) : Prop := extends (walk_in P) (sv_world s) (sv_world s').
#[export] Instance walks_preorder P : PreOrder (walks P).
Proof. split; [by intros s; unfold walks|]. intros s1 s2 s3. unfold walks. by apply transitivity. Qed.
Lemma walks_impl (P Q : wallet_ptr -> Prop) s s' : (forall q, P q -> Q q) -> walks P s s' -> walks Q s s'.
Proof. intros HPQ. apply extends_impl. intros [q []| |]; cbn; auto. Qed.
Lemma calls_walks P s s' : calls no_wallet s s' -> walks P s s'.
Proof. apply extends_impl. by intros []. Qed.

Definition still (s s' : Service) : Prop := (forall l, flag s' l = flag s l) /\ walks no_wallet s s'.
#[export] Instance still_preorder : PreOrder still.
Proof.
  split; [by intros s; split|]. intros s1 s2 s3 [F1 W1] [F2 W2]. split; [|by etransitivity].
  intros l. by rewrite F2.
Qed.
Lemma flag_around s s' : around s s' -> forall l, flag s' l = flag s l.
Proof. intros -> l. done. Qed.
Definition is_walk (c : wallet_call) : bool := match c with WRescanFromHash _ _ _ => true | _ => false end.

Section still.
Context `{Env} `{Mac} `{Hash} `{Aead}.

Lemma unshared_only_world {A} (m : M Service A) : unshared m -> moves only_world m.
Proof. intros [Hm _] s. by apply Hm. Qed.
Lemma still_free {A} (m : M Service A) : moves only_world m -> moves (calls no_wallet) m -> moves still m.
Proof. intros Ho Hc s. split; [by apply flag_around, only_world_around|by apply calls_walks]. Qed.
Lemma still_log (c : ext_call) s : walk_in no_wallet c -> still s (set_world (log c (sv_world s)) s).
Proof. intros Hc. split; [done|]. by apply extends_log. Qed.
Lemma still_wallet q c : is_walk c = false -> moves still (W (wallet_call_ q c)).
Proof. intros Hc s. apply still_log. by destruct c. Qed.
Lemma still_node c : moves still (W (node c)).
Proof. intros s. apply still_log; exact I. Qed.
Lemma still_host c : moves still (W (host c)).
Proof. intros s. apply still_log; exact I. Qed.
Lemma still_deref l : moves still (deref l).
Proof. apply moves_deref. typeclasses eauto. Qed.
Lemma still_gets {A} (f : Service -> A) : moves still (gets f).
Proof. by intros s. Qed.
Lemma still_wcall l c : is_walk c = false -> moves still (wcall l c).
Proof. intros Hc. apply moves_bind; [typeclasses eauto|apply still_deref|]. intros tw. by apply still_wallet. Qed.
(** File steps call the host only. *)
Lemma still_W {A} (m : M world A) : moves (extends (walk_in no_wallet)) m -> moves still (W m).
Proof.
  intros Hm s. split; [by apply flag_around, only_world_around, moves_W|]. unfold W, zoom, walks.
  specialize (Hm (sv_world s)). by destruct (m (sv_world s)).
Qed.
Lemma host_walkless c : moves (extends (walk_in no_wallet)) (World.call (HostCall c)).
Proof. apply moves_call. exact I. Qed.
Lemma still_write p d perm : moves still (W (os_write_file p d perm)).
Proof. apply still_W. unfold os_write_file, host. moves_tac; exact (host_walkless _). Qed.
Lemma still_rename p p' : moves still (W (os_rename p p')).
Proof. apply still_W. unfold os_rename, host. moves_tac; exact (host_walkless _). Qed.
Lemma still_modify f : (forall s l, flag (f s) l = flag s l) -> (forall s, sv_world (f s) = sv_world s) -> moves still (modify f).
Proof. intros Hf Hw s. split; [apply Hf|]. unfold walks. cbn. by rewrite Hw. Qed.
Lemma flag_append tw s : tw_rescanning tw = false -> forall l, flag (set_heap (fun h => h ++ [tw]) s) l = flag s l.
Proof.
  intros Htw l. unfold flag. cbn. destruct (decide (l < length (sv_heap s))) as [Hl|Hl].
  - by rewrite lookup_app_l.
  - rewrite lookup_app_r, (lookup_ge_None_2 (sv_heap s)) by lia. destruct (l - length (sv_heap s)) as [|n]; [done|by destruct n].
Qed.
Lemma still_enter m w st : moves still (enter m w st).
Proof.
  assert (forall l, moves still (registerWalletEvents l)) as Hr.
  { intros l. pose proof (still_wcall l). unfold registerWalletEvents. moves_tac; auto. }
  assert (forall f, moves still (modify (set_wallets f))) as Hw by (intros f; by apply still_modify).
  assert (forall f, moves still (modify (set_state f))) as Hs by (intros f; by apply still_modify).
  assert (forall tw, tw_rescanning tw = false -> moves still (modify (set_heap (fun h => h ++ [tw])))) as Hh.
  { intros tw Htw. apply still_modify; [|done]. intros s. by apply flag_append. }
  unfold enter, alloc. moves_tac; auto.
Qed.
End still.

(** ** Programs that leave the flags alone *)

Fixpoint flagless {A} (p : prog A) : Prop :=
  match p with
  | Return _ => True
  | Acquire k | Release k => flagless k
  | Act m k => moves still m /\ forall r, flagless (k r)
  end.

Section flagless.
Context `{Env} `{Mac} `{Hash} `{Aead}.

Lemma flagless_bind {A B} (p : prog A) (f : A -> prog B) : flagless p -> (forall a, flagless (f a)) -> flagless (p ≫= f).
Proof.
  intros Hp Hf. induction p as [[a|e]|k IH|k IH|X m k IH]; cbn in *; auto.
  destruct Hp as [Hm Hk]. split; [done|]. intros r. by apply IH.
Qed.
Lemma flagless_map {A B} (f : result A -> result B) (p : prog A) : flagless p -> flagless (prog_map f p).
Proof. induction p as [r|k IH|k IH|X m k IH]; cbn; auto. intros [Hm Hk]. split; [done|]. intros r. by apply IH. Qed.
Lemma flagless_locked {A} (p : prog A) : flagless p -> flagless (locked p).
Proof. cbn. induction p as [r|k IH|k IH|X m k IH]; cbn; auto. intros [Hm Hk]. split; [done|]. intros r. by apply IH. Qed.
Lemma flagless_act {A} (m : M Service A) : moves still m -> flagless (act m).
Proof. by split. Qed.
Lemma flagless_ret {A} (a : A) : flagless (mret a).
Proof. done. Qed.
Lemma flagless_fail {A} e : flagless (fail e : prog A).
Proof. done. Qed.
Lemma flagless_return {A} (r : result A) : flagless (Return r).
Proof. done. Qed.
Lemma flagless_or_status {A} f (p : prog (result A)) : flagless p -> flagless (or_status f p).
Proof. intros Hp. by apply flagless_map, flagless_bind. Qed.
Lemma flagless_probe p : flagless p -> flagless (probe_c p).
Proof. intros Hp. apply flagless_bind; [done|]. intros [b|e]; [done|]. by case_match. Qed.
End flagless.

Create HintDb flagless discriminated.
#[export] Hint Resolve flagless_bind flagless_act flagless_ret flagless_fail flagless_return flagless_or_status
  flagless_probe flagless_locked still_gets still_deref : flagless.
#[export] Hint Extern 2 (moves _ _) => apply still_free; by moves_tac : flagless.
Ltac flagless_call :=
  match goal with
  | |- flagless (@through _ ?l ?c) => exact (flagless_act (wcall l c) (still_wcall l c eq_refl))
  | |- flagless (@sdk _ ?q ?c) => exact (flagless_act (W (wallet_call_ q c)) (still_wallet q c eq_refl))
  | |- flagless (@on_node _ ?c) => exact (flagless_act (W (node c)) (still_node c))
  | |- flagless (act (W (@host _ ?c))) => exact (flagless_act (W (host c)) (still_host c))
  | |- flagless (prog_error _ _) => apply flagless_map
  | |- flagless (prog_try _) => apply flagless_map
  end.
#[export] Hint Extern 1 (flagless _) => flagless_call : flagless.
Ltac flagless_tac :=
  repeat first [ solve [auto 3 with flagless]
               | apply flagless_bind; [by auto with flagless | intros ?] | case_match
               | apply flagless_bind; [|intros ?] ];
  auto with flagless.

Ltac still_unshared := apply still_free; [apply unshared_only_world; by auto with unshared|by moves_tac].
#[export] Hint Extern 3 (moves still _) => still_unshared : flagless.

Section methods.
Context `{Env} `{Mac} `{Hash} `{Aead}.

Lemma flagless_wallet t w : flagless (wallet_c t w).
Proof. unfold wallet_c. flagless_tac. Qed.
Lemma flagless_snapshot_locked l : flagless (saveSnapshotLocked_c l).
Proof. unfold saveSnapshotLocked_c. flagless_tac. Qed.
Lemma flagless_snapshot l : flagless (saveSnapshot_c l).
Proof. pose proof (flagless_snapshot_locked l). apply flagless_locked. flagless_tac. Qed.
Lemma flagless_proto l : flagless (walletProtoLocked_c l).
Proof.
  assert (flagless (walletAddresses_c l)) by (unfold walletAddresses_c; flagless_tac).
  unfold walletProtoLocked_c. flagless_tac.
Qed.
Hint Resolve flagless_wallet flagless_snapshot flagless_proto : flagless.
Lemma flagless_list t : flagless (list_locked t).
Proof.
  assert (forall ws keys, flagless (wallet_protos_c ws keys))
    by (intros ws keys; induction keys; cbn [wallet_protos_c]; flagless_tac).
  unfold list_locked. flagless_tac.
Qed.
Lemma still_seal key p : moves still (W (sealString key p)).
Proof. apply still_W. unfold sealString, rand_read, host. moves_tac; exact (host_walkless _). Qed.
Lemma still_newWalletMeta t w n mn pp : moves still (newWalletMeta t w n mn pp).
Proof. pose proof still_seal. unfold newWalletMeta. moves_tac. Qed.
Lemma still_issueTokens t w : moves still (issueTokens t w).
Proof. apply still_free; [apply issueTokens_only_world|apply calls_issueTokens]. Qed.
Hint Resolve still_newWalletMeta still_issueTokens : flagless.
Lemma still_tokens m : moves still (tokensForWallet m).
Proof. pose proof still_issueTokens. unfold tokensForWallet. moves_tac. Qed.
Lemma flagless_add m q : flagless (add_wallet m q).
Proof.
  assert (flagless (openStore_c m q)) by (unfold openStore_c; flagless_tac).
  assert (flagless saveStateLocked_c).
  { pose proof still_write. pose proof still_rename. unfold saveStateLocked_c. flagless_tac. }
  pose proof (still_enter m q). pose proof still_tokens. pose proof flagless_snapshot_locked.
  unfold add_wallet. flagless_tac.
Qed.
Hint Resolve flagless_add flagless_list : flagless.
Lemma still_validateJWT token typ : moves still (validateJWT token typ).
Proof. apply still_free; [by apply unshared_only_world, unshared_validateJWT|apply calls_validateJWT]. Qed.
Lemma flagless_create req : flagless (create_locked req).
Proof. unfold create_locked. cbv zeta. flagless_tac. Qed.
Lemma flagless_restore req : flagless (restore_locked req).
Proof. unfold restore_locked. cbv zeta. flagless_tac. Qed.
Hint Resolve still_validateJWT flagless_create flagless_restore : flagless.
Lemma flagless_unary r p req : unary_c r = Some p -> flagless (p req).
Proof.
  intros Hp. destruct r; injection Hp as <- || discriminate Hp;
    match goal with |- flagless ?p => unfold_head p end; cbv zeta; flagless_tac.
Qed.
Lemma flagless_authorize ctx method req : flagless (authorize_c ctx method req).
Proof.
  assert (flagless (bootstrapAllowed_c req)).
  { unfold bootstrapAllowed_c. destruct (tenantWalletFromRequest req) as [[t w] b]. flagless_tac. }
  assert (moves still (authSubjectFromContext ctx))
    by (apply still_free; [by apply unshared_only_world, unshared_subject|apply calls_subject]).
  unfold authorize_c. flagless_tac.
Qed.
End methods.

(** ** Taking a flag and giving it back *)

(** [h] is the wallet whose flag the call has. *)
Inductive flag_step (h : option loc) (s : Service) (h' : option loc) (s' : Service) : Prop :=
  | flag_keep : h' = h -> (forall l, flag s' l = flag s l) -> flag_step h s h' s'
  | flag_take l : h = None -> h' = Some l -> flag s l = false ->
      (forall l', flag s' l' = if decide (l' = l) then true else flag s l') -> flag_step h s h' s'
  | flag_drop l : h = Some l -> h' = None ->
      (forall l', flag s' l' = if decide (l' = l) then false else flag s l') -> flag_step h s h' s'.
(** The wallet it may walk. *)
Definition to_walk (s : Service) (h : option loc) (q : wallet_ptr) : Prop :=
  exists l tw, h = Some l /\ sv_heap s !! l = Some tw /\ tw_w tw = q.

(** From [h] the program gets to [e]; [J] is what it knows of the service. *)
Fixpoint duly `{Aead} (J : Service -> Prop) {A} (e h : option loc) (p : prog A) : Prop :=
  match p with
  | Return _ => h = e
  | Acquire k | Release k => duly J e h k
  | Act m k => forall s, service_ok s -> J s -> exists h',
      flag_step h s h' (snd (m s)) /\ walks (to_walk s h) s (snd (m s)) /\ duly J e h' (k (fst (m s)))
  end.
(** A program that has no flag yet, and may still learn something that lasts. *)
Fixpoint duly_later `{Aead} {A} (p : prog A) : Prop :=
  match p with
  | Return _ => True
  | Acquire k | Release k => duly_later k
  | Act m k => forall s, service_ok s -> still s (snd (m s)) /\
      (duly_later (k (fst (m s))) \/ exists J, lasting J /\ J (snd (m s)) /\ duly J None None (k (fst (m s))))
  end.

Section duly.
Context `{Env} `{Mac} `{Hash} `{Aead} (J : Service -> Prop).

Lemma still_step h s s' : still s s' -> flag_step h s h s' /\ walks (to_walk s h) s s'.
Proof. intros [Hf Hw]. split; [by apply flag_keep|]. eapply walks_impl; [|exact Hw]. by intros q. Qed.
Lemma duly_flagless {A} h (p : prog A) : flagless p -> duly J h h p.
Proof.
  induction p as [r|k IH|k IH|X m k IH]; cbn; auto. intros [Hm Hk] s _ _. destruct (still_step h s _ (Hm s)).
  exists h. auto.
Qed.
Lemma duly_bind {A B} e (p : prog A) (f : A -> prog B) : forall h,
  duly J e h p -> (forall a, duly J e e (f a)) -> duly J e h (p ≫= f).
Proof.
  induction p as [[a|err]|k IH|k IH|X m k IH]; intros h Hp Hf; cbn in *; [by subst|done|by apply IH..|].
  intros s Hs Hj. destruct (Hp s Hs Hj) as (h' & Hst & Hw & Hk). exists h'. split; [done|]. split; [done|]. by apply IH.
Qed.
(** What comes after comes after an error, too. *)
Lemma duly_try {A B} b e (p : prog A) (f : result A -> prog B) : forall h,
  duly J b h p -> (forall r, duly J e b (f r)) -> duly J e h (prog_try p ≫= f).
Proof.
  induction p as [r|k IH|k IH|X m k IH]; intros h Hp Hf; cbn in *; [by subst|by apply IH..|].
  intros s Hs Hj. destruct (Hp s Hs Hj) as (h' & Hst & Hw & Hk). exists h'. split; [done|]. split; [done|]. by apply IH.
Qed.

Lemma flag_alter l b s tw : sv_heap s !! l = Some tw ->
  forall l', flag (set_heap (alter (set_rescanning b) l) s) l' = if decide (l' = l) then b else flag s l'.
Proof.
  intros Hl l'. unfold flag. cbn. case_decide as E; [subst; by rewrite list_lookup_alter_eq, Hl|].
  by rewrite list_lookup_alter_ne.
Qed.
Lemma duly_rescan l body : (forall s, J s -> is_Some (sv_heap s !! l)) ->
  duly J (Some l) (Some l) body -> duly J None None (rescan_c l body).
Proof.
  intros Hl Hb. unfold rescan_c. cbn [locked act then_release mbind prog_mbind prog_bind duly].
  intros s Hs Hj. destruct (beginRescan_run l s) as (b & s1 & -> & Hrun). cbn [fst snd]. destruct b.
  - destruct Hrun as (tw & Htw & Hf & ->). exists (Some l). split; [|split; [unfold walks; cbn; reflexivity|]].
    { apply (flag_take _ _ _ _ l); [done|done|unfold flag; by rewrite Htw|by apply (flag_alter l true s tw)]. }
    cbn [negb prog_bind]. apply (duly_try (Some l)); [done|]. intros r. cbn [locked act then_release mbind prog_mbind prog_bind duly].
    intros s2 Hs2 Hj2. exists None. destruct (Hl s2 Hj2) as [tw2 Htw2]. split; [|split; [unfold walks; cbn; reflexivity|done]].
    apply (flag_drop _ _ _ _ l); [done|done|by apply (flag_alter l false s2 tw2)].
  - subst s1. exists None. split; [by apply flag_keep|]. split; [reflexivity|done].
Qed.
End duly.

Section methods.
Context `{Env} `{Mac} `{Hash} `{Aead}.

Lemma duly_later_flagless {A} (p : prog A) : flagless p -> duly_later p.
Proof. induction p as [r|k IH|k IH|X m k IH]; cbn; auto. intros [Hm Hk] s _. auto. Qed.
Lemma duly_later_after {A B} (p : prog A) (f : A -> prog B) :
  flagless p -> (forall a, duly_later (f a)) -> duly_later (p ≫= f).
Proof.
  intros Hp Hf. induction p as [[a|e]|k IH|k IH|X m k IH]; cbn in *; auto. destruct Hp as [Hm Hk]. intros s _.
  split; [done|]. left. by apply IH.
Qed.
Lemma duly_later_wallet {A} t w (f : loc * wallet_ptr -> prog A) :
  (forall l q, duly (found t w l q) None None (f (l, q))) -> duly_later (wallet_c t w ≫= f).
Proof.
  intros Hf. unfold wallet_c. destruct (validateTenantWallet t w) as [[]|e]; [|done].
  intros s Hs. unfold find_wallet, gets, mbind, M_bind. fold (lookup_wallet s t w).
  destruct (lookup_wallet s t w) as [l|] eqn:El.
  - destruct (reg_ptr _ (so_registry _ Hs) _ _ El) as (tw & Htw & _).
    rewrite (proj2 (deref_ok l s tw s)) by done. cbn. split; [reflexivity|].
    right. exists (found t w l (tw_w tw)). split; [apply lasting_found|]. split; [by exists tw|]. apply Hf.
  - split; [reflexivity|]. by left.
Qed.

Lemma flagless_walk l every evs : forall sent, flagless (walk_c l every sent evs).
Proof.
  assert (forall ev, flagless (stream_send ev)) by (intros ev; apply flagless_act, still_host).
  pose proof (flagless_snapshot l). induction evs as [|[p|] evs IH]; intros sent; cbn [walk_c]; flagless_tac.
Qed.
Lemma duly_body t w l q hash req : duly (found t w l q) (Some l) (Some l) (rescan_body_c l q hash req).
Proof.
  assert (forall ev, flagless (stream_send ev)) by (intros ev; apply flagless_act, still_host).
  pose proof (flagless_walk l (checkpointEvery req)). unfold rescan_body_c.
  apply duly_bind; [|intros [evs st]; apply duly_flagless; flagless_tac].
  intros s Hs (tw & _ & Htw & ->). exists (Some l). split; [by apply flag_keep|]. split; [|done].
  apply extends_log. by exists l, tw.
Qed.
Lemma duly_Rescan ctx req : duly_later (Rescan_c ctx req).
Proof.
  unfold Rescan_c. apply duly_later_after; [apply flagless_authorize|]. intros _. apply duly_later_wallet. intros l q.
  case_match; [done|]. apply duly_bind; [apply duly_flagless; flagless_tac|]. intros h. apply duly_rescan; [|apply duly_body].
  intros s (tw & _ & Htw & _). by exists tw.
Qed.
Lemma duly_method ctx r p req : method_c ctx r = Some p -> duly_later (p req).
Proof.
  destruct r; try (intros Hp; apply duly_later_flagless; exact (flagless_unary _ p req Hp)).
  intros [= <-]. apply duly_Rescan.
Qed.
Lemma duly_serve ctx r p req : method_c ctx r = Some p -> duly_later (serve_c ctx r p req).
Proof. intros Hp. apply duly_later_after; [apply flagless_authorize|]. intros _. by eapply duly_method. Qed.
End methods.
