(* ===== verification/ConcOwner.v ===== *)
(** * Who rescans a wallet

    The owner of a wallet's flag is the call that set it, read off the history of
    the pool: [owned] says that a flag is set exactly while it has an owner, that the
    owner is a call under way with no other flag, and that every call still takes
    and gives back its flag duly. Every interleaving keeps it. *)

From S2P Require Import Prelude GoStrings GoTime Encoding Crypto Proto Broker Sdk Ids World Encryption Options.
From S2P Require Import Service Auth AuthSpec Registry RegistrySpec Handlers HandlersSpec Rescan Lifecycle RegistryAbs Disk.
From S2P Require Import Launch ErrorTypes Conc ConcSpec ConcBeside ConcLogic ConcAdd ConcLin ConcPool ConcOrder ConcIso ConcRescan.

(** ** The owner of a flag *)

(** A flag moves only at a step of the call that holds [s.mu]. *)
Definition owner_step (pl pl' : pool) (own : loc -> option nat) (l : loc) : option nat :=
  if flag (p_service pl') l then if flag (p_service pl) l then own l else p_holder pl' else None.
Fixpoint owner_after (own : loc -> option nat) (pl : pool) (later : list pool) : loc -> option nat :=
  match later with
  | [] => own
  | pl' :: later => owner_after (owner_step pl pl' own) pl' later
  end.
(** The call that set the flag of [l], when it is set, after a run through [pls]. *)
Definition owner (pls : list pool) : loc -> option nat :=
  match pls with [] => fun _ => None | pl :: later => owner_after (fun _ => None) pl later end.
Lemma owner_snoc past pl pl' : owner ((past ++ [pl]) ++ [pl']) = owner_step pl pl' (owner (past ++ [pl])).
Proof.
  assert (forall later own pl0, owner_after own pl0 (later ++ [pl; pl']) = owner_step pl pl' (owner_after own pl0 (later ++ [pl]))) as Ha.
  { intros later. induction later as [|pl1 later IH]; intros own pl0; cbn; [done|apply IH]. }
  rewrite <- app_assoc. cbn [app]. destruct past as [|pl0 past]; [done|]. apply Ha.
Qed.

Definition has_flag (own : loc -> option nat) (i : nat) (h : option loc) : Prop := forall l, own l = Some i <-> h = Some l.
Definition on_track `{Aead} {A} (h : option loc) (p : prog A) (s : Service) : Prop :=
  h = None /\ duly_later p \/ exists J, lasting J /\ J s /\ duly J None h p.

Section owners.
Context `{Env} `{Mac} `{Hash} `{Aead}.

Record owned (pl : pool) (own : loc -> option nat) : Prop := {
  ow_flag l : flag (p_service pl) l = true <-> is_Some (own l);
  ow_one l l' i : own l = Some i -> own l' = Some i -> l = l';
  ow_call l i : own l = Some i -> i < length (p_threads pl);
  ow_track i t h : p_threads pl !! i = Some t -> has_flag own i h -> on_track h (t_prog t) (p_service pl);
}.

Lemma on_track_lives {A} h (p : prog A) s s' : service_ok s' -> lives s s' -> on_track h p s -> on_track h p s'.
Proof. intros Hs Hl [?|(J & HJ & Hj & Hp)]; [by left|right]. exists J. split; [done|]. split; [by eapply HJ|done]. Qed.
(** One step of one program. *)
Lemma move_track {A} i (p p' : prog A) holder holder' s s' h : service_ok s -> service_ok s' -> lives s s' ->
  on_track h p s -> move i p holder s = Some (p', holder', s') ->
  exists h', flag_step h s h' s' /\ walks (to_walk s h) s s' /\ on_track h' p' s'.
Proof.
  intros Hs Hs' Hl Hp Hm. destruct p as [x|k|k|X m k]; cbn in Hm; [done|..].
  - destruct holder; [done|]. injection Hm as <- <- <-. exists h. split; [by apply flag_keep|]. by split.
  - case_bool_decide; [|done]. injection Hm as <- <- <-. exists h. split; [by apply flag_keep|]. by split.
  - destruct Hp as [[-> Hp]|(J & HJ & Hj & Hp)].
    + destruct (Hp s Hs) as [Hst Hk]. destruct (m s) as [x s1]. injection Hm as <- <- <-. cbn in *.
      destruct (still_step None s s1 Hst). exists None. split; [done|]. split; [done|].
      destruct Hk as [Hk|(J & HJ & Hj & Hk)]; [by left|right]. by exists J.
    + destruct (Hp s Hs Hj) as (h' & Hst & Hw & Hk). destruct (m s) as [x s1]. injection Hm as <- <- <-. cbn in *.
      exists h'. split; [done|]. split; [done|]. right. exists J. split; [done|]. split; [by eapply HJ|done].
Qed.

Lemma owned_ext pl own own' : (forall l, own' l = own l) -> owned pl own -> owned pl own'.
Proof.
  intros E [Hf Hone Hc Ht]. split; intros *; rewrite ?E; [apply Hf|apply Hone|apply Hc|].
  intros Et Hh. apply (Ht i t h Et). intros l. by rewrite <- E.
Qed.
Lemma unflagged pl own l : owned pl own -> (if flag (p_service pl) l then own l else None) = own l.
Proof.
  intros Ho. destruct (flag (p_service pl) l) eqn:Ef; [done|]. destruct (own l) eqn:Eo; [|done].
  assert (flag (p_service pl) l = true) by (apply (ow_flag _ _ Ho); by exists n). congruence.
Qed.
Lemma owner_step_same pl pl' own : owned pl own -> (forall l, flag (p_service pl') l = flag (p_service pl) l) ->
  forall l, owner_step pl pl' own l = own l.
Proof.
  intros Ho E l. unfold owner_step. rewrite E. pose proof (unflagged pl own l Ho). by destruct (flag (p_service pl) l).
Qed.
Lemma owned_total pl own i : owned pl own -> exists h, has_flag own i h.
Proof.
  intros Ho. destruct (decide (Exists (fun l => own l = Some i) (seq 0 (length (sv_heap (p_service pl)))))) as [Hx|Hx].
  - apply Exists_exists in Hx as (l & _ & Hl). exists (Some l). intros l'. split; [|by intros [= <-]].
    intros Hl'. f_equal. by eapply ow_one.
  - exists None. intros l. split; [|done]. intros Hl. exfalso. apply Hx, Exists_exists. exists l. split; [|done]. apply elem_of_seq.
    assert (flag (p_service pl) l = true) as Hf by (apply (ow_flag _ _ Ho); by exists i). unfold flag in Hf.
    destruct (sv_heap (p_service pl) !! l) eqn:El; [|done]. apply lookup_lt_Some in El. lia.
Qed.

Lemma owned_idle s : (forall l, flag s l = false) -> owned (idle s) (fun _ => None).
Proof. intros Hf. split; cbn; [|done..]. intros l. rewrite Hf. split; [done|by intros []]. Qed.
Lemma owned_keep pl s threads own : owned pl own -> (forall l, flag s l = flag (p_service pl) l) ->
  length (p_threads pl) <= length threads ->
  (forall i t h, threads !! i = Some t -> has_flag own i h -> on_track h (t_prog t) s) ->
  forall holder, owned (MkPool s holder threads) (owner_step pl (MkPool s holder threads) own).
Proof.
  intros Ho E Hlen Ht holder. apply (owned_ext _ own); [by apply owner_step_same|]. split; cbn.
  - intros l. rewrite E. apply Ho.
  - apply Ho.
  - intros l i Hl. pose proof (ow_call _ _ Ho _ _ Hl). lia.
  - done.
Qed.
Lemma owned_arrive s0 pl pl' c own : pool_ok s0 pl -> owned pl own -> arrive c pl = Some pl' -> owned pl' (owner_step pl pl' own).
Proof.
  intros Hok Ho (h & Eh & ->)%arrive_inv. apply owned_keep; [done|done|rewrite length_app; lia|].
  intros i t h' [Et|[Hi Et]]%lookup_app_Some Hh; [by eapply ow_track|].
  apply list_lookup_singleton_Some in Et as [Ei <-]. left. split; [|by eapply duly_serve].
  destruct h' as [l|]; [|done]. pose proof (ow_call _ _ Ho _ _ (proj2 (Hh l) eq_refl)). lia.
Qed.
Lemma owned_beside pl s own : service_ok (p_service pl) -> owned pl own -> quiet (p_service pl) s ->
  let pl' := MkPool s (p_holder pl) (p_threads pl) in owned pl' (owner_step pl pl' own).
Proof.
  intros Hs Ho Hq pl'. apply owned_keep; [done|by apply flag_around, Hq|done|]. intros i t h Et Hh.
  apply (on_track_lives h (t_prog t) (p_service pl)); [by eapply quiet_ok|by apply quiet_lives|by apply (ow_track _ _ Ho i)].
Qed.

(** A step of call [i], and the owners after it. *)
Lemma owned_move pl i t p holder s own own' h' : owned pl own -> p_threads pl !! i = Some t ->
  service_ok s -> lives (p_service pl) s -> on_track h' p s -> has_flag own' i h' ->
  (forall l, flag s l = true <-> is_Some (own' l)) -> (forall j l, j <> i -> own' l = Some j <-> own l = Some j) ->
  owned (MkPool s holder (<[i := MkThread (t_call t) p]> (p_threads pl))) own'.
Proof.
  intros Ho Et Hs Hl Hp Hh Hf Hother. pose proof (lookup_lt_Some _ _ _ Et) as Hi. split; cbn.
  - done.
  - intros l l' j H1' H2'. destruct (decide (j = i)) as [->|Hne].
    + apply Hh in H1', H2'. congruence.
    + apply Hother in H1', H2'; [|done..]. by eapply ow_one.
  - intros l j Hj. rewrite length_insert. destruct (decide (j = i)) as [->|Hne]; [done|].
    apply Hother in Hj; [|done]. by eapply ow_call.
  - intros j tj hj Ej Hj. destruct (decide (j = i)) as [->|Hne].
    + rewrite list_lookup_insert_eq in Ej by done. injection Ej as <-. cbn.
      assert (hj = h') as ->; [|done]. destruct hj as [l|]; [by symmetry; apply Hh, Hj|].
      destruct h' as [l|]; [|done]. by apply Hj, Hh.
    + rewrite list_lookup_insert_ne in Ej by done.
      apply (on_track_lives hj (t_prog tj) (p_service pl)); [done|done|]. apply (ow_track _ _ Ho j); [done|].
      intros l. rewrite <- Hother by done. apply Hj.
Qed.
Lemma move_service {A} i (p p' : prog A) holder holder' s s' : move i p holder s = Some (p', holder', s') ->
  s' = s \/ holder' = holder.
Proof.
  destruct p as [x|k|k|X m k]; cbn; [done|..].
  - destruct holder; [done|]. intros [= _ _ <-]. by left.
  - case_bool_decide; [|done]. intros [= _ _ <-]. by left.
  - destruct (m s). intros [= _ <- _]. by right.
Qed.
Lemma owned_advance s0 i pl pl' own : pool_ok s0 pl -> owned pl own -> advance i pl = Some pl' ->
  owned pl' (owner_step pl pl' own) /\
  walks (fun q => exists l tw, own l = Some i /\ sv_heap (p_service pl) !! l = Some tw /\ tw_w tw = q) (p_service pl) (p_service pl') /\
  forall l j, own l = Some j -> j <> i -> owner_step pl pl' own l = Some j.
Proof.
  intros Hok Ho Ha. destruct (pool_service _ _ Hok) as [Hs _]. destruct (pool_advance _ _ _ _ Hok Ha) as [Hs' Hl].
  assert (forall l, flag (p_service pl') l <> flag (p_service pl) l -> p_holder pl' = Some i) as Hholder.
  { intros l Hne. destruct (decide (p_holder pl = Some i)) as [Hh|Hh].
    - destruct (advance_inv _ _ _ Ha) as (t & p & holder & s & _ & Em & ->). cbn in *.
      destruct (move_service _ _ _ _ _ _ _ Em) as [->| ->]; [done|exact Hh].
    - destruct (advance_unlocked _ _ _ _ Hok Hh Ha) as [[Hw _] _]. destruct Hne. by apply flag_around, only_world_around. }
  destruct (advance_inv _ _ _ Ha) as (t & p & holder & s & Et & Em & ->). cbn in *.
  destruct (owned_total pl own i Ho) as [h Hh]. pose proof (ow_track _ _ Ho i t h Et Hh) as Hp.
  destruct (move_track _ _ _ _ _ _ _ _ Hs Hs' Hl Hp Em) as (h' & Hst & Hw & Hp').
  assert (forall l, own l <> None -> h <> Some l -> flag s l = flag (p_service pl) l) as Hkeep.
  { intros l Hl1 Hl2. destruct Hst as [_ Hf|l' -> _ Hn Hf|l' -> _ Hf]; rewrite Hf; [done|..]; case_decide; try congruence.
    subst l'. destruct (own l) eqn:Eo; [|done]. symmetry. apply (ow_flag _ _ Ho). by exists n. }
  split; [|split].
  2: { eapply walks_impl; [|exact Hw]. intros q (l & tw & -> & Htw). exists l, tw. by split; [apply Hh|]. }
  2: { intros l j Hj Hne. pose proof (unflagged pl own l Ho) as Hu. unfold owner_step. cbn. rewrite Hkeep; [|congruence|].
       - destruct (flag (p_service pl) l); congruence.
       - intros ->. assert (own l = Some i) by (by apply Hh). congruence. }
  destruct Hst as [-> Hf|l -> -> Hn Hf|l -> -> Hf].
  - apply (owned_ext _ own); [by apply owner_step_same|]. eapply owned_move; [done..| |done].
    intros l. rewrite Hf. apply Ho.
  - assert (holder = Some i) as -> by (apply (Hholder l); rewrite Hf, decide_True by done; congruence).
    apply (owned_ext _ (fun l' => if decide (l' = l) then Some i else own l')).
    { intros l'. unfold owner_step. cbn. rewrite Hf. case_decide; [subst; by rewrite Hn|].
      pose proof (unflagged pl own l' Ho). by destruct (flag (p_service pl) l'). }
    eapply owned_move; [done..| | |].
    + intros l'. case_decide; [by subst|]. rewrite (Hh l'). split; [done|congruence].
    + intros l'. rewrite Hf. case_decide; [|apply Ho]. split; [by eexists|done].
    + intros j l' Hne. case_decide as E; [|done]. subst l'. split; [congruence|]. intros Hj.
      assert (flag (p_service pl) l = true) by (apply (ow_flag _ _ Ho); by exists j). congruence.
  - apply (owned_ext _ (fun l' => if decide (l' = l) then None else own l')).
    { intros l'. unfold owner_step. cbn. rewrite Hf. case_decide; [done|].
      pose proof (unflagged pl own l' Ho). by destruct (flag (p_service pl) l'). }
    eapply owned_move; [done..| | |].
    + intros l'. case_decide; [done|]. rewrite (Hh l'). split; [congruence|done].
    + intros l'. rewrite Hf. case_decide; [|apply Ho]. split; [done|by intros []].
    + intros j l' Hne. case_decide as E; [|done]. subst l'. split; [done|]. intros Hj.
      assert (own l = Some i) by (by apply Hh). congruence.
Qed.

Lemma evolves_owned s0 past pl : service_ok s0 -> (forall l, flag s0 l = false) -> evolves (idle s0) past pl ->
  owned pl (owner (past ++ [pl])).
Proof.
  intros Hs0 Hf Hev. induction Hev as [|past pl1 pl2 Hev IH Hst]; [by apply owned_idle|]. rewrite owner_snoc.
  pose proof (evolves_ok _ _ _ Hs0 Hev) as Hok. destruct Hst as [i Ha|c Ha|s Hb%beside_quiet ->].
  - by eapply owned_advance.
  - by eapply owned_arrive.
  - apply owned_beside; [by eapply pool_service|done|done].
Qed.
(** An answered call has given its flag back. *)
Lemma owner_waits pl own l i : owned pl own -> own l = Some i ->
  exists t, p_threads pl !! i = Some t /\ answer t = None.
Proof.
  intros Ho Hl. destruct (lookup_lt_is_Some_2 (p_threads pl) i) as [t Et]; [by eapply ow_call|]. exists t. split; [done|].
  assert (has_flag own i (Some l)) as Hh.
  { intros l'. split; [|by intros [= <-]]. intros Hl'. f_equal. by eapply (ow_one _ _ Ho). }
  unfold answer. destruct (t_prog t) eqn:Ep; [|done..].
  destruct (ow_track _ _ Ho i t _ Et Hh) as [[? _]|(J & _ & _ & Hp)]; [done|]. by rewrite Ep in Hp.
Qed.

(** A service that has just started rescans nothing. *)
Definition idle_still (s s' : Service) : Prop := (forall l, flag s l = false) -> forall l, flag s' l = false.
#[local] Instance idle_still_preorder : PreOrder idle_still.
Proof. split; [by intros s Hs|]. intros s1 s2 s3 H12 H23 Hs. by apply H23, H12. Qed.
Lemma idle_still_world {A} (m : M Service A) : moves only_world m -> moves idle_still m.
Proof. intros Hm s Hs l. by rewrite (flag_around s) by apply only_world_around, Hm. Qed.
Lemma idle_still_modify f : (forall s l, flag (f s) l = flag s l) -> moves idle_still (modify f).
Proof. intros Hf s Hs l. cbn. by rewrite Hf. Qed.
Lemma idle_still_attach m w : moves idle_still (attachWalletLocked m w).
Proof.
  assert (moves idle_still (openStore m w)) by (apply idle_still_world, openStore_only_world).
  assert (forall l, moves idle_still (registerWalletEvents l)) by (intros l; apply idle_still_world, registerWalletEvents_only_world).
  assert (forall f, moves idle_still (modify (set_wallets f))) by (intros f; by apply idle_still_modify).
  assert (forall tw, tw_rescanning tw = false -> moves idle_still (modify (set_heap (fun h => h ++ [tw]))))
    by (intros tw Htw; apply idle_still_modify; intros s l; by apply flag_append).
  unfold attachWalletLocked, alloc. moves_tac; auto.
Qed.
Lemma idle_still_load n : forall i b, moves idle_still (load_wallets i n b).
Proof.
  assert (forall f, moves idle_still (modify (set_state f))) by (intros f; by apply idle_still_modify).
  assert (forall t w k mn pp, moves idle_still (newWalletMeta t w k mn pp))
    by (intros; apply idle_still_world, newWalletMeta_only_world).
  assert (forall {A} (m : M world A), moves idle_still (W m)) by (intros A' m; apply idle_still_world, moves_W).
  pose proof idle_still_attach. assert (forall m, moves idle_still (restoreLoadedWallet m))
    by (intros m; unfold restoreLoadedWallet; moves_tac).
  induction n as [|n IH]; intros i b; cbn [load_wallets]; moves_tac.
Qed.
Lemma started_idle dir o w s w' : NewWithOptions dir o w = (Ok s, w') -> forall l, flag s l = false.
Proof.
  unfold NewWithOptions. destruct (withDefaults o dir w) as [[o'|] w1]; [|done].
  destruct (start _) as [[[]|] s1] eqn:E; [|done]. intros [= <- _].
  destruct (start_inv _ _ E) as (st & s2 & b & s3 & _ & Ho & _ & El & Es).
  assert (forall l, flag s2 l = false) as Hf2 by (intros l; by rewrite Ho).
  pose proof (idle_still_load (length (sv_state s2)) 0 false s2 Hf2) as Hf3. rewrite El in Hf3. cbn in Hf3.
  intros l. rewrite (flag_around s3); [done|]. apply only_world_around. destruct b; [|by injection Es as <-].
  pose proof (saveStateLocked_only_world s3) as Hw. by rewrite Es in Hw.
Qed.
End owners.
