(* ===== verification/ConcMake.v ===== *)
(** * What a creation may touch

    CreateWallet and RestoreWallet need no token for ids that are free, so what
    they may touch is no matter of tokens: every step of such a call, whatever runs
    in between, calls no SDK wallet but one that the node answered when it was asked
    for a wallet under the name of the request's ids. *)

From S2P Require Import Prelude GoStrings GoTime Encoding Crypto Proto Broker Sdk Ids World Encryption Options.
From S2P Require Import Service Auth AuthSpec Registry RegistrySpec Handlers HandlersSpec Rescan Lifecycle RegistryAbs Disk.
From S2P Require Import Launch ErrorTypes Conc ConcSpec ConcBeside ConcLogic ConcAdd ConcLin ConcPool ConcOrder ConcIso.

Section make.
Context `{Env} `{Mac} `{Hash} `{Aead}.

(** The wallets the node answers for a request. *)
Definition makes (r : rpc) : rpc_request r -> wallet_ptr -> Prop :=
  match r return rpc_request r -> wallet_ptr -> Prop with
  | BSVMS_CreateWallet => fun req q => exists tr mnemonic,
      (oracle tr (NodeCall (NodeCreateWallet (sdkWalletName (pb.CreateWalletRequest_TenantId req)
         (pb.CreateWalletRequest_WalletId req)))) : result (wallet_ptr * string)) = Ok (q, mnemonic)
  | BSVMS_RestoreWallet => fun req q => exists tr,
      (oracle tr (NodeCall (NodeRestoreWallet (sdkWalletName (pb.RestoreWalletRequest_TenantId req)
         (pb.RestoreWalletRequest_WalletId req)) (pb.RestoreWalletRequest_Mnemonic req)
         (pb.RestoreWalletRequest_Passphrase req))) : result wallet_ptr) = Ok q
  | _ => fun _ _ => False
  end.

(** Steps of the host. *)
Lemma calls_W {A} (m : M world A) : moves (extends (about no_wallet)) m -> moves (calls no_wallet) (W m).
Proof. intros Hm s. unfold W, zoom, calls. specialize (Hm (sv_world s)). by destruct (m (sv_world s)). Qed.
Lemma host_about c : moves (extends (about no_wallet)) (World.call (HostCall c)).
Proof. apply moves_call. exact I. Qed.
Lemma calls_write p d perm : moves (calls no_wallet) (W (os_write_file p d perm)).
Proof. apply calls_W. unfold os_write_file, host. moves_tac; exact (host_about _). Qed.
Lemma calls_rename p p' : moves (calls no_wallet) (W (os_rename p p')).
Proof. apply calls_W. unfold os_rename, host. moves_tac; exact (host_about _). Qed.
Lemma calls_seal key p : moves (calls no_wallet) (W (sealString key p)).
Proof. apply calls_W. unfold sealString, rand_read, host. moves_tac; exact (host_about _). Qed.
Lemma calls_newWalletMeta t w n mn pp : moves (calls no_wallet) (newWalletMeta t w n mn pp).
Proof. pose proof calls_seal. unfold newWalletMeta. moves_tac. Qed.
Lemma calls_tokens m : moves (calls no_wallet) (tokensForWallet m).
Proof. pose proof (calls_issueTokens no_wallet). unfold tokensForWallet. moves_tac. Qed.

(** ** Programs in a fixed scope *)

Section fixed.
Context (X : wallet_ptr -> Prop).
Let P (s : Service) (q : wallet_ptr) : Prop := X q.
Definition anywhere (s : Service) : Prop := True.

Lemma confined_always {A} J (p : prog A) : confined P anywhere p -> confined P J p.
Proof.
  induction p as [r|k IH|k IH|Y m k IH]; cbn; auto. intros Hp s Hs _. destruct (Hp s Hs I) as [Hc Hk].
  split; [done|]. by apply IH.
Qed.
Lemma scoped_bind {A B} (p : prog A) (f : A -> prog B) :
  scoped P p -> (forall a, confined P anywhere (f a)) -> scoped P (p ≫= f).
Proof.
  intros Hp Hf. induction p as [[a|e]|k IH|k IH|Y m k IH]; cbn in *; auto; [by apply confined_scoped|].
  intros s Hs. destruct (Hp s Hs) as [Hc Hk]. split; [done|]. destruct Hk as [Hk|(J & HJ & Hj & Hk)]; [left; by apply IH|right].
  exists J. split; [done|]. split; [done|]. apply confined_bind; [done|]. intros a. by apply confined_always.
Qed.
Lemma scoped_locked {A} (p : prog A) : scoped P p -> scoped P (locked p).
Proof.
  cbn. induction p as [r|k IH|k IH|Y m k IH]; cbn; auto. intros Hp s Hs. destruct (Hp s Hs) as [Hc Hk]. split; [done|].
  destruct Hk as [Hk|(J & HJ & Hj & Hk)]; [left; by apply IH|right]. exists J. split; [done|]. split; [done|].
  by apply (confined_locked P J (k (fst (m s)))).
Qed.
(** A call of which the scope knows what it may answer. *)
Lemma scoped_act {A B} (m : M Service A) (f : result A -> prog B) :
  moves (calls no_wallet) m -> (forall s, scoped P (f (fst (m s)))) -> scoped P (Act m f).
Proof. intros Hm Hf s _. split; [|by left]. eapply calls_impl; [|apply Hm]. by intros q. Qed.

(** ** The wallet in hand *)

Context (w : wallet_ptr) (Hw : X w).
Lemma confined_hand J c : confined P J (sdk w c).
Proof. apply confined_act. intros s _. by apply calls_W_log. Qed.
Hint Extern 1 (confined _ _ (sdk w ?c)) => exact (confined_hand _ c) : confined.
Hint Extern 2 (confined _ _ (act _)) => apply confined_free; by moves_tac : confined.
Lemma confined_openStore m : confined P anywhere (openStore_c m w).
Proof. unfold openStore_c. confined_tac. Qed.

Definition placed (l : loc) (s : Service) : Prop := exists tw, sv_heap s !! l = Some tw /\ X (tw_w tw).
Lemma lasting_placed l : lasting (placed l).
Proof.
  intros s s' _ [(_ & _ & _ & Hh) _ _] (tw & Htw & Hx). destruct (Hh l tw Htw) as (tw' & Htw' & [_ E]%same_wallet_meta).
  exists tw'. by rewrite E.
Qed.
Lemma enter_placed m st s : exists l s', enter m w st s = (Ok l, s') /\ calls X s s' /\ placed l s'.
Proof.
  set (tw := MkTW m w st false). unfold enter, alloc, gets, modify, mbind, M_bind, mret, M_ret. cbn [fst snd].
  set (s1 := set_wallets _ _). set (l := length (sv_heap s)).
  assert (sv_heap s1 !! l = Some tw) as Htw by (unfold s1; cbn; by rewrite lookup_app_r, Nat.sub_diag by lia).
  destruct (registerWalletEvents_ok l tw s1 Htw) as (s2 & E2 & Ho).
  assert (calls X s1 s2) as Hc.
  { assert (moves (touches l) (registerWalletEvents l)) as Ht by (unfold registerWalletEvents; moves_tac).
    destruct (Ht s1 tw Htw) as [_ Hc]. rewrite E2 in Hc. eapply calls_impl; [|exact Hc]. by intros q <-. }
  rewrite E2. eexists l, _. split; [reflexivity|]. split; [exact Hc|]. exists tw. split; [|exact Hw].
  cbn. unfold only_world in Ho. by rewrite Ho.
Qed.
Lemma scoped_add m : scoped P (add_wallet m w).
Proof.
  unfold add_wallet. apply scoped_after; [apply confined_openStore|]. intros st s Hs.
  destruct (enter_placed m st s) as (l & s' & -> & Hc & Hl). cbn [fst snd]. split; [done|]. right. exists (placed l).
  split; [apply lasting_placed|]. split; [done|].
  assert (confined P (placed l) (saveSnapshotLocked_c l)) by (by apply confined_snapshot_locked).
  assert (confined P (placed l) (walletProtoLocked_c l)) by (by apply confined_proto).
  pose proof calls_write. pose proof calls_rename. pose proof calls_tokens.
  assert (confined P (placed l) saveStateLocked_c) by (unfold saveStateLocked_c; confined_tac).
  change (confined P (placed l) (_ ← prog_error internal saveStateLocked_c; _ ← prog_try (saveSnapshotLocked_c l);
    tokens ← prog_error internal (act (tokensForWallet m)); wp ← walletProtoLocked_c l; mret (wp, tokens))).
  apply confined_bind; [by apply confined_map|]. intros _. apply confined_bind; [by apply confined_map|]. intros _.
  apply confined_bind; [apply confined_map; by auto with confined|]. intros tokens. confined_tac.
Qed.
End fixed.

(** ** The two methods *)

Lemma scoped_end X {B} (w : wallet_ptr) (Hw : X w) m (f : pb.Wallet -> option pb.AuthTokens -> B) :
  scoped (fun _ => X) ('(wp, tokens) ← add_wallet m w; mret (f wp tokens)).
Proof. apply scoped_bind; [by apply scoped_add|]. by intros []. Qed.
Lemma scoped_CreateWallet req : scoped (fun _ => makes BSVMS_CreateWallet req) (CreateWallet_c req).
Proof.
  unfold CreateWallet_c. destruct (validateTenantWallet _ _) as [[]|e]; [|done]. apply scoped_locked.
  unfold create_locked. cbv zeta. set (t := pb.CreateWalletRequest_TenantId req). set (n := pb.CreateWalletRequest_WalletId req).
  apply scoped_after; [apply confined_free; moves_tac|]. intros ws. case_match; [done|].
  apply scoped_act; [exact (calls_node no_wallet (NodeCreateWallet (sdkWalletName t n)))|]. intros s.
  pose (x := oracle (w_trace (sv_world s)) (NodeCall (NodeCreateWallet (sdkWalletName t n))) : result (wallet_ptr * string)).
  change (fst (W (node (NodeCreateWallet (sdkWalletName t n))) s)) with (Ok x : result (result (wallet_ptr * string))).
  destruct x as [[w mn]|e] eqn:Ex; [|done]. assert (makes BSVMS_CreateWallet req w) as Hw by (by eexists _, mn).
  change (scoped (fun _ => makes BSVMS_CreateWallet req)
    (m ← prog_error internal (act (newWalletMeta t n (sdkWalletName t n) mn "")); '(wp, tokens) ← add_wallet m w;
     mret (pb.MkCreateWalletResponse (Some wp) mn tokens))).
  apply scoped_after; [apply confined_map, confined_free, calls_newWalletMeta|]. intros m.
  exact (scoped_end _ w Hw m (fun wp tokens => pb.MkCreateWalletResponse (Some wp) mn tokens)).
Qed.
Lemma scoped_RestoreWallet req : scoped (fun _ => makes BSVMS_RestoreWallet req) (RestoreWallet_c req).
Proof.
  unfold RestoreWallet_c. destruct (validateTenantWallet _ _) as [[]|e]; [|done]. cbn [mbind prog_mbind prog_bind].
  case_match; [done|]. apply scoped_locked. unfold restore_locked. cbv zeta.
  set (t := pb.RestoreWalletRequest_TenantId req). set (n := pb.RestoreWalletRequest_WalletId req).
  set (mn := pb.RestoreWalletRequest_Mnemonic req). set (pp := pb.RestoreWalletRequest_Passphrase req).
  apply scoped_after; [apply confined_free; moves_tac|]. intros ws. case_match; [done|].
  apply scoped_act; [apply calls_newWalletMeta|]. intros s0.
  destruct (newWalletMeta t n (sdkWalletName t n) mn pp s0) as [[m|e] s1] eqn:Em; [|done].
  apply newWalletMeta_ok in Em as (_ & _ & En & _). cbn [fst].
  apply scoped_act; [exact (calls_node no_wallet (NodeRestoreWallet (SDKName m) mn pp))|]. intros s. rewrite En.
  pose (x := oracle (w_trace (sv_world s)) (NodeCall (NodeRestoreWallet (sdkWalletName t n) mn pp)) : result wallet_ptr).
  change (fst (W (node (NodeRestoreWallet (sdkWalletName t n) mn pp)) s)) with (Ok x : result (result wallet_ptr)).
  destruct x as [w|e] eqn:Ex; [|done]. assert (makes BSVMS_RestoreWallet req w) as Hw by (by eexists).
  exact (scoped_end _ w Hw m (fun wp tokens => pb.MkWalletResponse (Some wp) tokens)).
Qed.

(** ** In a pool *)

Definition creates (r : rpc) : Prop := r = BSVMS_CreateWallet \/ r = BSVMS_RestoreWallet.
Lemma method_makes ctx r h req : creates r -> method_c ctx r = Some h -> scoped (fun _ => makes r req) (serve_c ctx r h req).
Proof.
  intros Hr Hh. unfold serve_c. apply scoped_after; [apply confined_authorize|]. intros _.
  destruct Hr as [-> | ->]; injection Hh as <-; [apply scoped_CreateWallet|apply scoped_RestoreWallet].
Qed.

(** A program in its scope, with or without a wallet in hand. *)
Definition in_scope {A} (P : Service -> wallet_ptr -> Prop) (p : prog A) (s : Service) : Prop :=
  scoped P p \/ exists J, lasting J /\ J s /\ confined P J p.
Lemma in_scope_lives {A} P (p : prog A) s s' : service_ok s' -> lives s s' -> in_scope P p s -> in_scope P p s'.
Proof. intros Hs Hl [?|(J & HJ & Hj & Hp)]; [by left|right]. exists J. split; [done|]. split; [by eapply HJ|done]. Qed.
Lemma move_in_scope {A} P i (p p' : prog A) holder holder' s s' : service_ok s -> service_ok s' -> lives s s' ->
  in_scope P p s -> move i p holder s = Some (p', holder', s') -> calls (P s) s s' /\ in_scope P p' s'.
Proof.
  intros Hs Hs' Hl Hp Hm. destruct p as [x|k|k|X m k]; cbn in Hm; [done|..].
  - destruct holder; [done|]. by injection Hm as <- <- <-.
  - case_bool_decide; [|done]. by injection Hm as <- <- <-.
  - destruct Hp as [Hp|(J & HJ & Hj & Hp)].
    + destruct (Hp s Hs) as [Hc Hk]. destruct (m s) as [x s1]. injection Hm as <- <- <-. by split.
    + destruct (Hp s Hs Hj) as [Hc Hk]. destruct (m s) as [x s1]. injection Hm as <- <- <-. split; [done|].
      right. exists J. split; [done|]. split; [by eapply HJ|done].
Qed.
Definition call_makes (s : Service) (t : thread) : Prop :=
  in_scope (fun _ => makes (c_rpc (t_call t)) (c_req (t_call t))) (t_prog t) s.
Lemma evolves_makes s0 past pl : service_ok s0 -> evolves (idle s0) past pl ->
  forall i t, p_threads pl !! i = Some t -> creates (c_rpc (t_call t)) -> call_makes (p_service pl) t.
Proof.
  intros Hs0 Hev. induction Hev as [|past pl1 pl2 Hev IH Hst]; [done|]. intros i t Et Ht.
  pose proof (evolves_ok _ _ _ Hs0 Hev) as Hpl. destruct (pool_service _ _ Hpl) as [Hok _].
  destruct Hst as [j Hadv|c (h & Eh & ->)%arrive_inv|s Hb%beside_quiet ->]; cbn in *.
  - destruct (pool_advance _ _ _ _ Hpl Hadv) as [Hs' Hl].
    destruct (advance_inv _ _ _ Hadv) as (t1 & p & holder & s & Et1 & Em & ->). cbn in *.
    apply list_lookup_insert_Some in Et as [(-> & <- & _)|[_ Et]].
    + cbn in Ht. exact (proj2 (move_in_scope _ _ _ _ _ _ _ _ Hok Hs' Hl (IH _ _ Et1 Ht) Em)).
    + eapply in_scope_lives; [exact Hs'|exact Hl|by apply (IH i)].
  - apply lookup_app_Some in Et as [Et|[_ Et]]; [by apply (IH i)|].
    apply list_lookup_singleton_Some in Et as [_ <-]. left. by apply method_makes.
  - eapply in_scope_lives; [by eapply quiet_ok|by apply quiet_lives|by apply (IH i)].
Qed.
Lemma advance_makes s0 past pl i t pl' : service_ok s0 -> evolves (idle s0) past pl ->
  p_threads pl !! i = Some t -> creates (c_rpc (t_call t)) -> advance i pl = Some pl' ->
  calls (makes (c_rpc (t_call t)) (c_req (t_call t))) (p_service pl) (p_service pl').
Proof.
  intros Hs0 Hev Et Ht Hadv. pose proof (evolves_ok _ _ _ Hs0 Hev) as Hpl. destruct (pool_service _ _ Hpl) as [Hok _].
  destruct (pool_advance _ _ _ _ Hpl Hadv) as [Hs' Hl]. pose proof (evolves_makes _ _ _ Hs0 Hev _ _ Et Ht) as Hp.
  destruct (advance_inv _ _ _ Hadv) as (t1 & p & holder & s & Et1 & Em & ->). rewrite Et in Et1. injection Et1 as <-.
  exact (proj1 (move_in_scope _ _ _ _ _ _ _ _ Hok Hs' Hl Hp Em)).
Qed.
End make.
