(* ===== verification/ConcSeq.v ===== *)
(** * A call alone

    [run] of the program of a call, on a service no other call disturbs, is the
    handler of modules Registry and Handlers behind the interceptor of Auth: the
    same answer, the same history, the same registry. [implements J p m] says so of
    a program and a handler on the services that satisfy [J], which [m] keeps. In a
    pool, where the mutex is real, a call that finds it free and moves alone goes
    through [run] and leaves it free ([arrival_ends]). *)

From S2P Require Import Prelude GoStrings GoTime Encoding Crypto Proto Broker Sdk Ids World Encryption Options.
From S2P Require Import Service Auth AuthSpec Registry RegistrySpec Handlers HandlersSpec Rescan Lifecycle RegistryAbs Disk.
From S2P Require Import Conc ConcSpec ConcBeside ConcLogic ConcLin ConcPool.

Definition implements (J : Service -> Prop) {A} (p : prog A) (m : M Service A) : Prop :=
  forall s, J s -> run p s = m s /\ J (snd (m s)).

Create HintDb implements discriminated.

Lemma run_bind {A B} (p : prog A) (f : A -> prog B) s :
  run (p ≫= f) s = (run p ≫= fun a => run (f a)) s.
Proof.
  unfold mbind at 2, M_bind. revert s.
  induction p as [[a|e]|k IH|k IH|X m k IH]; intros s; cbn; auto. destruct (m s) as [r s']. apply IH.
Qed.
Lemma run_act {A} (m : M Service A) s : run (act m) s = m s.
Proof. cbn. by destruct (m s). Qed.
Lemma run_map {A B} (f : result A -> result B) (p : prog A) s : run (prog_map f p) s = let '(r, s') := run p s in (f r, s').
Proof.
  revert s. induction p as [r|k IH|k IH|X m k IH]; intros s; cbn; auto. destruct (m s) as [r s']. apply IH.
Qed.
Lemma run_locked {A} (p : prog A) s : run (locked p) s = run p s.
Proof.
  cbn. revert s. induction p as [r|k IH|k IH|X m k IH]; intros s; cbn; auto. destruct (m s) as [r s']. apply IH.
Qed.

Section rules.
Context (J : Service -> Prop).

Lemma implements_bind {A B} (p : prog A) m (f : A -> prog B) (k : A -> M Service B) :
  implements J p m -> (forall a, implements J (f a) (k a)) -> implements J (p ≫= f) (m ≫= k).
Proof.
  intros Hp Hf s Hs. rewrite run_bind. unfold mbind, M_bind. destruct (Hp s Hs) as [-> Hj].
  destruct (m s) as [[a|e] s']; [by apply Hf|done].
Qed.
Lemma implements_ret {A} (a : A) : implements J (mret a) (mret a).
Proof. done. Qed.
Lemma implements_fail {A} e : implements J (fail e : prog A) (throw e).
Proof. done. Qed.
Lemma implements_return {A} (r : result A) : implements J (Return r) (lift r).
Proof. done. Qed.
Lemma implements_act {A} (m : M Service A) : (forall s, J s -> J (snd (m s))) -> implements J (act m) m.
Proof. intros Hm s Hs. rewrite run_act. auto. Qed.
Lemma implements_locked {A} (p : prog A) m : implements J p m -> implements J (locked p) m.
Proof. intros Hp s Hs. rewrite run_locked. auto. Qed.
Lemma implements_error {A} f (p : prog A) m : implements J p m -> implements J (prog_error f p) (on_error f m).
Proof.
  intros Hp s Hs. unfold prog_error. rewrite run_map. unfold on_error. destruct (Hp s Hs) as [-> Hj]. by destruct (m s) as [[]].
Qed.
Lemma implements_try {A} (p : prog A) m : implements J p m -> implements J (prog_try p) (try_ m).
Proof.
  intros Hp s Hs. unfold prog_try. rewrite run_map. unfold try_. destruct (Hp s Hs) as [-> Hj]. by destruct (m s).
Qed.
Lemma implements_eq {A} (p : prog A) m m' : (forall s, m s = m' s) -> implements J p m -> implements J p m'.
Proof. intros Hm Hp s Hs. rewrite <- Hm. auto. Qed.
Lemma implements_or_status {A} f (p : prog (result A)) m : implements J p m ->
  implements J (or_status f p) (wcall_or f m).
Proof.
  intros Hp. apply implements_error, implements_bind; [done|]. intros r. apply implements_return.
Qed.
End rules.
#[export] Hint Resolve implements_bind implements_ret implements_fail implements_return implements_or_status implements_locked
  implements_error implements_try : implements.

(** Steps that move nothing but the world keep what [J] says of the rest. *)
Class Steady (J : Service -> Prop) := steady s s' : only_world s s' -> J s -> J s'.
#[export] Instance steady_true : Steady (fun _ => True).
Proof. done. Qed.
(** The handle of the wallet in hand is where it was found. *)
Definition at_loc (l : loc) (q : wallet_ptr) (s : Service) : Prop :=
  exists tw, sv_heap s !! l = Some tw /\ q = tw_w tw.
#[export] Instance steady_at_loc l q : Steady (at_loc l q).
Proof. intros s s' -> (tw & Htw & ->). by exists tw. Qed.

(** A program and a handler with the same steps. *)
Ltac implements_steps :=
  repeat first [ solve [auto 3 with implements]
               | apply implements_bind; [by auto with implements | intros ?] | case_match
               | apply implements_bind; [|intros ?] ];
  auto with implements.

Section calls.
Context `{Env} `{Mac} `{Hash} `{Aead} (J : Service -> Prop) `{!Steady J}.

Lemma steady_moves {A} (m : M Service A) : moves only_world m -> forall s, J s -> J (snd (m s)).
Proof. intros Hm s. apply steady, Hm. Qed.
Lemma implements_node c : implements J (on_node c) (W (node c)).
Proof. apply implements_act, steady_moves. auto with moves. Qed.
Lemma implements_world {A} (m : M Service A) : moves only_world m -> implements J (act m) m.
Proof. intros Hm. by apply implements_act, steady_moves. Qed.
End calls.

(** ** Sections under the mutex *)

Section sections.
Context `{Env} `{Mac} `{Hash} `{Aead} (J : Service -> Prop) `{!Steady J}.

Lemma implements_through l c : implements J (through l c) (wcall l c).
Proof. apply implements_world; [done|]. auto with moves. Qed.
Hint Extern 1 (implements _ (through ?l ?c) _) => exact (implements_through l c) : implements.
Hint Extern 1 (implements _ (on_node ?c) _) => exact (implements_node J c) : implements.
Hint Extern 1 (implements _ (act _) _) => apply implements_world; [done|solve [auto with moves]] : implements.

Lemma implements_snapshot_locked l : implements J (saveSnapshotLocked_c l) (saveSnapshotLocked l).
Proof. unfold saveSnapshotLocked_c, saveSnapshotLocked. implements_steps. Qed.
Lemma implements_saveSnapshot l : implements J (saveSnapshot_c l) (saveSnapshot l).
Proof. pose proof (implements_snapshot_locked l). unfold saveSnapshot_c, saveSnapshot. implements_steps. Qed.
Lemma implements_addresses l : implements J (walletAddresses_c l) (walletAddresses l).
Proof. unfold walletAddresses_c, walletAddresses. implements_steps. Qed.
Lemma implements_proto l : implements J (walletProtoLocked_c l) (walletProtoLocked l).
Proof. pose proof (implements_addresses l). unfold walletProtoLocked_c, walletProtoLocked. implements_steps. Qed.
Lemma implements_protos ws keys : implements J (wallet_protos_c ws keys) (wallet_protos ws keys).
Proof.
  pose proof implements_proto. induction keys; cbn [wallet_protos_c wallet_protos]; implements_steps.
Qed.
End sections.

(** After the lookup, what is done with the wallet. *)
Lemma run_wallet_c `{Env} {A} t w (f : loc * wallet_ptr -> prog A) s :
  run (wallet_c t w ≫= f) s = (l ← wallet t w; tw ← deref l; run (f (l, tw_w tw))) s.
Proof.
  rewrite run_bind.
  assert (run (wallet_c t w) s = (l ← wallet t w; tw ← deref l; mret (l, tw_w tw)) s) as E.
  { unfold wallet_c. rewrite run_bind. unfold wallet, find_wallet, mbind, M_bind. cbn [run]. unfold lift.
    destruct (validateTenantWallet t w) as [u|e]; [|done]. rewrite run_locked, run_act. unfold gets.
    by destruct (sv_wallets s !! walletKey t w). }
  unfold mbind at 1, M_bind at 1. rewrite E. unfold mbind, M_bind.
  destruct (wallet t w s) as [[l|e] s1]; [|done]. by destruct (deref l s1) as [[tw|e] s2].
Qed.
Lemma implements_wallet `{Env} {A} t w (f : loc * wallet_ptr -> prog A) (k : loc -> M Service A) :
  (forall l q, implements (at_loc l q) (f (l, q)) (k l)) ->
  forall s, registry_ok s -> run (wallet_c t w ≫= f) s = (wallet t w ≫= k) s.
Proof.
  intros Hk s Hok. rewrite run_wallet_c. destruct (wallet t w s) as [[l|e] s1] eqn:Ew.
  - rewrite !(bind_run _ _ _ _ _ Ew). apply wallet_ok in Ew as (_ & _ & Hl & ->).
    destruct (reg_ptr s Hok _ _ Hl) as (tw & Htw & _).
    rewrite (bind_run _ _ s tw s) by (apply deref_ok; done). apply Hk. by exists tw.
  - by rewrite !(bind_run_err _ _ _ _ _ Ew).
Qed.

Lemma implements_sdk `{Env} l q c : implements (at_loc l q) (sdk q c) (wcall l c).
Proof.
  intros s (tw & Htw & ->). unfold sdk. rewrite run_act, (wcall_run l c tw) by done. split; [done|].
  cbn. by exists tw.
Qed.
Ltac implements_call :=
  match goal with
  | |- implements (at_loc ?l ?q) (@sdk _ ?q ?c) (@wcall _ ?l ?c) => exact (implements_sdk l q c)
  | |- implements ?J (saveSnapshot_c ?l) _ => apply implements_saveSnapshot; typeclasses eauto
  | |- implements ?J (@on_node _ ?c) _ => exact (implements_node J c)
  | |- implements _ (act ?m) ?m => apply implements_world; [typeclasses eauto|auto with moves]
  end.
#[export] Hint Extern 1 (implements _ _ _) => implements_call : implements.

(** ** Every method *)

Section methods.
Context `{Env} `{Mac} `{Hash} `{Aead}.

Let anywhere (s : Service) : Prop := True.

Lemma wcall_or_W {A} f (m : M world (result A)) s : wcall_or f (W m) s = on_error f (W (call_result m)) s.
Proof.
  unfold wcall_or, on_error, W, zoom, call_result, lift, mbind, M_bind. by destruct (m (sv_world s)) as [[[]|] w].
Qed.
Lemma implements_call_result J `{!Steady J} {A} f (m : M world (result A)) :
  implements J (or_status f (act (W m))) (on_error f (W (call_result m))).
Proof.
  eapply implements_eq; [apply wcall_or_W|]. apply implements_or_status, implements_world; [done|auto with moves].
Qed.
Hint Resolve implements_call_result : implements.
Hint Extern 1 (implements ?J (or_status ?f (on_node ?c)) (on_error _ (W (call_result _)))) => exact (implements_call_result J f (node c)) : implements.
Lemma implements_openStore m w : implements anywhere (openStore_c m w) (openStore m w).
Proof.
  unfold openStore_c, openStore. implements_steps.
Qed.
Lemma implements_saveState : implements anywhere saveStateLocked_c saveStateLocked.
Proof. unfold saveStateLocked_c, saveStateLocked. implements_steps. Qed.
Hint Resolve implements_openStore implements_saveState : implements.
Lemma implements_add m w : implements anywhere (add_wallet m w) (l ← attachWalletLocked m w; finishWallet m l).
Proof.
  assert (forall A (p : M Service A), implements anywhere (act p) p) as Hact by (intros A p; by apply implements_act).
  pose proof implements_snapshot_locked anywhere. pose proof implements_proto anywhere.
  apply (implements_eq _ _ (store ← openStore m w; l ← enter m w store; _ ← on_error internal saveStateLocked;
    _ ← try_ (saveSnapshotLocked l); tokens ← on_error internal (tokensForWallet m); wp ← walletProtoLocked l;
    mret (wp, tokens))).
  { intros s. unfold attachWalletLocked, finishWallet, enter, alloc, gets, modify, mbind, M_bind.
    destruct (openStore m w s) as [[st|e] s1]; [|done]. cbn. by destruct (registerWalletEvents _ _) as [[u|e] s2]. }
  unfold add_wallet. implements_steps.
Qed.
Hint Resolve implements_add : implements.
Lemma implements_return_bind J {A B} (r : result A) (f : A -> prog B) k :
  (forall a, implements J (f a) (k a)) -> implements J (_x ← Return r; f _x) (a ← lift r; k a).
Proof. intros Hf. apply implements_bind; [apply implements_return|done]. Qed.
Lemma CreateWallet_alone req : implements anywhere (CreateWallet_c req) (CreateWallet req).
Proof.
  apply implements_return_bind. intros _. apply implements_locked.
  apply implements_bind; [by apply implements_act|]. intros ws. case_match; [auto with implements|].
  apply implements_bind; [auto with implements|]. intros [w mn].
  apply implements_bind; [by apply implements_error, implements_act|]. intros m.
  apply (implements_eq _ _ ('(wp, tokens) ← (l ← attachWalletLocked m w; finishWallet m l);
    mret (pb.MkCreateWalletResponse (Some wp) mn tokens))); [|implements_steps].
  intros s. unfold mbind, M_bind. by destruct (attachWalletLocked m w s) as [[l|e] s1].
Qed.
Lemma RestoreWallet_alone req : implements anywhere (RestoreWallet_c req) (RestoreWallet req).
Proof.
  apply implements_return_bind. intros _. case_match; [auto with implements|]. apply implements_locked.
  apply implements_bind; [by apply implements_act|]. intros ws. case_match; [auto with implements|].
  apply implements_bind; [by apply implements_error, implements_act|]. intros m.
  apply implements_bind; [auto with implements|]. intros w.
  apply (implements_eq _ _ ('(wp, tokens) ← (l ← attachWalletLocked m w; finishWallet m l);
    mret (pb.MkWalletResponse (Some wp) tokens))); [|implements_steps].
  intros s. unfold mbind, M_bind. by destruct (attachWalletLocked m w s) as [[l|e] s1].
Qed.
Lemma ListWallets_alone req : implements anywhere (ListWallets_c req) (ListWallets req).
Proof.
  pose proof implements_protos anywhere. apply implements_return_bind. intros _.
  set (t := pb.ListWalletsRequest_TenantId req).
  apply (implements_eq _ _ (ps ← (keys ← gets (fun s => tenant_keys s t); ws ← gets sv_wallets; wallet_protos ws keys);
    mret (pb.MkListWalletsResponse ps))); [done|].
  apply implements_bind; [apply implements_locked; unfold list_locked|]; implements_steps.
Qed.
Lemma implements_walletProto J `{!Steady J} l : implements J (locked (walletProtoLocked_c l)) (walletProto l).
Proof. by apply implements_locked, implements_proto. Qed.
Lemma probe_implements J (p : prog (result bool)) m : implements J p m -> implements J (probe_c p) (probe m).
Proof. intros Hp. apply implements_bind; [done|]. intros [b|e]; [|case_match]; auto with implements. Qed.
Hint Resolve probe_implements CreateWallet_alone RestoreWallet_alone ListWallets_alone : implements.
Hint Extern 1 (implements _ (locked (walletProtoLocked_c _)) _) => apply implements_walletProto; typeclasses eauto : implements.

Lemma validateJWT_only_world token typ : moves only_world (validateJWT token typ).
Proof. unfold validateJWT. destruct (split_char "." token) as [|? [|? [|? [|]]]]; moves_tac. Qed.
Lemma tx_proto_only_world tx : moves only_world (tx_proto tx).
Proof. apply moves_tx_proto; auto with moves. Qed.
Lemma outPoints_only_world src : moves only_world (outPoints src).
Proof. apply moves_outPoints; auto with moves. Qed.
Lemma customInputs_only_world src : moves only_world (customInputs src).
Proof. apply moves_customInputs; auto with moves. Qed.
Hint Resolve validateJWT_only_world tx_proto_only_world outPoints_only_world customInputs_only_world
  issueTokens_only_world : moves.

(** Run alone, the program of a method is the method. *)
Lemma unary_alone r h p req s : unary r = Some h -> unary_c r = Some p -> registry_ok s -> run (p req) s = h req s.
Proof.
  intros Hr Hp Hok. destruct r; injection Hr as <- || discriminate Hr; injection Hp as <-;
    try (apply CreateWallet_alone; done); try (apply RestoreWallet_alone; done); try (apply ListWallets_alone; done);
    match goal with
    | |- run ?p s = ?m s => unfold_head p; unfold_head m; cbv zeta;
        first [ apply implements_wallet; [intros l q|done]
              | refine (proj1 ((_ : implements (fun _ => True) _ _) s I)) ]
    end; implements_steps.
Qed.

Lemma bootstrap_alone J `{!Steady J} req : implements J (bootstrapAllowed_c req) (bootstrapAllowed req).
Proof.
  unfold bootstrapAllowed_c, bootstrapAllowed.
  destruct (tenantWalletFromRequest req) as [[t w] b]. repeat case_match; auto with implements.
Qed.
Lemma authorize_implements J `{!Steady J} ctx method req : implements J (authorize_c ctx method req) (authorize ctx method req).
Proof.
  pose proof (bootstrap_alone J req). unfold authorize_c, authorize.
  apply implements_bind; [by auto with implements|]. intros enabled. case_match; [by auto with implements|].
  apply implements_bind; [case_match; by auto with implements|]. intros boot.
  repeat case_match; auto with implements. apply implements_bind; [|auto with implements].
  apply implements_world; [done|]. unfold authSubjectFromContext. moves_tac.
Qed.
#[export] Instance steady_registry : Steady registry_ok.
Proof. intros s s' Ho. by rewrite Ho. Qed.

(** The same behind the interceptor. *)
Lemma serve_alone ctx r h p req s : unary r = Some h -> unary_c r = Some p -> registry_ok s ->
  run (serve_c ctx r p req) s = serve ctx r h req s.
Proof.
  intros Hr Hp Hok. unfold serve_c, serve, UnaryAuthInterceptor. rewrite run_bind. unfold mbind, M_bind.
  destruct (authorize_implements registry_ok ctx (full_method r) (Some (rpc_reflect r req)) s Hok) as [-> Hj].
  destruct (authorize _ _ _ s) as [[u|e] s1]; [|done]. by apply (unary_alone r).
Qed.

Lemma method_unary ctx r p h : method_c ctx r = Some p -> unary r = Some h -> unary_c r = Some p.
Proof. by destruct r. Qed.
(** A refused call goes no further. *)
Lemma serve_refused ctx r p req s : registry_ok s -> ~ authorised s ctx (full_method r) (Some (rpc_reflect r req)) ->
  is_ok (fst (run (serve_c ctx r p req) s)) = false /\ untouched s (snd (run (serve_c ctx r p req) s)).
Proof.
  intros Hok Hn. unfold serve_c. rewrite run_bind. unfold mbind, M_bind.
  destruct (authorize_implements registry_ok ctx (full_method r) (Some (rpc_reflect r req)) s Hok) as [-> _].
  pose proof (authorize_only_world ctx (full_method r) (Some (rpc_reflect r req)) s) as Ho.
  pose proof (quiet_authorize ctx (full_method r) (Some (rpc_reflect r req)) s) as [_ Hk].
  destruct (authorize _ _ _ s) as [[[]|e] s1] eqn:Ea; [|done]. destruct Hn. apply authorize_spec. by exists s1.
Qed.
(** One that is let through is a step of the directory. *)
Lemma serve_registry ctx r h req s x s' : unary r = Some h -> service_ok s ->
  authorised s ctx (full_method r) (Some (rpc_reflect r req)) -> serve ctx r h req s = (x, s') ->
  registry_spec (directory_of s) r req x (directory_of s').
Proof.
  intros Hr Hok [s1 Ea]%authorize_spec. unfold serve, UnaryAuthInterceptor, mbind, M_bind. rewrite Ea. intros E.
  pose proof (quiet_authorize ctx (full_method r) (Some (rpc_reflect r req)) s) as Hq.
  pose proof (authorize_only_world ctx (full_method r) (Some (rpc_reflect r req)) s) as Ho. rewrite Ea in Hq, Ho.
  rewrite <- (directory_of_only_world s s1 Ho). eapply unary_refines; [by eapply quiet_ok|done..].
Qed.
(** ** Rescans *)

(** What is left of a rescan once it is admitted, undisturbed. *)
Definition rescan_rest (req : pb.RescanRequest) (rr : rescan_run) : M Service pb.RescanEvent :=
  tw ← deref (run_wallet rr);
  run (r ← prog_try (rescan_body_c (run_wallet rr) (tw_w tw) (run_start rr) req);
       _ ← locked (act (endRescan (run_wallet rr)));
       Return r).
Lemma M_bind_assoc {A B C} (m : M Service A) (k : A -> M Service B) (h : B -> M Service C) s :
  ((m ≫= k) ≫= h) s = (m ≫= fun a => k a ≫= h) s.
Proof. unfold mbind, M_bind. by destruct (m s) as [[a|e] s']. Qed.
Lemma Rescan_alone ctx req s : registry_ok s ->
  run (Rescan_c ctx req) s = (rr ← Rescan_start ctx req; rescan_rest req rr) s.
Proof.
  intros Hok. unfold Rescan_c, Rescan_start. rewrite run_bind, M_bind_assoc.
  destruct (authorize_implements registry_ok ctx "/bsvms.v1.BSVMS/Rescan" (Some (reflect_RescanRequest req)) s Hok) as [Er Hj].
  unfold mbind at 1, M_bind at 1. rewrite Er. destruct (authorize _ _ _ s) as [[u|e] s1] eqn:Ea; [|by rewrite (bind_run_err _ _ _ _ _ Ea)].
  rewrite (bind_run _ _ _ _ _ Ea), run_wallet_c, M_bind_assoc. cbn [snd] in Hj.
  destruct (wallet (pb.RescanRequest_TenantId req) (pb.RescanRequest_WalletId req) s1) as [[l|e] s2] eqn:Ew;
    [|by rewrite !(bind_run_err _ _ _ _ _ Ew)].
  rewrite !(bind_run _ _ _ _ _ Ew). apply wallet_ok in Ew as (_ & _ & Hl & ->).
  destruct (reg_ptr s1 Hj _ _ Hl) as (tw & Htw & _). rewrite (bind_run _ _ s1 tw s1) by (apply deref_ok; done).
  destruct (String.eqb _ ""); [done|]. rewrite run_bind, M_bind_assoc.
  destruct (implements_or_status (at_loc l (tw_w tw)) (fun _ => invalid "invalid start_block_hash") _ _
    (implements_node (at_loc l (tw_w tw)) (TxIDFromHex (pb.RescanRequest_StartBlockHash req))) s1) as [Eh Hat]; [by exists tw|].
  unfold mbind at 1, M_bind at 1. rewrite Eh.
  destruct (wcall_or _ _ s1) as [[h|e] s3] eqn:Ec; [|by rewrite (bind_run_err _ _ _ _ _ Ec)].
  rewrite (bind_run _ _ _ _ _ Ec), M_bind_assoc. cbn [snd] in Hat. destruct Hat as (tw3 & Htw3 & ->).
  unfold rescan_c. rewrite run_bind. unfold mbind at 1, M_bind at 1. rewrite run_locked, run_act.
  destruct (beginRescan_run l s3) as (b & s4 & Eb & Hb). rewrite Eb, (bind_run _ _ _ _ _ Eb).
  destruct b; [|done]. destruct Hb as (tw' & Htw' & _ & ->). cbn [negb].
  erewrite (bind_run (mret _)) by reflexivity. unfold rescan_rest. cbn [run_wallet run_start]. erewrite (bind_run (deref l)).
  2: { apply deref_ok. split; [|reflexivity]. cbn. by rewrite list_lookup_alter_eq, Htw'. }
  rewrite Htw3 in Htw'. by injection Htw' as <-.
Qed.
End methods.

(** ** Alone in a pool

    While no other call moves, a call that finds the mutex free is never held up:
    moved until it is answered, it has gone through [run]. *)

Section turns.
Context `{Env} `{Mac} `{Hash} `{Aead}.

Lemma move_run {A} i (p p' : prog A) holder holder' s s' :
  move i p holder s = Some (p', holder', s') -> run p s = run p' s'.
Proof.
  destruct p as [r|k|k|X m k]; cbn; [done|..].
  - destruct holder; [done|]. by injection 1 as <- <- <-.
  - case_bool_decide; [|done]. by injection 1 as <- <- <-.
  - destruct (m s) as [r s1]. by injection 1 as <- <- <-.
Qed.
Lemma move_holder {A} i (p p' : prog A) holder holder' s s' :
  move i p holder s = Some (p', holder', s') -> holder = Some i \/ holder = None -> holder' = Some i \/ holder' = None.
Proof.
  destruct p as [r|k|k|X m k]; cbn; [done|..].
  - destruct holder; [done|]. injection 1 as <- <- <-. auto.
  - case_bool_decide; [|done]. injection 1 as <- <- <-. auto.
  - destruct (m s) as [r s1]. by injection 1 as <- <- <-.
Qed.
Lemma run_ends s0 i c p : forall pl, pool_ok s0 pl -> p_threads pl !! i = Some (MkThread c p) ->
  p_holder pl = Some i \/ p_holder pl = None -> exists n,
  let '(r, s') := run p (p_service pl) in
  schedule (repeat i n) pl = MkPool s' None (<[i := MkThread c (Return r)]> (p_threads pl)).
Proof.
  induction (prog_sn p) as [p _ IH]. intros pl Hok Et Hh.
  destruct (answer (MkThread c p)) as [r|] eqn:Ea.
  - exists 0. unfold answer in Ea. cbn in Ea. destruct p; try discriminate Ea. cbn. rewrite list_insert_id by done.
    destruct Hh as [Hh|Hh]; [|destruct pl; cbn in *; by rewrite Hh].
    destruct (holder_waits s0 i pl Hok Hh) as (t & Et' & Ha). rewrite Et in Et'. by injection Et' as <-.
  - destruct (move_total s0 i pl _ Hok Et Ea Hh) as [pl1 Hadv].
    pose proof (pool_step_ok _ _ _ Hok (step_thread _ _ i Hadv)) as Hok1.
    pose proof Hadv as (t & p1 & h1 & s1 & Et1 & Em & Epl)%advance_inv. rewrite Et in Et1. injection Et1 as <-.
    cbn [t_prog t_call] in Em, Epl. rewrite (move_run _ _ _ _ _ _ _ Em). pose proof (lookup_lt_Some _ _ _ Et) as Hi.
    destruct (IH p1 (move_step _ _ _ _ _ _ _ Em) pl1 Hok1) as [n Hn].
    { rewrite Epl. cbn. by apply list_lookup_insert_eq. }
    { rewrite Epl. cbn. by eapply move_holder. }
    exists (S n). assert (schedule (repeat i (S n)) pl = schedule (repeat i n) pl1) as -> by (cbn; by rewrite Hadv).
    assert (p_service pl1 = s1) as Es by (by rewrite Epl). rewrite Es in Hn.
    assert (p_threads pl1 = <[i := MkThread c p1]> (p_threads pl)) as Ets by (by rewrite Epl). rewrite Ets in Hn.
    change (rpc_response (c_rpc (t_call (MkThread c p)))) with (rpc_response (c_rpc c)) in *.
    destruct (run p1 s1) as [r s']. rewrite Hn. by rewrite list_insert_insert_eq.
Qed.
(** An arrival goes through while the others stand still. *)
Lemma arrival_ends s0 pl c pl1 : pool_ok s0 pl -> p_holder pl = None -> arrive c pl = Some pl1 ->
  exists h n, method_c (c_ctx c) (c_rpc c) = Some h /\
  let '(r, s') := run (serve_c (c_ctx c) (c_rpc c) h (c_req c)) (p_service pl) in
  schedule (repeat (length (p_threads pl)) n) pl1 = MkPool s' None (p_threads pl ++ [MkThread c (Return r)]).
Proof.
  intros Hok Hh Ha. pose proof (pool_step_ok _ _ _ Hok (step_arrival _ _ c Ha)) as Hok1.
  apply arrive_inv in Ha as (h & Eh & ->). exists h.
  edestruct (run_ends s0 (length (p_threads pl)) c) as [n Hn]; [exact Hok1|by apply list_lookup_middle|by right|].
  exists n. split; [done|]. cbn [p_service p_threads] in Hn. destruct (run _ _) as [r s'].
  rewrite Hn. f_equal. by rewrite insert_app_r_alt, Nat.sub_diag by lia.
Qed.
End turns.
