(* ===== verification/History.v ===== *)
(** * The history of a service

    The calls a service makes are recorded in order; what a call answered is
    given by the calls before it. Which methods can spend, what each method adds
    to the history, and the payments read from it. *)

From S2P Require Import Prelude GoStrings GoTime Encoding Crypto Proto Broker Sdk Ids World Encryption.
From S2P Require Import Options Service Auth AuthSpec Registry RegistrySpec Handlers HandlersSpec Launch.

(** ** Calls that spend *)

(** The calls of the SDK that make or broadcast a transaction. *)
Definition spending (c : ext_call) : bool :=
  match c with
  | WalletCall _ (WSend _ _ | WSendAll _ | SpendToOutputsDetailed _ | SpendToOutputsDetailedFrom _ _
      | SpendToOutputsDetailedIgnoringFixed _) => true
  | NodeCall (SpendCustom _ _ | NodeBroadcastRaw _) => true
  | _ => false
  end.
(** The methods that lead to them. *)
Definition spend_rpc (r : rpc) : bool :=
  match r with
  | BSVMS_Send | BSVMS_SendAll | BSVMS_SpendToOutputs | BSVMS_BroadcastCustomSpend | BSVMS_BroadcastRaw => true
  | _ => false
  end.

(** Calls by which the process joins the network or opens its port. *)
Definition joining (c : ext_call) : bool :=
  match c with
  | NodeCall (NodeConnect | NodeConnectPeer _ | NodeDisconnect) | HostCall (NetListen _) => true
  | _ => false
  end.
Definition routine (c : ext_call) : bool := negb (spending c) && negb (joining c).

Lemma routine_spends_not c : routine c = true -> spending c = false.
Proof. unfold routine. rewrite andb_true_iff, negb_true_iff. by intros []. Qed.

Definition history (s : Service) : list ext_call := w_trace (sv_world s).
(** From [s] to [s'] only calls that satisfy [P] were made. *)
Definition adds (P : ext_call -> Prop) (s s' : Service) : Prop := extends P (sv_world s) (sv_world s').
#[export] Instance adds_preorder P : PreOrder (adds P).
Proof. split; [by intros s; unfold adds|]. intros s1 s2 s3. unfold adds. by apply transitivity. Qed.

Section calls.
Context `{Env} `{Mac} `{Hash} `{Aead} (P : ext_call -> Prop).

Lemma adds_W {A} (m : M world A) : moves (extends P) m -> moves (adds P) (W m).
Proof.
  intros Hm s. specialize (Hm (sv_world s)). unfold W, zoom, adds. by destruct (m (sv_world s)) as [r w].
Qed.
Lemma adds_wcall l c : (forall q, P (WalletCall q c)) -> moves (adds P) (wcall l c).
Proof.
  intros Hc. unfold wcall. apply moves_bind; [typeclasses eauto|apply moves_deref; typeclasses eauto|].
  intros tw. apply adds_W. exact (moves_call P (WalletCall (tw_w tw) c) (Hc _)).
Qed.
Lemma adds_modify f : (forall s, sv_world (f s) = sv_world s) -> moves (adds P) (modify f).
Proof. intros Hf s. unfold adds. cbn. rewrite Hf. reflexivity. Qed.
Lemma adds_result {A} (m : M world (result A)) : moves (extends P) m -> moves (extends P) (call_result m).
Proof. intros Hm. unfold call_result. moves_tac. Qed.
End calls.

(** A call that the hypotheses on [P] allow by its kind. *)
Ltac harmless :=
  match goal with
  | HP : forall c, routine c = true -> ?P c |- ?P _ => apply HP; reflexivity
  | HP : forall c, spending c = false -> ?P c |- ?P _ => apply HP; reflexivity
  | _ => by auto
  end.
Ltac adds_call :=
  match goal with
  | |- moves (extends ?P) (@World.call _ ?c) => refine (moves_call P c _); harmless
  | |- moves (extends ?P) (@node _ ?c) => refine (moves_call P (NodeCall c) _); harmless
  | |- moves (extends ?P) (@host _ ?c) => refine (moves_call P (HostCall c) _); harmless
  | |- moves (extends ?P) (@wallet_call_ _ ?q ?c) => refine (moves_call P (WalletCall q c) _); harmless
  | |- moves (adds ?P) (@wcall _ ?l ?c) => refine (adds_wcall P l c _); intros ?; harmless
  end.
#[export] Hint Extern 1 (moves (extends _) _) => adds_call : moves.
#[export] Hint Extern 1 (moves (adds _) _) => adds_call : moves.
#[export] Hint Extern 2 (moves (adds _) (modify _)) => apply adds_modify; intros []; reflexivity : moves.
#[export] Hint Resolve adds_W adds_result : moves.

Section adds.
Context `{Env} `{Mac} `{Hash} `{Aead} (P : ext_call -> Prop).
Context (HP : forall c, routine c = true -> P c).

Lemma adds_write p d perm : moves (extends P) (os_write_file p d perm).
Proof. unfold os_write_file. moves_tac. Qed.
Lemma adds_rename o n : moves (extends P) (os_rename o n).
Proof. unfold os_rename. moves_tac. Qed.
Lemma adds_seal key p : moves (extends P) (sealString key p).
Proof. unfold sealString, rand_read. moves_tac. Qed.
#[local] Hint Resolve adds_write adds_rename adds_seal : moves.

Lemma adds_randomID : moves (extends P) randomID.
Proof. unfold randomID, rand_read. moves_tac. Qed.
Lemma adds_time_now : moves (extends P) time_now.
Proof. unfold time_now. auto with moves. Qed.
#[local] Hint Resolve adds_randomID adds_time_now : moves.
Lemma adds_issueTokens t w : moves (adds P) (issueTokens t w).
Proof. unfold issueTokens. moves_tac. Qed.
Lemma adds_saveSnapshotLocked l : moves (adds P) (saveSnapshotLocked l).
Proof. unfold saveSnapshotLocked. moves_tac. Qed.
Lemma adds_saveStateLocked : moves (adds P) saveStateLocked.
Proof. unfold saveStateLocked. moves_tac. Qed.
Lemma adds_walletProtoLocked l : moves (adds P) (walletProtoLocked l).
Proof. unfold walletProtoLocked, walletAddresses. moves_tac. Qed.
#[local] Hint Resolve adds_issueTokens adds_saveSnapshotLocked adds_saveStateLocked adds_walletProtoLocked : moves.
Lemma adds_saveSnapshot l : moves (adds P) (saveSnapshot l).
Proof. unfold saveSnapshot. moves_tac. Qed.
Lemma adds_wallet t w : moves (adds P) (Registry.wallet t w).
Proof. unfold Registry.wallet. moves_tac. Qed.
Lemma adds_openStore m w : moves (adds P) (openStore m w).
Proof. unfold openStore. moves_tac. Qed.
Lemma adds_newWalletMeta t w n m p : moves (adds P) (newWalletMeta t w n m p).
Proof. unfold newWalletMeta. moves_tac. Qed.
#[local] Hint Resolve adds_saveSnapshot adds_wallet adds_openStore adds_newWalletMeta : moves.
Lemma adds_attach m w : moves (adds P) (attachWalletLocked m w).
Proof. unfold attachWalletLocked, alloc, registerWalletEvents. moves_tac. Qed.
Lemma adds_tokensForWallet m : moves (adds P) (tokensForWallet m).
Proof. unfold tokensForWallet. moves_tac. Qed.
#[local] Hint Resolve adds_attach adds_tokensForWallet : moves.
Lemma adds_finishWallet m l : moves (adds P) (finishWallet m l).
Proof. unfold finishWallet. moves_tac. Qed.
Lemma adds_wallet_protos ws keys : moves (adds P) (wallet_protos ws keys).
Proof. induction keys; cbn [wallet_protos]; moves_tac. Qed.
Lemma adds_validateJWT token typ : moves (adds P) (validateJWT token typ).
Proof.
  unfold validateJWT. destruct (split_char "." token) as [|? [|? [|? [|]]]]; moves_tac.
Qed.
#[local] Hint Resolve adds_finishWallet adds_wallet_protos adds_validateJWT : moves.
Lemma adds_authorize ctx method req : moves (adds P) (authorize ctx method req).
Proof. unfold authorize, authSubjectFromContext, bootstrapAllowed. moves_tac. Qed.
Lemma adds_tx_inputs tx ins : forall i, moves (adds P) (tx_inputs tx i ins).
Proof. induction ins; intros i; cbn [tx_inputs]; moves_tac. Qed.
Lemma adds_tx_outputs outs : forall i, moves (adds P) (tx_outputs i outs).
Proof. induction outs; intros i; cbn [tx_outputs]; moves_tac. Qed.
Lemma adds_outPoints src : moves (adds P) (outPoints src).
Proof. induction src; cbn [outPoints]; moves_tac. Qed.
#[local] Hint Resolve adds_tx_inputs adds_tx_outputs adds_outPoints : moves.
End adds.
#[export] Hint Resolve adds_write adds_rename adds_seal adds_randomID adds_time_now adds_issueTokens
  adds_saveSnapshotLocked adds_saveStateLocked adds_walletProtoLocked adds_saveSnapshot adds_wallet
  adds_openStore adds_newWalletMeta adds_attach adds_tokensForWallet adds_finishWallet adds_wallet_protos
  adds_validateJWT adds_tx_inputs adds_tx_outputs adds_outPoints adds_authorize : moves.

Section methods.
Context `{Env} `{Mac} `{Hash} `{Aead} (P : ext_call -> Prop).
Context (HS : forall c, spending c = false -> P c).
Lemma routine_allowed c : routine c = true -> P c.
Proof. intros Hc. by apply HS, routine_spends_not. Qed.
#[local] Hint Resolve routine_allowed : moves.

(** Every method only adds to the history, and only the methods that spend add
    a call that does. *)
Lemma unary_adds r h req : unary r = Some h -> (spend_rpc r = true -> forall c, P c) -> moves (adds P) (h req).
Proof.
  pose proof routine_allowed as HP.
  intros Hr Hs. destruct r; injection Hr as <- || discriminate Hr; try done;
    (specialize (Hs eq_refl) || clear Hs);
    match goal with |- moves _ ?m => unfold_head m end; cbv zeta; moves_tac.
Qed.
Lemma server_call_adds ctx r h req : unary r = Some h -> (spend_rpc r = true -> forall c, P c) ->
  moves (adds P) (server_call ctx r h req).
Proof.
  pose proof routine_allowed as HP. intros Hr Hs. pose proof (unary_adds r h req Hr Hs). unfold server_call, serve, UnaryAuthInterceptor. moves_tac.
Qed.
End methods.

(** ** Reading the history *)

Section observed.
Context `{Env} {X : Type} (sel : forall c, ext_ret c -> list X).

(** What [sel] makes of each call among [new], made after [tr], and its answer. *)
Fixpoint observed (tr new : list ext_call) : list X :=
  match new with
  | [] => []
  | c :: new => sel c (oracle tr c) ++ observed (tr ++ [c]) new
  end.
Lemma observed_app new1 : forall tr new2,
  observed tr (new1 ++ new2) = observed tr new1 ++ observed (tr ++ new1) new2.
Proof.
  induction new1 as [|c new1 IH]; intros tr new2; cbn [observed].
  { by rewrite app_nil_r. }
  change ((c :: new1) ++ new2) with (c :: (new1 ++ new2)). cbn [observed].
  by rewrite IH, <- !app_assoc.
Qed.
Lemma observed_none new : Forall (fun c => forall r, sel c r = []) new -> forall tr, observed tr new = [].
Proof. induction 1 as [|c new Hc _ IH]; intros tr; cbn [observed]; [done|]. by rewrite Hc, IH. Qed.
End observed.

(** ** Payments *)

Section payments.
Context `{Env} `{Mac} `{Hash} `{Aead}.

(** Whether a spending call succeeded. *)
Definition answered_ok (c : ext_call) : ext_ret c -> bool :=
  match c with
  | WalletCall _ w =>
      match w return wallet_ret w -> bool with
      | WSend _ _ | WSendAll _ => is_ok
      | SpendToOutputsDetailed _ | SpendToOutputsDetailedFrom _ _ | SpendToOutputsDetailedIgnoringFixed _ => is_ok
      | _ => fun _ => false
      end
  | NodeCall n =>
      match n return node_ret n -> bool with
      | SpendCustom _ _ | NodeBroadcastRaw _ => is_ok
      | _ => fun _ => false
      end
  | HostCall _ => fun _ => false
  end.
(** The successful spending calls of a history. *)
Definition spent (c : ext_call) (r : ext_ret c) : list ext_call := if answered_ok c r then [c] else [].
Definition payments (s : Service) : list ext_call := observed spent [] (history s).

Lemma answered_spending c (r : ext_ret c) : spending c = false -> answered_ok c r = false.
Proof. by destruct c as [q []|[]|]. Qed.
Lemma payments_same s s' : adds (fun c => spending c = false) s s' -> payments s' = payments s.
Proof.
  intros (new & E & Hn). unfold payments, history. rewrite E, observed_app, (observed_none _ new), app_nil_r; [done|].
  eapply Forall_impl; [exact Hn|]. intros c Hc r. unfold spent. by rewrite answered_spending.
Qed.
Lemma payments_log c s : payments (set_world (log c (sv_world s)) s) =
  payments s ++ (if answered_ok c (oracle (history s) c) then [c] else []).
Proof. unfold payments, history. cbn. rewrite observed_app. cbn [observed app]. by rewrite app_nil_r. Qed.

(** A spend from chosen coins is one payment when it succeeds and none when it
    does not. *)
Lemma SpendToOutputs_pays t w outs s x s' : registry_ok s ->
  SpendToOutputs (pb.MkSpendToOutputsRequest t w outs false []) s = (x, s') ->
  match x with
  | Ok _ => exists q, acts_on s t w q /\
      payments s' = payments s ++ [WalletCall q (SpendToOutputsDetailed (outputSpecs outs))]
  | Err _ => payments s' = payments s
  end.
Proof.
  intros Hok E. unfold SpendToOutputs in E.
  cbn [pb.SpendToOutputsRequest_TenantId pb.SpendToOutputsRequest_WalletId pb.SpendToOutputsRequest_Outputs
    pb.SpendToOutputsRequest_FromInputs pb.SpendToOutputsRequest_IgnoreFixedOutputs length Nat.ltb Nat.leb] in E.
  destruct (Registry.wallet t w s) as [[l|e] s1] eqn:Ew.
  2: { rewrite (bind_run_err _ _ _ _ _ Ew) in E. injection E as <- <-. apply payments_same.
       pose proof (adds_wallet (fun c => spending c = false) t w s) as Ha. by rewrite Ew in Ha. }
  erewrite bind_run in E by exact Ew. apply wallet_ok in Ew as (_ & _ & Hl & ->).
  destruct (reg_ptr _ Hok _ _ Hl) as (tw & Htw & _).
  unfold mbind at 1, M_bind at 1, wcall_or, on_error in E. cbv zeta in E.
  unfold mbind at 1, M_bind at 1 in E. rewrite (wcall_run l _ tw) in E by done.
  set (c := SpendToOutputsDetailed (outputSpecs outs)) in *.
  pose proof (payments_log (WalletCall (tw_w tw) c) s) as Hp. unfold history in Hp. change (answered_ok (WalletCall (tw_w tw) c)) with (@is_ok (option bsv.SpendDetail)) in Hp.
  cbv iota beta in E. unfold lift in E.
  destruct (oracle (w_trace (sv_world s)) (WalletCall (tw_w tw) c)) as [detail|e] eqn:Eo.
  - cbn [map_error] in E. set (s1 := set_world _ s) in *.
    pose proof (adds_saveSnapshot (fun c => spending c = false) routine_spends_not l s1) as Ha.
    unfold saveSnapshot in *. unfold mbind, M_bind, try_ in *. destruct (saveSnapshotLocked l s1) as [y s2].
    injection E as <- <-. apply payments_same in Ha. change (payments s2 = payments s1) in Ha. exists (tw_w tw).
    split; [by exists l, tw|]. by rewrite Ha, Hp.
  - cbn [map_error] in E. injection E as <- <-. by rewrite Hp, app_nil_r.
Qed.
End payments.
