(* ===== verification/Startup.v ===== *)
(** * Starting the server and stopping it: [main] of cmd/bsvms

    From the flags to a listening server, in the order of the code. A failure
    is [log.Fatalf]: the process exits with the error, and what was deferred does
    not run. The rounds of each peer's connection loop are fuel; the answer is
    [None] when they run out, which [start_up_total] excludes. *)

From S2P Require Import Prelude GoStrings GoTime GoPath Encoding Crypto Proto Sdk Ids World Encryption.
From S2P Require Import Options Service Auth Registry RegistrySpec Handlers HandlersSpec Lifecycle.
From S2P Require Import Launch History.

Section startup.
Context `{Env} `{Mac} `{Hash} `{Aead}.

(** [filepath.Abs] *)
Definition filepath_Abs (path : string) : M world string :=
  if rooted path then mret (Clean path) else
  wd ← call_result (host Getwd);
  mret (Join wd path).

(** The state directory and the node. *)
Definition prepare (f : flags) : M world string :=
  absDataDir ← on_error (EWrap "resolve data dir") (filepath_Abs (f_dataDir f));
  _ ← on_error (EWrap "create data dir") (os_mkdir_all absDataDir 448 (* 0o700 *));
  _ ← node (NewNode (network (f_networkName f)));
  mret absDataDir.

(** The loop over the peers. *)
Fixpoint connect_peers (fuel : nat) (peers : list string) : M world (option unit) :=
  match peers with
  | [] => mret (Some ())
  | peer :: rest =>
      r ← connectPeerWithRetry fuel peer (30 * Second);
      match (r : option (result unit)) with
      | None => mret None
      | Some (Err err) => throw (EWrap ("connect peer " +:+ peer) err)
      | Some (Ok _) => connect_peers fuel rest
      end
  end.
Definition join_network (fuel : nat) (f : flags) : M world (option unit) :=
  if f_connect f then
    _ ← on_error (EWrap "connect BSV node") (call_result (node NodeConnect));
    connect_peers fuel (splitList (f_peers f))
  else mret (Some ()).

(** The server that listens: the service, and whether the interceptors are
    installed in front of it. *)
Record server := MkServer { srv_service : Service; srv_intercepted : bool }.

(** Opening the port; the interceptors; the line that says where it listens. *)
Definition listen (f : flags) (svc : Service) : M world server :=
  _ ← on_error (EWrap ("listen " +:+ f_addr f)) (call_result (host (NetListen (f_addr f))));
  let intercepted := Service_AuthEnabled svc in
  _ ← node Network;
  w ← gets (fun w => w);
  mret (MkServer (set_world w svc) intercepted).

Definition start_up (fuel : nat) (f : flags) : M world (option server) :=
  absDataDir ← prepare f;
  joined ← join_network fuel f;
  match (joined : option unit) with
  | None => mret None
  | Some _ =>
      svc ← on_error (EWrap "init service") (NewWithOptions absDataDir (options_of f));
      srv ← listen f svc;
      mret (Some srv)
  end.

(** What follows [server.Serve]: a graceful stop runs what was deferred, an
    error does not. *)
Definition stopped (f : flags) (served : option error) : M Service unit :=
  match served with
  | Some err => throw (EWrap "serve grpc" err)
  | None => _ ← Close; if f_connect f then W (node NodeDisconnect) else mret ()
  end.

(** A unary call on the server: through the interceptor where it is installed. *)
Definition srv_call (ctx : context) (srv : server) (r : rpc) (h : rpc_request r -> M Service (rpc_response r))
    (req : rpc_request r) : result (rpc_response r) * Service :=
  if srv_intercepted srv then serve ctx r h req (srv_service srv) else h req (srv_service srv).

(** ** Joining the network *)

(** What the process shows of itself outside: the peers that accepted a
    connection, and the port once it is open. *)
Inductive contact := Peer (address : string) | Port (address : string).
Definition contact_of (c : ext_call) : ext_ret c -> list contact :=
  match c with
  | NodeCall n =>
      match n return node_ret n -> list contact with
      | NodeConnectPeer p => fun r => if is_ok (r : result unit) then [Peer p] else []
      | _ => fun _ => []
      end
  | HostCall h =>
      match h return host_ret h -> list contact with
      | NetListen a => fun r => if is_ok (r : result unit) then [Port a] else []
      | _ => fun _ => []
      end
  | WalletCall _ _ => fun _ => []
  end.

(** [w'] continues the history of [w], with these contacts made on the way. *)
Definition contacts (cs : list contact) (w w' : world) : Prop :=
  exists new, w_trace w' = w_trace w ++ new /\ observed contact_of (w_trace w) new = cs.
Lemma contacts_trans ps qs w1 w2 w3 : contacts ps w1 w2 -> contacts qs w2 w3 -> contacts (ps ++ qs) w1 w3.
Proof.
  intros (n1 & E1 & <-) (n2 & E2 & <-). exists (n1 ++ n2). split; [by rewrite E2, E1, app_assoc|].
  by rewrite observed_app, <- E1.
Qed.
Lemma contacts_log c w : contacts (contact_of c (oracle (w_trace w) c)) w (log c w).
Proof. exists [c]. split; [done|]. cbn [observed]. by rewrite app_nil_r. Qed.
Lemma contacts_none w w' : extends (fun c => joining c = false) w w' -> contacts [] w w'.
Proof.
  intros (new & E & Hn). exists new. split; [done|]. apply observed_none.
  eapply Forall_impl; [exact Hn|]. by intros [|[]|[]].
Qed.

(** Thirty seconds do not pass between two readings of the clock. *)
Definition prompt_clock : Prop := forall tr,
  (oracle (tr ++ [HostCall TimeNow]) (HostCall TimeNow) < oracle tr (HostCall TimeNow) + 30 * Second)%Z.

(** One peer: it joins exactly when the answer is success. *)
Lemma retryPeer_joins fuel peer deadline : forall last w r w',
  retryPeer fuel peer deadline last w = (Ok (Some r), w') ->
  (r = Ok () -> contacts [Peer peer] w w' \/ contacts [] w w' /\ last = None /\ (deadline <= oracle (w_trace w) (HostCall TimeNow))%Z) /\
  (is_ok r = false -> contacts [] w w').
Proof.
  induction fuel as [|fuel IH]; intros last w r w'; cbn [retryPeer]; [done|].
  unfold time_now, node, host, call, mbind, M_bind. cbn [w_trace log].
  pose proof (contacts_log (HostCall TimeNow) w) as J1. cbn [contact_of] in J1.
  destruct (Z.ltb_spec (oracle (w_trace w) (HostCall TimeNow)) deadline) as [Hlt|Hge].
  - set (w1 := log (HostCall TimeNow) w) in *. pose proof (contacts_log (NodeCall (NodeConnectPeer peer)) w1) as J2.
    cbn [contact_of] in J2. change (w_trace w1) with (w_trace w ++ [HostCall TimeNow]) in J2 |- *.
    destruct (oracle (w_trace w ++ [HostCall TimeNow]) (NodeCall (NodeConnectPeer peer))) as [[]|e] eqn:Eo.
    + intros [= <- <-]. split; [|done]. intros _. left. exact (contacts_trans _ _ _ _ _ J1 J2).
    + set (w2 := log (NodeCall _) w1) in *. intros Hr. apply IH in Hr as [Hok Herr].
      pose proof (contacts_log (HostCall (Sleep Second)) w2) as J3. cbn [contact_of] in J3.
      pose proof (contacts_trans _ _ _ _ _ (contacts_trans _ _ _ _ _ J1 J2) J3) as J. cbn in J.
      split.
      * intros Er. destruct (Hok Er) as [Hj|(_ & Hl & _)]; [|done]. left. exact (contacts_trans _ _ _ _ _ J Hj).
      * intros Er. exact (contacts_trans _ _ _ _ _ J (Herr Er)).
  - destruct last as [e|]; intros [= <- <-]; split; try done. intros _. by right.
Qed.

Lemma connectPeer_joins fuel peer w r w' : connectPeerWithRetry fuel peer (30 * Second) w = (Ok (Some r), w') ->
  (r = Ok () -> contacts [Peer peer] w w' \/ contacts [] w w' /\ ~ prompt_clock) /\ (is_ok r = false -> contacts [] w w').
Proof.
  unfold connectPeerWithRetry, time_now, host, call, mbind, M_bind. intros E.
  pose proof (contacts_log (HostCall TimeNow) w) as J1. cbn [contact_of] in J1.
  apply retryPeer_joins in E as [Hok Herr]. split; [|intros Hr; exact (contacts_trans _ _ _ _ _ J1 (Herr Hr))].
  intros Hr. destruct (Hok Hr) as [J|(J & _ & Hlate)]; [left|right]; try exact (contacts_trans _ _ _ _ _ J1 J).
  split; [exact (contacts_trans _ _ _ _ _ J1 J)|]. intros Hp. specialize (Hp (w_trace w)). cbn in Hlate. lia.
Qed.

Lemma connectPeer_total fuel peer w : clock_advances -> 31 <= fuel ->
  exists r w', connectPeerWithRetry fuel peer (30 * Second) w = (Ok (Some r), w').
Proof.
  intros Hc Hf. unfold connectPeerWithRetry, time_now, host, call, mbind, M_bind.
  apply retryPeer_total; [done| |lia]. cbn [w_trace log].
  pose proof (ca_mono Hc (w_trace w) (HostCall TimeNow)). unfold Second in *. lia.
Qed.

(** With 31 rounds each, the peers are dealt with: those that joined are among
    those asked for, in order, and all of them on success, when the clock is read
    twice within the timeout. *)
Lemma connect_peers_ends fuel peers : clock_advances -> 31 <= fuel -> forall w,
  exists r w' ps, connect_peers fuel peers w = (r, w') /\ r <> Ok None /\
    contacts (Peer <$> ps) w w' /\ ps `sublist_of` peers /\ (is_ok r = true -> prompt_clock -> ps = peers).
Proof.
  intros Hc Hf. induction peers as [|peer rest IH]; intros w; cbn [connect_peers].
  { exists (Ok (Some ())), w, []. split; [done|]. split; [done|]. split; [exists []; by rewrite app_nil_r|done]. }
  destruct (connectPeer_total fuel peer w Hc Hf) as (r1 & w1 & E). rewrite (bind_run _ _ _ _ _ E).
  apply connectPeer_joins in E as [Hok Herr]. destruct r1 as [[]|e].
  - destruct (IH w1) as (r & w' & ps & -> & Hr & J & Hs & Hp). exists r, w'.
    destruct (Hok eq_refl) as [Jp|[Jn Hlate]].
    + exists (peer :: ps). split; [done|]. split; [done|]. split; [exact (contacts_trans _ _ _ _ _ Jp J)|].
      split; [by apply sublist_skip|]. intros Hr' Hc'. by rewrite (Hp Hr' Hc').
    + exists ps. split; [done|]. split; [done|]. split; [exact (contacts_trans _ _ _ _ _ Jn J)|].
      split; [by apply sublist_cons|done].
  - do 2 eexists. exists []. split; [done|]. split; [done|]. split; [by apply Herr|]. split; [apply sublist_nil_l|done].
Qed.
Lemma join_network_ends fuel f : clock_advances -> 31 <= fuel -> forall w,
  exists r w' ps, join_network fuel f w = (r, w') /\ r <> Ok None /\
    contacts (Peer <$> ps) w w' /\ ps `sublist_of` (if f_connect f then splitList (f_peers f) else []) /\
    (is_ok r = true -> prompt_clock -> ps = if f_connect f then splitList (f_peers f) else []).
Proof.
  intros Hc Hf w. unfold join_network. destruct (f_connect f).
  2: { do 2 eexists. exists []. split; [done|]. split; [done|]. split; [exists []; by rewrite app_nil_r|done]. }
  set (w1 := log (NodeCall NodeConnect) w).
  pose proof (contacts_log (NodeCall NodeConnect) w) as J1. cbn [contact_of] in J1.
  destruct (oracle (w_trace w) (NodeCall NodeConnect)) as [[]|e] eqn:Eo.
  - assert (on_error (EWrap "connect BSV node") (call_result (node NodeConnect)) w = (Ok (), w1)) as E.
    { unfold on_error, call_result, node, call, lift, mbind, M_bind. by rewrite Eo. }
    destruct (connect_peers_ends fuel (splitList (f_peers f)) Hc Hf w1) as (r & w' & ps & Er & Hr & J & Hs & Hp).
    exists r, w', ps. rewrite (bind_run _ _ _ _ _ E). split; [done|]. split; [done|].
    split; [exact (contacts_trans _ _ _ _ _ J1 J)|done].
  - assert (on_error (EWrap "connect BSV node") (call_result (node NodeConnect)) w
      = (Err (EWrap "connect BSV node" e), w1)) as E.
    { unfold on_error, call_result, node, call, lift, mbind, M_bind. by rewrite Eo. }
    rewrite (bind_run_err _ _ _ _ _ E). do 2 eexists. exists []. split; [done|]. split; [done|].
    split; [exact J1|]. split; [apply sublist_nil_l|done].
Qed.

(** ** Setting up the service joins nothing *)

Section quiet.
Context (P : ext_call -> Prop) (HP : forall c, routine c = true -> P c).
Lemma adds_read p : moves (extends P) (os_read_file p).
Proof. unfold os_read_file. moves_tac. Qed.
Lemma adds_mkdir p perm : moves (extends P) (os_mkdir_all p perm).
Proof. unfold os_mkdir_all. moves_tac. Qed.
Hint Resolve adds_read adds_mkdir : moves.
Lemma adds_secret p : moves (extends P) (loadOrCreateSecret p).
Proof. unfold loadOrCreateSecret, rand_read. moves_tac. Qed.
Hint Resolve adds_secret : moves.
Lemma adds_withDefaults o dir : moves (extends P) (withDefaults o dir).
Proof. unfold withDefaults. cbv zeta. moves_tac. Qed.
Lemma adds_loadState : moves (adds P) loadState.
Proof. unfold loadState. moves_tac. Qed.
Lemma adds_registerNodeEvents : moves (adds P) registerNodeEvents.
Proof. unfold registerNodeEvents. moves_tac. Qed.
Lemma adds_restoreLoadedWallet m : moves (adds P) (restoreLoadedWallet m).
Proof. unfold restoreLoadedWallet. moves_tac. Qed.
Hint Resolve adds_loadState adds_registerNodeEvents adds_restoreLoadedWallet : moves.
Lemma adds_load_wallets n : forall i b, moves (adds P) (load_wallets i n b).
Proof. induction n as [|n IH]; intros i b; cbn [load_wallets]; moves_tac. Qed.
Hint Resolve adds_load_wallets : moves.
Lemma adds_start : moves (adds P) start.
Proof. unfold start. moves_tac. Qed.
Lemma adds_NewWithOptions dir o : moves (extends P) (NewWithOptions dir o).
Proof.
  intros w. unfold NewWithOptions. pose proof (adds_withDefaults o dir w) as Hd.
  destruct (withDefaults o dir w) as [[o'|e] w1]; [|done]. cbn in Hd.
  pose proof (adds_start (new_service dir o' w1)) as Hst. destruct (start _) as [r s].
  etrans; [exact Hd|]. by destruct r.
Qed.
End quiet.

(** ** The whole start *)

Lemma contacts_quiet {A} (m : M world A) w r w' : (forall P, (forall c, routine c = true -> P c) -> moves (extends P) m) ->
  m w = (r, w') -> contacts [] w w'.
Proof.
  intros Hm E. apply contacts_none. specialize (Hm (fun c => joining c = false)). 
  assert (forall c, routine c = true -> joining c = false) as HP.
  { intros c. unfold routine. rewrite andb_true_iff, !negb_true_iff. by intros []. }
  specialize (Hm HP w). by rewrite E in Hm.
Qed.

(** Opening the port either shows the port or fails. *)
Lemma listen_run f svc w : exists r w', listen f svc w = (r, w') /\ w_fs w' = w_fs w /\
  contacts (if is_ok r then [Port (f_addr f)] else []) w w' /\
  (forall srv, r = Ok srv -> srv = MkServer (set_world w' svc) (Service_AuthEnabled svc)).
Proof.
  pose proof (contacts_log (HostCall (NetListen (f_addr f))) w) as J1. cbn [contact_of] in J1.
  unfold listen, on_error, call_result, host, node, call, lift, gets, mbind, M_bind.
  destruct (oracle (w_trace w) (HostCall (NetListen (f_addr f)))) as [[]|e]; cbn -[contacts]; do 2 eexists.
  - split; [reflexivity|]. split; [done|]. split; [|by intros srv [= <-]].
    exact (contacts_trans _ _ _ _ _ J1 (contacts_log (NodeCall Network) _)).
  - split; [reflexivity|]. split; [done|]. split; [exact J1|done].
Qed.

(** Until the service is made, no file changes. *)
Definition same_files (w w' : world) : Prop := w_fs w' = w_fs w.
#[local] Instance same_files_preorder : PreOrder same_files.
Proof. split; [done|]. intros w1 w2 w3. unfold same_files. congruence. Qed.
Lemma moves_call_files c : moves same_files (call c).
Proof. done. Qed.
#[local] Hint Extern 1 (moves same_files _) => match goal with
  | |- moves _ (World.call ?c) => exact (moves_call_files c)
  | |- moves _ (node ?c) => exact (moves_call_files (NodeCall c))
  | |- moves _ (host ?c) => exact (moves_call_files (HostCall c))
  end : moves.
Lemma retryPeer_files fuel peer deadline : forall last, moves same_files (retryPeer fuel peer deadline last).
Proof.
  induction fuel as [|fuel IH]; intros last; cbn [retryPeer]; [by auto with moves|]. unfold time_now. moves_tac.
Qed.
#[local] Hint Resolve retryPeer_files : moves.
Lemma connect_peers_files fuel peers : moves same_files (connect_peers fuel peers).
Proof.
  induction peers as [|peer rest IH]; cbn [connect_peers]; [by auto with moves|].
  unfold connectPeerWithRetry, time_now. moves_tac.
Qed.
#[local] Hint Resolve connect_peers_files : moves.
Lemma join_network_files fuel f : moves same_files (join_network fuel f).
Proof. unfold join_network, call_result. moves_tac. Qed.
Lemma prepare_files f : moves same_files (prepare f).
Proof.
  assert (moves same_files (filepath_Abs (f_dataDir f))) by (unfold filepath_Abs, call_result; moves_tac).
  assert (forall p n, moves same_files (os_mkdir_all p n)) by (intros; unfold os_mkdir_all; moves_tac).
  unfold prepare. moves_tac.
Qed.

(** How far [start_up] got: what it showed, and what it serves on success. *)
Record started (f : flags) (w w' : world) (srv : server) : Prop := {
  st_made : exists dir svc w1 w2, NewWithOptions dir (options_of f) w1 = (Ok svc, w2) /\ w_fs w1 = w_fs w /\
    (exists wa, filepath_Abs (f_dataDir f) w = (Ok dir, wa)) /\
    srv_service srv = set_world w' svc /\ w_fs w' = w_fs w2;
  st_intercepted : srv_intercepted srv = Service_AuthEnabled (srv_service srv);
}.
Definition wanted_peers (f : flags) : list string := if f_connect f then splitList (f_peers f) else [].
Definition start_up_end (f : flags) (w : world) (r : result (option server)) (w' : world) : Prop :=
  exists ps, ps `sublist_of` wanted_peers f /\
    contacts ((Peer <$> ps) ++ if is_ok r then [Port (f_addr f)] else []) w w' /\
    (is_ok r = true -> (prompt_clock -> ps = wanted_peers f) /\ exists srv, r = Ok (Some srv) /\ started f w w' srv).

Lemma adds_prepare P f : (forall c, routine c = true -> P c) -> moves (extends P) (prepare f).
Proof.
  intros HP. assert (moves (extends P) (filepath_Abs (f_dataDir f))) by (unfold filepath_Abs; moves_tac).
  pose proof (adds_mkdir P HP). unfold prepare. moves_tac.
Qed.
Lemma prepare_dir f w dir wa : prepare f w = (Ok dir, wa) -> exists wb, filepath_Abs (f_dataDir f) w = (Ok dir, wb).
Proof.
  intros E. unfold prepare in E. inv_bind. eexists.
  match goal with H : on_error _ (filepath_Abs _) _ = _ |- _ => exact (on_error_ok _ _ _ _ _ H) end.
Qed.

Lemma start_up_ends fuel f w : clock_advances -> 31 <= fuel ->
  exists r w', start_up fuel f w = (r, w') /\ start_up_end f w r w'.
Proof.
  intros Hc Hf. unfold start_up.
  assert (forall e w', contacts [] w w' -> start_up_end f w (Err e) w') as Herr.
  { intros e w' Hw. exists []. split; [apply sublist_nil_l|]. by split. }
  destruct (prepare f w) as [[dir|e] wa] eqn:Ea.
  2: { rewrite (bind_run_err _ _ _ _ _ Ea). do 2 eexists. split; [done|]. apply Herr.
       eapply contacts_quiet; [|exact Ea]. intros P. apply adds_prepare. }
  rewrite (bind_run _ _ _ _ _ Ea).
  pose proof (prepare_files f w) as Fa. rewrite Ea in Fa.
  assert (contacts [] w wa) as Ja by (eapply contacts_quiet; [|exact Ea]; intros P; apply adds_prepare).
  destruct (join_network_ends fuel f Hc Hf wa) as (rj & wj & ps & Ej & Hj & Jj & Hs & Hp).
  pose proof (join_network_files fuel f wa) as Fj. rewrite Ej in Fj.
  pose proof (contacts_trans _ _ _ _ _ Ja Jj) as J. cbn [app] in J.
  assert (forall e w', contacts [] wj w' -> start_up_end f w (Err e) w') as Herr'.
  { intros e w' Hw. exists ps. split; [done|]. split; [|done]. exact (contacts_trans _ _ _ _ _ J Hw). }
  destruct rj as [[[]|]|e]; [|done|].
  2: { rewrite (bind_run_err _ _ _ _ _ Ej). do 2 eexists. split; [done|]. apply Herr'. exists []. by rewrite app_nil_r. }
  rewrite (bind_run _ _ _ _ _ Ej).
  destruct (NewWithOptions dir (options_of f) wj) as [[svc|e] wn] eqn:En.
  2: { erewrite bind_run_err by (unfold on_error; rewrite En; reflexivity). do 2 eexists. split; [done|].
       apply Herr'. eapply contacts_quiet; [|exact En]. intros P HP; exact (adds_NewWithOptions P HP dir _). }
  erewrite bind_run by (unfold on_error; rewrite En; reflexivity).
  assert (contacts [] wj wn) as Jn by (eapply contacts_quiet; [|exact En]; intros P HP; exact (adds_NewWithOptions P HP dir _)).
  destruct (listen_run f svc wn) as (rl & wl & El & Fl & Jl & Hsrv).
  pose proof (contacts_trans _ _ _ _ _ Jn Jl) as Jnl. cbn [app] in Jnl.
  destruct rl as [srv|e].
  2: { rewrite (bind_run_err _ _ _ _ _ El). do 2 eexists. split; [done|]. by apply Herr'. }
  rewrite (bind_run _ _ _ _ _ El). do 2 eexists. split; [reflexivity|].
  exists ps. split; [done|]. split; [exact (contacts_trans _ _ _ _ _ J Jnl)|]. intros _. split; [by apply Hp|].
  exists srv. split; [done|]. rewrite (Hsrv srv eq_refl). split; [|done].
  exists dir, svc, wj, wn. split; [done|]. split; [exact (transitivity Fa Fj)|]. split; [by eapply prepare_dir|done].
Qed.

(** ** The server that listens *)

Lemma srv_call_serve ctx srv r h req : srv_intercepted srv = Service_AuthEnabled (srv_service srv) ->
  srv_call ctx srv r h req = serve ctx r h req (srv_service srv).
Proof.
  intros Hi. rewrite <- server_call_serve. unfold srv_call, server_call. rewrite Hi.
  unfold Service_AuthEnabled, gets, mbind, M_bind. by destruct (AuthEnabled _).
Qed.
Lemma NewWithOptions_auth dir o w s w' : NewWithOptions dir o w = (Ok s, w') -> AuthEnabled (sv_opts s) = AuthEnabled o.
Proof.
  intros E. destruct (NewWithOptions_ok _ _ _ _ _ E) as (_ & _ & _ & _ & _ & w1 & Ew & _).
  by destruct (withDefaults_inv _ _ _ _ _ Ew) as (? & ? & _ & _ & _ & _ & ->).
Qed.
Lemma started_serves f w w' srv : started f w w' srv -> let s := srv_service srv in
  sv_world s = w' /\ registry_ok s /\ resolved (sv_opts s) /\
  Forall (fun m => has_plaintext m = false) (sv_state s) /\
  (forall st, on_disk (w_fs w) (sv_dataDir s) st -> Forall (record_ok (DataKey (sv_opts s))) st ->
     sv_state s = st /\ service_ok s) /\
  srv_intercepted srv = f_authEnabled f /\
  (forall ctx rpc h req, srv_call ctx srv rpc h req = serve ctx rpc h req s).
Proof.
  intros [(dir & svc & w1 & w2 & En & Ef & _ & Es & _) Hi].
  destruct (NewWithOptions_ok _ _ _ _ _ En) as (Hr & Hp & Ho & Ed & _).
  pose proof (srv_call_serve) as Hcall. rewrite Es in *. cbn zeta.
  split; [done|]. split; [destruct Hr; by split|]. split; [done|]. split; [done|]. split; [|split].
  - intros st Hst Hrec. change (on_disk (w_fs w) (sv_dataDir svc) st) in Hst. rewrite Ed, <- Ef in Hst.
    destruct (start_establishes _ _ _ _ _ En) as (_ & _ & _ & Hk). destruct (Hk st Hst Hrec) as [Est Hok]. split; [exact Est|].
    destruct Hok as [[H1' H2'] Hb Hc']. by split.
  - rewrite Hi. unfold Service_AuthEnabled. cbn. by rewrite (NewWithOptions_auth _ _ _ _ _ En).
  - intros ctx rpc h req. rewrite <- Es. apply srv_call_serve. by rewrite Es.
Qed.

(** ** Stopping *)

Definition logs (cs : list ext_call) (w : world) : world := fold_left (fun w c => log c w) cs w.
(** The stores of the registered wallets. *)
Definition open_stores (s : Service) : list store_ptr :=
  omap (fun kl => tw_store <$> sv_heap s !! kl.2) (map_to_list (sv_wallets s)).
Definition closing (f : flags) (order : list store_ptr) : list ext_call :=
  ((fun st => HostCall (StoreClose st)) <$> order) ++ if f_connect f then [NodeCall NodeDisconnect] else [].

Lemma close_all_run order : forall s, Forall (fun l => l < length (sv_heap s)) order ->
  close_all order s = (Ok (), set_world (logs ((fun st => HostCall (StoreClose st)) <$>
    omap (fun l => tw_store <$> sv_heap s !! l) order) (sv_world s)) s).
Proof.
  induction order as [|l order IH]; intros s Ho; cbn [close_all]; [by destruct s|].
  apply Forall_cons_1 in Ho as [Hl Ho]. destruct (lookup_lt_is_Some_2 (sv_heap s) l Hl) as [tw Htw].
  rewrite (bind_run _ _ s tw s) by (apply deref_ok; done). cbn [omap list_omap]. rewrite Htw. cbn [fmap option_fmap option_map].
  set (s1 := set_world (log (HostCall (StoreClose (tw_store tw))) (sv_world s)) s).
  erewrite (bind_run _ _ s _ s1) by reflexivity. rewrite (IH s1) by exact Ho. reflexivity.
Qed.
Lemma stop_closes f s : registry_ok s -> exists order, order ≡ₚ open_stores s /\
  stopped f None s = (Ok (), set_world (logs (closing f order) (sv_world s)) s).
Proof.
  intros Hok. exists (open_stores s). split; [done|]. unfold stopped, Close, closing.
  assert (Close s = (Ok (), set_world (logs ((fun st => HostCall (StoreClose st)) <$> open_stores s) (sv_world s)) s)) as E.
  { unfold Close. rewrite (bind_run _ _ s (sv_wallets s) s) by done. rewrite close_all_run.
    - unfold open_stores. do 6 f_equal. induction (map_to_list (sv_wallets s)) as [|[k l] kl IH]; [done|].
      cbn. by rewrite IH.
    - apply Forall_fmap, Forall_forall. intros [k l] Hin%elem_of_map_to_list. cbn.
      destruct (reg_ptr s Hok k l Hin) as (tw & Htw & _). by eapply lookup_lt_Some. }
  unfold Close in E. rewrite (bind_run _ _ _ _ _ E). unfold logs. rewrite fold_left_app.
  destruct (f_connect f); [|done]. unfold W, zoom, node, call. cbn.
  by match goal with |- context [oracle ?tr ?c] => destruct (oracle tr c) end.
Qed.
End startup.
