(* ===== verification/Proc.v ===== *)
(** * Processes

    A command that runs to an end of its own: it returns, it ends in
    [log.Fatal], it panics, or the fuel of one of its loops runs out. The
    monad, its inversion rules, what a process changes whatever its end
    ([always]), its terminating processes ([ends]) and the retry loop that
    every client of this repository uses. *)

From S2P Require Import Prelude GoTime.

Inductive outcome (A : Type) : Type :=
  | Ret (a : A)
  | Fatal (e : error)   (* log.Fatal: the message is logged, the process exits *)
  | Panic
  | OutOfFuel.
Arguments Ret {A} a. Arguments Fatal {A} e. Arguments Panic {A}. Arguments OutOfFuel {A}.

Definition proc (S A : Type) : Type := S -> outcome A * S.

#[export] Instance proc_ret {S} : MRet (proc S) := fun A a s => (Ret a, s).
#[export] Instance proc_bind {S} : MBind (proc S) := fun A B k m s =>
  match m s with
  | (Ret a, s') => k a s'
  | (Fatal e, s') => (Fatal e, s')
  | (Panic, s') => (Panic, s')
  | (OutOfFuel, s') => (OutOfFuel, s')
  end.

Section proc.
Context {S : Type}.

Definition log_Fatal {A} (e : error) : proc S A := fun s => (Fatal e, s).
Definition panic {A} : proc S A := fun s => (Panic, s).
Definition out_of_fuel {A} : proc S A := fun s => (OutOfFuel, s).
Definition change (f : S -> S) : proc S unit := fun s => (Ret (), f s).
(** [if err != nil { log.Fatalf(...) }] *)
Definition or_fatal {A} (f : error -> error) (r : result A) : proc S A :=
  match r with Ok a => mret a | Err e => log_Fatal (f e) end.
(** An index that may be out of range. *)
Definition or_panic {A} (o : option A) : proc S A :=
  match o with Some a => mret a | None => panic end.

(** [for _, a := range l], threading what the body assigns to. *)
Fixpoint for_range {A B} (body : B -> A -> proc S B) (b : B) (l : list A) : proc S B :=
  match l with
  | [] => mret b
  | a :: rest => b ← body b a; for_range body b rest
  end.

(** ** Running *)

Lemma proc_run {A B} (m : proc S A) (k : A -> proc S B) s a s1 :
  m s = (Ret a, s1) -> (m ≫= k) s = k a s1.
Proof. unfold mbind, proc_bind. by intros ->. Qed.

Lemma proc_ret_inv {A B} (m : proc S A) (k : A -> proc S B) s b s' :
  (m ≫= k) s = (Ret b, s') -> exists a s1, m s = (Ret a, s1) /\ k a s1 = (Ret b, s').
Proof. unfold mbind, proc_bind. destruct (m s) as [[a| | |] s1]; naive_solver. Qed.

(** Either the first part returned, or the whole stopped with it. *)
Definition halted {A} (o : outcome A) : Prop := match o with Ret _ => False | _ => True end.
Lemma proc_cases {A B} (m : proc S A) (k : A -> proc S B) s o s' : (m ≫= k) s = (o, s') ->
  (exists a s1, m s = (Ret a, s1) /\ k a s1 = (o, s')) \/ halted o /\ s' = snd (m s).
Proof. unfold mbind, proc_bind. destruct (m s) as [[a| | |] s1]; naive_solver. Qed.

Lemma proc_assoc {A B C} (m : proc S A) (k : A -> proc S B) (j : B -> proc S C) s :
  ((m ≫= k) ≫= j) s = (m ≫= (fun a => k a ≫= j)) s.
Proof. unfold mbind, proc_bind. by destruct (m s) as [[a| | |] s1]. Qed.

Lemma or_fatal_ret {A} f (r : result A) s a s' :
  or_fatal f r s = (Ret a, s') <-> r = Ok a /\ s' = s.
Proof. destruct r; cbn; unfold mret, proc_ret, log_Fatal; naive_solver. Qed.

Lemma or_panic_ret {A} (o : option A) s a s' :
  or_panic o s = (Ret a, s') <-> o = Some a /\ s' = s.
Proof. destruct o; cbn; unfold mret, proc_ret, panic; naive_solver. Qed.

(** ** What a process changes, whatever its end *)

Definition always (R : S -> S -> Prop) {A} (m : proc S A) : Prop := forall s, R s (snd (m s)).

Section always.
Context (R : S -> S -> Prop) `{!PreOrder R}.

Lemma always_ret {A} (a : A) : always R (mret a : proc S A).
Proof. intros s. cbn. reflexivity. Qed.
Lemma always_bind {A B} (m : proc S A) (k : A -> proc S B) :
  always R m -> (forall a, always R (k a)) -> always R (m ≫= k).
Proof.
  intros Hm Hk s. unfold mbind, proc_bind. specialize (Hm s).
  destruct (m s) as [[a| | |] s1]; cbn in *; [|done..]. transitivity s1; [done|apply Hk].
Qed.
(** The same, where the first part returns only values that satisfy [Q]. *)
Definition returns {A} (Q : A -> Prop) (m : proc S A) : Prop := forall s a s', m s = (Ret a, s') -> Q a.
Lemma always_bind_ret {A B} (Q : A -> Prop) (m : proc S A) (k : A -> proc S B) :
  always R m -> returns Q m -> (forall a, Q a -> always R (k a)) -> always R (m ≫= k).
Proof.
  intros Hm HQ Hk s. unfold mbind, proc_bind. specialize (Hm s).
  destruct (m s) as [[a| | |] s1] eqn:E; cbn in *; [|done..]. transitivity s1; [done|by eapply Hk, HQ].
Qed.
Lemma always_fatal {A} e : always R (log_Fatal e : proc S A).
Proof. intros s. cbn. reflexivity. Qed.
Lemma always_panic {A} : always R (panic : proc S A).
Proof. intros s. cbn. reflexivity. Qed.
Lemma always_fuel {A} : always R (out_of_fuel : proc S A).
Proof. intros s. cbn. reflexivity. Qed.
Lemma always_or_fatal {A} f (r : result A) : always R (or_fatal f r).
Proof. destruct r; cbn; [apply always_ret|apply always_fatal]. Qed.
Lemma always_or_panic {A} (o : option A) : always R (or_panic o).
Proof. destruct o; cbn; [apply always_ret|apply always_panic]. Qed.
Lemma always_range {A B} (body : B -> A -> proc S B) l :
  (forall b a, always R (body b a)) -> forall b, always R (for_range body b l).
Proof.
  intros Hb. induction l as [|a l IH]; intros b; cbn; [apply always_ret|].
  by apply always_bind.
Qed.
End always.

(** ** Ways of stopping that do not happen

    [avoids w P m]: from a state where [P] holds, [m] does not stop in the way
    [w]. A process [ends] when the fuel of its loops does not run out, and is
    [calm] when it does not panic. *)

Inductive stop := SPanic | SFuel.
Definition stopped {A} (o : outcome A) : option stop :=
  match o with Panic => Some SPanic | OutOfFuel => Some SFuel | _ => None end.
Definition avoids (w : stop) (P : S -> Prop) {A} (m : proc S A) : Prop :=
  forall s, P s -> stopped (fst (m s)) <> Some w.

Section avoids.
Context (w : stop) (P : S -> Prop).

Lemma avoids_ret {A} (a : A) : avoids w P (mret a : proc S A).
Proof. by intros s _. Qed.
Lemma avoids_fatal {A} e : avoids w P (log_Fatal e : proc S A).
Proof. by intros s _. Qed.
Lemma avoids_change f : avoids w P (change f).
Proof. by intros s _. Qed.
Lemma avoids_or_fatal {A} f (r : result A) : avoids w P (or_fatal f r).
Proof. by destruct r. Qed.
(** [P] has to survive the first part, which returns only values that satisfy
    [Q]. *)
Lemma avoids_bind_ret {A B} (Q : A -> Prop) (m : proc S A) (k : A -> proc S B) :
  avoids w P m -> always (fun s s' => P s -> P s') m -> returns Q m -> (forall a, Q a -> avoids w P (k a)) ->
  avoids w P (m ≫= k).
Proof.
  intros Hm Hp HQ Hk s Hs. unfold mbind, proc_bind. specialize (Hm s Hs). specialize (Hp s Hs).
  destruct (m s) as [[a| | |] s1] eqn:E; cbn in *; try done. by eapply Hk; [eapply HQ|].
Qed.
End avoids.

Lemma avoids_panic P {A} : avoids SFuel P (panic : proc S A).
Proof. by intros s _. Qed.
Lemma avoids_or_panic P {A} (o : option A) : avoids SFuel P (or_panic o).
Proof. by destruct o. Qed.
Lemma avoids_fuel P {A} : avoids SPanic P (out_of_fuel : proc S A).
Proof. by intros s _. Qed.
Lemma avoids_weaken w (P Q : S -> Prop) {A} (m : proc S A) :
  (forall s, Q s -> P s) -> avoids w P m -> avoids w Q m.
Proof. intros HPQ Hm s Hs. by apply Hm, HPQ. Qed.

(** From any state. *)
Abbreviation never w := (avoids w (fun _ : S => True)).
Lemma never_bind w {A B} (m : proc S A) (k : A -> proc S B) :
  never w m -> (forall a, never w (k a)) -> never w (m ≫= k).
Proof. intros Hm Hk. apply (avoids_bind_ret w _ (fun _ => True)); [done|by intros s|done|intros a _; apply Hk]. Qed.
Lemma never_range w {A B} (body : B -> A -> proc S B) l :
  (forall b a, never w (body b a)) -> forall b, never w (for_range body b l).
Proof.
  intros Hb. induction l as [|a l IH]; intros b; cbn; [apply avoids_ret|]. by apply never_bind.
Qed.

Lemma ends_outcome P {A} (m : proc S A) s : avoids SFuel P m -> P s -> fst (m s) <> OutOfFuel.
Proof. intros Hm Hs E. apply (Hm s Hs). by rewrite E. Qed.
Lemma calm_outcome {A} (m : proc S A) s o s' : never SPanic m -> m s = (o, s') -> o <> Panic.
Proof. intros Hm E ->. apply (Hm s I). by rewrite E. Qed.
End proc.
Abbreviation ends := (avoids SFuel).
Abbreviation never w := (avoids w (fun _ => True)).

(** Invert the binds of a process that returned. *)
Ltac inv_ret_step :=
  match goal with
  | H : (_ ≫= _) _ = (Ret _, _) |- _ =>
      apply proc_ret_inv in H; destruct H as (? & ? & ? & H)
  | H : or_fatal _ _ _ = (Ret _, _) |- _ => apply or_fatal_ret in H as [? ?]
  | H : or_panic _ _ = (Ret _, _) |- _ => apply or_panic_ret in H as [? ?]
  | H : log_Fatal _ _ = (Ret _, _) |- _ => discriminate H
  | H : panic _ = (Ret _, _) |- _ => discriminate H
  | H : out_of_fuel _ = (Ret _, _) |- _ => discriminate H
  | H : mret _ _ = (_, _) |- _ => unfold mret, proc_ret in H; simplify_eq
  | H : change _ _ = (_, _) |- _ => unfold change in H; simplify_eq
  end.
Ltac inv_ret := repeat (inv_ret_step; simplify_eq/=).

Create HintDb proc discriminated.
#[export] Hint Resolve always_ret always_fatal always_panic always_fuel always_or_fatal always_or_panic
  always_range avoids_ret avoids_fatal avoids_panic avoids_fuel avoids_change avoids_or_fatal avoids_or_panic : proc.
#[export] Hint Extern 0 (PreOrder _) => typeclasses eauto : proc.

(** Processes composed of steps already known to stay within a relation. *)
Ltac always_tac :=
  repeat first [ solve [auto 3 with proc]
               | apply always_bind; [by auto with proc | | intros ?]
               | apply always_range; [by auto with proc | intros ? ?]
               | case_match ];
  auto with proc.

Ltac never_tac :=
  repeat first [ solve [auto 3 with proc]
               | apply never_bind; [| intros ?]
               | apply never_range; intros ? ?
               | case_match ];
  auto with proc.

(** ** Clocks and deadlines *)

(** A state with a clock that can be read and that a pause lets pass. *)
Class Clock (S : Type) := {
  time_Now : S -> Z * S;
  time_Sleep : Z -> S -> S;
}.

(** What time does: a reading is at most the time after it, time never goes
    back, and a pause of a second takes one at least. *)
Class ClockLaws (S : Type) `{Clock S} := {
  time : S -> Z;
  now_time : forall s, (time s <= fst (time_Now s) <= time (snd (time_Now s)))%Z;
  sleep_time : forall d s, (time s <= time (time_Sleep d s))%Z;
  sleep_second : forall s, (time s + Second <= time (time_Sleep Second s))%Z;
}.

Section deadline.
Context {S : Type} `{Clock S}.

Definition Now : proc S Z := fun s => let '(t, s') := time_Now s in (Ret t, s').
Definition Sleep (d : Z) : proc S unit := fun s => (Ret (), time_Sleep d s).

(** [for time.Now().Before(deadline) { body; time.Sleep(time.Second) }], where
    the body may return ([inr]) or go round again ([inl]). *)
Fixpoint until_deadline {A B} (fuel : nat) (deadline : Z) (body : A -> proc S (A + B)) (a : A) :
    proc S (A + B) :=
  match fuel with
  | O => out_of_fuel
  | Datatypes.S fuel =>
      now ← Now;
      if (now <? deadline)%Z then
        r ← body a;
        match r with
        | inr b => mret (inr b)
        | inl a =>
            _ ← Sleep Second;
            until_deadline fuel deadline body a
        end
      else mret (inl a)
  end.

(** Rounds that a loop of [seconds] may take, the last test of the deadline
    included. *)
Definition rounds (seconds : Z) : nat := Z.to_nat (seconds + 1).

Lemma never_now w : never w Now.
Proof. intros s _. unfold Now. by destruct (time_Now s). Qed.
Lemma never_sleep w d : never w (Sleep d).
Proof. by intros s _. Qed.
Lemma calm_until {A B} fuel deadline (body : A -> proc S (A + B)) : (forall a, never SPanic (body a)) ->
  forall a, never SPanic (until_deadline fuel deadline body a).
Proof.
  pose proof never_now. pose proof never_sleep.
  intros Hb. induction fuel as [|fuel IH]; intros a; cbn [until_deadline]; [apply avoids_fuel|].
  never_tac.
Qed.

Context `{!ClockLaws S}.

Definition later (s s' : S) : Prop := (time s <= time s')%Z.
#[global] Instance later_preorder : PreOrder later.
Proof. unfold later. split; [intros s; lia|intros s1 s2 s3; lia]. Qed.

Lemma later_now : always later Now.
Proof. intros s. pose proof (now_time s). unfold later, Now. destruct (time_Now s); cbn in *. lia. Qed.
Lemma later_sleep d : always later (Sleep d).
Proof. intros s. apply sleep_time. Qed.
Lemma now_ret s : exists t s', Now s = (Ret t, s') /\ (time s <= t <= time s')%Z.
Proof. pose proof (now_time s). unfold Now. destruct (time_Now s) as [t s']. by exists t, s'. Qed.

Lemma later_until {A B} fuel deadline (body : A -> proc S (A + B)) :
  (forall a, always later (body a)) -> forall a, always later (until_deadline fuel deadline body a).
Proof.
  pose proof later_now. pose proof later_sleep.
  intros Hb. induction fuel as [|fuel IH]; intros a; cbn [until_deadline]; always_tac.
Qed.

(** Enough fuel for the seconds left is enough: the loop of a body that ends
    ends. *)
Lemma until_deadline_ends {A B} (body : A -> proc S (A + B)) :
  (forall a, always later (body a)) -> (forall a, never SFuel (body a)) ->
  forall fuel deadline a s, (deadline <= time s + (Z.of_nat fuel - 1) * Second)%Z -> (0 < fuel)%nat ->
  stopped (fst (until_deadline fuel deadline body a s)) <> Some SFuel.
Proof.
  intros Hl He. induction fuel as [|fuel IH]; intros deadline a s Hd Hf; [lia|]. cbn [until_deadline].
  destruct (now_ret s) as (t & s1 & En & Ht). erewrite proc_run by exact En.
  destruct (Z.ltb_spec t deadline) as [Hlt|]; [|done].
  unfold mbind at 1, proc_bind at 1. pose proof (Hl a s1) as Hl1. pose proof (He a s1 I) as He1.
  destruct (body a s1) as [[[a1|b]| | |] s2]; try done. cbn [snd] in Hl1. unfold later in Hl1.
  erewrite proc_run by reflexivity. pose proof (sleep_second s2). replace (Z.of_nat (Datatypes.S fuel) - 1)%Z with (Z.of_nat fuel) in Hd by lia.
  unfold Second in *. apply IH; lia.
Qed.

Lemma rounds_enough seconds t t' : (0 <= seconds)%Z -> (t <= t')%Z ->
  (t + seconds * Second <= t' + (Z.of_nat (rounds seconds) - 1) * Second)%Z.
Proof. intros Hs Ht. unfold rounds. rewrite Z2Nat.id by lia. unfold Second. lia. Qed.
End deadline.
#[export] Hint Resolve never_now never_sleep calm_until later_now later_sleep later_until : proc.
