(* ===== verification/GoFloat.v ===== *)
(** * float64 numbers as text

    [strconv.ParseFloat] on the literals of JSON, and the text that
    encoding/json gives a float64: the shortest decimal that reads back as the
    same number. A float64 is a [spec_float] of precision 53 and maximal
    exponent 1024. *)

From S2P Require Import Prelude GoStrings GoTime Json.
From Corelib Require Import SpecFloat.

(** ** Reading *)

(** [d * 10^k], rounded once to the nearest float64, ties to even. *)
Definition decimal_float (negative : bool) (d : N) (k : Z) : spec_float :=
  match d with
  | N0 => S754_zero negative
  | Npos p =>
      if (0 <=? k)%Z then
        let n := (Zpos p * 10 ^ k)%Z in binary_normalize 53 1024 (if negative then - n else n)%Z 0 negative
      else SFdiv 53 1024 (S754_finite negative p 0) (S754_finite false (Z.to_pos (10 ^ (- k))) 0)
  end.

(** The parts of a literal: sign, integer digits, fraction digits, exponent. *)
Definition number_parts (lit : string) : option (bool * string * string * Z) :=
  let '(negative, body) :=
    match lit with
    | String a r => if Ascii.eqb a "-" then (true, r) else (false, lit)
    | EmptyString => (false, lit)
    end in
  '(i, s1) ← scan_int body; '(f, s2) ← scan_frac s1; '(x, s3) ← scan_exp s2;
  if negb (String.eqb s3 "") then None else
  e ← (match x with
       | EmptyString => Some 0%Z
       | String _ x =>
           match x with
           | String g ds =>
               if Ascii.eqb g "-" then Z.opp ∘ Z.of_N <$> parse_N ds
               else if Ascii.eqb g "+" then Z.of_N <$> parse_N ds
               else Z.of_N <$> parse_N x
           | EmptyString => None
           end
       end);
  Some (negative, i, str_drop 1 f, e).

(** [None] for a literal that is no number, or one too large for a float64. *)
Definition parse_float (lit : string) : option spec_float :=
  '(negative, i, f, e) ← number_parts lit;
  d ← parse_N (i +:+ f);
  match decimal_float negative d (e - Z.of_nat (String.length f)) with
  | S754_infinity _ | S754_nan => None
  | x => Some x
  end.

(** ** Printing *)

Section shortest.
(** The value printed, [num / den]. *)
Context (num den : Z) (f : spec_float).

(** The power of ten above the value: [10^(k-1) <= num/den < 10^k]. *)
Definition magnitude : Z :=
  if (den <=? num)%Z then Z.of_nat (String.length (itoa (num / den)))
  else (1 - Z.of_nat (String.length (itoa (den / num))))%Z.

Definition reads_back (d : Z) (k : Z) : bool :=
  match SFcompare (decimal_float false (Z.to_N d) k) f with Some Eq => true | _ => false end.

(** The [n]-digit decimals next to the value; the nearer one that reads back,
    the even one of two equally near. *)
Definition digits_of (n : nat) : option (Z * Z) :=
  let k := (magnitude - Z.of_nat n)%Z in
  let '(a, b) := if (0 <=? k)%Z then (num, den * 10 ^ k)%Z else (num * 10 ^ (- k), den)%Z in
  let q := (a / b)%Z in
  let r := (a mod b)%Z in
  if (r =? 0)%Z then Some (q, k) else
  let up := ((b <? 2 * r) || ((b =? 2 * r) && Z.odd q))%Z in
  match reads_back q k, reads_back (q + 1) k with
  | true, true => Some (if up then q + 1 else q, k)%Z
  | true, false => Some (q, k)
  | false, true => Some (q + 1, k)%Z
  | false, false => None
  end.

Fixpoint shortest_from (n fuel : nat) : option (Z * Z) :=
  match fuel with
  | O => None
  | S fuel => match digits_of n with Some d => Some d | None => shortest_from (S n) fuel end
  end.
(** 17 digits always suffice for a float64. *)
Definition shortest : option (Z * Z) := shortest_from 1 17.
End shortest.

(** Digits without the zeros at their end, which the exponent takes. *)
Fixpoint strip_zeros (fuel : nat) (d k : Z) : Z * Z :=
  match fuel with
  | O => (d, k)
  | S fuel => if (d mod 10 =? 0)%Z then strip_zeros fuel (d / 10) (k + 1) else (d, k)
  end.

(** [%f]: [d * 10^k] without an exponent. *)
Definition print_f (d k : Z) : string :=
  let ds := itoa d in
  if (0 <=? k)%Z then ds +:+ zeros (Z.to_nat k) else
  let frac := Z.to_nat (- k) in
  let ds := zeros (S frac - String.length ds) +:+ ds in
  let n := (String.length ds - frac)%nat in
  String.substring 0 n ds +:+ "." +:+ str_drop n ds.

(** [%e], with the exponent's leading zero dropped. *)
Definition print_e (d k : Z) : string :=
  let ds := itoa d in
  let e := (k + Z.of_nat (String.length ds) - 1)%Z in
  String.substring 0 1 ds +:+ (if (1 <? String.length ds)%nat then "." +:+ str_drop 1 ds else "") +:+
  "e" +:+ (if (0 <=? e)%Z then "+" else "-") +:+ itoa (Z.abs e).

(** encoding/json refuses NaN and the infinities, and takes [%e] below 1e-6 and
    from 1e21 on. *)
Definition print_float (f : spec_float) : option string :=
  match f with
  | S754_zero negative => Some (if negative then "-0" else "0")
  | S754_finite negative m e =>
      let '(num, den) := if (0 <=? e)%Z then (Zpos m * 2 ^ e, 1)%Z else (Zpos m, 2 ^ (- e))%Z in
      '(d, k) ← shortest num den (S754_finite false m e);
      let '(d, k) := strip_zeros 20 d k in
      let small := (num * 1000000 <? den)%Z in
      let large := (den * 10 ^ 21 <=? num)%Z in
      Some ((if negative then "-" else "") +:+ (if small || large then print_e d k else print_f d k))
  | _ => None
  end.

Definition reprint (lit : string) : option string := f ← parse_float lit; print_float f.
Example print_float_ex :
  reprint <$> ["0.0025"; "1e-8"; "0.29"; "123456789.125"; "1e+23"; "-0.1";
               "9007199254740993"; "1e400"; "abc"]
  = (Some <$> ["0.0025"; "1e-8"; "0.29"; "123456789.125"; "1e+23"; "-0.1";
              "9007199254740992"]) ++ [None; None].
Proof. vm_compute. reflexivity. Qed.
