(* ===== verification/Process.v ===== *)
(** * The blackjack process and what it reaches

    [Outside]: what cmd/blackjack/main.go calls that is not its own code, as an
    interface: the generated stub of the service ([BSVMSClient]), the
    connection, HTTP and the clock. A [process] is its console, its random
    source and the record of its calls on top of an outside. The client is
    written, and its theorems are proved, against this interface; Compose
    instantiates it with the service itself. *)

From S2P Require Import Prelude GoStrings GoTime Json Proto Proc.

(** What [http.Client.Do] is given: a POST with basic authentication and a JSON
    body, and the timeout of the client. *)
Record http_request := MkHttpRequest {
  req_url : string; req_username : string; req_password : string;
  req_content_type : string; req_body : string; req_timeout : Z }.
(** What comes back: the status, and what reading the body gives. *)
Record http_response := MkHttpResponse { StatusCode : Z; Body : result string }.

Class Outside (S : Type) := {
  outside_clock :: Clock S;
  Invoke (r : rpc) : rpc_request r -> S -> result (rpc_response r) * S;
  NewClient : string -> S -> result unit * S;
  conn_Close : S -> S;
  http_Do : http_request -> S -> result http_response * S;
}.

(** Nothing that is called turns the clock back. *)
Class OutsideLaws (S : Type) `{Outside S} := {
  outside_time :: ClockLaws S;
  invoke_time r req s : (time s <= time (snd (Invoke r req s)))%Z;
  client_time addr s : (time s <= time (snd (NewClient addr s)))%Z;
  close_time s : (time s <= time (conn_Close s))%Z;
  http_time req s : (time s <= time (snd (http_Do req s)))%Z;
}.

(** A call made and its answer. *)
Inductive event :=
  | Called (r : rpc) (req : rpc_request r) (answer : result (rpc_response r))
  | Posted (req : http_request) (answer : result http_response).

Record process (S : Type) := MkProcess {
  p_out : S;
  p_stdin : list string;    (* the lines still to be read *)
  p_stdout : list string;   (* what was printed *)
  p_shuffles : nat;         (* how often the random source was used *)
  p_log : list event;
}.
Arguments MkProcess {S}. Arguments p_out {S}. Arguments p_stdin {S}. Arguments p_stdout {S}.
Arguments p_shuffles {S}. Arguments p_log {S}.

Section process.
Context {S : Type} `{Outside S}.

Definition set_out (s : S) (p : process S) : process S :=
  MkProcess s (p_stdin p) (p_stdout p) (p_shuffles p) (p_log p).
Definition logged (e : event) (p : process S) : process S :=
  MkProcess (p_out p) (p_stdin p) (p_stdout p) (p_shuffles p) (p_log p ++ [e]).

#[export] Instance process_clock : Clock (process S) := {
  time_Now p := let '(t, s) := time_Now (p_out p) in (t, set_out s p);
  time_Sleep d p := set_out (time_Sleep d (p_out p)) p;
}.

(** A method of the stub. *)
Definition call (r : rpc) (req : rpc_request r) : proc (process S) (result (rpc_response r)) := fun p =>
  let '(answer, s) := Invoke r req (p_out p) in
  (Ret answer, logged (Called r req answer) (set_out s p)).
Definition dial (addr : string) : proc (process S) (result unit) := fun p =>
  let '(answer, s) := NewClient addr (p_out p) in (Ret answer, set_out s p).
Definition hang_up : proc (process S) unit := change (fun p => set_out (conn_Close (p_out p)) p).
Definition post (req : http_request) : proc (process S) (result http_response) := fun p =>
  let '(answer, s) := http_Do req (p_out p) in
  (Ret answer, logged (Posted req answer) (set_out s p)).

Lemma now_run p : exists t p', (Now : proc (process S) Z) p = (Ret t, p').
Proof. unfold Now. destruct (time_Now p) as [t p']. by exists t, p'. Qed.

Lemma call_run r req p : exists a p1, call r req p = (Ret a, p1) /\
  p_log p1 = p_log p ++ [Called r req a] /\ p_stdin p1 = p_stdin p.
Proof. unfold call. destruct (Invoke r req (p_out p)) as [a s]. by do 2 eexists. Qed.

(** ** The console *)

Definition printf (text : string) : proc (process S) unit := change (fun p =>
  MkProcess (p_out p) (p_stdin p) (p_stdout p ++ [text]) (p_shuffles p) (p_log p)).
Definition newline : string := String "010" "".
(** [fmt.Println] *)
Definition println (text : string) : proc (process S) unit := printf (text +:+ newline).
(** [reader.ReadString('\n')], without the line's end: the end of the input
    reads as the empty line. *)
Definition ReadString : proc (process S) string := fun p =>
  match p_stdin p with
  | [] => (Ret "", p)
  | line :: rest => (Ret line, MkProcess (p_out p) rest (p_stdout p) (p_shuffles p) (p_log p))
  end.
(** How often [rng.Shuffle] was called before. *)
Definition next_shuffle : proc (process S) nat := fun p =>
  (Ret (p_shuffles p), MkProcess (p_out p) (p_stdin p) (p_stdout p) (Datatypes.S (p_shuffles p)) (p_log p)).

(** ** What every step keeps *)

(** The record of calls only grows. *)
Definition records (p p' : process S) : Prop := p_log p `prefix_of` p_log p'.
#[export] Instance records_preorder : PreOrder records.
Proof. unfold records. split; [intros p; reflexivity|intros p1 p2 p3; apply transitivity]. Qed.

Section laws.
Context `{!OutsideLaws S}.

#[export] Instance process_time : ClockLaws (process S).
Proof.
  refine {| time p := time (p_out p) |}.
  - intros p. cbn. pose proof (now_time (p_out p)). by destruct (time_Now (p_out p)).
  - intros d p. apply sleep_time.
  - intros p. apply sleep_second.
Defined.

Lemma later_call r req : always later (call r req).
Proof. intros p. pose proof (invoke_time r req (p_out p)). unfold call. by destruct (Invoke r req (p_out p)). Qed.
Lemma later_dial addr : always later (dial addr).
Proof. intros p. pose proof (client_time addr (p_out p)). unfold dial. by destruct (NewClient addr (p_out p)). Qed.
Lemma later_hang_up : always later hang_up.
Proof. intros p. apply close_time. Qed.
Lemma later_post req : always later (post req).
Proof. intros p. pose proof (http_time req (p_out p)). unfold post. by destruct (http_Do req (p_out p)). Qed.
Lemma later_printf text : always later (printf text).
Proof. intros p. unfold later. cbn. lia. Qed.
Lemma later_ReadString : always later ReadString.
Proof. intros p. unfold later, ReadString. destruct (p_stdin p); cbn; lia. Qed.
Lemma later_shuffle : always later next_shuffle.
Proof. intros p. unfold later. cbn. lia. Qed.
End laws.

(** Primitive steps return. *)
Lemma never_call w r req : never w (call r req).
Proof. intros p _. unfold call. by destruct (Invoke r req (p_out p)). Qed.
Lemma never_dial w addr : never w (dial addr).
Proof. intros p _. unfold dial. by destruct (NewClient addr (p_out p)). Qed.
Lemma never_hang_up w : never w hang_up.
Proof. apply avoids_change. Qed.
Lemma never_post w req : never w (post req).
Proof. intros p _. unfold post. by destruct (http_Do req (p_out p)). Qed.
Lemma never_printf w text : never w (printf text).
Proof. apply avoids_change. Qed.
Lemma never_ReadString w : never w ReadString.
Proof. intros p _. unfold ReadString. by destruct (p_stdin p). Qed.
Lemma never_shuffle w : never w next_shuffle.
Proof. by intros p _. Qed.

Lemma records_call r req : always records (call r req).
Proof. intros p. unfold records, call. destruct (Invoke r req (p_out p)). by eexists. Qed.
Lemma records_dial addr : always records (dial addr).
Proof. intros p. unfold records, dial. by destruct (NewClient addr (p_out p)). Qed.
Lemma records_post req : always records (post req).
Proof. intros p. unfold records, post. destruct (http_Do req (p_out p)). by eexists. Qed.
End process.

#[export] Hint Resolve later_dial later_hang_up later_post later_printf later_ReadString
  later_shuffle never_dial never_hang_up never_post never_printf never_ReadString never_shuffle : proc.
(** The answer's type hides the method from [auto]. *)
#[export] Hint Extern 1 (always later _) =>
  match goal with |- always _ (call ?r ?req) => exact (later_call r req) end : proc.
#[export] Hint Extern 1 (avoids _ _ _) =>
  match goal with |- avoids _ _ (call ?r ?req) => exact (never_call _ r req) end : proc.
