(* ===== verification/NodeRPC.v ===== *)
(** * The node's JSON-RPC client: [nodeRPC] of cmd/blackjack/main.go

    A call posts a JSON body and decodes an envelope; every method of [nodeRPC]
    is a call with its parameters and the Go type its result is stored into. *)

From S2P Require Import Prelude GoStrings GoTime Encoding Json Decode GoFloat Proto Proc Process Blackjack.
From Corelib Require Import SpecFloat.

(** ** The request *)

(** The elements of [params []any] that the methods pass. *)
Inductive param := PString (s : string) | PInt (z : Z) | PFloat (f : spec_float) | PBool (b : bool).

Definition unsupported_value : error := ENew "json: unsupported value".
Definition param_json (p : param) : result json :=
  match p with
  | PString s => Ok (JStr s)
  | PInt z => Ok (JNum (itoa z))
  | PFloat f => match print_float f with Some lit => Ok (JNum lit) | None => Err unsupported_value end
  | PBool b => Ok (JBool b)
  end.
Fixpoint params_json (ps : list param) : result (list json) :=
  match ps with
  | [] => Ok []
  | p :: ps => j ← param_json p; js ← params_json ps; Ok (j :: js)
  end.

(** [json.Marshal] of the map: keys in order, a nil slice is null. *)
Definition call_body (method : string) (params : option (list param)) : result string :=
  ps ← match params with
       | None => Ok JNull
       | Some ps => js ← params_json ps; Ok (JArr js)
       end;
  Ok (json_print compact 0
        (JObj [("id", JStr "blackjack"); ("jsonrpc", JStr "1.0"); ("method", JStr method); ("params", ps)])).

(** ** The answer *)

Record rpc_error := MkRpcError { err_Code : Z; err_Message : string }.
(** The anonymous [envelope]: [Result] is a raw message, nil when absent, and
    [Error] a pointer. *)
Record envelope := MkEnvelope { env_Result : option json; env_Error : option rpc_error }.

Definition error_fields : list (field rpc_error) :=
  [int64_field "code" (fun v e => MkRpcError v (err_Message e));
   string_field "message" (fun v e => MkRpcError (err_Code e) v)].
(** A raw message takes any value, null included. *)
Definition raw_field {S} (name : string) (set : json -> S -> S) : field S :=
  Field name (fun j s => Ok (set j s)).
(** A pointer to a struct: null is nil, an object is decoded into what it
    points at, made first if it was nil. *)
Definition pointer_field {S T} (name : string) (fields : list (field T)) (zero : T)
    (get : S -> option T) (set : option T -> S -> S) : field S :=
  Field name (fun j s =>
    match j with
    | JNull => Ok (set None s)
    | _ => v ← decode_struct fields j (default zero (get s)); Ok (set (Some v) s)
    end).
Definition envelope_fields : list (field envelope) :=
  [raw_field "result" (fun v e => MkEnvelope (Some v) (env_Error e));
   pointer_field "error" error_fields (MkRpcError 0 "") env_Error (fun v e => MkEnvelope (env_Result e) v)].
Definition unmarshal_envelope (raw : string) : result envelope :=
  j ← json_parse raw; decode_struct envelope_fields j (MkEnvelope None None).

(** [json.Unmarshal] into the variables the methods pass; null leaves a number or
    a string as it is. *)
Definition into_float (j : json) : result spec_float :=
  match j with
  | JNull => Ok (S754_zero false)
  | JNum lit => match parse_float lit with Some f => Ok f | None => Err type_error end
  | _ => Err type_error
  end.
Definition into_int (j : json) : result Z :=
  match j with
  | JNull => Ok 0%Z
  | JNum lit => match atoi lit with Some n => Ok n | None => Err type_error end
  | _ => Err type_error
  end.
Definition into_string (j : json) : result string :=
  match j with JNull => Ok "" | JStr s => Ok s | _ => Err type_error end.
Definition into_strings (j : json) : result (list string) :=
  match j with
  | JNull => Ok []
  | JArr l => foldr (fun x acc => s ← into_string x; rest ← acc; Ok (s :: rest)) (Ok []) l
  | _ => Err type_error
  end.
Definition into_raw (j : json) : result json := Ok j.

(** [json.Unmarshal] of the raw result; without one there is nothing to read. *)
Definition unmarshal_result {A} (into : json -> result A) (raw : option json) : result A :=
  match raw with None => Err (ENew "unexpected end of JSON input") | Some j => into j end.

(** ** The client *)

Record nodeRPC := MkNodeRPC { url : string; username : string; password : string; client_timeout : Z }.

Section node.
Context {S : Type} `{Outside S}.
Abbreviation P := (proc (process S)).

Definition http_error (method : string) (code : Z) (body : string) : error :=
  ENew (method +:+ " HTTP " +:+ itoa code +:+ ": " +:+ trim_space body).
Definition envelope_error (method : string) (e : rpc_error) : error :=
  ENew (method +:+ " RPC " +:+ itoa (err_Code e) +:+ ": " +:+ err_Message e).

(** What an answer means to the caller. *)
Definition read_answer {A} (method : string) (into : json -> result A) (resp : http_response) : result A :=
  respBody ← Body resp;
  if ((StatusCode resp <? 200) || (300 <=? StatusCode resp))%Z
  then Err (http_error method (StatusCode resp) respBody) else
  envelope ← unmarshal_envelope respBody;
  match env_Error envelope with
  | Some e => Err (envelope_error method e)
  | None => unmarshal_result into (env_Result envelope)
  end.

Definition node_call {A} (r : nodeRPC) (method : string) (params : option (list param))
    (into : json -> result A) : P (result A) :=
  match call_body method params with
  | Err err => mret (Err err)
  | Ok body =>
      resp ← post (MkHttpRequest (url r) (username r) (password r) "application/json" body (client_timeout r));
      match resp with
      | Err err => mret (Err err)
      | Ok resp => mret (read_answer method into resp)
      end
  end.

Definition balanceSats (r : nodeRPC) : P (result Z) :=
  bsv ← node_call r "getbalance" None into_float;
  mret (match bsv with Ok bsv => Ok (Blackjack.balanceSats bsv) | Err err => Err err end).
Definition blockCount (r : nodeRPC) : P (result Z) := node_call r "getblockcount" None into_int.
Definition sendToAddress (r : nodeRPC) (address : string) (sats : Z) : P (result string) :=
  node_call r "sendtoaddress" (Some [PString address; PFloat (sendAmount sats)]) into_string.
Definition generate (r : nodeRPC) (blocks : Z) : P (result unit) :=
  hashes ← node_call r "generate" (Some [PInt blocks]) into_strings;
  mret (match hashes with Ok _ => Ok () | Err err => Err err end).
Definition rawTransaction (r : nodeRPC) (txid : string) : P (result bytes) :=
  rawHex ← node_call r "getrawtransaction" (Some [PString txid]) into_string;
  mret (match rawHex with Ok rawHex => hex_decode rawHex | Err err => Err err end).
(** [string(raw) != "null"] *)
Definition txOutExists (r : nodeRPC) (txid : string) (vout : Z) : P (result bool) :=
  raw ← node_call r "gettxout" (Some [PString txid; PInt vout; PBool true]) into_raw;
  mret (match raw with Ok JNull => Ok false | Ok _ => Ok true | Err err => Err err end).

(** ** Waiting *)

(** An error that wraps what may be nil. *)
Definition wrap_last (prefix : string) (last : option error) : error :=
  match last with Some e => EWrap prefix e | None => ENew (prefix +:+ ": %!w(<nil>)") end.

Definition waitReady (fuel : nat) (r : nodeRPC) : P (result unit) :=
  start ← Now;
  res ← until_deadline fuel (start + 60 * Second) (fun lastErr : option error =>
          n ← blockCount r;
          mret (match n with Ok _ => inr () | Err err => inl (Some err) end)) None;
  mret (match res with
        | inr _ => Ok ()
        | inl lastErr => Err (wrap_last "connect bsv-node RPC" lastErr)
        end).

(** With no round of the loop the error returned is nil: a success. *)
Definition waitSpendable (fuel : nat) (r : nodeRPC) (sats : Z) : P (result unit) :=
  start ← Now;
  res ← until_deadline fuel (start + 60 * Second) (fun lastErr : option error =>
          balance ← balanceSats r;
          mret (match balance with
                | Ok balance =>
                    if (sats <=? balance)%Z then inr () else
                    inl (Some (ENew ("spendable balance " +:+ itoa balance +:+ " sats, need " +:+ itoa sats)))
                | Err err => inl (Some err)
                end)) None;
  mret (match res with
        | inr _ => Ok ()
        | inl (Some lastErr) => Err lastErr
        | inl None => Ok ()
        end).

End node.
