(* ===== verification/Client.v ===== *)
(** * The blackjack program: cmd/blackjack/main.go

    The process around the game: connecting, the two wallets, hands played at
    the console and settled through the service, and the command that funds the
    wallets from the node. The environment is a function from names to values,
    the random source a function: [rng seed k i] is the number drawn at position
    [i] of the [k]-th shuffle. Loops take fuel: [fuel] bounds the loops that end
    at a deadline, [hands] the hands of a session. *)

From S2P Require Import Prelude GoStrings GoTime Json Proto Proc Process Blackjack Launch NodeRPC.

Definition regtestPeer : string := "bsv-node:18444".

(** The struct [wallet]. *)
Record wallet := MkWallet { w_id : string; w_address : string }.

Section client.
Context {S : Type} `{Outside S} (getenv : string -> string).
Abbreviation P := (proc (process S)).

(** [log.Fatalf("...: %v", err)] *)
Definition fatal (prefix : string) (err : error) : error := ENew (prefix +:+ ": " +:+ error_string err).

(** ** Connecting *)

Definition connect (fuel : nat) (addr : string) : P (result unit) :=
  start ← Now;
  res ← until_deadline fuel (start + 60 * Second) (fun lastErr : option error =>
          conn ← dial addr;
          match conn with
          | Ok _ =>
              st ← call BSVMS_Status pb.MkStatusRequest;
              match st with
              | Ok _ => mret (inr ())
              | Err err => _ ← hang_up; mret (inl (Some err))
              end
          | Err err => mret (inl (Some err))
          end) None;
  mret (match res with
        | inr _ => Ok ()
        | inl lastErr => Err (wrap_last ("connect bsvms " +:+ addr) lastErr)
        end).

Definition statusNetwork : P string :=
  status ← call BSVMS_Status pb.MkStatusRequest;
  status ← or_fatal (fatal "status") status;
  mret (pb.StatusResponse_Network status).

Definition ensureRegtestPeer (fuel : nat) : P unit :=
  let peer := env getenv "BSVMS_REGTEST_PEER" regtestPeer in
  start ← Now;
  res ← until_deadline fuel (start + 60 * Second) (fun lastErr : option error =>
          st ← call BSVMS_Status pb.MkStatusRequest;
          match st with
          | Ok st =>
              if negb (String.eqb (to_lower (pb.StatusResponse_Network st)) "regtest") then mret (inr ()) else
              if (0 <? pb.StatusResponse_PeerCount st)%Z then mret (inr ()) else
              c ← call BSVMS_ConnectPeer (pb.MkConnectPeerRequest peer);
              mret (inl (match c with Err err => Some err | Ok _ => lastErr end))
          | Err _ =>
              c ← call BSVMS_ConnectPeer (pb.MkConnectPeerRequest peer);
              mret (inl (match c with Err err => Some err | Ok _ => lastErr end))
          end) None;
  match res with
  | inr _ => mret ()
  | inl (Some lastErr) => log_Fatal (fatal ("connect regtest peer " +:+ peer) lastErr)
  | inl None => log_Fatal (ENew ("connect regtest peer " +:+ peer +:+ ": timed out"))
  end.

(** ** Wallets *)

Definition ensureWallet (id : string) : P wallet :=
  got ← call BSVMS_GetWallet (pb.MkGetWalletRequest tenantID id);
  got ← (if bool_decide (result_code got = Some NotFound) then
           created ← call BSVMS_CreateWallet (pb.MkCreateWalletRequest tenantID id);
           _ ← or_fatal (fatal ("create wallet " +:+ id)) created;
           call BSVMS_GetWallet (pb.MkGetWalletRequest tenantID id)
         else mret got);
  got ← or_fatal (fatal ("get wallet " +:+ id)) got;
  match from_option pb.Wallet_Addresses [] (pb.WalletResponse_Wallet got) with
  | address :: _ => mret (MkWallet id address)
  | [] =>
      addr ← call BSVMS_NewAddress (pb.MkNewAddressRequest tenantID id);
      addr ← or_fatal (fatal ("new address " +:+ id)) addr;
      mret (MkWallet id (from_option pb.DerivedAddress_Address "" (pb.AddressResponse_Address addr)))
  end.

Definition spendableOf (id : string) : P Z :=
  bal ← call BSVMS_Balance (pb.MkBalanceRequest tenantID id);
  bal ← or_fatal (fatal ("balance " +:+ id)) bal;
  mret (pb.BalanceResponse_Spendable bal).

Definition requireFunded (w : wallet) : P unit :=
  spendable ← spendableOf (w_id w);
  if (defaultBet <=? spendable)%Z then mret () else
  log_Fatal (ENew (w_id w +:+ " wallet has " +:+ itoa spendable +:+
    " spendable sats; run `docker compose up -d` and wait for blackjack-fund to complete")).

Definition showBalances : P unit :=
  for_range (fun _ id =>
    bal ← call BSVMS_Balance (pb.MkBalanceRequest tenantID id);
    bal ← or_fatal (fatal ("balance " +:+ id)) bal;
    let immature := pb.BalanceResponse_Immature bal in
    if (0 <? immature)%Z
    then printf (id +:+ " balance: " +:+ itoa (pb.BalanceResponse_Satoshis bal) +:+ " sats (" +:+
                 itoa immature +:+ " immature)" +:+ newline)
    else printf (id +:+ " balance: " +:+ itoa (pb.BalanceResponse_Satoshis bal) +:+ " sats" +:+ newline))
    () [playerWallet; houseWallet].

(** ** Explorer links *)

Definition printAddressLinks (network explorerURL : string) (player house : wallet) : P unit :=
  let playerURL := wocAddressURL network explorerURL (w_address player) in
  let houseURL := wocAddressURL network explorerURL (w_address house) in
  if String.eqb playerURL "" || String.eqb houseURL "" then mret () else
  _ ← printf ("Player explorer: " +:+ playerURL +:+ newline);
  printf ("House explorer:  " +:+ houseURL +:+ newline).

Definition printTxLink (explorerURL txid : string) : P unit :=
  network ← statusNetwork;
  let url := wocTxURL network explorerURL txid in
  if negb (String.eqb url "") then printf ("Explorer: " +:+ url +:+ newline) else
  printf ("Inspect after next mined block: docker compose exec bsv-node bitcoin-cli -regtest -rpcuser=bsv -rpcpassword=bsv getrawtransaction "
          +:+ txid +:+ " 1" +:+ newline).

(** ** Settlement *)

Definition spend_request (from : wallet) (outputs : list pb.OutputSpec) : pb.SpendToOutputsRequest :=
  pb.MkSpendToOutputsRequest tenantID (w_id from) outputs false [].
(** [detail.GetDetail().GetTxid()] *)
Definition spend_txid (resp : pb.SpendDetailResponse) : string :=
  from_option pb.SpendDetail_Txid "" (pb.SpendDetailResponse_Detail resp).

(** The retry loop of [settleHand]. *)
Fixpoint settle_loop (fuel rounds : nat) (deadline : Z) (from : wallet) (outputs : list pb.OutputSpec) :
    P string :=
  match rounds with
  | O => out_of_fuel
  | Datatypes.S rounds =>
      detail ← call BSVMS_SpendToOutputs (spend_request from outputs);
      match detail with
      | Ok resp => mret (spend_txid resp)
      | Err err =>
          again ← (if str_contains (error_string err) "no connected peers" then
                     _ ← ensureRegtestPeer fuel;
                     detail ← call BSVMS_SpendToOutputs (spend_request from outputs);
                     mret (match detail with Ok resp => Some (spend_txid resp) | Err _ => None end)
                   else mret None);
          match again with
          | Some txid => mret txid
          | None =>
              now ← Now;
              if (deadline <? now)%Z then log_Fatal (fatal ("settle from " +:+ w_id from) err) else
              _ ← Sleep Second;
              settle_loop fuel rounds deadline from outputs
          end
      end
  end.

Definition settleHand (fuel : nat) (from : wallet) (to : string) (sats : Z) (playerHand houseHand : list card)
    (winner : string) : P string :=
  _ ← ensureRegtestPeer fuel;
  p2pkh ← call BSVMS_P2PKHOutput (pb.MkP2PKHOutputRequest to sats);
  p2pkh ← or_fatal (fatal "p2pkh output") p2pkh;
  let result := MkHandResult "blackjack" (handStringParts playerHand) (handStringParts houseHand)
                  (handValue playerHand) (handValue houseHand) sats winner in
  let raw := bytes_of_string (json_print compact 0 (handResult_json result)) in
  opReturn ← call BSVMS_OpReturnOutput (pb.MkOpReturnOutputRequest raw);
  opReturn ← or_fatal (fatal "op_return output") opReturn;
  start ← Now;
  settle_loop fuel fuel (start + 60 * Second) from [p2pkh; opReturn].

(** ** A hand at the console *)

Definition readBet : P Z :=
  _ ← printf ("Bet sats [" +:+ itoa defaultBet +:+ "]: ");
  line ← ReadString;
  let line := trim_space line in
  if String.eqb line "" then mret defaultBet else
  match atoi line with
  | Some n => mret (if (n <=? 0)%Z then defaultBet else n)
  | None => mret defaultBet
  end.

Definition showTable (house : string) (hand : list card) : P unit :=
  _ ← printf (newline +:+ "House: " +:+ house +:+ newline);
  printf ("You:   " +:+ handString hand +:+ " (" +:+ itoa (handValue hand) +:+ ")" +:+ newline).

(** The player's loop; [up] is the house's first card. *)
Fixpoint hitOrStand (up : card) (deck hand : list card) : P (list card * list card) :=
  _ ← showTable (card_String up +:+ " [?]") hand;
  if (21 <=? handValue hand)%Z then mret (hand, deck) else
  _ ← printf "Hit or stand? [h/S]: ";
  line ← ReadString;
  if negb (String.eqb (to_lower (trim_space line)) "h") then mret (hand, deck) else
  match deck with
  | [] => panic
  | c :: deck => hitOrStand up deck (hand ++ [c])
  end.

Definition won (sats : Z) (who txid : string) : string :=
  who +:+ " " +:+ itoa sats +:+ " sats. Settlement tx: " +:+ txid +:+ newline.

Definition playHand (fuel : nat) (rng : nat -> nat -> nat) (explorerURL : string) (player house : wallet) :
    P unit :=
  bet ← readBet;
  k ← next_shuffle;
  deck ← or_panic (newDeck (rng k));
  '(p1, deck) ← or_panic (draw deck); '(p2, deck) ← or_panic (draw deck);
  '(h1, deck) ← or_panic (draw deck); '(h2, deck) ← or_panic (draw deck);
  '(playerHand, deck) ← hitOrStand h1 deck [p1; p2];
  '(houseHand, deck) ← or_panic (house_turn playerHand deck [h1; h2]);
  let playerTotal := handValue playerHand in
  let houseTotal := handValue houseHand in
  _ ← showTable (handString houseHand +:+ " (" +:+ itoa houseTotal +:+ ")") playerHand;
  _ ← (let o := outcome playerTotal houseTotal in
       if String.eqb o "player" then
         txid ← settleHand fuel house (w_address player) bet playerHand houseHand "player";
         _ ← printf (won bet "You win" txid);
         _ ← printTxLink explorerURL txid;
         println ""
       else if String.eqb o "house" then
         txid ← settleHand fuel player (w_address house) bet playerHand houseHand "house";
         _ ← printf (won bet "House wins" txid);
         _ ← printTxLink explorerURL txid;
         println ""
       else
         _ ← println "Push. No settlement.";
         println "");
  showBalances.

Fixpoint playHands (fuel hands : nat) (rng : nat -> nat -> nat) (explorerURL : string) (player house : wallet) :
    P unit :=
  match hands with
  | O => out_of_fuel
  | Datatypes.S hands =>
      _ ← playHand fuel rng explorerURL player house;
      _ ← printf "Play again? [y/N]: ";
      line ← ReadString;
      if negb (String.eqb (to_lower (trim_space line)) "y") then mret () else
      playHands fuel hands rng explorerURL player house
  end.

(** [main] without arguments. *)
Definition play (fuel hands : nat) (rng : Z -> nat -> nat -> nat) : P unit :=
  let addr := env getenv "BSVMS_ADDR" "bsvms:50051" in
  let explorerURL := trim_right_char "/" (env getenv "WOC_EXPLORER_URL" "http://localhost:3002") in
  conn ← connect fuel addr;
  _ ← or_fatal id conn;
  player ← ensureWallet playerWallet;
  house ← ensureWallet houseWallet;
  network ← statusNetwork;
  _ ← (if String.eqb network "regtest" then ensureRegtestPeer fuel else mret ());
  _ ← requireFunded player;
  _ ← requireFunded house;
  _ ← println "BSV blackjack";
  _ ← printf ("Network: " +:+ network +:+ " via bsvms" +:+ newline);
  _ ← printf ("Player address: " +:+ w_address player +:+ newline);
  _ ← printf ("House address:  " +:+ w_address house +:+ newline);
  _ ← printAddressLinks network explorerURL player house;
  _ ← println "";
  seed ← Now;
  _ ← playHands fuel hands (rng seed) explorerURL player house;
  hang_up.
End client.
