(* ===== verification/Fund.v ===== *)
(** * Funding the wallets: [fundMain] of cmd/blackjack/main.go

    The command that tops both wallets up from the node's coins, and [main],
    which chooses between it and the game. *)

From S2P Require Import Prelude GoStrings GoTime Json Proto Proc Process Blackjack Launch NodeRPC Client.

Section fund.
Context {S : Type} `{Outside S} (getenv : string -> string).
Abbreviation P := (proc (process S)).

(** The loop of [clearMissingUTXOs] over the coins: the first one that is not
    on the chain clears them all. *)
Fixpoint check_coins (r : nodeRPC) (w : wallet) (coins : list pb.UTXO) : P (result unit) :=
  match coins with
  | [] => mret (Ok ())
  | coin :: rest =>
      ok ← txOutExists r (pb.UTXO_Txid coin) (pb.UTXO_Vout coin);
      match ok with
      | Err err => mret (Err err)
      | Ok true => check_coins r w rest
      | Ok false =>
          cleared ← call BSVMS_ClearUTXOs (pb.MkClearUTXOsRequest tenantID (w_id w));
          match cleared with
          | Err err => mret (Err err)
          | Ok cleared =>
              _ ← printf ("cleared " +:+ itoa (pb.ClearUTXOsResponse_Cleared cleared) +:+ " off-chain " +:+
                          w_id w +:+ " utxos" +:+ newline);
              mret (Ok ())
          end
      end
  end.
Definition clearMissingUTXOs (r : nodeRPC) (w : wallet) : P (result unit) :=
  utxos ← call BSVMS_ListUTXOs (pb.MkListUTXOsRequest tenantID (w_id w));
  match utxos with
  | Err err => mret (Err err)
  | Ok utxos => check_coins r w (pb.ListUTXOsResponse_Utxos utxos)
  end.

(** The first pass: what is missing in all, in [int64]. *)
Definition missing (spendable : Z) : Z := int64 (seedSatoshis - spendable).
Definition addNeeded (needed : Z) (w : wallet) : P Z :=
  spendable ← spendableOf (w_id w);
  mret (if (spendable <? seedSatoshis)%Z then int64 (needed + missing spendable) else needed).

(** The second pass: what is missing is sent; [funded] maps wallets to
    transactions. *)
Definition topUp (r : nodeRPC) (funded : gmap string string) (w : wallet) : P (gmap string string) :=
  spendable ← spendableOf (w_id w);
  if (seedSatoshis <=? spendable)%Z then mret funded else
  txid ← sendToAddress r (w_address w) (missing spendable);
  txid ← or_fatal (fatal ("fund " +:+ w_id w)) txid;
  _ ← printf ("funded " +:+ w_id w +:+ " wallet: " +:+ txid +:+ newline);
  mret (<[w_id w := txid]> funded).

(** The last pass: every funded wallet is given its transaction. *)
Definition deliver (r : nodeRPC) (height : Z) (funded : gmap string string) (w : wallet) : P unit :=
  match funded !! w_id w with
  | None => mret ()
  | Some txid =>
      raw ← rawTransaction r txid;
      raw ← or_fatal (fatal ("funding tx " +:+ txid)) raw;
      done ← call BSVMS_ProcessRawTx (pb.MkProcessRawTxRequest tenantID (w_id w) raw (int32 height));
      _ ← or_fatal (fatal ("process funding tx for " +:+ w_id w)) done;
      mret ()
  end.

(** The three passes over the wallets. *)
Definition fundWallets (fuel : nat) (r : nodeRPC) (wallets : list wallet) : P unit :=
  needed ← for_range addNeeded 0%Z wallets;
  _ ← (if (0 <? needed)%Z then
         ready ← waitSpendable fuel r needed;
         or_fatal (fatal "node funding balance") ready
       else mret ());
  funded ← for_range (topUp r) ∅ wallets;
  if (size funded =? 0)%nat then println "blackjack wallets already funded" else
  mined ← generate r 1;
  _ ← or_fatal (fatal "mine funding block") mined;
  height ← blockCount r;
  height ← or_fatal (fatal "funding block height") height;
  _ ← for_range (fun _ => deliver r height funded) () wallets;
  println "blackjack wallets funded from regtest coinbase".

Definition node_of : nodeRPC :=
  MkNodeRPC (env getenv "BSV_NODE_RPC_URL" "http://bsv-node:18443") (env getenv "BSV_NODE_RPC_USER" "bsv")
    (env getenv "BSV_NODE_RPC_PASSWORD" "bsv") (30 * Second).

Definition fundMain (fuel : nat) : P unit :=
  conn ← connect fuel (env getenv "BSVMS_ADDR" "bsvms:50051");
  _ ← or_fatal id conn;
  _ ← ensureRegtestPeer getenv fuel;
  ready ← waitReady fuel node_of;
  _ ← or_fatal id ready;
  player ← ensureWallet playerWallet;
  house ← ensureWallet houseWallet;
  let wallets := [player; house] in
  _ ← for_range (fun _ w =>
        checked ← clearMissingUTXOs node_of w;
        or_fatal (fatal ("check " +:+ w_id w +:+ " utxos")) checked) () wallets;
  _ ← fundWallets fuel node_of wallets;
  hang_up.

(** [main]: [args] is [os.Args]. *)
Definition main (version : string) (args : list string) (fuel hands : nat) (rng : Z -> nat -> nat -> nat) : P unit :=
  match args with
  | [_; arg] =>
      if String.eqb arg "-version" then println version
      else if String.eqb arg "-fund" then fundMain fuel
      else play getenv fuel hands rng
  | _ => play getenv fuel hands rng
  end.
End fund.
