(* ===== verification/ClientSpec.v ===== *)
(** * What the blackjack program does, step by step

    Relations that every step of the program keeps ([Frame]): time, the record
    of calls, the input, the requests it may send. Then: its loops end, and what
    each part of it called. *)

From S2P Require Import Prelude GoStrings GoTime Json Proto Proc Process Blackjack Launch NodeRPC Client Fund.

(** ** The requests of the program *)

(** The two wallets of the game. *)
Definition game_wallet (id : string) : Prop := id = playerWallet \/ id = houseWallet.

(** What a part of the program may do besides asking: spend from the wallets,
    send coins from the node, read the console. *)
Record powers := MkPowers { can_spend : bool; can_send : bool; can_read : bool }.
Definition all_powers : powers := MkPowers true true true.

(** The requests to the service: the peer named by the environment, the tenant
    of the game and its two wallets; coins are only chosen by the wallet. *)
Definition may_call (k : powers) (peer : string) (r : rpc) : rpc_request r -> Prop :=
  match r with
  | BSVMS_Status => fun _ => True
  | BSVMS_ConnectPeer => fun req => pb.ConnectPeerRequest_Address req = peer
  | BSVMS_GetWallet => fun req =>
      pb.GetWalletRequest_TenantId req = tenantID /\ game_wallet (pb.GetWalletRequest_WalletId req)
  | BSVMS_CreateWallet => fun req =>
      pb.CreateWalletRequest_TenantId req = tenantID /\ game_wallet (pb.CreateWalletRequest_WalletId req)
  | BSVMS_NewAddress => fun req =>
      pb.NewAddressRequest_TenantId req = tenantID /\ game_wallet (pb.NewAddressRequest_WalletId req)
  | BSVMS_Balance => fun req =>
      pb.BalanceRequest_TenantId req = tenantID /\ game_wallet (pb.BalanceRequest_WalletId req)
  | BSVMS_ListUTXOs => fun req =>
      pb.ListUTXOsRequest_TenantId req = tenantID /\ game_wallet (pb.ListUTXOsRequest_WalletId req)
  | BSVMS_ClearUTXOs => fun req =>
      pb.ClearUTXOsRequest_TenantId req = tenantID /\ game_wallet (pb.ClearUTXOsRequest_WalletId req)
  | BSVMS_ProcessRawTx => fun req =>
      pb.ProcessRawTxRequest_TenantId req = tenantID /\ game_wallet (pb.ProcessRawTxRequest_WalletId req) /\
      in_int32 (pb.ProcessRawTxRequest_Height req)
  | BSVMS_P2PKHOutput => fun _ => True
  | BSVMS_OpReturnOutput => fun _ => True
  | BSVMS_SpendToOutputs => fun req =>
      can_spend k = true /\ exists w pay memo, game_wallet (w_id w) /\ req = spend_request w [pay; memo]
  | _ => fun _ => False
  end.

(** The requests to the node: six methods, at the configured place. *)
Definition node_method (k : powers) (method : string) : Prop :=
  method ∈ ["getbalance"; "getblockcount"; "generate"; "getrawtransaction"; "gettxout"] \/
  method = "sendtoaddress" /\ can_send k = true.
Definition may_post (k : powers) (r : nodeRPC) (req : http_request) : Prop :=
  req_url req = url r /\ req_username req = username r /\ req_password req = password r /\
  exists method params, node_method k method /\ call_body method params = Ok (req_body req).

(** ** Steps kept by every part *)

(** Every primitive step within the powers [k] stays within [R]. *)
Class Frame {S : Type} `{Outside S} (k : powers) (peer : string) (node : nodeRPC)
    (R : process S -> process S -> Prop) := {
  frame_preorder :: PreOrder R;
  frame_call r req : may_call k peer r req -> always R (call r req);
  frame_post req : may_post k node req -> always R (post req);
  frame_dial addr : always R (dial addr);
  frame_hang_up : always R hang_up;
  frame_printf text : always R (printf text);
  frame_ReadString : can_read k = true -> always R ReadString;
  frame_shuffle : always R next_shuffle;
  frame_now : always R (Now : proc (process S) Z);
  frame_sleep d : always R (Sleep d : proc (process S) unit);
}.

Section frame.
Context {S : Type} `{Outside S} (getenv : string -> string) (node : nodeRPC) (k : powers).
Context (R : process S -> process S -> Prop) `{!Frame k (env getenv "BSVMS_REGTEST_PEER" regtestPeer) node R}.

#[local] Hint Extern 1 (always _ _) => first
  [ eapply frame_printf | eapply frame_now | eapply frame_sleep | eapply frame_dial
  | eapply frame_hang_up | eapply frame_shuffle | eapply frame_ReadString; assumption ] : proc.

Lemma frame_until {A B} fuel deadline (body : A -> proc (process S) (A + B)) :
  (forall a, always R (body a)) -> forall a, always R (until_deadline fuel deadline body a).
Proof. intros Hb. induction fuel as [|fuel IH]; intros a; cbn [until_deadline]; always_tac. Qed.

Lemma frame_node_call {A} method params (into : json -> result A) :
  node_method k method -> always R (node_call node method params into).
Proof.
  intros Hm. unfold node_call. destruct (call_body method params) as [body|e] eqn:E; [|always_tac].
  apply always_bind; [by auto with proc| |intros []; always_tac].
  apply frame_post. repeat split. by exists method, params.
Qed.
#[local] Hint Resolve frame_until : proc.

(** Every call of the program is one it may make. *)
#[local] Hint Extern 2 (always _ _) =>
  match goal with |- always _ (call ?r ?q) => refine (frame_call r q _) end; cbn; first [done | tauto | unfold game_wallet; tauto] : proc.
#[local] Hint Extern 2 (always _ (node_call _ _ _ _)) =>
  apply frame_node_call; first [by left; set_solver | by right] : proc.

Lemma frame_connect fuel addr : always R (connect fuel addr).
Proof. unfold connect. always_tac. apply frame_until. intros; always_tac. Qed.
Lemma frame_statusNetwork : always R statusNetwork.
Proof. unfold statusNetwork. always_tac. Qed.
Lemma frame_ensureRegtestPeer fuel : always R (ensureRegtestPeer getenv fuel).
Proof. unfold ensureRegtestPeer. always_tac. apply frame_until. intros; always_tac. Qed.
#[local] Hint Resolve frame_connect frame_statusNetwork frame_ensureRegtestPeer : proc.

Lemma frame_ensureWallet id : game_wallet id -> always R (ensureWallet id).
Proof. intros Hg. unfold ensureWallet. always_tac. Qed.
Lemma frame_spendableOf id : game_wallet id -> always R (spendableOf id).
Proof. intros Hg. unfold spendableOf. always_tac. Qed.
#[local] Hint Resolve frame_ensureWallet frame_spendableOf : proc.
Lemma frame_requireFunded w : game_wallet (w_id w) -> always R (requireFunded w).
Proof. intros Hg. unfold requireFunded. always_tac. Qed.
Lemma frame_showBalances : always R showBalances.
Proof. unfold showBalances, for_range. always_tac. Qed.
Lemma frame_printAddressLinks n e p h : always R (printAddressLinks n e p h).
Proof. unfold printAddressLinks. always_tac. Qed.
Lemma frame_printTxLink e t : always R (printTxLink e t).
Proof. unfold printTxLink. always_tac. Qed.
#[local] Hint Resolve frame_requireFunded frame_showBalances frame_printAddressLinks frame_printTxLink : proc.

Lemma frame_settle_loop fuel deadline w pay memo : can_spend k = true -> game_wallet (w_id w) ->
  forall n, always R (settle_loop getenv fuel n deadline w [pay; memo]).
Proof.
  intros Hk Hg. assert (always R (call BSVMS_SpendToOutputs (spend_request w [pay; memo]))) as Hc
    by (refine (frame_call BSVMS_SpendToOutputs _ _); split; [done|by exists w, pay, memo]).
  induction n as [|n IH]; cbn [settle_loop]; always_tac.
Qed.
Lemma frame_settleHand fuel w to sats ph hh winner : can_spend k = true -> game_wallet (w_id w) ->
  always R (settleHand getenv fuel w to sats ph hh winner).
Proof. intros Hk Hg. pose proof frame_settle_loop. unfold settleHand. always_tac. Qed.
#[local] Hint Resolve frame_settleHand : proc.

Lemma frame_readBet : can_read k = true -> always R readBet.
Proof. intros Hk. unfold readBet. always_tac. Qed.
Lemma frame_showTable h hand : always R (showTable h hand).
Proof. unfold showTable. always_tac. Qed.
#[local] Hint Resolve frame_readBet frame_showTable : proc.
Lemma frame_hitOrStand up deck : can_read k = true -> forall hand, always R (hitOrStand up deck hand).
Proof. intros Hk. induction deck as [|c deck IH]; intros hand; cbn [hitOrStand]; always_tac. Qed.
#[local] Hint Resolve frame_hitOrStand : proc.

Section game.
Context (player house : wallet).
Context (Hplayer : game_wallet (w_id player)) (Hhouse : game_wallet (w_id house)).
Context (Hspend : can_spend k = true) (Hread : can_read k = true).

Lemma frame_playHand fuel rng e : always R (playHand getenv fuel rng e player house).
Proof. unfold playHand, println. always_tac. Qed.
Hint Resolve frame_playHand : proc.
Lemma frame_playHands fuel n rng e : always R (playHands getenv fuel n rng e player house).
Proof. induction n as [|n IH]; cbn [playHands]; always_tac. Qed.
End game.

(** ** Funding *)

Lemma frame_balanceSats : always R (NodeRPC.balanceSats node).
Proof. unfold NodeRPC.balanceSats. always_tac. Qed.
Lemma frame_blockCount : always R (blockCount node).
Proof. unfold blockCount. always_tac. Qed.
Lemma frame_sendToAddress a n : can_send k = true -> always R (sendToAddress node a n).
Proof. intros Hk. unfold sendToAddress. always_tac. Qed.
Lemma frame_generate n : always R (generate node n).
Proof. unfold generate. always_tac. Qed.
Lemma frame_rawTransaction t : always R (rawTransaction node t).
Proof. unfold rawTransaction. always_tac. Qed.
Lemma frame_txOutExists t v : always R (txOutExists node t v).
Proof. unfold txOutExists. always_tac. Qed.
#[local] Hint Resolve frame_balanceSats frame_blockCount frame_sendToAddress frame_generate
  frame_rawTransaction frame_txOutExists : proc.
Lemma frame_waitReady fuel : always R (waitReady fuel node).
Proof. unfold waitReady. always_tac. apply frame_until. intros; always_tac. Qed.
Lemma frame_waitSpendable fuel n : always R (waitSpendable fuel node n).
Proof. unfold waitSpendable. always_tac. apply frame_until. intros; always_tac. Qed.
#[local] Hint Resolve frame_waitReady frame_waitSpendable : proc.

Lemma frame_check_coins w coins : game_wallet (w_id w) -> always R (check_coins node w coins).
Proof. intros Hg. induction coins as [|coin coins IH]; cbn [check_coins]; always_tac. Qed.
Lemma frame_clearMissingUTXOs w : game_wallet (w_id w) -> always R (clearMissingUTXOs node w).
Proof. intros Hg. pose proof frame_check_coins. unfold clearMissingUTXOs. always_tac. Qed.
Lemma frame_addNeeded n w : game_wallet (w_id w) -> always R (addNeeded n w).
Proof. intros Hg. unfold addNeeded. always_tac. Qed.
Lemma frame_topUp funded w : can_send k = true -> game_wallet (w_id w) -> always R (topUp node funded w).
Proof. intros Hk Hg. unfold topUp. always_tac. Qed.
Lemma frame_deliver height funded w : game_wallet (w_id w) -> always R (deliver node height funded w).
Proof.
  intros Hg. unfold deliver. case_match; [|always_tac].
  always_tac. match goal with |- always _ (call ?r ?q) => refine (frame_call r q _) end.
  cbn. split; [done|]. split; [done|]. apply int32_range.
Qed.

(** A loop over wallets of the game. *)
Lemma frame_wallets {B} (body : B -> wallet -> proc (process S) B) ws :
  Forall (fun w => game_wallet (w_id w)) ws -> (forall b w, game_wallet (w_id w) -> always R (body b w)) ->
  forall b, always R (for_range body b ws).
Proof.
  intros Hws Hb. induction Hws as [|w ws Hw _ IH]; intros b; cbn [for_range]; always_tac.
Qed.

Lemma frame_fundWallets fuel ws : can_send k = true -> Forall (fun w => game_wallet (w_id w)) ws ->
  always R (fundWallets fuel node ws).
Proof.
  intros Hk Hws. pose proof frame_addNeeded as Ha. pose proof frame_topUp as Ht. pose proof frame_deliver as Hd.
  pose proof (frame_wallets addNeeded ws Hws Ha).
  assert (forall b, always R (for_range (topUp node) b ws)) by (apply frame_wallets; auto).
  assert (forall h f b, always R (for_range (fun _ : unit => deliver node h f) b ws))
    by (intros; apply frame_wallets; auto).
  unfold fundWallets, println. always_tac.
Qed.
End frame.

(** An ensured wallet has the id asked for. *)
Lemma ensureWallet_id {S} `{Outside S} id : returns (fun w => w_id w = id) (ensureWallet id).
Proof. intros p w p' E. unfold ensureWallet in E. inv_ret. case_match; inv_ret; done. Qed.

Section program.
Context {S : Type} `{Outside S} (getenv : string -> string).
Context (R : process S -> process S -> Prop).
Context `{!Frame all_powers (env getenv "BSVMS_REGTEST_PEER" regtestPeer) (node_of getenv) R}.

Lemma frame_ensured id : game_wallet id ->
  always R (ensureWallet id) /\ returns (fun w => game_wallet (w_id w)) (ensureWallet id).
Proof.
  intros Hg. split; [by eapply frame_ensureWallet|]. intros p w p' E. by rewrite (ensureWallet_id _ _ _ _ E).
Qed.

Lemma frame_main version args fuel hands rng : always R (main getenv version args fuel hands rng).
Proof.
  destruct (frame_ensured playerWallet) as [Hp Rp]; [by left|].
  destruct (frame_ensured houseWallet) as [Hh Rh]; [by right|].
  assert (forall fuel addr, always R (connect fuel addr)) as Hconn by (intros; by eapply frame_connect).
  assert (forall fuel, always R (ensureRegtestPeer getenv fuel)) as Hpeer
    by (intros; by eapply frame_ensureRegtestPeer).
  assert (forall text, always R (printf text)) as Hprint by (intros; eapply frame_printf).
  assert (always R hang_up) as Hup by eapply frame_hang_up.
  assert (always R (play getenv fuel hands rng)) as Hplay.
  { unfold play, println. apply always_bind; [by auto with proc|done|intros ?].
    apply always_bind; [by auto with proc|by auto with proc|intros ?].
    eapply always_bind_ret; [by auto with proc|exact Hp|exact Rp|intros player Gp].
    eapply always_bind_ret; [by auto with proc|exact Hh|exact Rh|intros house Gh].
    assert (always R statusNetwork) by by eapply frame_statusNetwork.
    assert (always R (requireFunded player)) by by eapply frame_requireFunded.
    assert (always R (requireFunded house)) by by eapply frame_requireFunded.
    assert (forall n e, always R (printAddressLinks n e player house)) by (intros; by eapply frame_printAddressLinks).
    assert (always R (Now : proc (process S) Z)) by eapply frame_now.
    assert (forall fuel n rng e, always R (playHands getenv fuel n rng e player house))
      by (intros; by eapply frame_playHands).
    always_tac. }
  assert (always R (fundMain getenv fuel)) as Hfund.
  { assert (always R (waitReady fuel (node_of getenv))) by by eapply frame_waitReady.
    unfold fundMain. do 4 (apply always_bind; [by auto with proc|by auto with proc|intros ?]).
    apply always_bind; [by auto with proc|by auto with proc|intros ?].
    eapply always_bind_ret; [by auto with proc|exact Hp|exact Rp|intros player Gp].
    eapply always_bind_ret; [by auto with proc|exact Hh|exact Rh|intros house Gh].
    assert (Forall (fun w => game_wallet (w_id w)) [player; house]) as Hws by (by apply Forall_cons_2; [|apply Forall_singleton]).
    pose proof (frame_clearMissingUTXOs getenv (node_of getenv) all_powers R) as Hclear.
    assert (always R (fundWallets fuel (node_of getenv) [player; house])) by by eapply frame_fundWallets.
    apply always_bind; [by auto with proc| |intros ?; always_tac].
    apply (frame_wallets getenv (node_of getenv) all_powers R); [done|]. intros _ w Hw. always_tac. }
  unfold main, println. repeat case_match; always_tac.
Qed.
End program.

(** ** What the program expects of the service

    The part of the service's contract that the wallets of the game rest on: a
    wallet is found exactly when it is registered, and creating one that is not
    registers it. Compose shows that the service keeps it. *)

Class WalletStore (S : Type) `{Outside S} := {
  good : S -> Prop;
  registered : S -> string -> Prop;
  same : S -> S -> Prop;
  created : string -> S -> S -> Prop;
  same_preorder :: PreOrder same;
  same_good s s' : good s -> same s s' -> good s';
  created_good id s s' : good s -> created id s s' -> good s';
  get_law id s r s' : good s -> game_wallet id ->
    Invoke BSVMS_GetWallet (pb.MkGetWalletRequest tenantID id) s = (r, s') ->
    same s s' /\ (if bool_decide (result_code r = Some NotFound) then ~ registered s id else registered s id);
  create_law id s resp s' : good s -> game_wallet id ->
    Invoke BSVMS_CreateWallet (pb.MkCreateWalletRequest tenantID id) s = (Ok resp, s') -> created id s s';
  address_law id s r s' : good s -> game_wallet id ->
    Invoke BSVMS_NewAddress (pb.MkNewAddressRequest tenantID id) s = (r, s') -> same s s';
}.

Section ensured.
Context {S : Type} `{WalletStore S}.

Lemma call_invoke r req (p : process S) a p1 : call r req p = (Ret a, p1) ->
  Invoke r req (p_out p) = (a, p_out p1).
Proof. unfold call. destruct (Invoke r req (p_out p)). by intros [= <- <-]. Qed.

(** An ensured wallet was there, or was created once because it was not. *)
Lemma ensureWallet_ensures id p w p' : good (p_out p) -> game_wallet id ->
  ensureWallet id p = (Ret w, p') ->
  registered (p_out p) id /\ same (p_out p) (p_out p') \/
  ~ registered (p_out p) id /\
    exists s1 s2, same (p_out p) s1 /\ created id s1 s2 /\ same s2 (p_out p').
Proof.
  intros Hg Hid E. unfold ensureWallet in E.
  apply proc_ret_inv in E as (r & p1 & E1 & E).
  apply (call_invoke BSVMS_GetWallet _ _ _ _) in E1. destruct (get_law id _ _ _ Hg Hid E1) as [S1 R1].
  pose proof (same_good _ _ Hg S1) as Hg1.
  apply proc_ret_inv in E as (r2 & p2 & E2 & E). apply proc_ret_inv in E as (got & p3 & E3 & E).
  apply or_fatal_ret in E3 as [-> ->].
  assert (good (p_out p2) -> same (p_out p2) (p_out p')) as Hlast.
  { intros Hg2. destruct (from_option _ _ _) as [|a l]; [|inv_ret; reflexivity].
    apply proc_ret_inv in E as (a & p4 & E4 & E). apply (call_invoke BSVMS_NewAddress _ _ _ _) in E4.
    apply proc_ret_inv in E as (b & p5 & E5 & E). apply or_fatal_ret in E5 as [-> ->]. inv_ret.
    by eapply address_law. }
  destruct (decide (result_code r = Some NotFound)) as [Hnf|Hnf];
    [rewrite bool_decide_true in R1 by exact Hnf; rewrite bool_decide_true in E2 by exact Hnf
    |rewrite bool_decide_false in R1 by exact Hnf; rewrite bool_decide_false in E2 by exact Hnf].
  - right. split; [done|].
    apply proc_ret_inv in E2 as (c & p4 & E4 & E2). apply (call_invoke BSVMS_CreateWallet _ _ _ _) in E4.
    apply proc_ret_inv in E2 as (resp & p5 & E5 & E2). apply or_fatal_ret in E5 as [-> ->].
    apply (call_invoke BSVMS_GetWallet _ _ _ _) in E2.
    pose proof (create_law id _ _ _ Hg1 Hid E4) as Hc. pose proof (created_good _ _ _ Hg1 Hc) as Hg4.
    destruct (get_law id _ _ _ Hg4 Hid E2) as [S2 _]. pose proof (same_good _ _ Hg4 S2) as Hg2.
    exists (p_out p1), (p_out p4). split; [done|]. split; [done|]. etransitivity; [exact S2|by apply Hlast].
  - left. inv_ret. split; [done|]. etransitivity; [exact S1|by apply Hlast].
Qed.
End ensured.
