(* ===== verification/ClientTime.v ===== *)
(** * The blackjack program ends

    Time passes in every loop: with a clock that does not go back, 62 rounds are
    enough for every loop that has a minute, and a session has no more hands
    than lines of input. *)

From S2P Require Import Prelude GoStrings GoTime Json Proto Proc Process Blackjack Launch NodeRPC Client Fund.
From S2P Require Import ClientSpec.

(** ** Frames *)

Section frames.
Context {S : Type} `{Outside S}.

(** The input is only consumed. *)
Definition reads (p p' : process S) : Prop := (length (p_stdin p') <= length (p_stdin p))%nat.
#[export] Instance reads_preorder : PreOrder reads.
Proof. unfold reads. split; [intros p; lia|intros p1 p2 p3; lia]. Qed.

(** Only requests within the powers are made. *)
Definition requests (k : powers) (peer : string) (node : nodeRPC) (e : event) : Prop :=
  match e with Called r req _ => may_call k peer r req | Posted req _ => may_post k node req end.
Definition sends (k : powers) (peer : string) (node : nodeRPC) (p p' : process S) : Prop :=
  exists new, p_log p' = p_log p ++ new /\ Forall (requests k peer node) new.
#[export] Instance sends_preorder k peer node : PreOrder (sends k peer node).
Proof.
  split.
  - intros p. exists []. by rewrite app_nil_r.
  - intros p1 p2 p3 (n1 & E1 & H1) (n2 & E2 & H2). exists (n1 ++ n2).
    split; [by rewrite E2, E1, app_assoc|by apply Forall_app].
Qed.

Ltac step_cases := cbn; repeat match goal with
  | |- context [time_Now ?s] => destruct (time_Now s); cbn
  | |- context [let '(_, _) := ?x in _] => destruct x; cbn
  | |- context [match p_stdin ?p with _ => _ end] => destruct (p_stdin p) eqn:?; cbn
  | E : p_stdin _ = _ |- _ => rewrite E
  end.

#[export] Instance frame_reads k peer node : Frame k peer node reads.
Proof.
  split; try apply _; intros; intros p; unfold reads, call, post, dial, hang_up, printf, change, ReadString,
    next_shuffle, Now, Sleep; step_cases; cbn; lia.
Qed.

#[export] Instance frame_sends k peer node : Frame k peer node (sends k peer node).
Proof.
  split; try apply _.
  - intros r req Hc p. unfold call. destruct (Invoke r req (p_out p)) as [a s]. cbn.
    exists [Called r req a]. split; [done|]. by apply Forall_singleton.
  - intros req Hp p. unfold post. destruct (http_Do req (p_out p)) as [a s]. cbn.
    exists [Posted req a]. split; [done|]. by apply Forall_singleton.
  - intros addr p. unfold dial. destruct (NewClient addr (p_out p)). exists []. by rewrite app_nil_r.
  - intros p. exists []. by rewrite app_nil_r.
  - intros text p. exists []. by rewrite app_nil_r.
  - intros _ p. unfold ReadString. exists []. destruct (p_stdin p); by rewrite app_nil_r.
  - intros p. exists []. by rewrite app_nil_r.
  - intros p. unfold Now. exists []. cbn. destruct (time_Now (p_out p)). by rewrite app_nil_r.
  - intros d p. exists []. by rewrite app_nil_r.
Qed.

#[export] Instance frame_later `{!OutsideLaws S} k peer node : Frame k peer node later.
Proof. split; try apply _; intros; auto with proc. Qed.
End frames.

(** ** Parts without loops always return or exit *)

Section returns.
Context {S : Type} `{Outside S} (w : stop).
Abbreviation calm := (avoids w (fun _ : process S => True)).

Lemma never_statusNetwork : calm statusNetwork.
Proof. unfold statusNetwork. never_tac. Qed.
Hint Resolve never_statusNetwork : proc.
Lemma never_ensureWallet id : calm (ensureWallet id).
Proof. unfold ensureWallet. never_tac. Qed.
Hint Resolve never_ensureWallet : proc.
Lemma never_spendableOf id : calm (spendableOf id).
Proof. unfold spendableOf. never_tac. Qed.
Hint Resolve never_spendableOf : proc.
Lemma never_requireFunded x : calm (requireFunded x).
Proof. unfold requireFunded. never_tac. Qed.
Hint Resolve never_requireFunded : proc.
Lemma never_showBalances : calm showBalances.
Proof. unfold showBalances, for_range. never_tac. Qed.
Hint Resolve never_showBalances : proc.
Lemma never_printAddressLinks n e p h : calm (printAddressLinks n e p h).
Proof. unfold printAddressLinks. never_tac. Qed.
Hint Resolve never_printAddressLinks : proc.
Lemma never_printTxLink e t : calm (printTxLink e t).
Proof. unfold printTxLink. never_tac. Qed.
Hint Resolve never_printTxLink : proc.
End returns.
#[export] Hint Resolve never_statusNetwork never_ensureWallet never_spendableOf never_requireFunded never_showBalances never_printAddressLinks never_printTxLink : proc.

Section ends.
Context {S : Type} `{OutsideLaws S} (getenv : string -> string) (node : nodeRPC).
Abbreviation total := (avoids SFuel (fun _ : process S => True)).

(** The rounds of a loop with a minute; [settle_loop] looks at the clock last. *)
Definition enough : nat := 62.

Lemma deadline_total {A B C} fuel (body : A -> proc (process S) (A + B)) (k : A + B -> proc (process S) C) a :
  (enough <= fuel)%nat -> (forall a, always later (body a)) -> (forall a, total (body a)) ->
  (forall r, total (k r)) ->
  total (start ← Now; res ← until_deadline fuel (start + 60 * Second) body a; k res).
Proof.
  intros Hf Hl Hb Hk p _. destruct (now_ret p) as (t & p1 & E & Ht). erewrite proc_run by exact E.
  pose proof (until_deadline_ends body Hl Hb fuel (t + 60 * Second)%Z a p1) as He.
  unfold mbind at 1, proc_bind at 1.
  destruct (until_deadline fuel (t + 60 * Second) body a p1) as [[r| | |] p2]; try done.
  - by apply Hk.
  - exfalso. apply He; [unfold enough, Second in *; lia|unfold enough in *; lia|done].
Qed.

(** Steps of the program keep time. *)
Lemma later_ensureRegtestPeer fuel : always later (ensureRegtestPeer getenv fuel).
Proof. exact (frame_ensureRegtestPeer getenv node all_powers later fuel). Qed.
Lemma later_node_call {A} method params (into : json -> result A) : always later (node_call node method params into).
Proof. unfold node_call. always_tac. Qed.
Hint Resolve later_ensureRegtestPeer later_node_call : proc.

Lemma total_connect fuel addr : (enough <= fuel)%nat -> total (connect fuel addr).
Proof.
  intros Hf. unfold connect. apply deadline_total; [done|intros; always_tac|intros; never_tac|auto with proc].
Qed.
Lemma total_ensureRegtestPeer fuel : (enough <= fuel)%nat -> total (ensureRegtestPeer getenv fuel).
Proof.
  intros Hf. unfold ensureRegtestPeer. apply deadline_total; [done|intros; always_tac|intros; never_tac|].
  intros [[]|]; auto with proc.
Qed.
Hint Resolve total_connect total_ensureRegtestPeer : proc.


Lemma settle_loop_ends fuel from outputs : (enough <= fuel)%nat -> forall rounds deadline p,
  (deadline < time p + (Z.of_nat rounds - 1) * Second)%Z -> (0 < rounds)%nat ->
  stopped (fst (settle_loop getenv fuel rounds deadline from outputs p)) <> Some SFuel.
Proof.
  intros Hf. induction rounds as [|rounds IH]; intros deadline p Hd Hr; [lia|]. cbn [settle_loop].
  set (spend := call BSVMS_SpendToOutputs (spend_request from outputs)).
  assert (total spend /\ always later spend) as [Ht Hl] by (unfold spend; auto with proc).
  pose proof (Ht p I) as Htp. pose proof (Hl p) as Hlp.
  unfold mbind at 1, proc_bind at 1. destruct (spend p) as [[[resp|err]| | |] p1]; try done.
  set (again := if str_contains _ _ then _ else _).
  assert (total again /\ always later again) as [Hta Hla].
  { subst again. destruct (str_contains _ _); [|auto with proc]. split; [never_tac|always_tac]. }
  clearbody again. pose proof (Hta p1 I) as Htp1. pose proof (Hla p1) as Hlp1.
  unfold mbind at 1, proc_bind at 1. destruct (again p1) as [[[txid|]| | |] p2]; try done.
  destruct (now_ret p2) as (t & p3 & E & Hp3). erewrite proc_run by exact E.
  cbn [snd] in Hlp, Hlp1. unfold later in Hlp, Hlp1.
  destruct (Z.ltb_spec deadline t) as [|Hlt]; [done|]. erewrite proc_run by reflexivity.
  pose proof (sleep_second p3) as Hs. unfold Second in *. apply IH; lia.
Qed.

Lemma total_settleHand fuel from to sats ph hh winner : (enough <= fuel)%nat ->
  total (settleHand getenv fuel from to sats ph hh winner).
Proof.
  intros Hf. unfold settleHand. do 5 (apply never_bind; [never_tac|intros ?]).
  intros p _. destruct (now_ret p) as (t & p1 & E & Ht). erewrite proc_run by exact E.
  apply settle_loop_ends; unfold enough, Second in *; lia.
Qed.
Hint Resolve total_settleHand : proc.

Lemma total_readBet : total readBet.
Proof. unfold readBet. never_tac. Qed.
Lemma total_showTable h hand : total (showTable h hand).
Proof. unfold showTable. never_tac. Qed.
Hint Resolve total_readBet total_showTable : proc.
Lemma total_hitOrStand up deck : forall hand, total (hitOrStand up deck hand).
Proof. induction deck as [|c deck IH]; intros hand; cbn [hitOrStand]; never_tac. Qed.
Hint Resolve total_hitOrStand : proc.
Lemma total_playHand fuel rng e player house : (enough <= fuel)%nat ->
  total (playHand getenv fuel rng e player house).
Proof. intros Hf. unfold playHand, println. never_tac. Qed.
Hint Resolve total_playHand : proc.

Lemma total_node_call {A} method params (into : json -> result A) : total (node_call node method params into).
Proof. unfold node_call. never_tac. Qed.
Hint Resolve total_node_call : proc.
Lemma total_waitReady fuel : (enough <= fuel)%nat -> total (waitReady fuel node).
Proof.
  intros Hf. unfold waitReady. apply deadline_total; unfold blockCount; [done|intros; always_tac|intros; never_tac|].
  auto with proc.
Qed.
Lemma total_waitSpendable fuel n : (enough <= fuel)%nat -> total (waitSpendable fuel node n).
Proof.
  intros Hf. unfold waitSpendable.
  apply deadline_total; unfold NodeRPC.balanceSats; [done|intros; always_tac|intros; never_tac|auto with proc].
Qed.
Hint Resolve total_waitReady total_waitSpendable : proc.

Lemma total_check_coins w coins : total (check_coins node w coins).
Proof. induction coins as [|coin coins IH]; cbn [check_coins]; unfold txOutExists; never_tac. Qed.
Lemma total_clearMissingUTXOs w : total (clearMissingUTXOs node w).
Proof. pose proof total_check_coins. unfold clearMissingUTXOs. never_tac. Qed.
Lemma total_fundWallets fuel ws : (enough <= fuel)%nat -> total (fundWallets fuel node ws).
Proof.
  intros Hf. unfold fundWallets, addNeeded, topUp, deliver, generate, blockCount, rawTransaction, sendToAddress, println.
  never_tac.
Qed.
End ends.

Section program_ends.
Context {S : Type} `{OutsideLaws S} (getenv : string -> string).
Abbreviation total := (avoids SFuel (fun _ : process S => True)).

Lemma total_fundMain fuel : (enough <= fuel)%nat -> total (fundMain getenv fuel).
Proof.
  intros Hf. pose proof total_connect as Hc. pose proof (total_ensureRegtestPeer getenv) as Hp.
  pose proof (total_waitReady (node_of getenv)) as Hr. pose proof (total_clearMissingUTXOs (node_of getenv)) as Hcl.
  pose proof (total_fundWallets (node_of getenv)) as Hw.
  unfold fundMain. never_tac.
Qed.

(** The lines of input left bound the hands left: playing on takes one. *)
Lemma playHands_ends fuel rng e player house :
  (enough <= fuel)%nat -> game_wallet (w_id player) -> game_wallet (w_id house) ->
  forall hands p, (length (p_stdin p) < hands)%nat ->
  stopped (fst (playHands getenv fuel hands rng e player house p)) <> Some SFuel.
Proof.
  intros Hf Gp Gh. induction hands as [|hands IH]; intros p Hp; [lia|]. cbn [playHands].
  pose proof (total_playHand getenv (node_of getenv) fuel rng e player house Hf p I) as Ht.
  pose proof (frame_playHand getenv (node_of getenv) all_powers reads player house Gp Gh eq_refl eq_refl fuel rng e p) as Hr.
  unfold mbind at 1, proc_bind at 1.
  destruct (playHand getenv fuel rng e player house p) as [[[]| | |] p1]; try done.
  erewrite proc_run by reflexivity. unfold reads in Hr. cbn [snd] in Hr.
  unfold mbind at 1, proc_bind at 1, ReadString. cbn [p_stdin printf change].
  destruct (p_stdin p1) as [|line rest] eqn:E; [done|]. case_match; [done|]. apply IH. cbn in *. lia.
Qed.

(** Steps that end and only consume input leave enough hands. *)
Definition input_below (hands : nat) (p : process S) : Prop := (length (p_stdin p) < hands)%nat.
Lemma reads_bind {A B} (Q : A -> Prop) hands (m : proc (process S) A) (k : A -> proc (process S) B) :
  total m -> always reads m -> returns Q m -> (forall a, Q a -> ends (input_below hands) (k a)) ->
  ends (input_below hands) (m ≫= k).
Proof.
  intros Ht Hr HQ Hk. apply (avoids_bind_ret _ _ Q); [|intros s Hs|done|done].
  - eapply avoids_weaken; [|exact Ht]. done.
  - specialize (Hr s). unfold reads, input_below in *. lia.
Qed.

Lemma play_ends fuel hands rng : (enough <= fuel)%nat -> ends (input_below hands) (play getenv fuel hands rng).
Proof.
  intros Hf. unfold play, println.
  assert (forall A (m : proc (process S) A), returns (fun _ => True) m) as Hany by done.
  assert (forall text, always reads (printf text)) as Hprint by (intros; eapply (frame_printf (Frame := frame_reads all_powers "" (node_of getenv)))).
  destruct (frame_ensured getenv reads playerWallet) as [Hp Rp]; [by left|].
  destruct (frame_ensured getenv reads houseWallet) as [Hh Rh]; [by right|].
  assert (forall fuel addr, always reads (connect fuel addr)) as Hcon
    by exact (frame_connect getenv (node_of getenv) all_powers reads).
  assert (always reads statusNetwork) as Hnet by exact (frame_statusNetwork getenv (node_of getenv) all_powers reads).
  assert (forall fuel, always reads (ensureRegtestPeer getenv fuel)) as Hpeer
    by exact (frame_ensureRegtestPeer getenv (node_of getenv) all_powers reads).
  assert (forall w, game_wallet (w_id w) -> always reads (requireFunded w)) as Hreq
    by exact (frame_requireFunded getenv (node_of getenv) all_powers reads).
  assert (forall n e p h, always reads (printAddressLinks n e p h)) as Hlinks
    by exact (frame_printAddressLinks getenv (node_of getenv) all_powers reads).
  assert (always reads (Now : proc (process S) Z)) as Hnow by eapply (frame_now (Frame := frame_reads all_powers "" (node_of getenv))).
  eapply reads_bind; [by apply total_connect|done|by apply Hany|intros ? _].
  eapply reads_bind; [by auto with proc|by auto with proc|by apply Hany|intros ? _].
  eapply reads_bind; [by apply never_ensureWallet|done|exact Rp|intros player Gp].
  eapply reads_bind; [by apply never_ensureWallet|done|exact Rh|intros house Gh].
  eapply reads_bind; [by apply never_statusNetwork|done|by apply Hany|intros network _].
  eapply reads_bind; [|by case_match; auto with proc|by apply Hany|intros ? _].
  { case_match; [by apply total_ensureRegtestPeer|auto with proc]. }
  do 2 (eapply reads_bind; [by apply never_requireFunded|by apply Hreq|by apply Hany|intros ? _]).
  do 4 (eapply reads_bind; [by apply never_printf|done|by apply Hany|intros ? _]).
  eapply reads_bind; [by apply never_printAddressLinks|done|by apply Hany|intros ? _].
  eapply reads_bind; [by apply never_printf|done|by apply Hany|intros ? _].
  eapply reads_bind; [by apply never_now|done|by apply Hany|intros seed _].
  intros p Hp1. pose proof (playHands_ends fuel (rng seed) (trim_right_char "/"
    (env getenv "WOC_EXPLORER_URL" "http://localhost:3002")) player house Hf Gp Gh hands p Hp1) as He.
  unfold mbind, proc_bind. by destruct (playHands _ _ _ _ _ _ _ p) as [[[]| | |] p1].
Qed.

Lemma main_ends version args fuel hands rng : (enough <= fuel)%nat ->
  ends (input_below hands) (main getenv version args fuel hands rng).
Proof.
  intros Hf. pose proof (play_ends fuel hands rng Hf).
  assert (ends (input_below hands) (fundMain getenv fuel))
    by (eapply avoids_weaken; [|by apply total_fundMain]; done).
  unfold main, println, printf. repeat case_match; auto with proc.
Qed.
End program_ends.
