(* ===== verification/ClientLog.v ===== *)
(** * What the blackjack program called

    The record of calls, read for money: the spends asked of the service
    ([spends]), and what a settlement and a hand leave in it. *)

From S2P Require Import Prelude GoStrings GoTime Json Proto Proc Process Blackjack Launch NodeRPC Client Fund.
From S2P Require Import ClientSpec ClientTime.

(** ** Spends *)

Abbreviation spend_event := (pb.SpendToOutputsRequest * result pb.SpendDetailResponse)%type.
Definition spent (e : event) : list spend_event :=
  match e with
  | Called r req a =>
      match r return rpc_request r -> result (rpc_response r) -> list spend_event with
      | BSVMS_SpendToOutputs => fun req a => [(req, a)]
      | _ => fun _ _ => []
      end req a
  | Posted _ _ => []
  end.
Definition spends {S} (p : process S) : list spend_event := p_log p ≫= spent.

(** Steps that neither spend nor read the console. *)
Definition no_spend : powers := MkPowers false true false.
Definition quiet {S} (p p' : process S) : Prop := spends p' = spends p /\ p_stdin p' = p_stdin p.
#[export] Instance quiet_preorder {S} : PreOrder (@quiet S).
Proof. unfold quiet. split; [done|]. intros p1 p2 p3 [E1 F1] [E2 F2]. split; congruence. Qed.

Section log.
Context {S : Type} `{Outside S} (getenv : string -> string).

#[export] Instance frame_quiet peer node : Frame no_spend peer node (@quiet S).
Proof.
  split; try apply _; try done; unfold quiet, spends.
  - intros r req Hm p. unfold call. destruct (Invoke r req (p_out p)) as [a s]. cbn.
    rewrite bind_app. split; [|done]. destruct r; cbn; rewrite ?app_nil_r; try done. by destruct Hm.
  - intros req _ p. unfold post. destruct (http_Do req (p_out p)) as [a s]. cbn.
    by rewrite bind_app, app_nil_r.
  - intros addr p. unfold dial. by destruct (NewClient addr (p_out p)).
  - intros p. unfold Now. cbn. by destruct (time_Now (p_out p)).
Qed.

(** [quiet] steps of the program. *)
Lemma quiet_ensureRegtestPeer fuel : always quiet (ensureRegtestPeer getenv fuel).
Proof. exact (frame_ensureRegtestPeer getenv (node_of getenv) no_spend quiet fuel). Qed.
Lemma quiet_printTxLink e t : always quiet (printTxLink (S := S) e t).
Proof. exact (frame_printTxLink getenv (node_of getenv) no_spend quiet e t). Qed.
Lemma quiet_showBalances : always quiet (showBalances (S := S)).
Proof. exact (frame_showBalances getenv (node_of getenv) no_spend quiet). Qed.
Lemma quiet_printf text : always quiet (printf (S := S) text).
Proof. by intros p. Qed.
Lemma quiet_call r req : may_call no_spend (env getenv "BSVMS_REGTEST_PEER" regtestPeer) r req ->
  always quiet (call (S := S) r req).
Proof. exact (frame_call (Frame := frame_quiet _ (node_of getenv)) r req). Qed.
Lemma quiet_now : always quiet (Now : proc (process S) Z).
Proof. exact (frame_now (Frame := frame_quiet "" (node_of getenv))). Qed.

Lemma spend_run w outputs p : exists a p1, call BSVMS_SpendToOutputs (spend_request w outputs) p = (Ret a, p1) /\
  spends p1 = spends p ++ [(spend_request w outputs, a)] /\ p_stdin p1 = p_stdin p.
Proof.
  unfold call. destruct (Invoke BSVMS_SpendToOutputs _ (p_out p)) as [a s]. do 2 eexists. split; [done|].
  split; [|done]. unfold spends. cbn. by rewrite bind_app.
Qed.

(** ** Settling *)

(** What a settlement did, by its end: attempts with the same request, all
    refused, and on a return one more that was accepted. *)
Definition refused (req : pb.SpendToOutputsRequest) (errs : list error) : list spend_event :=
  (fun e => (req, Err e)) <$> errs.
Definition attempts (req : pb.SpendToOutputsRequest) (p p' : process S) (o : Proc.outcome string) : Prop :=
  p_stdin p' = p_stdin p /\ exists errs,
    match o with
    | Ret txid => exists resp, txid = spend_txid resp /\
        spends p' = spends p ++ refused req errs ++ [(req, Ok resp)]
    | _ => spends p' = spends p ++ refused req errs
    end.

Lemma attempts_quiet req p p1 p' o : quiet p p1 -> attempts req p1 p' o -> attempts req p p' o.
Proof. intros [E F]. unfold attempts. by rewrite E, F. Qed.
Lemma attempts_refused req p p1 p' o e :
  spends p1 = spends p ++ [(req, Err e)] -> p_stdin p1 = p_stdin p -> attempts req p1 p' o -> attempts req p p' o.
Proof.
  intros E F [F' (errs & Hs)]. split; [congruence|]. exists (e :: errs). unfold refused in *. cbn.
  destruct o; [destruct Hs as (resp & -> & Hs); exists resp; split; [done|]|..]; rewrite Hs, E, <- !app_assoc; done.
Qed.
Lemma attempts_accepted req p p1 resp :
  spends p1 = spends p ++ [(req, Ok resp)] -> p_stdin p1 = p_stdin p -> attempts req p p1 (Ret (spend_txid resp)).
Proof. intros E F. split; [done|]. exists [], resp. by rewrite E. Qed.
Lemma attempts_halted req p p' (o : Proc.outcome string) : halted o -> quiet p p' -> attempts req p p' o.
Proof. intros Ho [E F]. split; [done|]. exists []. cbn. rewrite E, app_nil_r. by destruct o. Qed.

Lemma settle_loop_attempts fuel from outputs : forall rounds deadline p o p',
  settle_loop getenv fuel rounds deadline from outputs p = (o, p') ->
  attempts (spend_request from outputs) p p' o.
Proof.
  induction rounds as [|rounds IH]; intros deadline p o p'; cbn [settle_loop].
  { intros [= <- <-]. by apply attempts_halted. }
  destruct (spend_run from outputs p) as (a & p1 & E & Hs & Hi). erewrite proc_run by exact E.
  destruct a as [resp|err]; [intros [= <- <-]; by apply attempts_accepted|].
  intros Hrest. eapply attempts_refused; [exact Hs|exact Hi|]. clear E Hs Hi p.
  (* the pause and the next round *)
  assert (forall p2, (now ← Now;
      if (deadline <? now)%Z then log_Fatal (fatal ("settle from " +:+ w_id from) err) else
      _ ← Sleep Second; settle_loop getenv fuel rounds deadline from outputs) p2 = (o, p') ->
      attempts (spend_request from outputs) p2 p' o) as Hnext.
  { intros p2 E2. eapply attempts_quiet; [apply quiet_now|].
    apply proc_cases in E2 as [(t & p3 & E & E2)|[Ho ->]]; [rewrite E|by apply attempts_halted].
    case_match; [injection E2 as <- <-; by apply attempts_halted|].
    erewrite proc_run in E2 by reflexivity. by apply IH in E2. }
  destruct (str_contains _ _); [|erewrite proc_run in Hrest by reflexivity; by apply Hnext].
  rewrite proc_assoc in Hrest. eapply attempts_quiet; [apply (quiet_ensureRegtestPeer fuel)|].
  apply proc_cases in Hrest as [([] & p2 & E & Hrest)|[Ho ->]]; [rewrite E|by apply attempts_halted].
  rewrite proc_assoc in Hrest. cbn [snd]. destruct (spend_run from outputs p2) as (a & p3 & E3 & Hs & Hi).
  erewrite proc_run in Hrest by exact E3. erewrite proc_run in Hrest by reflexivity.
  destruct a as [resp|err2]; [injection Hrest as <- <-; by apply attempts_accepted|].
  eapply attempts_refused; [exact Hs|exact Hi|]. by apply Hnext.
Qed.

(** The whole settlement: what it spends pays [sats] to [to] and records the
    hand. *)
Definition hand_record (sats : Z) (player house : list card) (winner : string) : bytes :=
  bytes_of_string (json_print compact 0 (handResult_json (MkHandResult "blackjack" (handStringParts player)
    (handStringParts house) (handValue player) (handValue house) sats winner))).

(** A call whose error is fatal. *)
Lemma quiet_checked_call r req (f : error -> error) {A} (k : rpc_response r -> proc (process S) A) p o p' :
  may_call no_spend (env getenv "BSVMS_REGTEST_PEER" regtestPeer) r req ->
  (x ← call r req; x ← or_fatal f x; k x) p = (o, p') ->
  quiet p p' /\ halted o \/
  exists x p1, quiet p p1 /\ p_log p1 = p_log p ++ [Called r req (Ok x)] /\ k x p1 = (o, p').
Proof.
  intros Hm. pose proof (quiet_call r req Hm p) as Hq. destruct (call_run r req p) as (a & p1 & E & Hl & _).
  rewrite E in Hq. cbn in Hq. erewrite proc_run by exact E. destruct a as [x|e]; cbn.
  - erewrite proc_run by reflexivity. intros Hk. right. by exists x, p1.
  - intros [= <- <-]. by left.
Qed.

Lemma settleHand_attempts fuel from to sats ph hh winner p o p' : game_wallet (w_id from) ->
  settleHand getenv fuel from to sats ph hh winner p = (o, p') ->
  quiet p p' /\ halted o \/
  exists pay memo, attempts (spend_request from [pay; memo]) p p' o /\
    Called BSVMS_P2PKHOutput (pb.MkP2PKHOutputRequest to sats) (Ok pay) ∈ p_log p' /\
    Called BSVMS_OpReturnOutput (pb.MkOpReturnOutputRequest (hand_record sats ph hh winner)) (Ok memo) ∈ p_log p'.
Proof.
  intros Gf E0. unfold settleHand in E0. pose proof (quiet_ensureRegtestPeer fuel p) as Q0.
  apply proc_cases in E0 as [([] & p0 & E & E0)|[Ho ->]]; [rewrite E in Q0|by left]. cbn [snd] in Q0.
  apply (quiet_checked_call BSVMS_P2PKHOutput (pb.MkP2PKHOutputRequest to sats)) in E0 as [[Q Ho]|(pay & p1 & Q1 & L1 & E0)]; [left; by split; [etrans|]| |done].
  apply (quiet_checked_call BSVMS_OpReturnOutput (pb.MkOpReturnOutputRequest (hand_record sats ph hh winner)))
    in E0 as [[Q Ho]|(memo & p2 & Q2 & L2 & E0)];
    [left; split; [etrans; [|etrans]|]; eassumption| |done].
  right. exists pay, memo. assert (quiet p p2) as Q by (etrans; [exact Q0|by etrans]).
  pose proof (frame_settle_loop getenv (node_of getenv) all_powers (sends all_powers
    (env getenv "BSVMS_REGTEST_PEER" regtestPeer) (node_of getenv)) fuel) as Hs.
  destruct (now_run p2) as (t & p3 & E3). erewrite proc_run in E0 by exact E3.
  pose proof (quiet_now p2) as Q3. rewrite E3 in Q3.
  assert (sends all_powers (env getenv "BSVMS_REGTEST_PEER" regtestPeer) (node_of getenv) p2 p3) as S3.
  { pose proof (frame_now (Frame := frame_sends all_powers (env getenv "BSVMS_REGTEST_PEER" regtestPeer)
      (node_of getenv)) p2) as S3. by rewrite E3 in S3. }
  specialize (Hs (t + 60 * Second)%Z from pay memo eq_refl Gf fuel p3). rewrite E0 in Hs. cbn [snd] in Hs.
  destruct S3 as (n3 & L3 & _), Hs as (n4 & L4 & _).
  split; [apply attempts_quiet with p3; [by etrans|by apply settle_loop_attempts in E0]|].
  rewrite L4, L3, L2, L1. split; set_solver.
Qed.
End log.
