(* ===== verification/ClientGame.v ===== *)
(** * The hand at the console refines the game

    [Client.playHand] runs the pure [Blackjack.playHand] on the console's input
    and the random source, and its spends are the settlement of that hand. *)

From S2P Require Import Prelude GoStrings GoTime Json Proto Proc Process Blackjack Launch NodeRPC Client Fund.
From S2P Require Import ClientSpec ClientTime ClientLog.

Section game.
Context {S : Type} `{Outside S} (getenv : string -> string).
Abbreviation P := (proc (process S)).

(** A run that only used the console. *)
Definition typed (p p' : process S) (input : list string) : Prop :=
  p_log p' = p_log p /\ p_shuffles p' = p_shuffles p /\ p_stdin p' = input.

Lemma typed_trans p p1 p2 i j : typed p p1 i -> typed p1 p2 j -> typed p p2 j.
Proof. unfold typed. intros (E1 & O1 & _) (E2 & O2 & E3). by rewrite E2, O2. Qed.
Lemma typed_spends p p' i : typed p p' i -> spends p' = spends p.
Proof. unfold spends. by intros (-> & _). Qed.

Lemma read_line_run p : exists p1, ReadString p = (Ret (hd "" (p_stdin p)), p1) /\
  typed p p1 (tl (p_stdin p)).
Proof. unfold ReadString, typed. destruct (p_stdin p) eqn:E; eexists; (split; [done|]); by rewrite ?E. Qed.
Lemma read_line_split input : read_line input = (trim_space (hd "" input), tl input).
Proof. by destruct input. Qed.

Lemma readBet_run p : exists p1, readBet p = (Ret (fst (askBet (p_stdin p))), p1) /\
  typed p p1 (snd (askBet (p_stdin p))).
Proof.
  unfold readBet, askBet. rewrite read_line_split. erewrite proc_run by reflexivity.
  match goal with |- context [(_ ≫= _) ?q] => destruct (read_line_run q) as (p1 & E & T) end.
  erewrite proc_run by exact E. cbn [p_stdin] in *.
  destruct (String.eqb _ ""); [by exists p1|].
  destruct (atoi _) as [n|]; [destruct (n <=? 0)%Z|]; by exists p1.
Qed.

Lemma hitOrStand_run up deck : forall hand p,
  match player_turn deck hand (p_stdin p) with
  | Some (hand', deck', input) => exists p1, hitOrStand up deck hand p = (Ret (hand', deck'), p1) /\ typed p p1 input
  | None => exists p1 input, hitOrStand up deck hand p = (Panic, p1) /\ typed p p1 input
  end.
Proof.
  induction deck as [|c deck IH]; intros hand p; cbn [player_turn hitOrStand];
    unfold showTable; rewrite proc_assoc; do 2 erewrite proc_run by reflexivity;
    (destruct (21 <=? handValue hand)%Z; [eexists; split; [reflexivity|done]|]);
    rewrite read_line_split; erewrite proc_run by reflexivity;
    match goal with |- context [(_ ≫= _) ?q] => destruct (read_line_run q) as (p1 & E & T) end;
    cbn [p_stdin] in T; (destruct (negb _) eqn:Eh;
      [eexists; split; [erewrite proc_run by exact E; cbn [p_stdin]; by rewrite Eh|done]|]).
  - do 2 eexists. split; [erewrite proc_run by exact E; cbn [p_stdin]; by rewrite Eh|exact T].
  - specialize (IH (hand ++ [c]) p1). destruct T as (L & O & I). rewrite I in IH. cbn [p_stdin] in IH.
    destruct (player_turn deck (hand ++ [c]) (tl (p_stdin p))) as [[[hand' deck'] input]|].
    + destruct IH as (p2 & E2 & T2). exists p2. split.
      * erewrite proc_run by exact E. cbn [p_stdin]. by rewrite Eh.
      * by eapply typed_trans; [|exact T2].
    + destruct IH as (p2 & input & E2 & T2). exists p2, input. split.
      * erewrite proc_run by exact E. cbn [p_stdin]. by rewrite Eh.
      * by eapply typed_trans; [|exact T2].
Qed.

(** ** The hand *)

(** The record of the hand, as it goes on the chain. *)
Definition record_data (st : settlement) : bytes :=
  bytes_of_string (json_print compact 0 (handResult_json (record st))).
#[local] Arguments record_data : simpl never.

(** What a settlement leaves among the spends: attempts that were refused, then
    at most one that was accepted, all with one request, from [from], that pays
    [sats] to [to] and records the hand. *)
Definition settles (st : settlement) (from to : wallet) (p p' : process S) (accepted : nat) : Prop :=
  exists pay memo errs resps,
    let req := spend_request from [pay; memo] in
    spends p' = spends p ++ refused req errs ++ ((fun r => (req, Ok r)) <$> resps) /\
    length resps = accepted /\ (accepted <= 1)%nat /\
    Called BSVMS_P2PKHOutput (pb.MkP2PKHOutputRequest (w_address to) (sats st)) (Ok pay) ∈ p_log p' /\
    Called BSVMS_OpReturnOutput (pb.MkOpReturnOutputRequest (record_data st)) (Ok memo) ∈ p_log p'.

(** The whole effect of a hand with settlement [st], by its end. *)
Definition hand_effect (player house : wallet) (st : option settlement) (p p' : process S)
    (o : Proc.outcome unit) : Prop :=
  match st with
  | None => spends p' = spends p
  | Some st =>
      let '(from, to) := if String.eqb (from_id st) houseWallet then (house, player) else (player, house) in
      match o with
      | Ret _ => settles st from to p p' 1
      | _ => spends p' = spends p \/ exists n, settles st from to p p' n
      end
  end.

Lemma attempts_settles (o : Proc.outcome string) st from to pay memo p p' :
  attempts (spend_request from [pay; memo]) p p' o ->
  Called BSVMS_P2PKHOutput (pb.MkP2PKHOutputRequest (w_address to) (sats st)) (Ok pay) ∈ p_log p' ->
  Called BSVMS_OpReturnOutput (pb.MkOpReturnOutputRequest (record_data st)) (Ok memo) ∈ p_log p' ->
  settles st from to p p' (match o with Ret _ => 1 | _ => 0 end).
Proof.
  intros [_ (errs & Hs)] Hp Hm. exists pay, memo, errs. destruct o as [txid| | |];
    [destruct Hs as (resp & -> & Hs); exists [resp]|exists []..];
    (split; [by rewrite ?app_nil_r|]); by auto.
Qed.

(** Steps after the settlement. *)
Lemma settles_quiet st from to p p1 p' n : settles st from to p p1 n -> quiet p1 p' -> records p1 p' ->
  settles st from to p p' n.
Proof.
  intros (pay & memo & errs & resps & Hs & Hn & Hle & Hp & Hm) [Q _] [new L].
  exists pay, memo, errs, resps. rewrite Q. repeat split; try done; rewrite L; set_solver.
Qed.

Lemma quiet_records_tail e txid :
  always quiet (_ ← printTxLink e txid; println "" : P unit) /\
  always records (_ ← printTxLink e txid; println "" : P unit).
Proof.
  split.
  - pose proof (quiet_printTxLink getenv e txid). pose proof (quiet_printf (S := S)). unfold println. always_tac.
  - intros p. pose proof (frame_printTxLink getenv (node_of getenv) all_powers (sends all_powers
      (env getenv "BSVMS_REGTEST_PEER" regtestPeer) (node_of getenv)) e txid p) as (new & L & _).
    unfold println, records. unfold mbind, proc_bind.
    destruct (printTxLink e txid p) as [[[]| | |] p1]; cbn in *; rewrite L; by eexists.
Qed.

(** A settlement does not panic. *)
Lemma calm_ensureRegtestPeer fuel : avoids SPanic (fun _ : process S => True) (ensureRegtestPeer getenv fuel).
Proof. unfold ensureRegtestPeer. never_tac. apply calm_until. intros; never_tac. Qed.
Lemma calm_settleHand fuel from to sats ph hh winner :
  avoids SPanic (fun _ : process S => True) (settleHand getenv fuel from to sats ph hh winner).
Proof.
  pose proof calm_ensureRegtestPeer as Hp.
  assert (forall rounds deadline outputs,
    avoids SPanic (fun _ : process S => True) (settle_loop getenv fuel rounds deadline from outputs)) as Hl
    by (induction rounds; intros; cbn [settle_loop]; never_tac).
  unfold settleHand. never_tac.
Qed.

Lemma quiet_then {A} (m : P A) (k : A -> P unit) st from to p p1 n o p' :
  settles st from to p p1 n -> always quiet m -> (forall a, always quiet (k a)) ->
  always records m -> (forall a, always records (k a)) -> (m ≫= k) p1 = (o, p') -> settles st from to p p' n.
Proof.
  intros Hs Qm Qk Rm Rk E. pose proof (always_bind quiet m k Qm Qk p1) as Q.
  pose proof (always_bind records m k Rm Rk p1) as R. rewrite E in Q, R. by eapply settles_quiet.
Qed.

Lemma records_showBalances : always records (showBalances : P unit).
Proof.
  intros p. destruct (frame_showBalances getenv (node_of getenv) all_powers (sends all_powers
      (env getenv "BSVMS_REGTEST_PEER" regtestPeer) (node_of getenv)) p) as (new & L & _). exists new. exact L.
Qed.

(** The settlement of a hand and what follows it. *)
Lemma settlement_effect fuel st from to bet ph hh winner say e p o p' :
  game_wallet (w_id from) -> sats st = bet -> record st = MkHandResult "blackjack" (handStringParts ph)
    (handStringParts hh) (handValue ph) (handValue hh) bet winner ->
  ((txid ← settleHand getenv fuel from (w_address to) bet ph hh winner;
    _ ← printf (won bet say txid); _ ← printTxLink e txid; println "") ≫= (fun _ => showBalances)) p = (o, p') ->
  o <> Panic /\
  match o with
  | Ret _ => settles st from to p p' 1 /\ p_stdin p' = p_stdin p
  | _ => spends p' = spends p \/ exists n, settles st from to p p' n
  end.
Proof.
  intros Gf Hs Hr E. split.
  { eapply calm_outcome; [|exact E]. pose proof calm_settleHand. unfold println. never_tac. }
  rewrite proc_assoc in E.
  destruct (settleHand getenv fuel from (w_address to) bet ph hh winner p) as [o1 p1] eqn:E1.
  pose proof (settleHand_attempts getenv _ _ _ _ _ _ _ _ _ _ Gf E1) as Ha.
  apply proc_cases in E as [(txid & p2 & E2 & E)|[Ho ->]]; rewrite E1 in *.
  - injection E2 as -> ->. destruct Ha as [[_ []]|(pay & memo & Ha & Hp & Hm)].
    assert (p_stdin p2 = p_stdin p) as Hi by apply Ha.
    eapply (attempts_settles _ st from to) in Ha; [|by rewrite Hs|by unfold record_data; rewrite Hr].
    rewrite proc_assoc in E. erewrite proc_run in E by reflexivity.
    destruct (quiet_records_tail e txid) as [Qt Rt].
    assert (settles st from to p p' 1) as Hs'.
    { eapply quiet_then; [|exact Qt|intros; exact (quiet_showBalances getenv)|exact Rt|intros; apply records_showBalances|exact E].
      apply (settles_quiet _ _ _ _ _ _ _ Ha); [done|by eexists [];rewrite app_nil_r]. }
    destruct o as [[]| | |]; [|right; by eexists..]. split; [done|].
    pose proof (always_bind quiet _ _ Qt (fun _ => quiet_showBalances getenv)) as Q.
    match type of E with _ ?q = _ => specialize (Q q) end. rewrite E in Q. destruct Q as [_ Q].
    change (p_stdin p' = p_stdin p2) in Q. by rewrite Q.
  - cbn [snd]. assert (spends p1 = spends p \/ exists n, settles st from to p p1 n) as Hd.
    { destruct Ha as [[[Q _] _]|(pay & memo & Ha & Hp & Hm)]; [by left|right].
      eapply (attempts_settles _ st from to) in Ha; [eauto|by rewrite Hs|by unfold record_data; rewrite Hr]. }
    by destruct o.
Qed.

Lemma settles_spends st from to p p1 p' n : spends p1 = spends p -> settles st from to p1 p' n ->
  settles st from to p p' n.
Proof. intros E. unfold settles. by rewrite E. Qed.

(** A hand at the console against the hand of the game. *)
Lemma playHand_effect fuel rng e player house p o p' :
  w_id player = playerWallet -> w_id house = houseWallet ->
  playHand getenv fuel rng e player house p = (o, p') ->
  match Blackjack.playHand (rng (p_shuffles p)) (p_stdin p) with
  | None => o = Panic /\ spends p' = spends p
  | Some pl => o <> Panic /\ hand_effect player house (p_settle pl) p p' o /\
      (o = Ret () -> p_stdin p' = p_input pl)
  end.
Proof.
  intros Ip Ih E. unfold playHand in E. unfold Blackjack.playHand.
  destruct (readBet_run p) as (p1 & E1 & T1).
  erewrite proc_run in E by exact E1. destruct (askBet (p_stdin p)) as [bet input]. cbn [fst snd] in *.
  erewrite proc_run in E by reflexivity. set (p2 := MkProcess _ _ _ _ _) in E.
  assert (p_log p2 = p_log p /\ p_stdin p2 = input) as [L2 I2] by (split; apply T1).
  replace (p_shuffles p1) with (p_shuffles p) in E by (symmetry; apply T1). clearbody p2. clear E1 T1 p1.
  assert (spends p2 = spends p) as S2 by (unfold spends; by rewrite L2).
  destruct (newDeck (rng (p_shuffles p))) as [deck|]; cbn [mbind option_bind];
    [erewrite proc_run in E by reflexivity|by injection E as <- <-].
  do 4 (destruct deck as [|? deck]; cbn [draw mbind option_bind]; [by injection E as <- <-|];
    erewrite proc_run in E by reflexivity; cbv beta iota in E).
  pose proof (hitOrStand_run c1 deck [c; c0] p2) as Ht. rewrite I2 in Ht.
  destruct (player_turn deck [c; c0] input) as [[[player_hand deck1] input1]|]; cbn [mbind option_bind].
  2: { destruct Ht as (p3 & i & E3 & T3). unfold mbind, proc_bind in E. rewrite E3 in E.
       injection E as <- <-. split; [done|]. by rewrite (typed_spends _ _ _ T3). }
  destruct Ht as (p3 & E3 & T3). erewrite proc_run in E by exact E3; cbv beta iota in E.
  assert (spends p3 = spends p) as S3 by (by rewrite (typed_spends _ _ _ T3)).
  assert (p_stdin p3 = input1) as I3 by apply T3. clear T3 E3.
  destruct (house_turn player_hand deck1 [c1; c2]) as [[house_hand deck2]|]; cbn [mbind option_bind];
    [erewrite proc_run in E by reflexivity; cbv beta iota in E|by injection E as <- <-].
  cbn [p_settle p_input]. unfold showTable in E. rewrite proc_assoc in E.
  do 2 erewrite proc_run in E by reflexivity. set (p4 := MkProcess _ _ _ _ _) in E.
  assert (spends p4 = spends p /\ p_stdin p4 = input1) as [S4 I4] by done. clearbody p4.
  clear p3 S3 I3 p2 L2 I2 S2. unfold settle. cbv zeta in E.
  set (w := outcome (handValue player_hand) (handValue house_hand)) in *. clearbody w.
  destruct (String.eqb_spec w "player") as [Ew|_]; [subst w|destruct (String.eqb_spec w "house") as [Ew|_]; [subst w|]].
  - eapply (settlement_effect fuel (MkSettlement houseWallet playerWallet bet _) house player) in E;
      [|by right|reflexivity|reflexivity].
    destruct E as [Ho E]. split; [done|]. cbn [hand_effect from_id]. change (houseWallet =? houseWallet)%string with true.
    cbv iota beta. destruct o as [[]| | |]; [|rewrite S4 in E; split; [|done]..].
    + destruct E as [E Hi]. split; [|intros _; congruence]. by eapply settles_spends.
    + destruct E as [E|[n E]]; [by left|right; exists n; by eapply settles_spends].
    + done.
    + destruct E as [E|[n E]]; [by left|right; exists n; by eapply settles_spends].
  - eapply (settlement_effect fuel (MkSettlement playerWallet houseWallet bet _) player house) in E;
      [|by left|reflexivity|reflexivity].
    destruct E as [Ho E]. split; [done|]. cbn [hand_effect from_id]. change (playerWallet =? houseWallet)%string with false.
    cbv iota beta. destruct o as [[]| | |]; [|rewrite S4 in E; split; [|done]..].
    + destruct E as [E Hi]. split; [|intros _; congruence]. by eapply settles_spends.
    + destruct E as [E|[n E]]; [by left|right; exists n; by eapply settles_spends].
    + done.
    + destruct E as [E|[n E]]; [by left|right; exists n; by eapply settles_spends].
  - rewrite proc_assoc in E. do 2 erewrite proc_run in E by reflexivity.
    pose proof (quiet_showBalances getenv) as Q. match type of E with _ ?q = _ => specialize (Q q) end.
    split; [by eapply calm_outcome; [apply never_showBalances|exact E]|].
    rewrite E in Q. destruct Q as [Qs Qi].
    change (spends p' = spends p4) in Qs. change (p_stdin p' = p_stdin p4) in Qi. cbn [hand_effect].
    split; [congruence|]. intros _. congruence.
Qed.
End game.
