(* ===== verification/Coins.v ===== *)
(** * Amounts in coins

    The program names an amount to the node as a float64 of coins, a hundred
    million satoshis each ([sendAmount]). The division rounds; what it gives is
    the amount that was meant, to the nearest satoshi. *)

From S2P Require Import Prelude GoStrings Json Proto Blackjack.
From Corelib Require Import SpecFloat.

Local Open Scope Z_scope.

(** The float [f], in coins, is [sats] satoshis to the nearest one: the number
    [f] is [m / 2^j], and [m / 2^j * 10^8] differs from [sats] by less than half. *)
Definition amounts_to (f : spec_float) (sats : Z) : Prop := exists m j,
  f = S754_finite false m (- j) /\ 0 <= j /\ 2 * Z.abs (Zpos m * 10 ^ 8 - sats * 2 ^ j) < 2 ^ j.

(** ** Binary digits *)

Lemma digits_bounds p : 2 ^ (Zpos (digits2_pos p) - 1) <= Zpos p < 2 ^ Zpos (digits2_pos p).
Proof.
  induction p as [p IH|p IH|]; cbn [digits2_pos]; [..|by cbn];
    rewrite Pos2Z.inj_succ, Z.pow_succ_r by lia;
    replace (Z.succ (Zpos (digits2_pos p)) - 1) with (Z.succ (Zpos (digits2_pos p) - 1)) by lia;
    rewrite Z.pow_succ_r by lia; lia.
Qed.
Lemma digits_unique p n : 2 ^ (n - 1) <= Zpos p < 2 ^ n -> 0 < n -> Zpos (digits2_pos p) = n.
Proof.
  intros Hp Hn. pose proof (digits_bounds p) as Hd. destruct (Z.lt_trichotomy (Zpos (digits2_pos p)) n) as [Hlt|[E|Hgt]]; [|done|].
  - assert (2 ^ Zpos (digits2_pos p) <= 2 ^ (n - 1)) by (apply Z.pow_le_mono_r; lia). lia.
  - assert (2 ^ n <= 2 ^ (Zpos (digits2_pos p) - 1)) by (apply Z.pow_le_mono_r; lia). lia.
Qed.
Lemma iter_xO p d : Zpos (Pos.iter xO p d) = Zpos p * 2 ^ Zpos d.
Proof.
  induction d as [|d IH] using Pos.peano_ind; cbn [Pos.iter]; [lia|].
  rewrite Pos.iter_succ, Pos2Z.inj_succ, Z.pow_succ_r by lia. lia.
Qed.

(** ** Rounding *)

(** The mantissas that need no shift, at exponents far from the ends. *)
Lemma shr_fexp_53 q e l : 2 ^ 52 <= q < 2 ^ 53 -> -1000 <= e <= 900 ->
  shr_fexp 53 1024 q e l = (shr_record_of_loc q l, e).
Proof.
  intros Hq He. unfold shr_fexp, fexp, emin. destruct q as [|p|]; [lia| |lia]. cbn [Zdigits2].
  rewrite (digits_unique p 53) by lia. replace (Z.max (53 + e - 53) (3 - 1024 - 53) - e) with 0 by lia. done.
Qed.
(** One digit more is shifted away. *)
Lemma shr_fexp_54 q e l : 2 ^ 53 <= q < 2 ^ 54 -> -1000 <= e <= 900 ->
  exists r s, shr_fexp 53 1024 q e l = (Build_shr_record (q / 2) r s, e + 1).
Proof.
  intros Hq He. unfold shr_fexp, fexp, emin. destruct q as [|p|]; [lia| |lia]. cbn [Zdigits2].
  rewrite (digits_unique p 54) by lia. replace (Z.max (54 + e - 53) (3 - 1024 - 53) - e) with 1 by lia.
  cbn [shr iter_pos]. assert (exists r s, shr_record_of_loc (Zpos p) l = Build_shr_record (Zpos p) r s) as (r & s & ->)
    by (destruct l as [|[]]; by do 2 eexists).
  destruct p as [p|p|]; [..|lia]; cbn [shr_1]; do 2 eexists; do 2 f_equal.
  - rewrite Pos2Z.inj_xI. apply (Z.div_unique _ _ _ 1); lia.
  - rewrite Pos2Z.inj_xO. apply (Z.div_unique _ _ _ 0); lia.
Qed.
Lemma round_near q l : q <= round_nearest_even q l <= q + 1.
Proof. unfold round_nearest_even. destruct l as [|[]]; try lia. destruct (Z.even q); lia. Qed.

(** What a quotient of 53 or 54 digits is rounded to is next to it. *)
Lemma settle_53 q e : 2 ^ 52 <= q <= 2 ^ 53 -> -1000 <= e <= 900 ->
  exists m k, (let '(mrs, e') := shr_fexp 53 1024 q e loc_Exact in
     match shr_m mrs with
     | Z0 => S754_zero false
     | Zpos m => if e' <=? 1024 - 53 then S754_finite false m e' else S754_infinity false
     | _ => S754_nan
     end) = S754_finite false m (e + k) /\ 0 <= k <= 1 /\ Zpos m * 2 ^ k = q.
Proof.
  intros Hq He. destruct (Z.eq_dec q (2 ^ 53)) as [->|Hne].
  - destruct (shr_fexp_54 (2 ^ 53) e loc_Exact) as (r & s & ->); [lia..|]. cbn [shr_m].
    replace (2 ^ 53 / 2) with (Zpos (2 ^ 52)) by reflexivity. rewrite (proj2 (Z.leb_le _ _)) by lia.
    eexists _, 1. split; [reflexivity|]. split; [lia|reflexivity].
  - rewrite shr_fexp_53 by lia. cbn [shr_record_of_loc shr_m]. destruct q as [|m|]; [lia| |lia].
    rewrite (proj2 (Z.leb_le _ _)) by lia. exists m, 0. rewrite Z.add_0_r. split; [done|]. lia.
Qed.
Lemma round_aux_near q e l : 2 ^ 52 <= q < 2 ^ 54 -> -900 <= e <= 800 ->
  exists m k, binary_round_aux 53 1024 false q e l = S754_finite false m (e + k) /\ 0 <= k <= 2 /\
    Z.abs (Zpos m * 2 ^ k - q) <= 2.
Proof.
  intros Hq He. unfold binary_round_aux. destruct (Z.lt_ge_cases q (2 ^ 53)) as [Hlt|Hge].
  - rewrite shr_fexp_53 by lia. assert (shr_m (shr_record_of_loc q l) = q) as -> by (by destruct l as [|[]]).
    pose proof (round_near q (loc_of_shr_record (shr_record_of_loc q l))) as Hr.
    destruct (settle_53 (round_nearest_even q (loc_of_shr_record (shr_record_of_loc q l))) e) as (m & k & E & Hk & Em); [lia..|].
    exists m, k. split; [exact E|]. lia.
  - destruct (shr_fexp_54 q e l) as (r & s & ->); [lia..|]. cbn [shr_m].
    pose proof (Z.div_mod q 2 ltac:(lia)) as Hd. pose proof (Z.mod_pos_bound q 2 ltac:(lia)) as Hm.
    set (lr := loc_of_shr_record _). pose proof (round_near (q / 2) lr) as Hr.
    destruct (settle_53 (round_nearest_even (q / 2) lr) (e + 1)) as (m & k & E & Hk & Em); [lia..|].
    exists m, (k + 1). split; [rewrite E; f_equal; lia|]. split; [lia|].
    rewrite Z.pow_add_r by lia. lia.
Qed.

(** ** Amounts *)

(** Whole numbers up to 53 binary digits are exact. *)
Lemma float_of_pos p : Zpos p < 2 ^ 41 -> exists m d,
  float_of_Z (Zpos p) = S754_finite false m (- d) /\ 12 <= d <= 52 /\ Zpos m = Zpos p * 2 ^ d /\ 2 ^ 52 <= Zpos m < 2 ^ 53.
Proof.
  intros Hp. pose proof (digits_bounds p) as Hd. set (n := digits2_pos p) in *.
  assert (Zpos n <= 41) as Hn.
  { destruct (Z.le_gt_cases (Zpos n) 41) as [|Hgt]; [done|].
    assert (2 ^ 41 <= 2 ^ (Zpos n - 1)) by (apply Z.pow_le_mono_r; lia). lia. }
  assert (exists d, Zpos d = 53 - Zpos n) as [d Ed] by (exists (Z.to_pos (53 - Zpos n)); lia).
  assert (2 ^ 52 <= Zpos p * 2 ^ Zpos d < 2 ^ 53) as Hm.
  { replace 52 with (Zpos n - 1 + Zpos d) by lia. replace 53 with (Zpos n + Zpos d) by lia.
    rewrite !Z.pow_add_r by lia. split; [apply Z.mul_le_mono_nonneg_r|apply Z.mul_lt_mono_pos_r]; lia. }
  exists (Pos.iter xO p d), (Zpos d). rewrite iter_xO. split; [|lia].
  unfold float_of_Z, binary_normalize, binary_round, fexp, emin. fold n.
  replace (Z.max (Zpos n + 0 - 53) (3 - 1024 - 53)) with (- Zpos d) by lia.
  unfold shl_align. replace (- Zpos d - 0) with (- Zpos d) by lia. set (m := Pos.iter xO p d).
  change (binary_round_aux 53 1024 false (Zpos m) (- Zpos d) loc_Exact = S754_finite false m (- Zpos d)).
  assert (Zpos m = Zpos p * 2 ^ Zpos d) as Em by apply iter_xO. unfold binary_round_aux. rewrite shr_fexp_53 by lia.
  cbn [shr_record_of_loc shr_m loc_of_shr_record round_nearest_even]. rewrite shr_fexp_53 by lia.
  cbn [shr_record_of_loc shr_m]. by rewrite (proj2 (Z.leb_le _ _)) by lia.
Qed.

(** The amount sent, for what any wallet can lack. *)
Lemma sendAmount_near sats : 0 < sats < 2 ^ 41 -> amounts_to (sendAmount sats) sats.
Proof.
  intros Hs. destruct sats as [|p|]; [lia| |lia]. destruct (float_of_pos p) as (m1 & d & E1 & Hd & Em & Hm); [lia|].
  unfold sendAmount. rewrite E1. replace hundred_million with (S754_finite false 6710886400000000 (-26)) by reflexivity.
  cbn [SFdiv xorb]. unfold SFdiv_core_binary, fexp, emin. cbn [Zdigits2]. rewrite (digits_unique m1 53) by lia.
  change (Zpos (digits2_pos 6710886400000000)) with 53.
  replace (Z.min (Z.max (53 + - d - (53 + -26) - 53) (3 - 1024 - 53)) (- d - -26)) with (- (d + 27)) by lia.
  replace (- d - -26 - - (d + 27)) with 53 by lia. cbn [Z.sub]. rewrite Z.shiftl_mul_pow2 by lia.
  destruct (Z.div_eucl (Zpos m1 * 2 ^ 53) 6710886400000000) as [q r] eqn:Eq.
  pose proof (Z_div_mod (Zpos m1 * 2 ^ 53) 6710886400000000 ltac:(lia)) as Hdm. rewrite Eq in Hdm. destruct Hdm as [Hq Hr].
  assert (2 ^ 52 <= q < 2 ^ 54) as Hq54 by lia.
  destruct (round_aux_near q (- (d + 27)) (new_location 6710886400000000 r)) as (m & k & -> & Hk & Hn); [lia..|].
  exists m, (d + 27 - k). split; [f_equal; lia|]. split; [lia|].
  assert (Z.abs (q * 10 ^ 8 - Zpos p * 2 ^ (d + 27)) <= 10 ^ 8) as Hqp.
  { rewrite Z.pow_add_r by lia. replace (Zpos p * (2 ^ d * 2 ^ 27)) with (Zpos m1 * 2 ^ 27) by lia. lia. }
  assert (Zpos p * 2 ^ (d + 27) = Zpos p * 2 ^ (d + 27 - k) * 2 ^ k) as Hpk
    by (rewrite <- Z.mul_assoc, <- Z.pow_add_r by lia; do 2 f_equal; lia).
  assert (2 ^ (d + 27) = 2 ^ (d + 27 - k) * 2 ^ k) as Hjk by (rewrite <- Z.pow_add_r by lia; f_equal; lia).
  assert (2 ^ 39 <= 2 ^ (d + 27)) by (apply Z.pow_le_mono_r; lia).
  assert (0 < 2 ^ k) by lia.
  assert (Z.abs (Zpos m * 10 ^ 8 - Zpos p * 2 ^ (d + 27 - k)) * 2 ^ k =
    Z.abs (Zpos m * 2 ^ k * 10 ^ 8 - Zpos p * 2 ^ (d + 27))) as Ea.
  { rewrite Hpk. rewrite <- (Z.abs_eq (2 ^ k)) at 1 by lia. rewrite <- Z.abs_mul. f_equal. ring. }
  apply (Z.mul_lt_mono_pos_r (2 ^ k)); [done|]. rewrite <- Hjk, <- Z.mul_assoc, Ea. lia.
Qed.
