(* ===== verification/FundLog.v ===== *)
(** * What funding sends

    The record of calls, read for the node's coins: the answers of the wallets'
    balances and the requests that send coins, pass by pass. *)

From S2P Require Import Prelude GoStrings GoTime Encoding Json Proto Proc Process Blackjack Launch NodeRPC Client Fund.
From S2P Require Import ClientSpec ClientTime Coins.

(** ** Requests that send *)

(** The body of a call begins with its method. *)
Definition body_start (method : string) : string :=
  "{" +:+ json_quote "id" +:+ ":" +:+ json_quote "blackjack" +:+ "," +:+ json_quote "jsonrpc" +:+ ":" +:+
  json_quote "1.0" +:+ "," +:+ json_quote "method" +:+ ":" +:+ json_quote method.
Definition sends_coins (req : http_request) : bool := has_prefix (req_body req) (body_start "sendtoaddress").

Lemma call_body_start method params body : call_body method params = Ok body ->
  exists rest, body = body_start method +:+ String "," rest.
Proof.
  unfold call_body. intros E. apply result_bind_ok in E as (ps & _ & Eb). apply Ok_inj in Eb. subst body.
  exists (json_quote "params" +:+ ":" +:+ json_print compact 1 ps +:+ "}").
  unfold body_start. cbn [json_print fmap list_fmap str_join compact line_break colon].
  generalize (json_quote "id"), (json_quote "blackjack"), (json_quote "jsonrpc"), (json_quote "1.0"),
    (json_quote "method"), (json_quote method), (json_quote "params"), (json_print compact 1 ps).
  intros. cbn [String.append]. rewrite <- !app_str_assoc. cbn [String.append].
  repeat first [rewrite app_str_cons | rewrite <- app_str_assoc]. reflexivity.
Qed.

Lemma call_body_sends method params body : call_body method params = Ok body ->
  method ∈ ["getbalance"; "getblockcount"; "generate"; "getrawtransaction"; "gettxout"; "sendtoaddress"] ->
  has_prefix body (body_start "sendtoaddress") = bool_decide (method = "sendtoaddress").
Proof.
  intros (rest & ->)%call_body_start Hm.
  repeat (apply elem_of_cons in Hm as [-> | Hm]; [reflexivity|]). by apply elem_of_nil in Hm.
Qed.

#[global] Arguments body_start : simpl never.
#[global] Arguments call_body : simpl never.

(** The coins asked of the node, with its answers. *)
Definition coin (e : event) : list (http_request * result http_response) :=
  match e with
  | Posted req a => if sends_coins req then [(req, a)] else []
  | Called _ _ _ => []
  end.
Definition coins {S} (p : process S) : list (http_request * result http_response) := p_log p ≫= coin.

Definition no_send : powers := MkPowers true false true.
Definition keeps_coins {S} (p p' : process S) : Prop := coins p' = coins p.
#[export] Instance keeps_coins_preorder {S} : PreOrder (@keeps_coins S).
Proof. unfold keeps_coins. split; [done|]. intros p1 p2 p3. congruence. Qed.

Section fund.
Context {S : Type} `{Outside S} (getenv : string -> string) (r : nodeRPC).
Let peer := env getenv "BSVMS_REGTEST_PEER" regtestPeer.

#[export] Instance frame_coins node : Frame no_send peer node (@keeps_coins S).
Proof.
  split; try apply _; try done; unfold keeps_coins, coins.
  - intros m req _ p. unfold call. destruct (Invoke m req (p_out p)) as [a s]. cbn. by rewrite bind_app, app_nil_r.
  - intros req (_ & _ & _ & method & params & Hm & Hb) p. unfold post.
    destruct (http_Do req (p_out p)) as [a s]. cbn. rewrite bind_app. cbn. unfold sends_coins.
    rewrite (call_body_sends _ _ _ Hb); [|destruct Hm as [Hm|[_ Hm]]; [set_solver|done]].
    rewrite bool_decide_false; [by rewrite app_nil_r|]. intros ->. destruct Hm as [Hm|[_ Hm]]; [|done]. set_solver.
  - intros addr p. unfold dial. by destruct (NewClient addr (p_out p)).
  - intros _ p. unfold ReadString. by destruct (p_stdin p).
  - intros p. unfold Now. cbn. by destruct (time_Now (p_out p)).
Qed.

(** ** Topping up *)

Definition node_request (body : string) : http_request :=
  MkHttpRequest (url r) (username r) (password r) "application/json" body (client_timeout r).

(** The second pass over wallets whose spendable balances read [bs]: the map of
    transactions it makes of [funded] and the coins it asks for, to the satoshi what
    the wallet lacks of the seed. *)
Inductive tops : list wallet -> list Z -> gmap string string -> gmap string string ->
    list (http_request * result http_response) -> Prop :=
  | tops_nil f : tops [] [] f f []
  | tops_enough w ws b bs f f' cs : (seedSatoshis <= b)%Z -> tops ws bs f f' cs -> tops (w :: ws) (b :: bs) f f' cs
  | tops_send w ws b bs f f' cs amount body answer txid : (b < seedSatoshis)%Z ->
      ((- 2 ^ 40 <= b)%Z -> amounts_to amount (seedSatoshis - b)) ->
      call_body "sendtoaddress" (Some [PString (w_address w); PFloat amount]) = Ok body ->
      read_answer "sendtoaddress" into_string answer = Ok txid ->
      tops ws bs (<[w_id w := txid]> f) f' cs ->
      tops (w :: ws) (b :: bs) f f' ((node_request body, Ok answer) :: cs).

(** The balance of [w] was read as [b]. *)
Definition balance_read (p : process S) (w : wallet) (b : Z) : Prop := exists resp,
  Called BSVMS_Balance (pb.MkBalanceRequest tenantID (w_id w)) (Ok resp) ∈ p_log p /\
  pb.BalanceResponse_Spendable resp = b.

Lemma spendableOf_ret w p b p' : spendableOf (w_id w) p = (Ret b, p') ->
  balance_read p' w b /\ coins p' = coins p /\ records p p'.
Proof.
  unfold spendableOf. intros E.
  destruct (call_run BSVMS_Balance (pb.MkBalanceRequest tenantID (w_id w)) p) as (a & p1 & E1 & L & _).
  erewrite proc_run in E by exact E1. inv_ret. unfold balance_read, coins, records. rewrite L, bind_app. cbn.
  rewrite app_nil_r. split; [exists x; split; [set_solver|done]|]. split; [done|by eexists].
Qed.

Lemma node_call_ret {A} method params (into : json -> result A) p x p' :
  node_call r method params into p = (Ret (Ok x), p') -> exists body answer,
    call_body method params = Ok body /\ read_answer method into answer = Ok x /\
    p_log p' = p_log p ++ [Posted (node_request body) (Ok answer)].
Proof.
  unfold node_call. destruct (call_body method params) as [body|e]; [|by intros [= ?]].
  unfold post. fold (node_request body). destruct (http_Do (node_request body) (p_out p)) as [[answer|e] s] eqn:E; unfold mbind, proc_bind; rewrite ?E; cbn.
  - intros [= Hx <-]. exists body, answer. done.
  - by intros [= ?].
Qed.

Lemma balance_read_mono p p' w b : records p p' -> balance_read p w b -> balance_read p' w b.
Proof. intros [new L] (resp & Hin & Hb). exists resp. rewrite L. split; [set_solver|done]. Qed.

Lemma coin_sends params body a : call_body "sendtoaddress" params = Ok body ->
  [Posted (node_request body) a] ≫= coin = [(node_request body, a)].
Proof.
  intros E. change ((if sends_coins (node_request body) then [(node_request body, a)] else []) ++ [] =
    [(node_request body, a)]). rewrite app_nil_r. unfold sends_coins. cbn [req_body node_request].
  rewrite (call_body_sends _ _ _ E) by (do 5 right; left). by rewrite bool_decide_true.
Qed.

Lemma topUp_pass ws : forall f p f' p', for_range (topUp r) f ws p = (Ret f', p') ->
  exists bs cs, tops ws bs f f' cs /\ coins p' = coins p ++ cs /\ records p p' /\
    Forall2 (balance_read p') ws bs.
Proof.
  induction ws as [|w ws IH]; intros f p f' p' E; cbn [for_range] in E.
  { inv_ret. exists [], []. rewrite app_nil_r. split; [constructor|]. by split_and!. }
  apply proc_ret_inv in E as (f1 & p1 & E1 & E). unfold topUp in E1.
  apply proc_ret_inv in E1 as (b & p2 & Eb & E1). apply spendableOf_ret in Eb as (Hb & C2 & R2).
  destruct (IH _ _ _ _ E) as (bs & cs & Ht & C & R & HF). clear IH E.
  destruct (Z.leb_spec seedSatoshis b) as [Hle|Hlt].
  - inv_ret. exists (b :: bs), cs. split; [by constructor|]. split; [congruence|].
    split; [by etransitivity|]. constructor; [by eapply balance_read_mono|done].
  - apply proc_ret_inv in E1 as (x & p3 & E3 & E1). apply proc_ret_inv in E1 as (txid & p4 & E4 & E1).
    apply or_fatal_ret in E4 as [-> ->]. erewrite proc_run in E1 by reflexivity. inv_ret. apply node_call_ret in E3 as (body & answer & Eb & Ea & L3).
    assert (coins p3 = coins p2 ++ [(node_request body, Ok answer)]) as C3.
    { unfold coins. rewrite L3, bind_app. f_equal. by eapply coin_sends. }
    assert (records p2 p3) as R3 by (unfold records; rewrite L3; by eexists).
    exists (b :: bs), ((node_request body, Ok answer) :: cs).
    split.
    { econstructor; [done| |exact Eb|exact Ea|exact Ht]. intros Hb40. unfold missing. unfold seedSatoshis in *.
      rewrite int64_id by (unfold in_int64; lia). apply sendAmount_near. lia. }
    split.
    { etransitivity; [exact C|]. change (coins p3 ++ cs = coins p ++ (node_request body, Ok answer) :: cs).
      by rewrite C3, C2, <- app_assoc. }
    split; [etransitivity; [exact R2|]; etransitivity; [exact R3|exact R]|].
    constructor; [|done]. eapply balance_read_mono; [exact R|]. by eapply (balance_read_mono p2).
Qed.

(** The last pass: [log] has the wallet's funding transaction fetched from the
    node and handed to the service, with the height of its block. *)
Definition delivered (log : list event) (height : Z) (funded : gmap string string) (w : wallet) : Prop :=
  forall txid, funded !! w_id w = Some txid -> exists body answer rawHex raw done,
    call_body "getrawtransaction" (Some [PString txid]) = Ok body /\
    read_answer "getrawtransaction" into_string answer = Ok rawHex /\ hex_decode rawHex = Ok raw /\
    Posted (node_request body) (Ok answer) ∈ log /\
    Called BSVMS_ProcessRawTx (pb.MkProcessRawTxRequest tenantID (w_id w) raw (int32 height)) (Ok done) ∈ log.
Lemma delivered_mono log log' height funded w : log ⊆ log' -> delivered log height funded w -> delivered log' height funded w.
Proof.
  intros Hl Hd txid Ht. destruct (Hd txid Ht) as (body & answer & hex & raw & d & ? & ? & ? & Hp & Hc).
  exists body, answer, hex, raw, d. split_and!; auto.
Qed.

Lemma rawTransaction_ret txid p raw p' : rawTransaction r txid p = (Ret (Ok raw), p') -> exists body answer rawHex,
  call_body "getrawtransaction" (Some [PString txid]) = Ok body /\
  read_answer "getrawtransaction" into_string answer = Ok rawHex /\ hex_decode rawHex = Ok raw /\
  p_log p' = p_log p ++ [Posted (node_request body) (Ok answer)].
Proof.
  unfold rawTransaction. intros E. apply proc_ret_inv in E as (x & p1 & E1 & E). inv_ret.
  destruct x as [rawHex|e]; [|done]. apply node_call_ret in E1 as (body & answer & Eb & Ea & L).
  by exists body, answer, rawHex.
Qed.
Lemma deliver_ret height funded w p p' : deliver r height funded w p = (Ret (), p') ->
  exists new, p_log p' = p_log p ++ new /\ delivered new height funded w.
Proof.
  intros E. unfold deliver in E. destruct (funded !! w_id w) as [txid|] eqn:Ht.
  2: { inv_ret. exists []. rewrite app_nil_r. split; [done|]. intros txid. congruence. }
  apply proc_ret_inv in E as (x & p1 & E1 & E). apply proc_ret_inv in E as (raw & p2 & E2 & E).
  apply or_fatal_ret in E2 as [-> ->]. apply rawTransaction_ret in E1 as (body & answer & hex & Eb & Ea & Eh & L1).
  destruct (call_run BSVMS_ProcessRawTx (pb.MkProcessRawTxRequest tenantID (w_id w) raw (int32 height)) p1)
    as (a & p3 & E3 & L & _). erewrite proc_run in E by exact E3. inv_ret.
  eexists. rewrite L, L1, <- app_assoc. split; [done|]. intros txid' Et. assert (txid' = txid) as -> by congruence.
  exists body, answer, hex, raw, x. split_and!; [done..|set_solver|set_solver].
Qed.

Lemma records_always k {A} (m : proc (process S) A) : always (sends k peer r) m -> always records m.
Proof. intros Hm p. destruct (Hm p) as (new & L & _). by exists new. Qed.

Lemma deliver_pass height funded ws : Forall (fun w => game_wallet (w_id w)) ws -> forall p p',
  for_range (fun _ : unit => deliver r height funded) () ws p = (Ret (), p') ->
  (exists new, p_log p' = p_log p ++ new /\ Forall (delivered new height funded) ws) /\ coins p' = coins p.
Proof.
  induction 1 as [|w ws Gw _ IH]; intros p p' E; cbn [for_range] in E.
  { inv_ret. split; [|done]. exists []. by rewrite app_nil_r. }
  apply proc_ret_inv in E as ([] & p1 & E1 & E).
  pose proof (frame_deliver getenv r no_send keeps_coins height funded w Gw p) as C1. rewrite E1 in C1.
  apply deliver_ret in E1 as (new1 & L1 & D1). destruct (IH p1 p' E) as ((new & L & HF) & C).
  split; [|unfold keeps_coins in C1; cbn [snd] in C1; congruence].
  exists (new1 ++ new). rewrite L, L1, <- app_assoc. split; [done|]. constructor.
  - eapply delivered_mono; [|exact D1]. set_solver.
  - eapply Forall_impl; [exact HF|]. intros w'. apply delivered_mono. set_solver.
Qed.

(** What is done once coins were sent: a block is mined, its height read, and the
    transactions handed over, in that order. *)
Definition handed_over (p p' : process S) (funded : gmap string string) (ws : list wallet) : Prop :=
  exists before after gb generated hashes hb counted height,
    p_log p' = p_log p ++ before ++ [Posted (node_request gb) (Ok generated); Posted (node_request hb) (Ok counted)] ++ after /\
    call_body "generate" (Some [PInt 1]) = Ok gb /\ read_answer "generate" into_strings generated = Ok hashes /\
    call_body "getblockcount" None = Ok hb /\ read_answer "getblockcount" into_int counted = Ok height /\
    Forall (delivered after height funded) ws.
Lemma generate_ret n p p' : generate r n p = (Ret (Ok ()), p') -> exists body answer hashes,
  call_body "generate" (Some [PInt n]) = Ok body /\ read_answer "generate" into_strings answer = Ok hashes /\
  p_log p' = p_log p ++ [Posted (node_request body) (Ok answer)].
Proof.
  unfold generate. intros E. apply proc_ret_inv in E as (x & p1 & E1 & E). inv_ret. destruct x as [hashes|e]; [|done].
  apply node_call_ret in E1 as (body & answer & ? & ? & ?). by exists body, answer, hashes.
Qed.

(** What a completed run of the passes leaves. *)
Lemma fundWallets_ret fuel ws p p' : Forall (fun w => game_wallet (w_id w)) ws ->
  fundWallets fuel r ws p = (Ret (), p') -> exists bs funded cs,
    tops ws bs ∅ funded cs /\ coins p' = coins p ++ cs /\ Forall2 (balance_read p') ws bs /\
    (funded = ∅ \/ handed_over p p' funded ws).
Proof.
  intros Hws E. unfold fundWallets in E.
  apply proc_ret_inv in E as (n & p1 & E1 & E).
  pose proof (frame_wallets getenv r no_send keeps_coins addNeeded ws Hws
    (frame_addNeeded getenv r no_send keeps_coins) 0%Z p) as C1.
  pose proof (records_always _ _ (frame_wallets getenv r no_send (sends no_send peer r) addNeeded ws Hws
    (frame_addNeeded getenv r no_send (sends no_send peer r)) 0%Z) p) as R1. rewrite E1 in C1, R1.
  apply proc_ret_inv in E as ([] & p2 & E2 & E).
  assert (coins p2 = coins p1 /\ records p1 p2) as [C2 R2].
  { destruct (0 <? n)%Z; [|by inv_ret]. apply proc_ret_inv in E2 as (ready & p3 & E3 & E2).
    apply or_fatal_ret in E2 as [_ ->].
    pose proof (frame_waitSpendable getenv r no_send keeps_coins fuel n p1) as C.
    pose proof (records_always _ _ (frame_waitSpendable getenv r no_send (sends no_send peer r) fuel n) p1) as R.
    rewrite E3 in C, R. done. }
  apply proc_ret_inv in E as (funded & p3 & E3 & E). apply topUp_pass in E3 as (bs & cs & Ht & C3 & R3 & HF).
  exists bs, funded, cs. split; [done|]. unfold keeps_coins in *. cbn [snd] in *.
  assert (forall p4, records p3 p4 -> Forall2 (balance_read p4) ws bs) as Hmono.
  { intros p4 R4. eapply Forall2_impl; [exact HF|]. intros w b. by apply balance_read_mono. }
  destruct (Nat.eqb_spec (size funded) 0) as [Hz|Hz].
  - unfold println, printf in E. inv_ret. split; [|split; [by apply Hmono; eexists []; rewrite app_nil_r|]].
    + change (coins p3 = coins p ++ cs). congruence.
    + left. by apply map_size_empty_inv.
  - apply proc_ret_inv in E as (mined & p4 & E4 & E). apply proc_ret_inv in E as (u & p5 & E5 & E).
    apply or_fatal_ret in E5 as [-> ->]. apply proc_ret_inv in E as (h & p6 & E6 & E).
    apply proc_ret_inv in E as (height & p7 & E7 & E). apply or_fatal_ret in E7 as [-> ->].
    apply proc_ret_inv in E as ([] & p8 & E8 & E). unfold println, printf in E. inv_ret.
    destruct (deliver_pass height funded ws Hws _ _ E8) as ((after & L8 & Hd) & C8).
    pose proof (frame_generate getenv r no_send keeps_coins 1 p3) as C4. rewrite E4 in C4.
    pose proof (frame_blockCount getenv r no_send keeps_coins p4) as C6. rewrite E6 in C6.
    destruct u. apply generate_ret in E4 as (gb & generated & hashes & Eg & Ag & L4).
    apply node_call_ret in E6 as (hb & counted & Eh & Ah & L6).
    assert (records p p3) as [before Lb] by (etransitivity; [exact R1|]; by etransitivity).
    unfold keeps_coins in *. cbn [snd] in *.
    assert (p_log p8 = p_log p ++ before ++ [Posted (node_request gb) (Ok generated);
      Posted (node_request hb) (Ok counted)] ++ after) as L.
    { rewrite L8, L6, L4, Lb, <- !app_assoc. done. }
    split; [|split].
    + change (coins p8 = coins p ++ cs). congruence.
    + apply (Hmono p8). rewrite L8, L6, L4, <- !app_assoc in *. unfold records. rewrite L8. by eexists.
    + right. by exists before, after, gb, generated, hashes, hb, counted, height.
Qed.
End fund.
