(* ===== verification/Ledger.v ===== *)
(** * Money moved and money acknowledged

    The program's record of calls against what an outside really did: an
    outside that answers a spend with success exactly when it paid ([Ledger])
    is never made to pay more, or less, than the record says was acknowledged.
    The law is the outside's; Compose discharges it for the service. *)

From S2P Require Import Prelude GoStrings GoTime Json Proto Proc Process Blackjack Launch NodeRPC Client Fund.
From S2P Require Import ClientSpec ClientTime ClientLog ClientGame.

(** The spends that were acknowledged. *)
Definition accepted (e : spend_event) : list pb.SpendToOutputsRequest :=
  match e with (req, Ok _) => [req] | (_, Err _) => [] end.
Definition acknowledged {S} (p : process S) : list pb.SpendToOutputsRequest := spends p ≫= accepted.

(** [paid s]: the payments made so far; [pays s req e]: the payment [e] is the
    one that [req] asks for, which later steps do not change. *)
Class Ledger (S E : Type) `{Outside S} := {
  sound : S -> Prop;
  paid : S -> list E;
  pays : S -> pb.SpendToOutputsRequest -> E -> Prop;
  onward : S -> S -> Prop;
  onward_preorder :: PreOrder onward;
  pays_onward s s' req e : sound s -> onward s s' -> pays s req e -> pays s' req e;
  clock_quiet s : sound s -> let s' := snd (time_Now s) in sound s' /\ onward s s' /\ paid s' = paid s;
  sleep_quiet d s : sound s -> let s' := time_Sleep d s in sound s' /\ onward s s' /\ paid s' = paid s;
  client_quiet addr s : sound s -> let s' := snd (NewClient addr s) in sound s' /\ onward s s' /\ paid s' = paid s;
  close_quiet s : sound s -> let s' := conn_Close s in sound s' /\ onward s s' /\ paid s' = paid s;
  http_quiet req s : sound s -> let s' := snd (http_Do req s) in sound s' /\ onward s s' /\ paid s' = paid s;
  call_quiet peer r req s : sound s -> may_call no_spend peer r req ->
    let s' := snd (Invoke r req s) in sound s' /\ onward s s' /\ paid s' = paid s;
  spend_law w pay memo s x s' : sound s -> game_wallet (w_id w) ->
    Invoke BSVMS_SpendToOutputs (spend_request w [pay; memo]) s = (x, s') ->
    sound s' /\ onward s s' /\
    match x with
    | Ok _ => exists e, paid s' = paid s ++ [e] /\ pays s' (spend_request w [pay; memo]) e
    | Err _ => paid s' = paid s
    end;
}.

Section ledger.
Context {S E : Type} `{Ledger S E}.

(** Between two states of the process the outside paid exactly what was
    acknowledged. *)
Definition balanced (p p' : process S) : Prop := sound (p_out p) ->
  sound (p_out p') /\ onward (p_out p) (p_out p') /\
  exists new es, spends p' = spends p ++ new /\ paid (p_out p') = paid (p_out p) ++ es /\
    Forall2 (pays (p_out p')) (new ≫= accepted) es.

#[export] Instance balanced_preorder : PreOrder balanced.
Proof.
  split.
  - intros p Hs. split; [done|]. split; [reflexivity|]. exists [], []. by rewrite !app_nil_r.
  - intros p1 p2 p3 H12 H23 Hs. destruct (H12 Hs) as (Hs2 & O2 & n2 & e2 & S2 & P2 & F2).
    destruct (H23 Hs2) as (Hs3 & O3 & n3 & e3 & S3 & P3 & F3). split; [done|]. split; [by etransitivity|].
    exists (n2 ++ n3), (e2 ++ e3). rewrite S3, S2, P3, P2, !app_assoc, bind_app. split; [done|]. split; [done|].
    apply Forall2_app; [|done]. eapply Forall2_impl; [exact F2|]. intros req e. by apply pays_onward.
Qed.

(** A step that neither spends nor pays. *)
Lemma balanced_quiet (p p' : process S) : spends p' = spends p ->
  (sound (p_out p) -> sound (p_out p') /\ onward (p_out p) (p_out p') /\ paid (p_out p') = paid (p_out p)) ->
  balanced p p'.
Proof.
  intros Es Hq Hs. destruct (Hq Hs) as (Hs' & Ho & Hp). split; [done|]. split; [done|].
  exists [], []. rewrite Es, Hp, !app_nil_r. split; [done|]. split; [done|]. constructor.
Qed.

Lemma balanced_call peer r req : may_call all_powers peer r req -> always balanced (call r req).
Proof.
  intros Hm p. destruct (Invoke r req (p_out p)) as [x s] eqn:Ei.
  assert (snd (call r req p) = logged (Called r req x) (set_out s p)) as -> by (unfold call; by rewrite Ei).
  destruct (decide (r = BSVMS_SpendToOutputs)) as [->|Hne].
  - destruct Hm as (_ & w & pay & memo & Hw & ->). intros Hs.
    destruct (spend_law w pay memo (p_out p) x s Hs Hw Ei) as (Hs' & Ho & Hx). split; [done|]. split; [done|].
    unfold spends. cbn [p_log logged set_out p_out]. rewrite bind_app.
    destruct x as [resp|err]; [destruct Hx as (e & Hp & Hpays)|].
    + exists [(spend_request w [pay; memo], Ok resp)], [e]. split; [done|]. split; [done|].
      constructor; [exact Hpays|constructor].
    + exists [(spend_request w [pay; memo], Err err)], []. rewrite app_nil_r. split; [done|]. split; [done|constructor].
  - apply balanced_quiet.
    + unfold spends. cbn [p_log logged set_out]. rewrite bind_app. destruct r; try done; by rewrite app_nil_r.
    + intros Hs. pose proof (call_quiet peer r req (p_out p) Hs) as Hq. rewrite Ei in Hq. apply Hq.
      destruct r; done || exact Hm.
Qed.

#[export] Instance frame_balanced peer node : Frame all_powers peer node balanced.
Proof.
  split; [typeclasses eauto|exact (balanced_call peer)|..].
  - intros req _ p. pose proof (http_quiet req (p_out p)) as Hq. unfold post.
    destruct (http_Do req (p_out p)) as [x s]. apply balanced_quiet; [|exact Hq].
    unfold spends. cbn [p_log logged set_out snd]. by rewrite bind_app, app_nil_r.
  - intros addr p. pose proof (client_quiet addr (p_out p)) as Hq. unfold dial.
    destruct (NewClient addr (p_out p)) as [x s]. by apply balanced_quiet.
  - intros p. apply balanced_quiet; [done|]. apply close_quiet.
  - intros text p. by apply balanced_quiet.
  - intros _ p. unfold ReadString. destruct (p_stdin p); by apply balanced_quiet.
  - intros p. by apply balanced_quiet.
  - intros p. pose proof (clock_quiet (p_out p)) as Hq. unfold Now. cbn [time_Now process_clock].
    destruct (time_Now (p_out p)) as [t s]. by apply balanced_quiet.
  - intros d p. apply balanced_quiet; [done|]. apply sleep_quiet.
Qed.
End ledger.

(** ** What a hand costs *)

Section hand.
Context {S E : Type} `{Ledger S E} (getenv : string -> string).

Lemma accepted_refused req errs : refused req errs ≫= accepted = [].
Proof. by induction errs. Qed.
Lemma accepted_accepted req (resps : list pb.SpendDetailResponse) :
  ((fun r => (req, Ok r)) <$> resps) ≫= accepted = replicate (length resps) req.
Proof. induction resps as [|r resps IH]; [done|]. cbn. by f_equal. Qed.

(** Payments of a settlement in which [n] spends were acknowledged. *)
Definition settled_by (st : settlement) (from to : wallet) (p p' : process S) (es : list E) : Prop :=
  exists pay memo, Forall (pays (p_out p') (spend_request from [pay; memo])) es /\
    Called BSVMS_P2PKHOutput (pb.MkP2PKHOutputRequest (w_address to) (sats st)) (Ok pay) ∈ p_log p' /\
    Called BSVMS_OpReturnOutput (pb.MkOpReturnOutputRequest (record_data st)) (Ok memo) ∈ p_log p'.

Lemma balanced_same (p p' : process S) : sound (p_out p) -> balanced p p' -> spends p' = spends p ->
  paid (p_out p') = paid (p_out p).
Proof.
  intros Hs Hb Es. destruct (Hb Hs) as (_ & _ & new & es & E1 & E2 & F).
  assert (new = []) as -> by (rewrite Es in E1; by apply app_inv_head with (spends p); rewrite app_nil_r).
  apply Forall2_nil_inv_l in F as ->. by rewrite E2, app_nil_r.
Qed.
Lemma settles_paid st from to (p p' : process S) n : sound (p_out p) -> balanced p p' -> settles st from to p p' n ->
  exists es, paid (p_out p') = paid (p_out p) ++ es /\ length es = n /\ (n <= 1)%nat /\ settled_by st from to p p' es.
Proof.
  intros Hs Hb (pay & memo & errs & resps & Es & Hn & Hle & Hp & Hm).
  destruct (Hb Hs) as (_ & _ & new & es & E1 & E2 & F).
  rewrite Es in E1. apply app_inv_head in E1. subst new.
  rewrite bind_app, accepted_refused, accepted_accepted in F. cbn [app] in F.
  exists es. split; [done|]. split; [by apply Forall2_length in F; rewrite length_replicate in F; lia|]. split; [done|].
  exists pay, memo. split; [|done]. clear -F. revert F. generalize (length resps). intros k.
  revert k. induction es as [|e es IH]; intros [|k] F; inversion F; subst; constructor; [done|by eapply IH].
Qed.

Lemma playHand_pays fuel rng e player house p o p' :
  w_id player = playerWallet -> w_id house = houseWallet -> sound (p_out p) ->
  playHand getenv fuel rng e player house p = (o, p') ->
  match Blackjack.playHand (rng (p_shuffles p)) (p_stdin p) with
  | None => o = Panic /\ paid (p_out p') = paid (p_out p)
  | Some pl =>
      match p_settle pl with
      | None => paid (p_out p') = paid (p_out p)
      | Some st =>
          let '(from, to) := if String.eqb (from_id st) houseWallet then (house, player) else (player, house) in
          exists es, paid (p_out p') = paid (p_out p) ++ es /\ (length es <= 1)%nat /\
            (o = Ret () -> length es = 1%nat) /\ (es = [] \/ settled_by st from to p p' es)
      end
  end.
Proof.
  intros Ip Ih Hs Er. pose proof (playHand_effect getenv _ _ _ _ _ _ _ _ Ip Ih Er) as He.
  assert (balanced p p') as Hb.
  { pose proof (frame_playHand getenv (node_of getenv) all_powers balanced player house) as Hf.
    specialize (Hf ltac:(by left) ltac:(by right) eq_refl eq_refl fuel rng e p). by rewrite Er in Hf. }
  destruct (Blackjack.playHand _ _) as [pl|]; [|destruct He as [-> He]; split; [done|by apply balanced_same]].
  destruct He as (_ & He & _). unfold hand_effect in He. destruct (p_settle pl) as [st|]; [|by apply balanced_same].
  set (ft := if (from_id st =? houseWallet)%string then _ else _) in *. destruct ft as [from to].
  assert (spends p' = spends p -> exists es, paid (p_out p') = paid (p_out p) ++ es /\ (length es <= 1)%nat /\
    length es = 0%nat /\ (es = [] \/ settled_by st from to p p' es)) as Hnone.
  { intros Es. exists []. rewrite app_nil_r. repeat split; auto with lia. by apply balanced_same. }
  assert (forall n, settles st from to p p' n -> exists es, paid (p_out p') = paid (p_out p) ++ es /\
    (length es <= 1)%nat /\ length es = n /\ (es = [] \/ settled_by st from to p p' es)) as Hsome.
  { intros n Hn. destruct (settles_paid _ _ _ _ _ _ Hs Hb Hn) as (es & Hp & Hl & Hle & Hse).
    exists es. split; [done|]. split; [lia|]. auto. }
  destruct o as [[]| | |].
  - destruct (Hsome _ He) as (es & Hp & Hle & Hl & Hse). exists es. auto.
  - destruct He as [He|[n He]]; [destruct (Hnone He) as (es & ? & ? & ? & ?)|destruct (Hsome n He) as (es & ? & ? & ? & ?)];
      exists es; by repeat split.
  - destruct He as [He|[n He]]; [destruct (Hnone He) as (es & ? & ? & ? & ?)|destruct (Hsome n He) as (es & ? & ? & ? & ?)];
      exists es; by repeat split.
  - destruct He as [He|[n He]]; [destruct (Hnone He) as (es & ? & ? & ? & ?)|destruct (Hsome n He) as (es & ? & ? & ? & ?)];
      exists es; by repeat split.
Qed.
End hand.
