(* ===== verification/Lossy.v ===== *)
(** * A transport that loses answers

    [lossy] is an outside behind a connection that may break after a payment was
    made and before its answer arrives: the program is told an error. It is no
    [Ledger], for what was paid and what was acknowledged come apart; [tallied]
    says by how much, and [playHand_lossy] what that makes of a hand. *)

From S2P Require Import Prelude GoStrings GoTime Json Proto Proc Process Blackjack Launch NodeRPC Client Fund.
From S2P Require Import ClientSpec ClientTime ClientLog ClientGame Ledger.

Section lossy.
Context {S E : Type} `{Ledger S E} (no_answer : error).

Record lossy := MkLossy {
  ly_base : S;
  ly_fate : list bool;   (* for each payment to come, in order, whether its answer is lost *)
  ly_lost : nat;         (* the answers lost so far *)
}.
Definition rebase (b : S) (s : lossy) : lossy := MkLossy b (ly_fate s) (ly_lost s).

Definition spend_answer (x : result pb.SpendDetailResponse) (s : lossy) : result pb.SpendDetailResponse * lossy :=
  match x, ly_fate s with
  | Ok _, true :: fate => (Err no_answer, MkLossy (ly_base s) fate (Datatypes.S (ly_lost s)))
  | Ok _, false :: fate => (x, MkLossy (ly_base s) fate (ly_lost s))
  | _, _ => (x, s)
  end.
Definition lossy_invoke (r : rpc) : rpc_request r -> lossy -> result (rpc_response r) * lossy :=
  match r return rpc_request r -> lossy -> result (rpc_response r) * lossy with
  | BSVMS_SpendToOutputs => fun req s =>
      let '(x, b) := Invoke BSVMS_SpendToOutputs req (ly_base s) in spend_answer x (rebase b s)
  | r => fun req s => let '(x, b) := Invoke r req (ly_base s) in (x, rebase b s)
  end.

#[export] Instance lossy_clock : Clock lossy := {
  time_Now s := let '(t, b) := time_Now (ly_base s) in (t, rebase b s);
  time_Sleep d s := rebase (time_Sleep d (ly_base s)) s;
}.
#[export] Instance lossy_outside : Outside lossy := {
  Invoke := lossy_invoke;
  NewClient addr s := let '(x, b) := NewClient addr (ly_base s) in (x, rebase b s);
  conn_Close s := rebase (conn_Close (ly_base s)) s;
  http_Do req s := let '(x, b) := http_Do req (ly_base s) in (x, rebase b s);
}.

(** ** Payments and acknowledgements *)

(** Between two states of the process what was paid exceeds what was acknowledged
    by the answers that were lost, and every payment is one of a spend on record. *)
Definition tallied (p p' : process lossy) : Prop :=
  let s := p_out p in let s' := p_out p' in
  sound (ly_base s) -> sound (ly_base s') /\ onward (ly_base s) (ly_base s') /\
  exists new es k, spends p' = spends p ++ new /\ paid (ly_base s') = paid (ly_base s) ++ es /\
    ly_lost s' = (ly_lost s + k)%nat /\ length es = (length (new ≫= accepted) + k)%nat /\
    Forall (fun e => exists ev, ev ∈ new /\ pays (ly_base s') ev.1 e) es.

#[export] Instance tallied_preorder : PreOrder tallied.
Proof.
  split.
  - intros p Hs. split; [done|]. split; [reflexivity|]. exists [], [], 0%nat. rewrite !app_nil_r. cbn.
    split_and!; [done|done|lia|done|constructor].
  - intros p1 p2 p3 H12 H23 Hs. destruct (H12 Hs) as (Hs2 & O2 & n2 & e2 & k2 & S2 & P2 & L2 & C2 & F2).
    destruct (H23 Hs2) as (Hs3 & O3 & n3 & e3 & k3 & S3 & P3 & L3 & C3 & F3). split; [done|]. split; [by etransitivity|].
    exists (n2 ++ n3), (e2 ++ e3), (k2 + k3)%nat. rewrite S3, S2, P3, P2, L3, L2, !app_assoc, bind_app, !length_app.
    split; [done|]. split; [done|]. split; [lia|]. split; [lia|]. apply Forall_app. split.
    + eapply Forall_impl; [exact F2|]. intros e (ev & Hin & Hp). exists ev. split; [set_solver|]. eapply pays_onward; [exact Hs2|exact O3|exact Hp].
    + eapply Forall_impl; [exact F3|]. intros e (ev & Hin & Hp). exists ev. split; [set_solver|done].
Qed.

(** A step that neither spends, nor pays, nor loses an answer. *)
Lemma tallied_quiet (p p' : process lossy) : spends p' = spends p -> ly_lost (p_out p') = ly_lost (p_out p) ->
  (sound (ly_base (p_out p)) -> sound (ly_base (p_out p')) /\ onward (ly_base (p_out p)) (ly_base (p_out p')) /\
     paid (ly_base (p_out p')) = paid (ly_base (p_out p))) ->
  tallied p p'.
Proof.
  intros Es El Hq Hs. destruct (Hq Hs) as (Hs' & Ho & Hp). split; [done|]. split; [done|].
  exists [], [], 0%nat. rewrite Es, El, Hp, !app_nil_r. cbn. split_and!; [done|done|lia|done|constructor].
Qed.

Lemma lossy_invoke_other r req s : r <> BSVMS_SpendToOutputs ->
  lossy_invoke r req s = let '(x, b) := Invoke r req (ly_base s) in (x, rebase b s).
Proof. by destruct r. Qed.

Lemma tallied_call peer r req : may_call all_powers peer r req -> always tallied (call r req).
Proof.
  intros Hm p. destruct (lossy_invoke r req (p_out p)) as [x s] eqn:Ei.
  assert (snd (call r req p) = logged (Called r req x) (set_out s p)) as ->
    by (unfold call; cbn [Invoke lossy_outside]; by rewrite Ei).
  destruct (decide (r = BSVMS_SpendToOutputs)) as [->|Hne].
  - destruct Hm as (_ & w & pay & memo & Hw & ->). intros Hs. cbn [lossy_invoke] in Ei.
    destruct (Invoke BSVMS_SpendToOutputs (spend_request w [pay; memo]) (ly_base (p_out p))) as [y b] eqn:Eb.
    destruct (spend_law w pay memo _ y b Hs Hw Eb) as (Hs' & Ho & Hx).
    unfold spends. cbn [p_log logged set_out p_out]. rewrite bind_app.
    assert (ly_base s = b) as Ebase by (unfold spend_answer, rebase in Ei; cbn in Ei; destruct y, (ly_fate (p_out p)) as [|[] ?]; by injection Ei as <- <-).
    rewrite Ebase. split; [done|]. split; [done|].
    destruct y as [resp|err]; [destruct Hx as (e & Hp & Hpays)|].
    + assert (exists k, ly_lost s = (ly_lost (p_out p) + k)%nat /\
        1%nat = (length ([(spend_request w [pay; memo], x)] ≫= accepted) + k)%nat) as (k & Ek & El).
      { unfold spend_answer, rebase in Ei. cbn in Ei. destruct (ly_fate (p_out p)) as [|[] fate]; injection Ei as <- <-; cbn;
          [exists 0%nat|exists 1%nat|exists 0%nat]; lia. }
      exists [(spend_request w [pay; memo], x)], [e], k. split; [done|]. split; [done|]. split; [done|]. split; [exact El|].
      apply Forall_singleton. eexists. split; [by apply list_elem_of_singleton|exact Hpays].
    + cbn in Ei. injection Ei as <- <-. exists [(spend_request w [pay; memo], Err err)], [], 0%nat.
      rewrite app_nil_r. cbn. split_and!; [done|done|lia|done|constructor].
  - rewrite lossy_invoke_other in Ei by done. pose proof (call_quiet peer r req (ly_base (p_out p))) as Hq.
    destruct (Invoke r req (ly_base (p_out p))) as [y b] eqn:Eb. injection Ei as <- <-. apply tallied_quiet; [|done|].
    + unfold spends. cbn [p_log logged set_out]. rewrite bind_app. destruct r; try done; by rewrite app_nil_r.
    + intros Hs. specialize (Hq Hs). apply Hq. destruct r; done || exact Hm.
Qed.

#[export] Instance frame_tallied peer node : Frame all_powers peer node tallied.
Proof.
  split; [typeclasses eauto|exact (tallied_call peer)|..].
  - intros req _ p. pose proof (http_quiet req (ly_base (p_out p))) as Hq. unfold post. cbn [http_Do lossy_outside].
    destruct (http_Do req (ly_base (p_out p))) as [x b]. apply tallied_quiet; [|done|exact Hq].
    unfold spends. cbn [p_log logged set_out snd]. by rewrite bind_app, app_nil_r.
  - intros addr p. pose proof (client_quiet addr (ly_base (p_out p))) as Hq. unfold dial. cbn [NewClient lossy_outside].
    destruct (NewClient addr (ly_base (p_out p))) as [x b]. by apply tallied_quiet.
  - intros p. apply tallied_quiet; [done|done|]. apply close_quiet.
  - intros text p. by apply tallied_quiet.
  - intros _ p. unfold ReadString. destruct (p_stdin p); by apply tallied_quiet.
  - intros p. by apply tallied_quiet.
  - intros p. pose proof (clock_quiet (ly_base (p_out p))) as Hq. unfold Now.
    cbn [time_Now process_clock outside_clock lossy_outside lossy_clock].
    destruct (time_Now (ly_base (p_out p))) as [t b]. by apply tallied_quiet.
  - intros d p. apply tallied_quiet; [done|done|]. apply sleep_quiet.
Qed.

(** ** What a hand costs *)

Context (getenv : string -> string).

Lemma tallied_same (p p' : process lossy) : sound (ly_base (p_out p)) -> tallied p p' -> spends p' = spends p ->
  paid (ly_base (p_out p')) = paid (ly_base (p_out p)) /\ ly_lost (p_out p') = ly_lost (p_out p).
Proof.
  intros Hs Hb Es. destruct (Hb Hs) as (_ & _ & new & es & k & E1 & E2 & E3 & E4 & F).
  assert (new = []) as -> by (rewrite Es in E1; by apply app_inv_head with (spends p); rewrite app_nil_r).
  assert (es = []) as ->.
  { destruct es as [|e es]; [done|]. apply Forall_cons in F as [(ev & Hin & _) _]. by apply not_elem_of_nil in Hin. }
  rewrite E2, app_nil_r. split; [done|]. cbn in E4. lia.
Qed.

(** A settlement in which [n] spends were acknowledged: as many payments, and one
    more for every answer lost, all of them the one that was asked for. *)
Definition overpaid (st : settlement) (from to : wallet) (p p' : process lossy) (n : nat) : Prop :=
  exists es lost pay memo, ly_lost (p_out p') = (ly_lost (p_out p) + lost)%nat /\
    paid (ly_base (p_out p')) = paid (ly_base (p_out p)) ++ es /\ length es = (n + lost)%nat /\
    Forall (pays (ly_base (p_out p')) (spend_request from [pay; memo])) es /\
    Called BSVMS_P2PKHOutput (pb.MkP2PKHOutputRequest (w_address to) (sats st)) (Ok pay) ∈ p_log p' /\
    Called BSVMS_OpReturnOutput (pb.MkOpReturnOutputRequest (record_data st)) (Ok memo) ∈ p_log p'.
Lemma settles_overpaid st from to (p p' : process lossy) n : sound (ly_base (p_out p)) -> tallied p p' ->
  settles st from to p p' n -> (n <= 1)%nat /\ overpaid st from to p p' n.
Proof.
  intros Hs Hb (pay & memo & errs & resps & Es & Hn & Hle & Hp & Hm). split; [done|].
  destruct (Hb Hs) as (_ & _ & new & es & k & E1 & E2 & E3 & E4 & F).
  rewrite Es in E1. apply app_inv_head in E1. subst new.
  rewrite bind_app, accepted_refused, accepted_accepted in E4. cbn [app] in E4. rewrite length_replicate in E4.
  exists es, k, pay, memo. split; [done|]. split; [done|]. split; [lia|]. split; [|done].
  eapply Forall_impl; [exact F|]. intros e (ev & Hin & Hpays). replace (spend_request from [pay; memo]) with ev.1; [done|].
  apply elem_of_app in Hin as [Hin|Hin].
  - unfold refused in Hin. by apply list_elem_of_fmap in Hin as (err & -> & _).
  - by apply list_elem_of_fmap in Hin as (r & -> & _).
Qed.

Lemma playHand_lossy fuel rng e player house p o p' :
  w_id player = playerWallet -> w_id house = houseWallet -> sound (ly_base (p_out p)) ->
  playHand getenv fuel rng e player house p = (o, p') ->
  let same := paid (ly_base (p_out p')) = paid (ly_base (p_out p)) /\ ly_lost (p_out p') = ly_lost (p_out p) in
  match Blackjack.playHand (rng (p_shuffles p)) (p_stdin p) with
  | None => o = Panic /\ same
  | Some pl =>
      match p_settle pl with
      | None => same
      | Some st =>
          let '(from, to) := if String.eqb (from_id st) houseWallet then (house, player) else (player, house) in
          match o with
          | Ret _ => overpaid st from to p p' 1
          | _ => same \/ overpaid st from to p p' 0 \/ overpaid st from to p p' 1
          end
      end
  end.
Proof.
  intros Ip Ih Hs Er same. pose proof (playHand_effect getenv _ _ _ _ _ _ _ _ Ip Ih Er) as He.
  assert (tallied p p') as Hb.
  { pose proof (frame_playHand getenv (node_of getenv) all_powers tallied player house) as Hf.
    specialize (Hf ltac:(by left) ltac:(by right) eq_refl eq_refl fuel rng e p). by rewrite Er in Hf. }
  destruct (Blackjack.playHand _ _) as [pl|]; [|destruct He as [-> He]; split; [done|by apply tallied_same]].
  destruct He as (_ & He & _). unfold hand_effect in He. destruct (p_settle pl) as [st|]; [|by apply tallied_same].
  set (ft := if (from_id st =? houseWallet)%string then _ else _) in *. destruct ft as [from to].
  assert (spends p' = spends p \/ (exists n, settles st from to p p' n) ->
    same \/ overpaid st from to p p' 0 \/ overpaid st from to p p' 1) as Hunfinished.
  { intros [Es|[n Hn]]; [left; by apply tallied_same|right].
    destruct (settles_overpaid _ _ _ _ _ _ Hs Hb Hn) as [Hle Ho]. destruct n as [|[|n]]; [by left|by right|lia]. }
  destruct o as [[]| | |]; [|by apply Hunfinished..]. by apply (settles_overpaid _ _ _ _ _ _ Hs Hb He).
Qed.
End lossy.
Arguments lossy : clear implicits.
Arguments MkLossy {S}. Arguments ly_base {S}. Arguments ly_fate {S}. Arguments ly_lost {S}.
