(* ===== verification/Compose.v ===== *)
(** * The client against the service

    The service of internal/service, as cmd/bsvms assembles it, is an [Outside]
    of the blackjack program: the stub runs [server_call], errors cross the
    connection as status errors, time is the oracle's. The node behind HTTP is a
    function of the history. With a clock that advances it satisfies the laws of
    the interface; what the program ensures is then stated of the registry. *)

From S2P Require Import Prelude GoStrings GoTime Encoding Crypto Json Proto Broker Sdk Ids World Encryption.
From S2P Require Import Options Service Auth AuthSpec Registry RegistrySpec Handlers HandlersSpec Lifecycle RegistryAbs Disk History.
From S2P Require Import Proc Process Blackjack Launch NodeRPC Client Fund ClientSpec ClientTime.
From S2P Require Import ClientLog ClientGame Ledger.

(** ** The service as the program's outside *)

Section compose.
Context `{Env} `{Mac} `{Hash} `{Aead}.
(** The metadata of the program's calls (it sends none), whether the node's
    connection is made, and what the node answers over HTTP. *)
Context (ctx : context) (reachable : list ext_call -> string -> result unit)
  (node_http : list ext_call -> http_request -> result http_response).

(** An error returned by a handler, as the client receives it: a status error
    as it is, any other with its code and its text. *)
Definition over_wire (e : error) : error :=
  match e with EStatus _ _ => e | _ => EStatus (status_code e) (error_string e) end.

Definition tick (c : host_call) (s : Service) : Service := set_world (log (HostCall c) (sv_world s)) s.

#[export] Instance service_clock : Clock Service := {
  time_Now s := (oracle (history s) (HostCall TimeNow), tick TimeNow s);
  time_Sleep d s := tick (Sdk.Sleep d) s;
}.

(** A method that is not unary is not called through the unary stub. *)
Definition invoke (r : rpc) (req : rpc_request r) (s : Service) : result (rpc_response r) * Service :=
  match unary r with
  | Some h => let '(x, s') := server_call ctx r h req s in (map_error over_wire x, s')
  | None => (Err (EStatus Unimplemented "unimplemented"), s)
  end.

Instance service_outside : Outside Service := {
  Invoke := invoke;
  NewClient addr s := (reachable (history s) addr, s);
  conn_Close s := s;
  http_Do req s := (node_http (history s) req, s);
}.

(** The clock never goes back, and sleeping a second moves it a second on. *)
Lemma history_time (Hm : forall tr c, (oracle tr (HostCall TimeNow) <= oracle (tr ++ [c]) (HostCall TimeNow))%Z) :
  forall new tr, (oracle tr (HostCall TimeNow) <= oracle (tr ++ new) (HostCall TimeNow))%Z.
Proof.
  induction new as [|c new IH]; intros tr; [rewrite app_nil_r; lia|].
  change (c :: new) with ([c] ++ new). rewrite app_assoc. etransitivity; [apply Hm|apply IH].
Qed.

Lemma service_clock_laws : clock_advances -> ClockLaws Service.
Proof.
  intros Hc. refine {| time s := oracle (history s) (HostCall TimeNow) |}; cbn.
  - intros s. pose proof (ca_mono Hc (history s) (HostCall TimeNow)). unfold history in *. cbn in *. lia.
  - intros d s. apply (ca_mono Hc).
  - intros s. apply (ca_sleep Hc).
Defined.
Lemma service_outside_laws : clock_advances -> OutsideLaws Service.
Proof.
  intros Hc. pose proof (history_time (ca_mono Hc)) as Ht.
  refine {| outside_time := service_clock_laws Hc |}; cbn.
  - intros r req s. unfold invoke. destruct (unary r) as [h|] eqn:Er; [|cbn; lia].
    pose proof (server_call_adds (fun _ => True) (fun _ _ => I) ctx r h req Er (fun _ _ => I) s) as (new & Hn & _).
    destruct (server_call ctx r h req s) as [x s']. cbn in *. unfold history. rewrite Hn. apply Ht.
  - intros; lia.
  - intros; lia.
  - intros; lia.
Qed.

(** ** The service keeps the contract of [WalletStore] *)

(** A running service that asks for no tokens. *)
Definition open_service (s : Service) : Prop := service_ok s /\ AuthEnabled (sv_opts s) = false.
Lemma open_unchanged s s' : open_service s -> Disk.untouched s s' -> open_service s'.
Proof. intros [Hok Ha] [Ho _]. split; [by rewrite <- Ho|]. by rewrite Ho. Qed.

Lemma wallet_added_unchanged t w mn pp s0 s1 s2 s3 : Disk.untouched s0 s1 -> wallet_added t w mn pp s1 s2 ->
  Disk.untouched s2 s3 -> wallet_added t w mn pp s0 s3.
Proof.
  intros [O1 _] [It Iw Hn He Hs] [O2 K2]. unfold only_world in O1. subst. split; try done.
  - rewrite O1 in Hn. exact Hn.
  - destruct He as (l & tw & Hl & Htw & Hi & Hp & Ho & Hst). exists l, tw. unfold only_world in O2.
    rewrite O2. rewrite O1 in Ho, Hst. done.
  - by eapply saved_mono.
Qed.

(** Without authentication a call is its handler. *)
Lemma invoke_open r h req s : unary r = Some h -> AuthEnabled (sv_opts s) = false ->
  invoke r req s = let '(x, s') := h req s in (map_error over_wire x, s').
Proof.
  intros Hr Ha. unfold invoke. rewrite Hr. unfold server_call. erewrite bind_run by reflexivity. by rewrite Ha.
Qed.

Lemma invoke_unchanged r h req s x s' : unary r = Some h -> r <> BSVMS_CreateWallet -> r <> BSVMS_RestoreWallet ->
  AuthEnabled (sv_opts s) = false -> invoke r req s = (x, s') -> Disk.untouched s s'.
Proof.
  intros Hr Hc Hs Ha. rewrite (invoke_open r h) by done.
  pose proof (unary_only_world r h req Hr Hc Hs s) as Ho. pose proof (unary_keeps_files r h req Hr Hc Hs s) as Hk.
  destruct (h req s) as [y s1]. by intros [= _ <-].
Qed.

Lemma over_wire_code e : status_code (over_wire e) = status_code e.
Proof. by destruct e. Qed.

Lemma game_wallet_valid id : game_wallet id -> idRE_MatchString id = true.
Proof. by intros [-> | ->]. Qed.

Lemma GetWallet_code id s x s' : registry_ok s -> game_wallet id ->
  GetWallet (pb.MkGetWalletRequest tenantID id) s = (x, s') ->
  if bool_decide (result_code x = Some NotFound) then lookup_wallet s tenantID id = None
  else is_Some (lookup_wallet s tenantID id).
Proof.
  intros Hok Hid%game_wallet_valid. unfold GetWallet. cbn [pb.GetWalletRequest_TenantId pb.GetWalletRequest_WalletId].
  destruct (lookup_wallet s tenantID id) as [l|] eqn:El.
  - erewrite bind_run by (by apply wallet_ok).
    destruct (reg_ptr _ Hok _ _ El) as (tw & Htw & _).
    destruct (walletProtoLocked_run l tw s Htw) as (p & s1 & E1 & _). erewrite bind_run by exact E1.
    intros [= <- <-]. cbn. by eexists.
  - assert (Registry.wallet tenantID id s = (Err (EStatus NotFound "wallet not found"), s)) as Ew.
    { unfold Registry.wallet. erewrite bind_run.
      2: { unfold lift. by rewrite (proj2 (validateTenantWallet_ok tenantID id ()) (conj eq_refl Hid)). }
      erewrite bind_run by reflexivity. unfold lookup_wallet in El. by rewrite El. }
    rewrite (bind_run_err _ _ _ _ _ Ew). by intros [= <- <-].
Qed.

#[export] Instance service_store : @WalletStore Service service_outside.
Proof.
  refine {| good := open_service; registered s id := is_Some (lookup_wallet s tenantID id); same := Disk.untouched;
            created id s s' := exists mnemonic, wallet_added tenantID id mnemonic "" s s' /\ open_service s' |}; cbn.
  - apply open_unchanged.
  - by intros id s s' _ (mn & _ & Ho).
  - intros id s r s' [Hok Ha] Hid E.
    split; [by eapply (invoke_unchanged BSVMS_GetWallet); [| | |done|exact E]|].
    pose proof (eq_trans (eq_sym E) (invoke_open BSVMS_GetWallet GetWallet _ s eq_refl Ha)) as E'. cbv beta in E'.
    destruct (GetWallet (pb.MkGetWalletRequest tenantID id) s) as [x s1] eqn:Eg. injection E' as -> _.
    pose proof (GetWallet_code _ _ _ _ (so_registry _ Hok) Hid Eg) as Hc.
    assert (result_code (map_error over_wire x) = result_code x) as -> by (destruct x; cbn; by rewrite ?over_wire_code).
    destruct (decide (result_code x = Some NotFound)) as [Hn|Hn].
    + rewrite bool_decide_true in Hc by exact Hn. rewrite bool_decide_true by exact Hn. intros [l Hl]. discriminate (eq_trans (eq_sym Hc) Hl).
    + rewrite bool_decide_false in Hc by exact Hn. by rewrite bool_decide_false by exact Hn.
  - intros id s resp s' [Hok Ha] Hid E.
    pose proof (eq_trans (eq_sym E) (invoke_open BSVMS_CreateWallet CreateWallet _ s eq_refl Ha)) as E'.
    destruct (CreateWallet _ s) as [x s1] eqn:Ec. injection E' as E' ->.
    symmetry in E'. apply map_error_ok in E' as ->.
    destruct (CreateWallet_outcome _ _ _ _ Ec) as (mn & Ho & _). exists mn.
    assert (Forall plain_meta (sv_state s)) as Hp
      by (eapply Forall_impl; [apply (so_records _ Hok)|]; apply rec_plain).
    split; [eapply add_outcome_added; [exact Ho|]; by eapply CreateWallet_saved|].
    destruct (unary_keeps BSVMS_CreateWallet CreateWallet _ _ _ _ eq_refl Ec Hok) as [Hok' (_ & Ho' & _)].
    split; [done|]. by rewrite Ho'.
  - intros id s r s' [Hok Ha] Hid E. by eapply (invoke_unchanged BSVMS_NewAddress); [| | |done|exact E].
Defined.

(** ** The service keeps the contract of [Ledger] *)

Lemma acts_on_grows s s' t w q : grows s s' -> acts_on s t w q -> acts_on s' t w q.
Proof. intros (_ & _ & Hl & Hh) (l & tw & El & Et & ->). exists l, tw. auto. Qed.
(** The payment that a request of the program stands for. *)
Definition pays_for (s : Service) (req : pb.SpendToOutputsRequest) (c : ext_call) : Prop :=
  exists q, acts_on s (pb.SpendToOutputsRequest_TenantId req) (pb.SpendToOutputsRequest_WalletId req) q /\
    c = WalletCall q (SpendToOutputsDetailed (outputSpecs (pb.SpendToOutputsRequest_Outputs req))).

Lemma tick_quiet c s : open_service s ->
  open_service (tick c s) /\ grows s (tick c s) /\ payments (tick c s) = payments s.
Proof.
  intros Ho. split; [by apply (open_unchanged s)|]. split; [by apply grows_only_world|]. apply payments_same. by apply extends_log.
Qed.
Lemma invoke_quiet peer r req s : open_service s -> may_call no_spend peer r req ->
  let s' := snd (invoke r req s) in open_service s' /\ grows s s' /\ payments s' = payments s.
Proof.
  intros [Hok Ha] Hm. cbv zeta. destruct (unary r) as [h|] eqn:Er.
  2: { unfold invoke. rewrite Er. by split_and!. }
  rewrite (invoke_open r h req s Er Ha).
  pose proof (unary_adds (fun c => spending c = false) (fun c Hc => Hc) r h req Er) as Hn.
  destruct (h req s) as [x s'] eqn:E. cbn [snd]. destruct (unary_keeps r h req s x s' Er E Hok) as [Hok' Hg].
  split; [split; [done|]; destruct Hg as (_ & Ho & _); by rewrite Ho|]. split; [done|]. apply payments_same.
  assert (spend_rpc r = false) as Hs by (destruct r; try done; by destruct Hm).
  rewrite Hs in Hn. specialize (Hn ltac:(done) s). by rewrite E in Hn.
Qed.

#[export] Instance service_ledger : @Ledger Service ext_call service_outside.
Proof.
  refine {| sound := open_service; paid := payments; pays := pays_for; onward := grows |}; cbn.
  - intros s s' req c _ Hg (q & Hq & ->). exists q. split; [by eapply acts_on_grows|done].
  - intros s. apply (tick_quiet TimeNow).
  - intros d s. apply (tick_quiet (Sdk.Sleep d)).
  - intros addr s Ho. by split_and!.
  - intros s Ho. by split_and!.
  - intros req s Ho. by split_and!.
  - exact invoke_quiet.
  - intros w pay memo s x s' [Hok Ha] _ E.
    pose proof (eq_trans (eq_sym E) (invoke_open BSVMS_SpendToOutputs SpendToOutputs _ s eq_refl Ha)) as E'.
    destruct (SpendToOutputs (spend_request w [pay; memo]) s) as [y s1] eqn:Es. injection E' as -> ->.
    destruct (unary_keeps BSVMS_SpendToOutputs SpendToOutputs _ _ _ _ eq_refl Es Hok) as [Hok' Hg].
    split; [split; [done|]; destruct Hg as (_ & Ho & _); by rewrite Ho|]. split; [done|].
    apply SpendToOutputs_pays in Es; [|apply Hok]. destruct y as [resp|e]; cbn; [|done].
    destruct Es as (q & Hq & Ep). eexists. split; [exact Ep|]. exists q. split; [by eapply acts_on_grows|done].
Defined.

(** ** What the program reaches *)

(** A relation on the service that time and the program's calls keep, the
    program keeps. *)
Lemma frame_service k peer nd (R : Service -> Service -> Prop) `{!PreOrder R} :
  (forall c s, R s (tick c s)) ->
  (forall r req s, may_call k peer r req -> R s (snd (invoke r req s))) ->
  @Frame Service service_outside k peer nd (fun p p' => R (p_out p) (p_out p')).
Proof.
  intros Ht Hc. split.
  - split; [intros p; reflexivity|intros p1 p2 p3; apply transitivity].
  - intros r req Hm p. specialize (Hc r req (p_out p) Hm). unfold Process.call. cbn [Invoke service_outside].
    by destruct (invoke r req (p_out p)).
  - intros req _ p. cbn. reflexivity.
  - intros addr p. cbn. reflexivity.
  - intros p. cbn. reflexivity.
  - intros text p. cbn. reflexivity.
  - intros _ p. unfold ReadString. destruct (p_stdin p); cbn; reflexivity.
  - intros p. cbn. reflexivity.
  - intros p. apply Ht.
  - intros d p. apply Ht.
Qed.

Definition game_record (m : walletMeta) : Prop := TenantID m = tenantID /\ game_wallet (WalletID m).
Definition both_registered (s : Service) : Prop := forall id, game_wallet id -> is_Some (lookup_wallet s tenantID id).
(** The SDK wallets of the game. *)
Definition game_ptr (s : Service) (q : wallet_ptr) : Prop := exists id, game_wallet id /\ acts_on s tenantID id q.

(** What the program may do to the service it runs against: it stays a running
    service, the only records it can add are those of the two wallets, no other
    wallet's entry or record changes, and once both wallets are there nothing
    changes but the history, in which every wallet call is on one of them. *)
Record confined (s s' : Service) : Prop := {
  cf_open : open_service s';
  cf_grows : grows s s';
  cf_new : exists new, sv_state s' = sv_state s ++ new /\ Forall game_record new;
  cf_others : forall t w, lacks nul t = true -> ~ (t = tenantID /\ game_wallet w) ->
    lookup_wallet s' t w = lookup_wallet s t w;
  cf_settled : both_registered s -> only_world s s' /\ calls (game_ptr s) s s';
}.
Definition confines (s s' : Service) : Prop := open_service s -> confined s s'.

Instance confines_preorder : PreOrder confines.
Proof.
  split.
  - intros s Ho. split; try done. exists []. by rewrite app_nil_r.
  - intros s1 s2 s3 H12 H23 Ho. destruct (H12 Ho) as [Ho2 G12 (n1 & E1 & F1) L12 B12].
    destruct (H23 Ho2) as [Ho3 G23 (n2 & E2 & F2) L23 B23]. split; [done|by transitivity s2|..].
    + exists (n1 ++ n2). rewrite E2, E1, app_assoc. split; [done|]. by apply Forall_app.
    + intros t w Ht Hg. by rewrite L23, L12.
    + intros Hb. destruct (B12 Hb) as [O1 C1].
      destruct B23 as [O2 C2]; [intros id Hid; rewrite O1; by apply Hb|].
      split; [by transitivity s2|]. transitivity s2; [done|]. eapply calls_impl; [|exact C2].
      intros q (id & Hid & l & tw & Hl & Htw & ->). exists id. split; [done|]. exists l, tw.
      unfold only_world in O1. rewrite O1 in Hl, Htw. done.
Qed.

(** Steps that change no wallet. *)
Lemma confines_unchanged s s' : only_world s s' -> calls (game_ptr s) s s' -> confines s s'.
Proof.
  intros Ho Hc [Hok Ha]. split; [|by apply grows_only_world|..].
  - split; [by rewrite <- Ho|by rewrite Ho].
  - exists []. rewrite app_nil_r. split; [by rewrite Ho|done].
  - intros t w _ _. by rewrite Ho.
  - done.
Qed.

(** Creating a wallet of the game. *)
Lemma confines_create id s x s' : game_wallet id -> CreateWallet (pb.MkCreateWalletRequest tenantID id) s = (x, s') ->
  confines s s'.
Proof.
  intros Hid E [Hok Hau]. destruct (CreateWallet_outcome _ _ _ _ E) as (mn & Ha & _).
  cbn [pb.CreateWalletRequest_TenantId pb.CreateWalletRequest_WalletId] in Ha.
  split; [|by eapply grows_add_outcome|..].
  - destruct (unary_keeps BSVMS_CreateWallet CreateWallet _ _ _ _ eq_refl E Hok) as [Hok' (_ & Eo & _)].
    split; [done|]. by rewrite Eo.
  - destruct Ha as [e _ Ho|tw _ _ _ Et Ew _ _ _ _ Ho]; unfold only_world in Ho; rewrite Ho.
    + exists []. by rewrite app_nil_r.
    + exists [tw_meta tw]. split; [done|]. apply Forall_singleton. split; [done|]. by rewrite Ew.
  - intros t w Ht Hg. destruct Ha as [e _ Ho|tw It _ _ Et Ew _ _ _ _ Ho]; unfold only_world in Ho; rewrite Ho; [done|].
    unfold lookup_wallet. cbn. rewrite Et, Ew, lookup_insert_ne; [done|].
    intros [<- <-]%walletKey_inj; [by apply Hg|by apply id_lacks_nul|done].
  - intros Hb. destruct (Hb id Hid) as [l Hl].
    rewrite (CreateWallet_exists _ s l) in E; [|done|by apply game_wallet_valid|done]. by injection E as _ <-.
Qed.

Lemma invoke_confines peer r req s : may_call all_powers peer r req -> confines s (snd (invoke r req s)).
Proof.
  intros Hm Ho'. pose proof Ho' as [Hok Ha]. revert Ho'. change (confines s (snd (invoke r req s))).
  destruct (unary r) as [h|] eqn:Er; [|unfold invoke; by rewrite Er].
  rewrite (invoke_open r h req s Er Ha).
  destruct (decide (r = BSVMS_CreateWallet)) as [->|Hne].
  - injection Er as <-. destruct Hm as [Et Hid]. destruct req as [t id]. cbn in Et, Hid. subst t.
    destruct (CreateWallet _ s) as [x s'] eqn:E. by eapply confines_create.
  - assert (r <> BSVMS_RestoreWallet) as Hnr by (by intros ->).
    pose proof (unary_only_world r h req Er Hne Hnr s) as Ho. destruct (h req s) as [x s'] eqn:E. cbn [snd] in *.
    apply confines_unchanged; [done|].
    eapply calls_impl; [|by eapply (unary_scope r h req s x s' Er Hne Hnr (so_registry _ Hok))].
    intros q. unfold request_scope.
    destruct r; try done; cbn [tenantWalletFromRequest rpc_reflect]; try (by intros []);
      (destruct Hm as (_ & w & pay & memo & Hid & ->) || destruct Hm as (Et & Hid & _) || destruct Hm as (Et & Hid));
      rewrite bool_decide_false by done; cbn; rewrite ?Et; intros Hq; eexists; exact (conj Hid Hq).
Qed.

Lemma frame_confines peer nd :
  @Frame Service service_outside all_powers peer nd (fun p p' => confines (p_out p) (p_out p')).
Proof.
  apply frame_service; [typeclasses eauto|..].
  - intros c s. apply confines_unchanged; [done|]. by apply extends_log.
  - apply invoke_confines.
Qed.
End compose.
