(* ===== verification/Shared.v ===== *)
(** * An outside with other clients

    Between any two calls of the program other clients may be served. [shared] is
    an outside with what they will do, and a book of the payments made while the
    program's own calls ran; it keeps the contract of Ledger when what others do
    keeps the outside sound. Others of the service may call any unary method: that
    handlers in flight may be taken one at a time is [calls_linearizable]. *)

From S2P Require Import Prelude GoStrings GoTime Encoding Crypto Json Proto Broker Sdk Ids World Encryption.
From S2P Require Import Options Service Auth AuthSpec Registry RegistrySpec Handlers HandlersSpec Lifecycle History.
From S2P Require Import Proc Process Blackjack Launch NodeRPC Client Fund ClientSpec ClientTime.
From S2P Require Import ClientLog ClientGame Ledger Compose.

Section shared.
Context {S Y V : Type} `{Ledger S Y}.
(** What the others do in one go, and that it does no harm. *)
Context (visit : V -> S -> S).
Definition harmless : Prop := forall v s, sound s -> sound (visit v s) /\ onward s (visit v s).

Record shared := MkShared {
  sh_base : S;
  sh_others : list V;   (* one for each step of the program, in order *)
  sh_own : list Y;
}.

Definition meanwhile (s : shared) : shared :=
  match sh_others s with
  | [] => s
  | v :: vs => MkShared (visit v (sh_base s)) vs (sh_own s)
  end.
(** A step of the program, after the others' turn. *)
Definition own_step {X} (step : S -> X * S) (s : shared) : X * shared :=
  let s1 := meanwhile s in
  let '(x, b) := step (sh_base s1) in
  (x, MkShared b (sh_others s1) (sh_own s1 ++ drop (length (paid (sh_base s1))) (paid b))).
Definition own_move (f : S -> S) (s : shared) : shared := snd (own_step (fun b => ((), f b)) s).

#[export] Instance shared_clock : Clock shared := {
  time_Now := own_step time_Now;
  time_Sleep d := own_move (time_Sleep d);
}.
#[export] Instance shared_outside : Outside shared := {
  Invoke r req := own_step (Invoke r req);
  NewClient addr := own_step (NewClient addr);
  conn_Close := own_move conn_Close;
  http_Do req := own_step (http_Do req);
}.

Section laws.
Context (Hv : harmless).

Lemma meanwhile_sound s : sound (sh_base s) ->
  sound (sh_base (meanwhile s)) /\ onward (sh_base s) (sh_base (meanwhile s)) /\ sh_own (meanwhile s) = sh_own s.
Proof. intros Hs. unfold meanwhile. destruct (sh_others s) as [|v vs]; [done|]. cbn. destruct (Hv v (sh_base s) Hs). done. Qed.
(** What a step of the program does to the outside alone, it does here. *)
Lemma own_step_law {X} (step : S -> X * S) s (x : X) s' (P : list Y -> S -> Prop) :
  (forall b b', sound b -> step b = (x, b') ->
     sound b' /\ onward b b' /\ exists es, paid b' = paid b ++ es /\ P es b') ->
  sound (sh_base s) -> own_step step s = (x, s') ->
  sound (sh_base s') /\ onward (sh_base s) (sh_base s') /\ exists es, sh_own s' = sh_own s ++ es /\ P es (sh_base s').
Proof.
  intros Hstep Hs. unfold own_step. destruct (meanwhile_sound s Hs) as (H1' & O1 & E1).
  destruct (step (sh_base (meanwhile s))) as [y b] eqn:E. intros [= -> <-]. cbn.
  destruct (Hstep _ _ H1' E) as (H2' & O2 & es & Ep & Hp). split; [done|]. split; [by etransitivity|].
  exists es. rewrite E1, Ep, drop_app_length. done.
Qed.
Lemma own_step_quiet {X} (step : S -> X * S) s :
  (forall b, sound b -> let b' := snd (step b) in sound b' /\ onward b b' /\ paid b' = paid b) ->
  sound (sh_base s) -> let s' := snd (own_step step s) in
  sound (sh_base s') /\ onward (sh_base s) (sh_base s') /\ sh_own s' = sh_own s.
Proof.
  intros Hstep Hs. destruct (own_step step s) as [x s'] eqn:E. cbn.
  destruct (own_step_law step s x s' (fun es _ => es = [])) as (H1' & H2' & es & -> & ->); [|done|done|by rewrite app_nil_r].
  intros b b' Hb Eb. specialize (Hstep b Hb). rewrite Eb in Hstep. destruct Hstep as (? & ? & Ep).
  split; [done|]. split; [done|]. exists []. by rewrite app_nil_r.
Qed.

(** What an answered spend adds to the book. *)
Definition spend_booked (w : wallet) (pay memo : pb.OutputSpec) (x : result pb.SpendDetailResponse) (es : list Y) (b : S) : Prop :=
  match x with
  | Ok _ => exists e, es = [e] /\ pays b (spend_request w [pay; memo]) e
  | Err _ => es = []
  end.
Lemma spend_step w pay memo x : game_wallet (w_id w) -> forall b b', sound b ->
  Invoke BSVMS_SpendToOutputs (spend_request w [pay; memo]) b = (x, b') ->
  sound b' /\ onward b b' /\ exists es, paid b' = paid b ++ es /\ spend_booked w pay memo x es b'.
Proof.
  intros Hw b b' Hb Eb. destruct (spend_law w pay memo b x b' Hb Hw Eb) as (Hb' & Ho & Hx). split; [done|]. split; [done|].
  destruct x.
  - destruct Hx as (e & Ep & Hx). exists [e]. split; [exact Ep|]. exists e. split; [reflexivity|exact Hx].
  - exists []. split; [by rewrite app_nil_r|reflexivity].
Qed.

#[export] Instance onward_shared : PreOrder (fun s s' : shared => onward (sh_base s) (sh_base s')).
Proof. split; [intros s; reflexivity|]. intros s1 s2 s3 H12 H23. by transitivity (sh_base s2). Qed.

Definition shared_ledger : Ledger shared Y.
Proof.
  refine {| sound s := sound (sh_base s); paid := sh_own; pays s := pays (sh_base s);
            onward s s' := onward (sh_base s) (sh_base s') |}; cbn.
  - intros s s' req e. apply pays_onward.
  - intros s. exact (own_step_quiet time_Now s clock_quiet).
  - intros d s. exact (own_step_quiet (fun b => ((), time_Sleep d b)) s (sleep_quiet d)).
  - intros addr s. exact (own_step_quiet (NewClient addr) s (client_quiet addr)).
  - intros s. exact (own_step_quiet (fun b => ((), conn_Close b)) s close_quiet).
  - intros req s. exact (own_step_quiet (http_Do req) s (http_quiet req)).
  - intros peer r req s Hs Hm. exact (own_step_quiet (Invoke r req) s (fun b Hb => call_quiet peer r req b Hb Hm) Hs).
  - intros w pay memo s x s' Hs Hw Ei.
    destruct (own_step_law (Invoke BSVMS_SpendToOutputs (spend_request w [pay; memo])) s x s' (spend_booked w pay memo x)
      (spend_step w pay memo x Hw) Hs Ei) as (Hs' & Ho & es & Ep & Hx). split; [done|]. split; [done|].
    unfold spend_booked in Hx. destruct x; [destruct Hx as (e & -> & Hx); by exists e|by rewrite Ep, Hx, app_nil_r].
Defined.
End laws.
End shared.
Arguments shared : clear implicits.

(** ** Other clients of the service *)

Definition visits : Type := list (context * { r : rpc & rpc_request r }).

Section others.
Context `{Env} `{Mac} `{Hash} `{Aead}.
Context (ctx : context) (reachable : list ext_call -> string -> result unit)
  (node_http : list ext_call -> http_request -> result http_response).

(** Requests of others, served one after the other, whatever they ask for. *)
Definition visit_service (vs : visits) (s : Service) : Service :=
  fold_left (fun s '(c, existT r req) => snd (invoke c r req s)) vs s.
Lemma invoke_harmless c r req s : open_service s ->
  open_service (snd (invoke c r req s)) /\ grows s (snd (invoke c r req s)).
Proof.
  intros [Hok Ha]. destruct (unary r) as [h|] eqn:Er.
  - rewrite (invoke_open c r h req s Er Ha). destruct (h req s) as [x s'] eqn:E. cbn.
    destruct (unary_keeps r h req s x s' Er E Hok) as [Hok' Hg]. split; [|done]. split; [done|].
    destruct Hg as (_ & Ho & _). by rewrite Ho.
  - unfold invoke. rewrite Er. split; [done|]. by apply grows_only_world.
Qed.
Lemma visit_harmless : @harmless Service ext_call _ _ (service_ledger ctx reachable node_http) visit_service.
Proof.
  intros v. induction v as [|[c [r req]] v IH]; intros s Hs; [split; [done|by apply grows_only_world]|].
  destruct (invoke_harmless c r req s Hs) as [Hs1 Hg1]. destruct (IH _ Hs1) as [Hs2 Hg2]. split; [done|].
  exact (transitivity (R:=grows) Hg1 Hg2).
Qed.

(** The service with its other clients, as an outside and as a ledger. *)
Definition among_others : Outside (shared Service ext_call visits) :=
  @shared_outside Service ext_call visits _ (service_ledger ctx reachable node_http) visit_service.
Definition book : @Ledger (shared Service ext_call visits) ext_call among_others :=
  shared_ledger visit_service visit_harmless.
End others.
