(* ===== verification/Demo.v ===== *)
(** * A concrete world

    One environment and one service in it, for applying the theorems to
    concrete inputs: an SDK that answers every call with a plain success, a
    disk without faults, a fixed entropy source, and a clock that advances with
    the calls made. It stands for no real component. *)

From S2P Require Import Prelude GoStrings GoTime Encoding Crypto Proto Broker Sdk Ids World Encryption.
From S2P Require Import Options Service Auth AuthSpec Registry RegistrySpec Handlers.
From S2P Require Import Launch.
From Corelib Require Import SpecFloat.

Definition demo_utxo : bsv.UTXO := bsv.MkUTXO "aa" 0 5000 [] 7 false.
Definition demo_progress : bsv.RescanProgress := bsv.MkRescanProgress "blocks" "peer" 1 1 1 1 0 "" "".
Definition demo_address : bsv.DerivedAddress := bsv.MkDerivedAddress "addr" "0/0" [] [] 0 0.
Definition demo_tx : bsv.Transaction := bsv.MkTransaction "tx" [] [] [].

Definition demo_wallet (c : wallet_call) : wallet_ret c :=
  match c with
  | SetStore _ | LoadAddressSnapshot _ | SetNextIndices _ _ | WOnPayment _ _ | WOnWalletTx _ _
  | WIgnoreOutpoint _ _ | WUnignoreOutpoint _ _ => ()
  | LoadFromStore | WReloadFromStore | Wipe => Ok 0%Z
  | SaveAddressSnapshot => [bsv.MkSnapshotEntry "addr1" 1; bsv.MkSnapshotEntry "addr0" 0]
  | NextIndices => (1%Z, 0%Z)
  | Addresses => ["addr"]
  | Selector => "largest-first"
  | WBalance | SpendableBalance | ImmatureBalance | WClearUTXOs | WPruneUnknownUTXOs
  | WUntrackUTXO _ _ | WClearIgnoredOutpoints | WNextIndex _ => 0%Z
  | BalanceBSV => S754_zero false
  | NewDerivedAddress => Ok demo_address
  | BatchNewDerivedAddresses _ => Ok [demo_address]
  | WDeriveAt _ _ => Ok "addr"
  | WPubKeyAt _ _ => Ok ([], "addr")
  | WSignHashAt _ _ _ => Ok ([], [])
  | UTXOs => [demo_utxo]
  | ForceImportCoin _ | WImportUTXO _ _ _ _ _ | WProcessRawTx _ _ | WCanCover _ _ _
  | WAbandonTransaction _ => Ok ()
  | WIsOutpointIgnored _ _ | WOwnsScript _ => false
  | WSend _ _ | WSendAll _ => Ok "tx"
  | SpendToOutputsDetailed _ | SpendToOutputsDetailedFrom _ _
  | SpendToOutputsDetailedIgnoringFixed _ => Ok None
  | WTxState _ => Ok (bsv.MkTxStateInfo 0 false false, false)
  | WGetIncompleteCursor => Ok (None, false)
  | WRescanFromHash _ _ _ => ([Reported demo_progress; Checkpointed], Ok None)
  end.

Definition demo_node (n : nat) (c : node_call) : node_ret c :=
  match c with
  | NodeCreateWallet _ => Ok (WalletPtr n, "legal winner thank year wave")
  | NodeRestoreWallet _ _ _ => Ok (WalletPtr n)
  | NewNode _ | NodeDisconnect | SetBroadcastFanout _ | SetPendingTxTracking _
  | OnTransaction | OnBlock | OnBlockDisconnected | OnP2PTraffic | OnReject => ()
  | Network => "regtest"
  | ChainHeight | BestPeerHeight | PeerCount
  | NodeRebroadcastPendingTransactions => 0%Z
  | PeerHeights => ∅
  | NodeConnect | NodeConnectPeer _ => Ok ()
  | NodeP2PKHOutput _ _ => Ok (bsv.MkOutputSpec [] 0)
  | SdkOpReturnOutput _ | SdkAnyoneCanSpendOutput _ => bsv.MkOutputSpec [] 0
  | TxIDFromHex _ => Ok (repeat Byte.x00 32)
  | SpendCustom _ _ | NodeBroadcastRaw _ => Ok "tx"
  | SdkParseTransaction _ => Ok demo_tx
  | NodeExecuteScript _ _ _ _ _ _ => Ok ()
  | NodeDecodeOutputAddress _ | SenderAddressFromInput _ _ => ("", false)
  | NodePendingTransactions => []
  | NodeVerifyTxSeen _ _ _ | NodeWaitForTxRelay _ _ => Ok true
  | ReadAddressSnapshot _ => Err (ESentinel ErrSnapshotNotFound "snapshot not found")
  | WriteAddressSnapshot _ _ _ _ => Ok ()
  end.

(** One second passes with every call. *)
Definition demo_clock (n : nat) : Z := ((1767225600 + Z.of_nat n) * Second)%Z.
Definition demo_host (n : nat) (c : host_call) : host_ret c :=
  match c with
  | StoreOpen _ => Ok (StorePtr n)
  | StoreClose _ => Ok ()
  | OsReadFile _ | OsWriteFile _ _ _ | OsRename _ _ | OsMkdirAll _ _ => None
  | RandRead k => Ok (repeat (byte_of (N.of_nat n)) k)
  | TimeNow => demo_clock n
  | Sleep _ => ()
  | Getwd => Ok "/srv"
  | NetListen _ | StreamSend _ => Ok ()
  end.

Definition demo_oracle (tr : list ext_call) (c : ext_call) : ext_ret c :=
  match c with
  | WalletCall _ c => demo_wallet c
  | NodeCall c => demo_node (length tr) c
  | HostCall c => demo_host (length tr) c
  end.

#[export] Instance by_index_dec : RelDecision by_index.
Proof. intros e e'. unfold by_index. apply _. Defined.
#[export] Instance by_index_total : Total by_index.
Proof. intros e e'. unfold by_index. lia. Qed.
#[export] Instance by_index_trans : Transitive by_index.
Proof. intros e e' e''. unfold by_index. lia. Qed.

Definition env : Env := {|
  oracle := demo_oracle;
  coinbase_maturity := 100;
  sort_by_index := merge_sort by_index;
  sort_by_index_perm := merge_sort_Permutation by_index;
  sort_by_index_sorted l := Sorted_StronglySorted _ _ (Sorted_merge_sort by_index l);
|}.

(** The same world with a disk that refuses to replace the state file. *)
Definition full_oracle (tr : list ext_call) (c : ext_call) : ext_ret c :=
  match c with
  | HostCall (OsRename _ _) => Some (ENew "rename: no space left on device")
  | c => demo_oracle tr c
  end.
Definition full_disk : Env := {|
  oracle := full_oracle;
  coinbase_maturity := 100;
  sort_by_index := merge_sort by_index;
  sort_by_index_perm := merge_sort_Permutation by_index;
  sort_by_index_sorted l := Sorted_StronglySorted _ _ (Sorted_merge_sort by_index l);
|}.

(** ** A service with authentication and the wallet acme/main *)

Definition options : Options := {|
  AuthEnabled := true; EnableCustomSpend := false; JWTSecret := repeat Byte.x53 32;
  DataKey := repeat Byte.x44 32; AccessTTL := 0; RefreshTTL := 0;
  BroadcastFanout := 1; DisablePendingTxTracking := true |}.
Definition empty_world : world := {| w_trace := []; w_fs := ∅ |}.

Definition boot (E : Env) : result Service * world :=
  @NewWithOptions E sha256_hash aes_gcm "data" options empty_world.
Definition service0 : Service :=
  match fst (boot env) with Ok s => s | Err _ => new_service "" options empty_world end.
Definition create_req : pb.CreateWalletRequest := pb.MkCreateWalletRequest "acme" "main".
Definition created : result pb.CreateWalletResponse * Service :=
  @CreateWallet env hmac_sha256_mac sha256_hash aes_gcm create_req service0.
Definition service1 : Service := snd created.
Definition tokens : pb.AuthTokens :=
  match fst created with
  | Ok r => default (pb.MkAuthTokens "" "" "" "" "" "") (pb.CreateWalletResponse_Tokens r)
  | Err _ => pb.MkAuthTokens "" "" "" "" "" ""
  end.
Definition bearer (token : string) : context :=
  authContext token.
Definition ctx : context := bearer (pb.AuthTokens_AccessToken tokens).

Lemma boot_ok : boot env = (Ok service0, snd (boot env)).
Proof. vm_compute. reflexivity. Qed.
Lemma create_ok : exists resp, created = (Ok resp, service1).
Proof. vm_compute. eexists. reflexivity. Qed.

Lemma service0_ok : @registry_ok service0 /\ resolved (sv_opts service0).
Proof.
  destruct (@NewWithOptions_ok env sha256_hash aes_gcm _ _ _ _ _ boot_ok) as (? & _ & ? & _).
  done.
Qed.
Lemma service1_ok : @registry_ok service1.
Proof.
  destruct create_ok as [resp E].
  destruct (@CreateWallet_outcome env hmac_sha256_mac sha256_hash aes_gcm _ _ _ _ E) as (mn & Ho & _).
  eapply add_outcome_ok; [exact Ho|]. apply service0_ok.
Qed.

Lemma demo_clock_advances : @clock_advances env.
Proof.
  split; [intros tr c|intros tr]; cbn; rewrite length_app; cbn; unfold demo_clock, Second; lia.
Qed.

Definition rescan_request : pb.RescanRequest :=
  pb.MkRescanRequest "acme" "main" "000000000019d668" 0 0 30000 60000 0 10 0 0 0 0.
