(* ===== verification/DemoClient.v ===== *)
(** * Concrete surroundings of the blackjack program

    For applying the client's theorems to concrete inputs: a table with a
    ledger of its own, and the service of Demo without authentication. They stand for no real
    component. *)

From S2P Require Import Prelude GoStrings GoTime Encoding Crypto Json Proto Broker Sdk Ids World Encryption.
From S2P Require Import Options Service Auth AuthSpec Registry RegistrySpec Handlers Lifecycle.
From S2P Require Import Proc Process Blackjack Launch NodeRPC Client Fund ClientSpec ClientTime ClientLog FundLog.
From S2P Require Import Ledger Compose Demo.

(** ** A table *)

(** The time and the payments made. *)
Record table := MkTable { t_now : Z; t_paid : list pb.SpendToOutputsRequest }.
Definition pass (d : Z) (s : table) : table := MkTable (t_now s + d) (t_paid s).
Definition pay (req : pb.SpendToOutputsRequest) (s : table) : table := MkTable (t_now s) (t_paid s ++ [req]).

#[export] Instance table_clock : Clock table := {
  time_Now s := (t_now s, s);
  time_Sleep d s := pass (Z.max d 0) s;
}.

Definition no_answer : error := EStatus Unavailable "connection reset by peer".
Definition table_spend (req : pb.SpendToOutputsRequest) : pb.SpendDetailResponse :=
  pb.MkSpendDetailResponse (Some (pb.MkSpendDetail "tx" [] None [])).
(** A table that pays whatever it is asked to. *)
Definition table_invoke (r : rpc) : rpc_request r -> table -> result (rpc_response r) * table :=
  match r return rpc_request r -> table -> result (rpc_response r) * table with
  | BSVMS_Status => fun _ s => (Ok (pb.MkStatusResponse "regtest" 1 1 1 "" ∅ 0), s)
  | BSVMS_Balance => fun _ s => (Ok (pb.MkBalanceResponse 200000 (SpecFloat.S754_zero false) 200000 0), s)
  | BSVMS_P2PKHOutput => fun req s => (Ok (pb.MkOutputSpec [] (pb.P2PKHOutputRequest_Value req)), s)
  | BSVMS_OpReturnOutput => fun req s => (Ok (pb.MkOutputSpec (pb.OpReturnOutputRequest_Data req) 0), s)
  | BSVMS_SpendToOutputs => fun req s =>
      (Ok (table_spend req), pay req s)
  | BSVMS_ProcessRawTx => fun _ s => (Ok pb.MkProcessRawTxResponse, s)
  | _ => fun _ s => (Err (EStatus Unimplemented "unimplemented"), s)
  end.
(** A node that answers every method. *)
Definition table_node (req : http_request) : result http_response :=
  let is_ m := has_prefix (req_body req) (body_start m) in
  let result := if is_ "getbalance" then "1.5" else if is_ "getblockcount" then "7"
                else if is_ "generate" then "[]" else "null" in
  Ok (MkHttpResponse 200 (Ok ("{" +:+ json_quote "result" +:+ ":" +:+ result +:+ "}"))).

Definition table_outside : Outside table := {|
  Invoke := table_invoke;
  NewClient _ s := (Ok (), s);
  conn_Close s := s;
  http_Do req s := (table_node req, s);
|}.

Definition no_env : string -> string := fun _ => "".
Definition alice : wallet := MkWallet playerWallet "mp".
Definition house : wallet := MkWallet houseWallet "mh".
Definition seated (input : list string) : process table := MkProcess (MkTable 0 []) input [] 0 [].

(** ** A service without authentication *)

(** The world of Demo with one peer connected. *)
Definition lively_oracle (tr : list ext_call) (c : ext_call) : ext_ret c :=
  match c with
  | NodeCall PeerCount => 1%Z
  | c => demo_oracle tr c
  end.
Definition lively : Env := {|
  oracle := lively_oracle;
  coinbase_maturity := 100;
  sort_by_index := merge_sort by_index;
  sort_by_index_perm := merge_sort_Permutation by_index;
  sort_by_index_sorted l := Sorted_StronglySorted _ _ (Sorted_merge_sort by_index l);
|}.

Lemma lively_clock_advances : @clock_advances lively.
Proof.
  split; [intros tr c|intros tr]; cbn; rewrite length_app; cbn; unfold demo_clock, Second; lia.
Qed.

(** Stand-ins for the ciphers, quick to run. *)
Definition plain_mac : Mac := fun _ b => b.
Definition plain_hash : Hash := fun b => take 32 (b ++ repeat Byte.x00 32).
Definition plain_aead : Aead := {|
  aead_seal _ _ p := p;
  aead_open _ _ p := Some p;
  aead_open_seal _ _ _ _ _ := eq_refl;
|}.

Definition open_options : Options := {|
  AuthEnabled := false; EnableCustomSpend := false; JWTSecret := repeat Byte.x53 32;
  DataKey := repeat Byte.x44 32; AccessTTL := 0; RefreshTTL := 0;
  BroadcastFanout := 1; DisablePendingTxTracking := true |}.
Definition open_boot : result Service.Service * world :=
  @NewWithOptions lively plain_hash plain_aead "data" open_options empty_world.
Definition tavern : Service.Service :=
  match fst open_boot with Ok s => s | Err _ => new_service "" open_options empty_world end.
Lemma open_boot_ok : open_boot = (Ok tavern, snd open_boot).
Proof. vm_compute. reflexivity. Qed.

Lemma tavern_open : @open_service plain_aead tavern.
Proof.
  destruct (@NewWithOptions_ok lively plain_hash plain_aead _ _ _ _ _ open_boot_ok) as (Hr & _ & Ho & _).
  split; [split; [exact Hr| |exact Ho]|vm_compute; reflexivity].
  assert (sv_state tavern = []) as -> by (vm_compute; reflexivity). constructor.
Qed.

Definition reachable_always : list ext_call -> string -> result unit := fun _ _ => Ok ().
Definition silent_node : list ext_call -> http_request -> result http_response := fun _ _ => Err no_answer.
Definition anonymous : context := MkContext None.
Definition tavern_outside : Outside Service.Service :=
  @service_outside lively plain_mac plain_hash plain_aead anonymous reachable_always silent_node.
Definition at_tavern (input : list string) : process Service.Service := MkProcess tavern input [] 0 [].

(** The player's wallet is made, then the house's. *)
Definition sit_down : proc (process Service.Service) (wallet * wallet) :=
  let H := tavern_outside in
  player ← ensureWallet playerWallet; house ← ensureWallet houseWallet; mret (player, house).
Definition seats : Proc.outcome (wallet * wallet) * process Service.Service := sit_down (at_tavern ["500"; "h"; "s"]).
Definition first_seat : Proc.outcome wallet * process Service.Service :=
  @ensureWallet _ tavern_outside playerWallet (at_tavern []).

Lemma seats_open : @open_service plain_aead (p_out (snd seats)).
Proof.
  pose (R := fun p p' : process Service.Service => @confines plain_aead (p_out p) (p_out p')).
  pose proof (@frame_confines lively plain_mac plain_hash plain_aead anonymous reachable_always silent_node
    (Launch.env no_env "BSVMS_REGTEST_PEER" regtestPeer) (node_of no_env)) as Hf.
  assert (forall id, game_wallet id -> always R (@ensureWallet _ tavern_outside id)) as Hw
    by exact (@frame_ensureWallet _ tavern_outside no_env (node_of no_env) all_powers R Hf).
  assert (PreOrder R) as Hp by exact (@frame_preorder _ tavern_outside _ _ _ _ Hf).
  assert (always R sit_down) as Hs.
  { apply always_bind; [done|apply Hw; by left|intros w].
    apply always_bind; [done|apply Hw; by right|intros w']. by apply always_ret. }
  exact (cf_open _ _ (Hs (at_tavern ["500"; "h"; "s"]) tavern_open)).
Qed.
