(* ===== verification/DemoConc.v ===== *)
(** * Demo services with calls in flight

    The services of Demo satisfy the invariant; two clients that race to create
    the same wallet; a token's owner asking while others work; a rescan under way. *)

From S2P Require Import Prelude GoStrings GoTime Encoding Crypto Proto Broker Sdk Ids World Encryption.
From S2P Require Import Options Service Auth AuthSpec Registry RegistrySpec Handlers HandlersSpec Lifecycle.
From S2P Require Import RegistryAbs Disk Events Conc ConcSpec ConcPool ConcOrder Demo.

Lemma demo_no_faults : @no_faults env.
Proof.
  split; try (by intros); try (by intros; eexists). intros tr p e. cbn. by intros [= <-].
Qed.

Lemma service0_service_ok : @service_ok aes_gcm service0.
Proof.
  destruct service0_ok. split; [done| |done].
  assert (sv_state service0 = []) as -> by (vm_compute; reflexivity). constructor.
Qed.

Lemma create_step : @unary_step env hmac_sha256_mac sha256_hash aes_gcm service0 service1.
Proof.
  destruct create_ok as [resp E].
  by apply (@unary_step_intro env hmac_sha256_mac sha256_hash aes_gcm service0 service1
    BSVMS_CreateWallet (@CreateWallet env hmac_sha256_mac sha256_hash aes_gcm) create_req (Ok resp)).
Qed.

Lemma service1_service_ok : @service_ok aes_gcm service1.
Proof.
  destruct (@unary_steps_ok env hmac_sha256_mac sha256_hash aes_gcm _ _ (rtc_once _ _ create_step) service0_service_ok) as [? _].
  done.
Qed.


(** ** Pools that a list of turns reaches *)

Section schedules.
Context `{Env} `{Mac} `{Hash} `{Aead}.

Definition arrivals (cs : list call) (pl : pool) : pool :=
  fold_left (fun pl c => default pl (arrive c pl)) cs pl.
Lemma evolves_default pl0 past pl o : evolves pl0 past pl -> (forall pl', o = Some pl' -> pool_step pl pl') ->
  exists past', evolves pl0 past' (default pl o).
Proof.
  intros Hev Ho. destruct o as [pl'|]; [|by exists past]. exists (past ++ [pl]). econstructor; [done|]. by apply Ho.
Qed.
Lemma evolves_schedule turns pl0 past pl : evolves pl0 past pl -> exists past', evolves pl0 past' (schedule turns pl).
Proof.
  revert past pl. induction turns as [|i turns IH]; intros past pl Hev; [by exists past|].
  destruct (evolves_default pl0 past pl (advance i pl) Hev) as [past' Hev']; [by intros; econstructor|].
  exact (IH past' _ Hev').
Qed.
Lemma evolves_arrivals cs pl0 past pl : evolves pl0 past pl -> exists past', evolves pl0 past' (arrivals cs pl).
Proof.
  revert past pl. induction cs as [|c cs IH]; intros past pl Hev; [by exists past|].
  destruct (evolves_default pl0 past pl (arrive c pl) Hev) as [past' Hev'].
  { intros pl' E. by eapply step_arrival. }
  exact (IH past' _ Hev').
Qed.
Lemma reachable cs turns s : exists past, evolves (idle s) past (schedule turns (arrivals cs (idle s))).
Proof.
  destruct (evolves_arrivals cs (idle s) [] (idle s) (evolves_nil _)) as [past Hev]. by eapply evolves_schedule.
Qed.
End schedules.

(** ** Two clients race for acme/main *)

Definition anonymous : context := MkContext None.
Definition create_call : call := MkCall anonymous BSVMS_CreateWallet create_req.
Definition racing : pool := @arrivals env hmac_sha256_mac sha256_hash aes_gcm [create_call; create_call] (idle service0).
(** Both are authorised while the wallet is free; then they take turns. *)
Definition both_in : list nat := [0; 0; 0; 0; 1; 1; 1; 1].
Definition race_turns : list nat := both_in ++ [1; 0] ++ repeat 1 60 ++ repeat 0 4.
Definition race : pool := schedule race_turns racing.
Definition code_of (t : thread) : option (option code) := result_code <$> answer t.

Lemma race_answers : code_of <$> p_threads race = [Some (Some AlreadyExists); Some None] /\ p_holder race = None.
Proof. split; vm_compute; reflexivity. Qed.
(** The wallet the winner was told about. *)
Definition race_wallet : (string * string) * (string * string) := (("acme", "main"), ("legal winner thank year wave", "")).
Lemma race_acknowledged : acknowledged <$> p_threads race !! 1 = Some (Some race_wallet).
Proof. vm_compute. reflexivity. Qed.
Lemma race_winner : exists t, p_threads race !! 1 = Some t /\ acknowledged t = Some race_wallet.
Proof.
  pose proof race_acknowledged as E. destruct (p_threads race !! 1) as [t|]; [|discriminate E].
  exists t. split; [reflexivity|]. injection E as E. exact E.
Qed.

(** ** A balance is asked while another client creates a wallet

    The mutex is taken, the wallet entered, the state file half saved. *)

Definition balance_call : call := MkCall ctx BSVMS_Balance (pb.MkBalanceRequest "acme" "main").
Definition second_call : call := MkCall anonymous BSVMS_CreateWallet (pb.MkCreateWalletRequest "acme" "second").
Definition asked : pool := schedule (repeat 0 5)
  (@arrivals env hmac_sha256_mac sha256_hash aes_gcm [balance_call] (idle service1)).
Definition busy : pool := schedule (repeat 0 5 ++ repeat 1 17)
  (@arrivals env hmac_sha256_mac sha256_hash aes_gcm [balance_call; second_call] (idle service1)).
Lemma busy_inside : p_holder busy = Some 1 /\ length (sv_state (p_service busy)) = 2 /\
  is_Some (files (p_service busy) !! (statePath (sv_dataDir (p_service busy)) +:+ ".tmp")).
Proof. split; [vm_compute; reflexivity|]. split; [vm_compute; reflexivity|]. vm_compute. by eexists. Qed.
(** Its next step reads the balance: one call more. *)
Definition history_length (pl : pool) : nat := length (w_trace (sv_world (p_service pl))).
Lemma busy_call : t_call <$> p_threads busy !! 0 = Some balance_call.
Proof. vm_compute. reflexivity. Qed.
Lemma busy_next : history_length <$> advance 0 busy = Some (S (history_length busy)).
Proof. vm_compute. reflexivity. Qed.
Lemma busy_balance : exists t pl, p_threads busy !! 0 = Some t /\ t_call t = balance_call /\ advance 0 busy = Some pl /\
  history_length pl = S (history_length busy).
Proof.
  pose proof busy_call as E. pose proof busy_next as En.
  destruct (p_threads busy !! 0) as [t|]; [|discriminate E]. destruct (advance 0 busy) as [pl|]; [|discriminate En].
  injection E as E. injection En as En. exists t, pl. exact (conj eq_refl (conj E (conj eq_refl En))).
Qed.

(** ** The service is killed in the middle of a creation *)

(** One wallet is acknowledged; the next has entered, but is not on disk yet. *)
Definition killed : pool := schedule (repeat 0 60 ++ repeat 1 17)
  (@arrivals env hmac_sha256_mac sha256_hash aes_gcm [create_call; second_call] (idle service0)).
Lemma killed_acknowledged : acknowledged <$> p_threads killed !! 0 = Some (Some race_wallet) /\ p_holder killed = Some 1.
Proof. split; vm_compute; reflexivity. Qed.
Lemma killed_first : exists t, p_threads killed !! 0 = Some t /\ acknowledged t = Some race_wallet.
Proof.
  destruct killed_acknowledged as [E _]. destruct (p_threads killed !! 0) as [t|]; [|discriminate E].
  exists t. split; [reflexivity|]. injection E as E. exact E.
Qed.

(** ** Two clients ask for a rescan of acme/main *)

(** One is about to start its walk, the other is turned away; then a block comes in. *)
Definition rescan_call : call := MkCall ctx BSVMS_Rescan rescan_request.
Definition admitted : pool := schedule (repeat 0 11 ++ repeat 1 30)
  (@arrivals env hmac_sha256_mac sha256_hash aes_gcm [rescan_call; rescan_call] (idle service1)).
Definition demo_block : M Service unit := onBlock (bsv.MkBlock "00ab" 7 [] []).
Definition walking : pool := MkPool (snd (demo_block (p_service admitted))) (p_holder admitted) (p_threads admitted).
Lemma walking_reachable : exists past, @evolves env hmac_sha256_mac sha256_hash aes_gcm (idle service1) past walking.
Proof.
  destruct (@reachable env hmac_sha256_mac sha256_hash aes_gcm [rescan_call; rescan_call] (repeat 0 11 ++ repeat 1 30) service1)
    as [past Hev].
  exists (past ++ [admitted]). econstructor; [exact Hev|]. eapply step_beside; [|reflexivity].
  apply (@beside_callback env hmac_sha256_mac _ demo_block). constructor.
Qed.
Lemma walking_answers : code_of <$> p_threads walking = [None; Some (Some FailedPrecondition)] /\
  p_holder walking = None /\ tw_rescanning <$> sv_heap (p_service walking) = [true].
Proof. split; [vm_compute; reflexivity|]. split; vm_compute; reflexivity. Qed.
