(* ===== verification/AuthProps.v ===== *)
(** * Theorems: authentication, authorisation and isolation

    The properties of Auth and of requests served under the interceptors. *)

From S2P Require Import Prelude GoStrings GoTime Encoding Crypto Json Decode Proto Broker Sdk Ids World.
From S2P Require Import Encryption Options Service Auth AuthSpec Registry RegistrySpec Handlers.
From S2P Require Import HandlersSpec Events Demo.

Section access.
Context `{Env} `{Mac} `{Hash} `{Aead}.

(** C2: [authorize] lets a request through exactly when [authorised] says so:
    authentication is off, or it bootstraps a wallet that does not exist, or it
    is a token refresh, or it bears a valid access token and is for another
    service, is node-scoped, or names the token's own tenant and, if any, the
    token's own wallet. *)
Theorem authorize_exact ctx method req s :
  (exists s', authorize ctx method req s = (Ok (), s')) <-> authorised s ctx method req.
Proof. apply authorize_spec. Qed.

(** With authentication on, whatever a client sends to any unary method
    other than CreateWallet and RestoreWallet, every call made on an SDK wallet
    while the request is served is on the one wallet the client's access token
    names, or, for ListWallets, on a wallet of the token's tenant. *)
Lemma serve_isolated ctx r h req s : unary r = Some h -> AuthEnabled (sv_opts s) = true ->
  r <> BSVMS_CreateWallet -> r <> BSVMS_RestoreWallet -> registry_ok s -> ids_ok s ->
  calls (fun q => exists sub, access_subject s ctx sub /\
           (acts_on s (sub_TenantID sub) (sub_WalletID sub) q \/
            r = BSVMS_ListWallets /\ owned_by s (sub_TenantID sub) q))
        s (snd (serve ctx r h req s)).
Proof.
  intros Hr Hon Hc Hs Hok Hids. unfold serve, UnaryAuthInterceptor, mbind, M_bind.
  pose proof (authorize_only_world ctx (full_method r) (Some (rpc_reflect r req)) s) as Ho.
  pose proof (calls_authorize no_wallet ctx (full_method r) (Some (rpc_reflect r req)) s) as Hq.
  destruct (authorize ctx (full_method r) (Some (rpc_reflect r req)) s) as [[[]|e] s1] eqn:Ea;
    cbn [snd] in *; [|eapply calls_impl; [|exact Hq]; done].
  assert (authorised s ctx (full_method r) (Some (rpc_reflect r req))) as Hauth
    by (apply authorize_spec; by eexists).
  transitivity s1; [eapply calls_impl; [|exact Hq]; done|]. destruct (h req s1) as [x s2] eqn:Eh.
  assert (registry_ok s1) as Hok1 by (by rewrite <- Ho).
  pose proof (unary_scope r h req s1 x s2 Hr Hc Hs Hok1 Eh) as Hcalls. cbn [snd].
  eapply calls_impl; [|exact Hcalls]. intros q. unfold request_scope.
  destruct (tenantWalletFromRequest (Some (rpc_reflect r req))) as [[t w] [|]] eqn:Et; [|done].
  destruct Hauth as [Hoff|Hb _|Hrf|sub _ Hm|sub _ Hn _|sub t' w' Hsub Et' Hne Ht Hw].
  - congruence.
  - by rewrite rpc_not_bootstrap in Hb.
  - apply rpc_refresh in Hrf as ->. by cbn in Et.
  - by rewrite rpc_is_bsvms in Hm.
  - by rewrite Et in Hn.
  - rewrite Et in Et'. injection Et' as <- <-. unfold only_world in Ho.
    case_bool_decide as Hl; intros Hq'; exists sub; (split; [done|]).
    + right. split; [done|]. rewrite <- Ht. by rewrite Ho in Hq'.
    + left. rewrite <- Ht. rewrite Ho in Hq'. destruct Hw as [->| <-]; [|done].
      by destruct (acts_on_empty s t q Hok Hids Hq').
Qed.
End access.

Lemma demo_ids_ok : ids_ok service1.
Proof. vm_compute. repeat constructor. Qed.

Lemma serve_isolated_witness :
  (exists resp, fst (@serve env hmac_sha256_mac ctx BSVMS_Balance (@Balance env)
     (pb.MkBalanceRequest "acme" "main") service1) = Ok resp) /\
  @calls (fun q => exists sub, @access_subject env hmac_sha256_mac service1 ctx sub /\
      (acts_on service1 (sub_TenantID sub) (sub_WalletID sub) q \/
       BSVMS_Balance = BSVMS_ListWallets /\ owned_by service1 (sub_TenantID sub) q))
    service1 (snd (@serve env hmac_sha256_mac ctx BSVMS_Balance (@Balance env)
      (pb.MkBalanceRequest "acme" "main") service1)).
Proof.
  split; [vm_compute; eexists; reflexivity|].
  apply (@serve_isolated env hmac_sha256_mac sha256_hash aes_gcm ctx BSVMS_Balance (@Balance env)
    (pb.MkBalanceRequest "acme" "main") service1);
    [reflexivity|vm_compute; reflexivity|discriminate|discriminate|apply service1_ok|apply demo_ids_ok].
Defined.

Section tokens.
Context `{Env} `{Mac} `{Hash} `{Aead}.

(** C5: [validateJWT] accepts exactly the valid tokens: three dot-separated
    parts, the third the MAC of the first two under the service's secret, the
    claims of the asked type, not expired and naming a tenant and a wallet; the
    answer is the subject of the claims, and only the clock was read. *)
Theorem validateJWT_exact token typ s sub s' :
  validateJWT token typ s = (Ok sub, s') <->
  valid_token (secret_of s) token typ (now_unix s) sub /\
  s' = set_world (log (HostCall TimeNow) (sv_world s)) s.
Proof.
  split; [apply validateJWT_sound|]. intros [Hv ->]. by apply validateJWT_complete.
Qed.

(** C21: Issuing tokens for a wallet always succeeds, and on any service state
    with the same secret each token is accepted for its own use, names that
    tenant and wallet, and is worth so exactly until it expires; neither token
    is accepted for the other's use. *)
Theorem issueTokens_roundtrip t w s : idRE_MatchString t = true -> idRE_MatchString w = true ->
  in_int64 (clock s) -> in_int64 (AccessTTL (sv_opts s)) -> in_int64 (RefreshTTL (sv_opts s)) ->
  exists tok s', issueTokens t w s = (Ok tok, s') /\
    forall u typ sub, secret_of u = secret_of s ->
    ((exists u', validateJWT (pb.AuthTokens_AccessToken tok) typ u = (Ok sub, u')) <->
       typ = "access" /\ sub = MkSubject t w "access" /\
       (now_unix u < Unix (Add (now_of s) (AccessTTL (sv_opts s))))%Z) /\
    ((exists u', validateJWT (pb.AuthTokens_RefreshToken tok) typ u = (Ok sub, u')) <->
       typ = "refresh" /\ sub = MkSubject t w "refresh" /\
       (now_unix u < Unix (Add (now_of s) (RefreshTTL (sv_opts s))))%Z).
Proof.
  intros Ht Hw Hc Ha Hr. destruct (issueTokens_run t w s) as (j1 & j2 & acc & ref & s' & J1 & J2 & S1 & S2 & E & _).
  eexists. exists s'. split; [exact E|]. intros u typ sub Hu.
  assert (forall tok exp ty j d, exp = Add (now_of s) d -> in_int64 d -> plain_str j = true -> plain_str ty = true ->
    signJWT (secret_of s) (claims_for t w ty (now_of s) exp j) = Ok tok ->
    (exists u', validateJWT tok typ u = (Ok sub, u')) <->
    typ = ty /\ sub = MkSubject t w ty /\ (now_unix u < Unix exp)%Z) as Hgen.
  { intros tok exp ty j d -> Hd Hj Hty Hs.
    pose proof (signJWT_valid _ _ _ typ (now_unix u) sub (claims_for_plain s t w ty d j Ht Hw Hty Hj Hc Hd) Hs) as Hv.
    rewrite <- Hu in Hv. cbn in Hv. split.
    - intros [u' Hx]. apply validateJWT_sound in Hx as [Hx _].
      apply Hv in Hx as (-> & ? & _ & _ & ->). done.
    - intros (-> & -> & ?). eexists. apply validateJWT_complete, Hv.
      repeat split; [done|by apply id_nonempty|by apply id_nonempty]. }
  split; [by apply (Hgen acc _ "access" j1 (AccessTTL (sv_opts s)))
         |by apply (Hgen ref _ "refresh" j2 (RefreshTTL (sv_opts s)))].
Qed.

(** C30: Refreshing needs a valid refresh token and answers new tokens for the
    same tenant and wallet; the refresh token that was spent stays exactly as
    valid as before. *)
Theorem RefreshToken_exact req s : AuthEnabled (sv_opts s) = true ->
  (forall tok s', RefreshToken req s = (Ok tok, s') ->
     exists sub, valid_token (secret_of s) (pb.RefreshTokenRequest_RefreshToken req) "refresh" (now_unix s) sub /\
       pb.AuthTokens_TenantId tok = sub_TenantID sub /\ pb.AuthTokens_WalletId tok = sub_WalletID sub /\
       forall now x, valid_token (secret_of s') (pb.RefreshTokenRequest_RefreshToken req) "refresh" now x <->
                     valid_token (secret_of s) (pb.RefreshTokenRequest_RefreshToken req) "refresh" now x) /\
  (forall sub, valid_token (secret_of s) (pb.RefreshTokenRequest_RefreshToken req) "refresh" (now_unix s) sub ->
     exists tok s', RefreshToken req s = (Ok tok, s')).
Proof.
  intros Hon. unfold RefreshToken. unfold mbind at 1 3, M_bind at 1 3, gets at 1 2. rewrite Hon. cbn [negb]. split.
  - intros tok s' Hr. apply bind_ok_inv in Hr as (sub & s1 & Hv & Hr).
    apply validateJWT_sound in Hv as [Hv ->]. exists sub. split; [done|].
    destruct (issueTokens_run (sub_TenantID sub) (sub_WalletID sub)
      (set_world (log (HostCall TimeNow) (sv_world s)) s)) as (? & ? & ? & ? & s2 & _ & _ & _ & _ & E & Ho).
    rewrite E in Hr. injection Hr as <- <-. split; [done|]. split; [done|]. intros now y.
    replace (secret_of s2) with (secret_of s); [done|]. unfold only_world in Ho. by rewrite Ho.
  - intros sub Hv. erewrite bind_run by (by apply validateJWT_complete).
    destruct (issueTokens_run (sub_TenantID sub) (sub_WalletID sub)
      (set_world (log (HostCall TimeNow) (sv_world s)) s)) as (? & ? & ? & ? & s2 & _ & _ & _ & _ & E & _).
    rewrite E. by do 2 eexists.
Qed.
End tokens.

Lemma issueTokens_roundtrip_witness :
  exists tok s', @issueTokens env hmac_sha256_mac "acme" "main" service1 = (Ok tok, s') /\
    forall u typ sub, secret_of u = secret_of service1 ->
    ((exists u', @validateJWT env hmac_sha256_mac (pb.AuthTokens_AccessToken tok) typ u = (Ok sub, u')) <->
       typ = "access" /\ sub = MkSubject "acme" "main" "access" /\
       (@now_unix env u < Unix (Add (@now_of env service1) (AccessTTL (sv_opts service1))))%Z) /\
    ((exists u', @validateJWT env hmac_sha256_mac (pb.AuthTokens_RefreshToken tok) typ u = (Ok sub, u')) <->
       typ = "refresh" /\ sub = MkSubject "acme" "main" "refresh" /\
       (@now_unix env u < Unix (Add (@now_of env service1) (RefreshTTL (sv_opts service1))))%Z).
Proof.
  apply (@issueTokens_roundtrip env hmac_sha256_mac "acme" "main" service1);
    [reflexivity|reflexivity|vm_compute; split; [intros [=]|reflexivity] ..].
Defined.

Definition demo_refresh : pb.RefreshTokenRequest := pb.MkRefreshTokenRequest (pb.AuthTokens_RefreshToken tokens).
Lemma RefreshToken_exact_witness :
  is_ok (fst (@RefreshToken env hmac_sha256_mac demo_refresh service1)) = true /\
  forall tok s', @RefreshToken env hmac_sha256_mac demo_refresh service1 = (Ok tok, s') ->
    exists sub, @valid_token hmac_sha256_mac (secret_of service1)
      (pb.RefreshTokenRequest_RefreshToken demo_refresh) "refresh" (@now_unix env service1) sub.
Proof.
  split; [vm_compute; reflexivity|]. intros tok s' E.
  destruct (@RefreshToken_exact env hmac_sha256_mac demo_refresh service1 ltac:(vm_compute; reflexivity))
    as [Hs _]. destruct (Hs tok s' E) as (sub & Hv & _). exists sub. exact Hv.
Defined.

(** ** Scoping of the methods *)

(** Every method of the service is classified one way: its request carries
    a [tenant_id], or its name is listed as node-scoped; never both, never
    neither, whatever the request holds. *)
Lemma rpc_scoping (r : rpc) (req : rpc_request r) :
  snd (tenantWalletFromRequest (Some (rpc_reflect r req))) = true <->
  shortMethod (full_method r) ∉ nodeScopedMethods.
Proof.
  apply (iff_trans (B := bool_decide (shortMethod (full_method r) ∈ nodeScopedMethods) = false));
    [|apply bool_decide_eq_false].
  destruct r; vm_compute; split; done.
Qed.

Section guards.
Context `{Env} `{Mac} `{Hash} `{Aead}.

(** A method of the service that is neither listed as node-scoped nor
    carries a [tenant_id] is refused to every bearer of a valid token. *)
Lemma unlisted_method_closed ctx method req s sub :
  AuthEnabled (sv_opts s) = true -> access_subject s ctx sub -> isBSVMSMethod method = true ->
  isBootstrapMethod method = false -> has_suffix method "/RefreshToken" = false ->
  snd (tenantWalletFromRequest req) = false -> shortMethod method ∉ nodeScopedMethods ->
  result_code (fst (authorize ctx method req s)) = Some PermissionDenied.
Proof.
  intros Hon Hs Hm Hb Hr Hsc Hn. unfold authorize. erewrite bind_run by reflexivity. rewrite Hon, Hb. cbn [negb].
  erewrite bind_run by reflexivity. rewrite Hr.
  erewrite bind_run by (by apply authSubjectFromContext_complete).
  unfold lift, authorize_subject. rewrite (access_subject_type _ _ _ Hs), String.eqb_refl, Hm. cbn [negb].
  destruct (tenantWalletFromRequest req) as [[t w] [|]]; [done|]. cbn [negb].
  by rewrite bool_decide_false.
Qed.

(** Under the stream interceptor the method's body runs only on a request
    that was received and authorised; otherwise nothing but the authorisation's
    own reading of the clock has happened. *)
Lemma stream_body_guarded {A} ctx method m (handler : message -> M Service A) s x s' :
  StreamAuthInterceptor ctx method m handler s = (x, s') ->
  (exists req s1, m = Ok req /\ authorised s ctx method (Some req) /\ only_world s s1 /\ handler req s1 = (x, s')) \/
  (exists e, x = Err e) /\ only_world s s'.
Proof.
  unfold StreamAuthInterceptor, RecvMsg. destruct m as [req|e]; cbn [as_checked as_method fst].
  - unfold mbind at 1, M_bind at 1. pose proof (authorize_only_world ctx method (Some req) s) as Ho.
    destruct (authorize ctx method (Some req) s) as [[[]|e] s1] eqn:Ea; cbn [snd] in Ho.
    + intros Hh. left. exists req, s1. split; [done|]. split; [|done].
      apply authorize_spec. by exists s1.
    + intros [= <- <-]. right. split; [by eexists|done].
  - intros [= <- <-]. right. split; [by eexists|done].
Qed.
End guards.

Lemma unlisted_method_closed_witness :
  result_code (fst (@authorize env hmac_sha256_mac ctx "/bsvms.v1.BSVMS/ExportKeys" (Some []) service1))
  = Some PermissionDenied.
Proof.
  apply (@unlisted_method_closed env hmac_sha256_mac ctx "/bsvms.v1.BSVMS/ExportKeys" (Some []) service1
    (MkSubject "acme" "main" "access")); try reflexivity.
  - eapply authSubjectFromContext_sound. vm_compute. reflexivity.
  - apply (bool_decide_eq_false_1 (shortMethod "/bsvms.v1.BSVMS/ExportKeys" ∈ nodeScopedMethods)). reflexivity.
Defined.

Definition demo_stream_req : message := reflect_StreamPaymentsRequest (pb.MkStreamPaymentsRequest "acme" "main").
Definition demo_handler (req : message) : M Service unit := mret ().
Lemma stream_body_guarded_witness :
  (exists req s1, Ok demo_stream_req = Ok req /\
     @authorised env hmac_sha256_mac service1 ctx "/bsvms.v1.BSVMS/StreamPayments" (Some req) /\
     only_world service1 s1 /\ demo_handler req s1 = (Ok (),
       snd (@StreamAuthInterceptor env hmac_sha256_mac unit ctx "/bsvms.v1.BSVMS/StreamPayments"
             (Ok demo_stream_req) demo_handler service1))) \/
  (exists e : error, (Ok () : result unit) = Err e) /\
    only_world service1 (snd (@StreamAuthInterceptor env hmac_sha256_mac unit ctx "/bsvms.v1.BSVMS/StreamPayments"
             (Ok demo_stream_req) demo_handler service1)).
Proof.
  apply (@stream_body_guarded env hmac_sha256_mac unit ctx "/bsvms.v1.BSVMS/StreamPayments"
    (Ok demo_stream_req) demo_handler service1). vm_compute. reflexivity.
Defined.
