(* ===== verification/RegistryProps.v ===== *)
(** * Theorems: the wallet registry, its file, and start-up

    The properties of Registry, Encryption and Options, with their instances. *)

From S2P Require Import Prelude GoStrings GoTime GoPath Encoding Crypto Json Decode Proto Broker Sdk Ids.
From S2P Require Import World Encryption Options Service Auth AuthSpec Registry RegistrySpec Handlers.
From S2P Require Import HandlersSpec Lifecycle RegistryAbs Disk Demo DemoConc.

Section invariant.
Context `{Env} `{Mac} `{Hash} `{Aead}.

(** Every unary method, on every request and whether it succeeds or fails,
    keeps the invariant of the service: map, heap and records agree, every
    record has valid ids, is encrypted and opens under the data key; and no
    method ever drops or replaces a wallet, its record or its entry. *)
Lemma unary_keeps_service r h req s x s' : unary r = Some h -> h req s = (x, s') ->
  service_ok s -> service_ok s' /\ grows s s'.
Proof. apply unary_keeps. Qed.

(** C7: The service refines the directory of secrets: whatever unary methods are
    called, with whatever requests and answers, the service's records always
    stand for a directory that its specification could have reached with the
    same requests and answers. So ids name one wallet for ever, its secrets never
    change, malformed, taken and unknown ids are refused with their codes, and
    listing and lookup answer what was added. *)
Theorem registry_refines s xs s' : serves s xs s' -> service_ok s ->
  service_ok s' /\ allows (directory_of s) xs (directory_of s').
Proof. apply serves_allows. Qed.
End invariant.

Section creation.
Context `{Env} `{Mac} `{Hash} `{Aead}.

(** C8: A wallet whose creation or restoration was acknowledged is there: its
    ids are valid and were free, its record was appended and decrypts to exactly
    the mnemonic answered (or given, with its passphrase), its handle is looked
    up under its ids, and the state file already holds the new registry. *)
Theorem acknowledged_wallets_durable s : service_ok s ->
  (forall req resp s', CreateWallet req s = (Ok resp, s') ->
     wallet_added (pb.CreateWalletRequest_TenantId req) (pb.CreateWalletRequest_WalletId req)
       (pb.CreateWalletResponse_Mnemonic resp) "" s s') /\
  (forall req resp s', RestoreWallet req s = (Ok resp, s') ->
     wallet_added (pb.RestoreWalletRequest_TenantId req) (pb.RestoreWalletRequest_WalletId req)
       (pb.RestoreWalletRequest_Mnemonic req) (pb.RestoreWalletRequest_Passphrase req) s s').
Proof.
  intros Hok. split; intros req resp s' E.
  - destruct (CreateWallet_outcome _ _ _ _ E) as (mn & Ho & Hm). rewrite (Hm _ eq_refl).
    eapply add_outcome_added; [exact Ho|]. eapply CreateWallet_saved; [by apply service_plain|exact E].
  - pose proof (RestoreWallet_outcome _ _ _ _ E) as Ho.
    eapply add_outcome_added; [exact Ho|]. eapply RestoreWallet_saved; [by apply service_plain|exact E].
Qed.

(** Creation and restoration are refused for ids that are taken, with
    AlreadyExists (a restoration without a mnemonic, with InvalidArgument) and
    without any effect: a wallet is never overwritten. *)
Lemma taken_ids_refused t w mn pp s l : idRE_MatchString t = true -> idRE_MatchString w = true ->
  lookup_wallet s t w = Some l ->
  CreateWallet (pb.MkCreateWalletRequest t w) s = (Err (EStatus AlreadyExists "wallet exists"), s) /\
  exists c msg, RestoreWallet (pb.MkRestoreWalletRequest t w mn pp) s = (Err (EStatus c msg), s) /\
    c = if String.eqb mn "" then InvalidArgument else AlreadyExists.
Proof.
  intros Ht Hw Hl. split; [by eapply CreateWallet_exists|]. unfold RestoreWallet. cbv zeta.
  cbn [pb.RestoreWalletRequest_TenantId pb.RestoreWalletRequest_WalletId pb.RestoreWalletRequest_Mnemonic
    pb.RestoreWalletRequest_Passphrase].
  erewrite bind_run by (unfold lift; by rewrite (proj2 (validateTenantWallet_ok _ _ ()) (conj Ht Hw))).
  destruct (String.eqb mn ""); [by do 2 eexists|]. erewrite bind_run by reflexivity.
  unfold lookup_wallet in Hl. rewrite Hl, bool_decide_true by done. by do 2 eexists.
Qed.

(** An outside that makes wallets but on whose disk no file can be replaced. *)
Record unsaveable : Prop := {
  us_fine : no_faults;
  us_create : forall tr n, exists p mn, oracle tr (NodeCall (NodeCreateWallet n)) = Ok (p, mn);
  us_random : forall tr, exists b, oracle tr (HostCall (RandRead nonce_size)) = Ok b;
  us_rename : forall tr p q, exists e, oracle tr (HostCall (OsRename p q)) = Some e;
}.
Lemma call_result_run {A} (m : M world (result A)) f x s w : m (sv_world s) = (Ok (Ok x), w) ->
  on_error f (W (call_result m)) s = (Ok x, set_world w s).
Proof. intros E. unfold on_error, W, zoom, call_result, lift, mbind, M_bind. by rewrite E. Qed.
Lemma node_created n s p mn : oracle (w_trace (sv_world s)) (NodeCall (NodeCreateWallet n)) = Ok (p, mn) ->
  node (NodeCreateWallet n) (sv_world s) = (Ok (Ok (p, mn)), log (NodeCall (NodeCreateWallet n)) (sv_world s)).
Proof. intros E. unfold node, call. by rewrite E. Qed.
Lemma unsaveable_save s : unsaveable -> exists e s', saveStateLocked s = (Err e, s').
Proof.
  intros Hu. destruct (saveStateLocked s) as [[[]|e] s'] eqn:E; [|by exists e, s']. exfalso.
  unfold saveStateLocked in E. do 2 (apply bind_ok_inv in E as (? & ? & _ & E)).
  apply bind_ok_inv in E as (? & s1 & _ & E). apply W_ok in E as (w & E & _).
  unfold os_rename, host, call, gets, mbind, M_bind in E. cbn in E.
  match type of E with context [oracle ?tr (HostCall (OsRename ?p ?q))] => destruct (us_rename Hu tr p q) as [e Ee] end.
  rewrite Ee in E. discriminate E.
Qed.
Lemma newWalletMeta_total t w n mn pp s : unsaveable -> length (DataKey (sv_opts s)) = 32%nat ->
  exists m s', newWalletMeta t w n mn pp s = (Ok m, s').
Proof.
  intros Hu Hk. unfold newWalletMeta. erewrite bind_run by reflexivity.
  assert (forall p u, sv_opts u = sv_opts s -> exists c u', W (sealString (DataKey (sv_opts s)) p) u = (Ok c, u')) as Hseal.
  { intros p u _. destruct (us_random Hu (w_trace (sv_world u))) as [b Hb].
    destruct (sealString_total _ p (sv_world u) b Hk Hb) as (c & w' & E). unfold W, zoom. rewrite E. by do 2 eexists. }
  destruct (Hseal mn s eq_refl) as (c1 & s1 & E1). erewrite bind_run by exact E1.
  pose proof (moves_W (sealString (DataKey (sv_opts s)) mn) s) as Ho. rewrite E1 in Ho. cbn in Ho.
  destruct (Hseal pp s1) as (c2 & s2 & E2); [by rewrite Ho|]. erewrite bind_run by exact E2. by do 2 eexists.
Qed.

(** Creating a wallet there, under free ids. *)
Lemma CreateWallet_unsaved t w s : unsaveable -> length (DataKey (sv_opts s)) = 32%nat ->
  idRE_MatchString t = true -> idRE_MatchString w = true -> lookup_wallet s t w = None ->
  exists e p mn m st s', CreateWallet (pb.MkCreateWalletRequest t w) s = (Err e, s') /\
    oracle (w_trace (sv_world s)) (NodeCall (NodeCreateWallet (sdkWalletName t w))) = Ok (p, mn) /\ ids m = (t, w) /\
    openWalletSecrets (DataKey (sv_opts s)) m = Ok (mn, "") /\ only_world (RegistrySpec.added (MkTW m p st false) s) s'.
Proof.
  intros Hu Hkey Ht Hw Hn. unfold CreateWallet. cbn [pb.CreateWalletRequest_TenantId pb.CreateWalletRequest_WalletId]. cbv zeta.
  erewrite bind_run by (unfold lift; by rewrite (proj2 (validateTenantWallet_ok t w ()) (conj Ht Hw))).
  erewrite bind_run by reflexivity. rewrite bool_decide_false by (unfold lookup_wallet in Hn; rewrite Hn; by intros [? ?]).
  destruct (us_create Hu (w_trace (sv_world s)) (sdkWalletName t w)) as (p & mn & Hp).
  set (s1 := set_world (log (NodeCall (NodeCreateWallet (sdkWalletName t w))) (sv_world s)) s).
  erewrite bind_run by exact (call_result_run _ internal _ _ _ (node_created _ _ _ _ Hp)). fold s1.
  destruct (newWalletMeta_total t w (sdkWalletName t w) mn "" s1 Hu) as (m & s2 & Em); [apply Hkey|].
  erewrite bind_run by (unfold on_error; by rewrite Em).
  apply newWalletMeta_ok in Em as (Et & Ew & _ & _ & Hsec & _ & Hw2).
  destruct (attach_fine m p s2 (us_fine Hu)) as (l & s3 & Ea). erewrite bind_run by exact Ea.
  pose proof (attachWalletLocked_spec _ _ _ _ _ Ea) as (El & st & Hw3). pose proof (finishWallet_frame m l s3) as Hf.
  destruct (unsaveable_save (set_state (fun ms => ms ++ [m]) s3) Hu) as (e & s4 & Es).
  assert (finishWallet m l s3 = (Err (internal e), s4)) as Ef.
  { unfold finishWallet. erewrite bind_run by reflexivity. apply bind_run_err. unfold on_error. by rewrite Es. }
  erewrite bind_run_err by exact Ef. rewrite Ef in Hf. unfold only_world in *.
  exists (internal e), p, mn, m, st, s4. split; [done|]. split; [exact Hp|]. split; [unfold ids; by rewrite Et, Ew|].
  split; [exact Hsec|]. cbn in Hf. rewrite Hf, Hw3, Hw2. by destruct s.
Qed.

(** C34: When the state file cannot be replaced, creating a wallet under free ids
    answers an error and yet leaves the wallet in the service: it is looked up
    under its ids and has a record, sealing a mnemonic that the node made and no
    answer has handed out. Ever after, whatever is called, creating or restoring a
    wallet under these ids is refused as taken. *)
Theorem failed_creation_keeps_ids t w s : unsaveable -> service_ok s ->
  idRE_MatchString t = true -> idRE_MatchString w = true -> lookup_wallet s t w = None ->
  exists e s' l m mn, CreateWallet (pb.MkCreateWalletRequest t w) s = (Err e, s') /\
    lookup_wallet s' t w = Some l /\ sv_state s' = sv_state s ++ [m] /\ ids m = (t, w) /\
    openWalletSecrets (DataKey (sv_opts s)) m = Ok (mn, "") /\
    (exists tr p, oracle tr (NodeCall (NodeCreateWallet (sdkWalletName t w))) = Ok (p, mn)) /\
    forall s'', rtc unary_step s' s'' ->
      CreateWallet (pb.MkCreateWalletRequest t w) s'' = (Err (EStatus AlreadyExists "wallet exists"), s'') /\
      forall mnemonic passphrase, mnemonic <> "" ->
        exists msg, RestoreWallet (pb.MkRestoreWalletRequest t w mnemonic passphrase) s'' = (Err (EStatus AlreadyExists msg), s'').
Proof.
  intros Hu Hok Ht Hw Hn.
  destruct (CreateWallet_unsaved t w s Hu ltac:(apply Hok) Ht Hw Hn) as (e & p & mn & m & st & s' & E & Hp & Hi & Ho & Hs').
  destruct (unary_keeps BSVMS_CreateWallet _ _ _ _ _ eq_refl E Hok) as [Hok' _].
  unfold only_world in Hs'. unfold ids in Hi. injection Hi as Et Ew.
  assert (lookup_wallet s' t w = Some (length (sv_heap s))) as Hl
    by (rewrite Hs'; unfold lookup_wallet; cbn; rewrite Et, Ew; apply lookup_insert_eq).
  exists e, s', (length (sv_heap s)), m, mn. split; [done|]. split; [done|]. split; [by rewrite Hs'|].
  split; [unfold ids; by rewrite Et, Ew|]. split; [done|]. split; [by exists (w_trace (sv_world s)), p|].
  intros s'' Hsteps. destruct (unary_steps_ok _ _ Hsteps Hok') as (_ & (_ & _ & Hkeep & _) & _).
  split; [exact (proj1 (taken_ids_refused t w "" "" s'' _ Ht Hw (Hkeep _ _ _ Hl)))|].
  intros mnemonic passphrase Hm.
  destruct (taken_ids_refused t w mnemonic passphrase s'' _ Ht Hw (Hkeep _ _ _ Hl)) as (_ & c & msg & E' & ->).
  rewrite (proj2 (String.eqb_neq _ _) Hm) in E'. by exists msg.
Qed.
End creation.

Section restarts.
Context `{Env} `{Mac} `{Hash} `{Aead}.

(** C6: A service that was started, served any unary calls with any outcomes,
    and whose last save went through, starts again on the files it left with the
    same options, whatever the rest of the world did meanwhile: the start
    succeeds when disk and SDK report no fault, resolves the same keys, and has
    the same records and the same wallets. *)
Theorem restart_recovers dir o w s0 w0 s u :
  NewWithOptions dir o w = (Ok s0, w0) -> service_ok s0 -> rtc unary_step s0 s -> saved s ->
  no_faults -> w_fs u = files s ->
  exists s' u', NewWithOptions dir o u = (Ok s', u') /\ service_ok s' /\ saved s' /\
    sv_opts s' = sv_opts s /\ sv_state s' = sv_state s /\
    forall t w, is_Some (lookup_wallet s' t w) <-> is_Some (lookup_wallet s t w).
Proof.
  intros Hn Hok Hsteps (f & Hfile & Hu) Hf Hfs. destruct (NewWithOptions_inv _ _ _ _ _ Hn) as (w1 & Hw & Hs1 & Ed0).
  destruct (unary_steps_ok _ _ Hsteps Hok) as (Hok' & (_ & Eo & _) & [Ed Hs2]). rewrite Ed0 in Hs2, Ed.
  destruct (withDefaults_again o dir w (sv_opts s0) w1 u Hw (nf_reads Hf)) as (u1 & Hu1 & Efs).
  { rewrite Hfs. unfold same_secrets in *. destruct Hs1 as [-> ->], Hs2 as [-> ->]. done. }
  rewrite Ed, <- Hfs, <- Efs in Hfile. rewrite <- Eo in Hu1.
  assert (on_disk (w_fs u1) dir (sv_state s)) as Hdisk by (unfold on_disk; by rewrite Hfile).
  destruct (restart dir o u (sv_opts s) u1 (sv_state s) Hu1 Hf Hdisk (so_records _ Hok'))
    as (s' & u' & E & Hok1 & Eo1 & Est & Ed1 & Efs1).
  exists s', u'. split; [done|]. split; [done|]. split; [|split; [done|]; split; [done|]].
  - exists f. by rewrite Efs1, Ed1, Est.
  - intros t w'. unfold lookup_wallet. rewrite !registry_keys by (by apply so_registry). by rewrite Est.
Qed.

End restarts.

(** ** Migration and the state file *)

Section state_file.
Context `{Env} `{Mac} `{Hash} `{Aead}.

(** C27: Start-up on a state file of distinct wallets keeps them all, in order,
    with their ids and their secrets; afterwards no record carries a secret in
    the clear, neither in memory nor, whenever the strings of the records
    survive printing, in the file, which holds exactly the records in memory. *)
Theorem start_migrates dir o w s w' f st : NewWithOptions dir o w = (Ok s, w') ->
  w_fs w !! statePath dir = Some f -> unmarshal_state (file_data f) = Ok st -> NoDup (ids <$> st) ->
  Forall2 (fun m m' => ids m' = ids m /\ has_plaintext m' = false /\
             openWalletSecrets (DataKey (sv_opts s)) m' = openWalletSecrets (DataKey (sv_opts s)) m)
    st (sv_state s) /\
  (Forall plain_meta st -> saved s).
Proof.
  intros E Hf Hu Hnd. destruct (NewWithOptions_ok _ _ _ _ _ E) as (_ & Hp & _ & _ & _ & w1 & Ew & _).
  unfold NewWithOptions in E. rewrite Ew in E.
  destruct (start _) as [[[]|e] s1] eqn:Es; [|done]. injection E as -> _.
  pose proof (withDefaults_state _ _ _ _ _ Ew) as Efile. rewrite Hf in Efile.
  pose proof (start_kept _ _ st Es) as Hk. unfold on_disk, files in Hk. cbn in Hk. rewrite Efile in Hk.
  specialize (Hk Hu Hnd). split.
  2: { intros Hpl. apply (start_on_disk _ _ Es); [|unfold files; cbn; by rewrite Efile].
    apply Forall_forall. intros x Hx. apply list_elem_of_lookup in Hx as [i Hi].
    destruct (Forall2_lookup_r _ _ _ _ _ Hk Hi) as (y & Hy & Hky). apply Hky. by eapply Forall_lookup_1. }
  apply Forall2_same_length_lookup_2; [by eapply Forall2_length|].
  intros i m m' Hm Hm'. destruct (Forall2_lookup_lr _ _ _ _ _ _ Hk Hm Hm') as [Hi Hs' _].
  by pose proof (Forall_lookup_1 _ _ _ _ Hp Hm').
Qed.

(** C26: Saving the state replaces the file by the complete new one or leaves
    the old one as it was, whatever write or rename fails and however much of
    the data was written before; it reports success only in the first case. *)
Theorem state_file_atomic s r s' : saveStateLocked s = (r, s') ->
  let p := statePath (sv_dataDir s) in
  let raw := json_print indented 0 (state_json (sv_state s)) in
  (is_ok r = true -> exists perm, files s' !! p = Some {| file_data := raw; file_perm := perm |}) /\
  (is_ok r = false -> files s' !! p = files s !! p \/
     exists perm, files s' !! p = Some {| file_data := raw; file_perm := perm |}).
Proof.
  intros E p raw. destruct (saveStateLocked_atomic _ _ _ E) as [Ha Hok]. split.
  - intros Hr. destruct (Hok Hr) as (f & Hf & Ef). exists (file_perm f). fold p in Hf. rewrite Hf. by f_equal.
  - intros _. destruct Ha as [[_ Ha]|(f & Hf & Ef)]; [by left|]. right. exists (file_perm f).
    fold p in Hf. rewrite Hf. by f_equal.
Qed.
End state_file.

(** ** Listing *)

Section listing.
Context `{Env} `{Mac} `{Hash} `{Aead}.

(** ListWallets refuses a malformed tenant id; for a valid one it answers
    the tenant's wallets, all of them, none of another tenant, each once, in
    the order of their keys, and changes nothing in the registry. *)
Lemma ListWallets_exact t s : service_ok s ->
  (idRE_MatchString t = false ->
     result_code (fst (ListWallets (pb.MkListWalletsRequest t) s)) = Some InvalidArgument /\
     snd (ListWallets (pb.MkListWalletsRequest t) s) = s) /\
  (idRE_MatchString t = true ->
     exists ps s', ListWallets (pb.MkListWalletsRequest t) s = (Ok (pb.MkListWalletsResponse ps), s') /\
       only_world s s' /\
       let keys := (fun p => walletKey (pb.Wallet_TenantId p) (pb.Wallet_WalletId p)) <$> ps in
       StronglySorted String.le keys /\ NoDup keys /\
       forall k, k ∈ keys <-> exists m, m ∈ sv_state s /\ TenantID m = t /\ k = walletKey t (WalletID m)).
Proof.
  intros Hs. unfold ListWallets. cbn [pb.ListWalletsRequest_TenantId]. split; intros Ht.
  - unfold mbind, M_bind, lift, validateTenant. by rewrite Ht.
  - destruct (ListWallets_lists t s Hs Ht) as (ps & s' & E & Ho & Hk & _). exists ps, s'. split; [exact E|].
    split; [done|]. cbv zeta. rewrite Hk. split; [apply tenant_keys_sorted|]. split; [apply tenant_keys_NoDup|].
    intros k. by apply tenant_keys_records.
Qed.

Lemma sublist_StronglySorted {A} (R : A -> A -> Prop) (l k : list A) :
  l `sublist_of` k -> StronglySorted R k -> StronglySorted R l.
Proof.
  induction 1 as [|x l k Hlk IH|x l k Hlk IH]; [done|..]; intros [Hk Hx]%StronglySorted_inv; [|auto].
  constructor; [auto|]. apply Forall_forall. intros y Hy. eapply (proj1 (Forall_forall _ _) Hx).
  by eapply elem_of_sublist.
Qed.

Lemma dedup_spec es : forall seen, exists sub,
  dedup_addresses seen es = bsv.SnapshotEntry_Address <$> sub /\ sub `sublist_of` es /\
  NoDup (bsv.SnapshotEntry_Address <$> sub) /\
  (forall a, a ∈ (bsv.SnapshotEntry_Address <$> sub) <-> (a ∉ seen) /\ a ∈ (bsv.SnapshotEntry_Address <$> es)) /\
  (StronglySorted by_index es -> Forall (fun e => forall e', e' ∈ es ->
     bsv.SnapshotEntry_Address e' = bsv.SnapshotEntry_Address e -> by_index e e') sub).
Proof.
  induction es as [|e es IH]; intros seen; cbn [dedup_addresses].
  - exists []. split; [done|]. split; [done|]. split; [constructor|]. split; [set_solver|constructor].
  - case_bool_decide as Hs.
    + destruct (IH seen) as (sub & -> & Hsub & Hnd & Hel & Hmin). exists sub.
      split; [done|]. split; [by constructor|]. split; [done|].
      split; [intros a; rewrite Hel, fmap_cons, elem_of_cons; naive_solver|].
      intros Hso%StronglySorted_inv. apply Forall_forall. intros e1 He1 e' [->|He']%elem_of_cons Ea.
      * exfalso. apply (proj1 (Hel (bsv.SnapshotEntry_Address e1))); [|by rewrite <- Ea].
        by apply list_elem_of_fmap_2.
      * eapply (proj1 (Forall_forall _ _) (Hmin (proj1 Hso))); done.
    + destruct (IH ({[bsv.SnapshotEntry_Address e]} ∪ seen)) as (sub & -> & Hsub & Hnd & Hel & Hmin).
      exists (e :: sub). split; [done|]. split; [by constructor|].
      split; [rewrite fmap_cons; apply NoDup_cons; split; [|done]; rewrite Hel, not_elem_of_union, elem_of_singleton; naive_solver|].
      split.
      { intros a. rewrite !fmap_cons, !elem_of_cons, Hel, not_elem_of_union, not_elem_of_singleton.
        destruct (decide (a = bsv.SnapshotEntry_Address e)) as [->|]; naive_solver. }
      intros Hso%StronglySorted_inv. destruct Hso as [Hso He]. constructor.
      * intros e' [->|He']%elem_of_cons _; [unfold by_index; lia|]. by eapply (proj1 (Forall_forall _ _) He).
      * apply Forall_forall. intros e1 He1 e' [->|He']%elem_of_cons Ea.
        -- exfalso. apply (proj1 (Hel (bsv.SnapshotEntry_Address e1))); [|rewrite <- Ea; apply elem_of_union_l, elem_of_singleton; reflexivity].
           by apply list_elem_of_fmap_2.
        -- eapply (proj1 (Forall_forall _ _) (Hmin Hso)); done.
Qed.

(** The addresses of a wallet are those of its snapshot, each once, in the
    order of the lowest index each occurs at; a wallet with an empty snapshot
    answers the SDK's own list. *)
Lemma walletAddresses_exact l tw s : sv_heap s !! l = Some tw ->
  let entries := oracle (w_trace (sv_world s)) (WalletCall (tw_w tw) SaveAddressSnapshot) in
  exists addresses w, walletAddresses l s = (Ok addresses, set_world w s) /\
  match entries with
  | [] => addresses = oracle (w_trace (sv_world s) ++ [WalletCall (tw_w tw) SaveAddressSnapshot])
                        (WalletCall (tw_w tw) Addresses)
  | _ => exists sub, addresses = bsv.SnapshotEntry_Address <$> sub /\ NoDup addresses /\
      StronglySorted by_index sub /\
      (forall a, a ∈ addresses <-> a ∈ (bsv.SnapshotEntry_Address <$> entries)) /\
      Forall (fun e => forall e', e' ∈ entries ->
        bsv.SnapshotEntry_Address e' = bsv.SnapshotEntry_Address e -> by_index e e') sub
  end.
Proof.
  intros Htw entries. unfold walletAddresses. rewrite (bind_wcall l SaveAddressSnapshot tw) by done.
  fold entries. cbn [wallet_ret] in *. destruct entries as [|e es] eqn:E.
  - cbn. rewrite (wcall_run l Addresses tw) by done. by do 2 eexists.
  - rewrite <- E. replace (length entries =? 0)%nat with false by (by rewrite E). clear E.
    destruct (dedup_spec (sort_by_index entries) ∅) as (sub & Hd & Hsub & Hnd & Hel & Hmin).
    do 2 eexists. split; [reflexivity|]. exists sub. split; [done|]. rewrite Hd. split; [done|].
    pose proof (sort_by_index_perm entries) as Hp. split; [|split].
    + by eapply sublist_StronglySorted; [|apply sort_by_index_sorted].
    + intros a. rewrite Hel, Hp. set_solver.
    + specialize (Hmin (sort_by_index_sorted entries)). eapply Forall_impl; [exact Hmin|].
      intros e1 He1 e' He'. apply He1. by rewrite Hp.
Qed.
End listing.

(** ** Names, files and secrets of a wallet *)

Section names.
Context `{Env} `{Mac} `{Hash} `{Aead}.

Lemma hex_lacks_slash l : lacks "/" (hex_encode l) = true.
Proof.
  induction l as [|b l IH]; [done|]. cbn [hex_encode]. rewrite !lacks_cons, IH. by destruct b.
Qed.

Lemma wallet_file_name m suffix : lacks "/" suffix = true -> (3 <= String.length suffix)%nat ->
  file_name (walletFileID m +:+ suffix) = true.
Proof.
  intros Hl Hs. unfold file_name, walletFileID.
  assert (lacks "/" (hex_encode (hash256 (bytes_of_string (TenantID m +:+ String nul (WalletID m)))) +:+ suffix) = true) as ->.
  { unfold lacks in *. rewrite str_forall_app. apply andb_true_iff. split; [apply hex_lacks_slash|done]. }
  assert (forall x, (String.length x <= 2)%nat ->
    String.eqb (hex_encode (hash256 (bytes_of_string (TenantID m +:+ String nul (WalletID m)))) +:+ suffix) x = false) as Hn.
  { intros x Hx. apply String.eqb_neq. intros E. apply (f_equal String.length) in E.
    rewrite length_app_str in E. lia. }
  by rewrite !Hn by (cbn; lia).
Qed.

Lemma app_str_inj_r s t x y : String.length x = String.length y -> s +:+ x = t +:+ y -> s = t /\ x = y.
Proof.
  revert t. induction s as [|a s IH]; intros [|b t] Hl E; cbn in E.
  - done.
  - apply (f_equal String.length) in E. cbn in E. rewrite length_app_str in E. lia.
  - apply (f_equal String.length) in E. cbn in E. rewrite length_app_str in E. lia.
  - injection E as -> E. by destruct (IH t Hl E) as [-> ->].
Qed.

(** Different wallets never share anything: two valid pairs of ids with the
    same key, or with the same store or snapshot file, are the same pair, unless
    the hash function collides. *)
Lemma wallet_files_distinct dir m m' : idRE_MatchString (TenantID m) = true ->
  idRE_MatchString (TenantID m') = true -> ids m <> ids m' ->
  walletKey (TenantID m) (WalletID m) <> walletKey (TenantID m') (WalletID m') /\
  (walletStorePath dir m = walletStorePath dir m' \/ walletSnapshotPath dir m = walletSnapshotPath dir m' ->
     exists x y, x <> y /\ hash256 x = hash256 y).
Proof.
  intros Ht Ht' Hne.
  assert (walletKey (TenantID m) (WalletID m) <> walletKey (TenantID m') (WalletID m')) as Hk.
  { intros E. apply walletKey_inj in E as [E1 E2]; [|by apply id_lacks_nul ..]. apply Hne. unfold ids. by rewrite E1, E2. }
  split; [done|]. intros Hp.
  assert (walletFileID m = walletFileID m') as E.
  { destruct Hp as [E|E]; apply Join_inj in E; try (by apply wallet_file_name; [|cbn; lia]);
      by apply app_str_inj_r in E as [E _]. }
  exists (bytes_of_string (walletKey (TenantID m) (WalletID m))),
    (bytes_of_string (walletKey (TenantID m') (WalletID m'))). split.
  - intros Eb. apply Hk. by rewrite <- (string_of_bytes_of_string (walletKey _ _)), Eb, string_of_bytes_of_string.
  - by apply hex_encode_inj.
Qed.

(** C36: What is stored for a secret is the version prefix and, in base64, the
    nonce that was drawn and what the AEAD makes of the secret under the key and
    that nonce, and nothing else; an empty secret is stored as nothing,
    and under a key of another length than 32 nothing is sealed. What a key opens
    is exactly the empty value and the values of that form that the AEAD
    authenticates under it: the same key gives the secret back, and a value
    written under another key whose authentication fails is refused. *)
Theorem seal_open_exact key p w b : oracle (w_trace w) (HostCall (RandRead nonce_size)) = Ok b ->
  let nonce := fill nonce_size b in
  (length key = 32%nat -> p <> "" ->
     sealString key p w = (Ok (sealed_with key nonce p), log (HostCall (RandRead nonce_size)) w) /\
     openString key (sealed_with key nonce p) = Ok p /\
     forall key', length key' = 32%nat -> aead_open key' nonce (aead_seal key nonce (bytes_of_string p)) = None ->
       openString key' (sealed_with key nonce p) = Err auth_failed) /\
  sealString key "" w = (Ok "", w) /\
  (length key <> 32%nat -> p <> "" -> is_ok (fst (sealString key p w)) = false) /\
  (forall s q, openString key s = Ok q <-> opens key s q).
Proof.
  intros Hr nonce. assert (length nonce = nonce_size) as Hn by apply fill_length. split; [|split; [|split]].
  - intros Hk Hp. split; [by apply sealString_run|]. split; [by apply openString_sealed|].
    intros key' Hk' Ho. by rewrite openString_other, Ho.
  - done.
  - intros Hk Hp. unfold sealString. rewrite (proj2 (String.eqb_neq _ _) Hp). unfold mbind, M_bind, lift, aeadForKey.
    by rewrite (proj2 (Nat.eqb_neq _ _) Hk).
  - intros s q. apply openString_opens.
Qed.

(** A secret on disk is created once: a file that exists is never written,
    whatever the call answers; a new secret has 32 bytes and its file mode is
    0600; and every later start that can read the file gets the same bytes. *)
Lemma secret_created_once p w r w' : loadOrCreateSecret p w = (r, w') ->
  (is_Some (w_fs w !! p) -> w_fs w' = w_fs w) /\
  forall k, r = Ok k ->
    (w_fs w !! p = None -> length k = 32%nat /\
       exists data, w_fs w' !! p = Some {| file_data := data; file_perm := 384 |}) /\
    forall u, reads_fine -> w_fs u !! p = w_fs w' !! p ->
      exists u', loadOrCreateSecret p u = (Ok k, u') /\ w_fs u' = w_fs u.
Proof.
  intros E. split.
  - intros [f Hf]. unfold loadOrCreateSecret, try_, mbind at 1, M_bind at 1 in E.
    destruct (os_read_file p w) as [d w1] eqn:Er. apply os_read_file_inv in Er as [-> Hd].
    destruct d as [data|e]; [by injection E as _ <-|].
    destruct Hd as [[_ Hn]|[msg ->]]; [congruence|]. by injection E as _ <-.
  - intros k ->. apply loadOrCreateSecret_ok in E as [Hs Hcase]. split.
    + intros Hn. destruct Hcase as [[_ [f Hf]]|(_ & Hl & ->)]; [congruence|]. split; [done|].
      eexists. by rewrite lookup_insert_eq.
    + intros u Hr Hu. eexists. split; [|shelve]. apply loadOrCreateSecret_again; [done|].
      by apply (stored_same (w_fs w')). Unshelve. done.
Qed.
End names.

(** ** Instances *)

Lemma service1_saved : saved service1.
Proof.
  destruct create_ok as [resp E].
  eapply (@CreateWallet_saved env hmac_sha256_mac sha256_hash aes_gcm); [|exact E].
  apply (@service_plain aes_gcm), service0_service_ok.
Qed.

Lemma unary_keeps_service_witness : @service_ok aes_gcm service1 /\ grows service0 service1.
Proof.
  destruct create_ok as [resp E].
  apply (@unary_keeps_service env hmac_sha256_mac sha256_hash aes_gcm BSVMS_CreateWallet
    (@CreateWallet env hmac_sha256_mac sha256_hash aes_gcm) create_req service0 (Ok resp) service1);
    [reflexivity|exact E|apply service0_service_ok].
Defined.

Lemma registry_refines_witness : exists resp,
  @directory_of aes_gcm service1 !! ("acme", "main") = Some ("legal winner thank year wave", "") /\
  allows (@directory_of aes_gcm service0) [Exchange BSVMS_CreateWallet create_req (Ok resp)] (@directory_of aes_gcm service1).
Proof.
  destruct create_ok as [resp E]. exists resp. split; [vm_compute; reflexivity|].
  exact (proj2 (@registry_refines env hmac_sha256_mac sha256_hash aes_gcm service0 _ service1
    (@serves_cons env hmac_sha256_mac sha256_hash aes_gcm service0 service1 service1 BSVMS_CreateWallet
       (@CreateWallet env hmac_sha256_mac sha256_hash aes_gcm) create_req (Ok resp) [] eq_refl E
       (@serves_nil env hmac_sha256_mac sha256_hash aes_gcm service1)) service0_service_ok)).
Defined.

Lemma acknowledged_wallets_durable_witness :
  exists mnemonic, @wallet_added aes_gcm "acme" "main" mnemonic "" service0 service1.
Proof.
  destruct create_ok as [resp E]. eexists.
  exact (proj1 (@acknowledged_wallets_durable env hmac_sha256_mac sha256_hash aes_gcm service0 service0_service_ok)
    create_req resp service1 E).
Defined.

Lemma taken_ids_refused_witness :
  @CreateWallet env hmac_sha256_mac sha256_hash aes_gcm (pb.MkCreateWalletRequest "acme" "main") service1
    = (Err (EStatus AlreadyExists "wallet exists"), service1).
Proof.
  refine (proj1 (@taken_ids_refused env hmac_sha256_mac sha256_hash aes_gcm "acme" "main" "" "" service1 0 _ _ _));
    [reflexivity|reflexivity|vm_compute; reflexivity].
Defined.

(** A disk where the rename fails. *)
Lemma full_disk_unsaveable : @unsaveable full_disk.
Proof.
  split; [|intros; by do 2 eexists|intros; by eexists..]. destruct demo_no_faults as [Hr Hm Hre Hst Hsn Hlo].
  split; assumption.
Qed.
Lemma failed_creation_keeps_ids_witness : exists e s' l,
  @CreateWallet full_disk hmac_sha256_mac sha256_hash aes_gcm (pb.MkCreateWalletRequest "acme" "main") service0 = (Err e, s') /\
  lookup_wallet s' "acme" "main" = Some l.
Proof.
  destruct (@failed_creation_keeps_ids full_disk hmac_sha256_mac sha256_hash aes_gcm "acme" "main" service0
    full_disk_unsaveable service0_service_ok eq_refl eq_refl ltac:(vm_compute; reflexivity))
    as (e & s' & l & m & mn & E & Hl & _). exists e, s', l. exact (conj E Hl).
Defined.

Definition later : world := {| w_trace := []; w_fs := files service1 |}.
Lemma restart_recovers_witness :
  exists s' u', @NewWithOptions env sha256_hash aes_gcm "data" options later = (Ok s', u') /\
    sv_state s' = sv_state service1.
Proof.
  destruct (@restart_recovers env hmac_sha256_mac sha256_hash aes_gcm "data" options empty_world service0
    (snd (boot env)) service1 later) as (s' & u' & E & _ & _ & _ & Es & _).
  - exact boot_ok.
  - apply service0_service_ok.
  - apply rtc_once, create_step.
  - apply service1_saved.
  - apply demo_no_faults.
  - reflexivity.
  - exists s', u'. exact (conj E Es).
Defined.

Lemma start_establishes_witness : registry_ok service0 /\ resolved (sv_opts service0).
Proof.
  destruct (@start_establishes env sha256_hash aes_gcm "data" options empty_world service0 (snd (boot env)) boot_ok)
    as (Hr & Ho & _). exact (conj Hr Ho).
Defined.

(** A state file of an earlier version, with a mnemonic in the clear. *)
Definition legacy : list walletMeta := [MkMeta "acme" "main" "bsvms:00" "legal winner thank" "" "" ""].
Definition legacy_file : file := {| file_data := json_print indented 0 (state_json legacy); file_perm := 384 |}.
Definition legacy_world : world := {| w_trace := []; w_fs := {["data/bsvms-wallets.json" := legacy_file]} |}.
Definition legacy_boot : result Service * world := @NewWithOptions env sha256_hash aes_gcm "data" options legacy_world.
Definition migrated : Service := match fst legacy_boot with Ok s => s | Err _ => service0 end.

Lemma start_migrates_witness :
  exists m, sv_state migrated = [m] /\ ids m = ("acme", "main") /\ has_plaintext m = false /\
    @openWalletSecrets aes_gcm (DataKey (sv_opts migrated)) m = Ok ("legal winner thank", "") /\ saved migrated.
Proof.
  destruct (@start_migrates env sha256_hash aes_gcm "data" options legacy_world migrated (snd legacy_boot)
    legacy_file legacy) as [Hm Hs].
  - vm_compute. reflexivity.
  - vm_compute. reflexivity.
  - vm_compute. reflexivity.
  - vm_compute. repeat constructor. set_solver.
  - apply Forall2_cons_inv_l in Hm as (m & st & (Hi & Hp & Ho) & Hnil & Es). apply Forall2_nil_inv_l in Hnil as ->.
    exists m. split; [exact Es|]. split; [exact Hi|]. split; [exact Hp|]. split; [exact Ho|].
    apply Hs. repeat constructor.
Defined.

Lemma state_file_atomic_witness :
  let '(r, s') := @saveStateLocked full_disk service1 in
  is_ok r = false /\ (files s' !! statePath "data" = files service1 !! statePath "data" \/
    exists perm, files s' !! statePath "data"
      = Some {| file_data := json_print indented 0 (state_json (sv_state service1)); file_perm := perm |}).
Proof.
  destruct (@saveStateLocked full_disk service1) as [r s'] eqn:E.
  assert (is_ok r = false) as Hr by (change r with (fst (r, s')); rewrite <- E; vm_compute; reflexivity).
  split; [exact Hr|]. exact (proj2 (@state_file_atomic full_disk service1 r s' E) Hr).
Defined.

Lemma ListWallets_exact_witness :
  exists ps s', @ListWallets env (pb.MkListWalletsRequest "acme") service1 = (Ok (pb.MkListWalletsResponse ps), s').
Proof.
  destruct (proj2 (@ListWallets_exact env aes_gcm "acme" service1 service1_service_ok) eq_refl)
    as (ps & s' & E & _). exists ps, s'. exact E.
Defined.

Lemma walletAddresses_exact_witness :
  exists addresses w, @walletAddresses env 0 service1 = (Ok addresses, set_world w service1).
Proof.
  destruct (@walletAddresses_exact env 0 _ service1
    (eq_refl : sv_heap service1 !! 0 = Some (default (MkTW zero_meta (WalletPtr 0) (StorePtr 0) false) (head (sv_heap service1)))))
    as (a & w & E & _). exists a, w. exact E.
Defined.

Lemma wallet_files_distinct_witness :
  walletKey "a" "b.c" <> walletKey "a.b" "c".
Proof.
  refine (proj1 (@wallet_files_distinct sha256_hash "data" (MkMeta "a" "b.c" "" "" "" "" "")
    (MkMeta "a.b" "c" "" "" "" "" "") eq_refl eq_refl _)). discriminate.
Defined.

(** With AES-GCM a value sealed under one key is refused under another. *)
Lemma seal_open_exact_witness : exists sealed w',
  @sealString env aes_gcm (repeat Byte.x44 32) "legal winner thank" empty_world = (Ok sealed, w') /\
  @openString aes_gcm (repeat Byte.x44 32) sealed = Ok "legal winner thank" /\
  @openString aes_gcm (repeat Byte.x45 32) sealed = Err auth_failed.
Proof.
  destruct (proj1 (@seal_open_exact env aes_gcm (repeat Byte.x44 32) "legal winner thank" empty_world _ eq_refl) eq_refl)
    as (E & Ho & Hother); [discriminate|]. eexists _, _. split; [exact E|]. split; [exact Ho|].
  apply Hother; vm_compute; reflexivity.
Defined.

Lemma secret_created_once_witness :
  let '(r, w') := @loadOrCreateSecret env "data/data.key" empty_world in
  exists k, r = Ok k /\ length k = 32%nat.
Proof.
  destruct (@loadOrCreateSecret env "data/data.key" empty_world) as [r w'] eqn:E.
  destruct r as [k|e]; [|vm_compute in E; discriminate E].
  exists k. split; [reflexivity|].
  exact (proj1 (proj1 (proj2 (@secret_created_once env "data/data.key" empty_world (Ok k) w' E) k eq_refl) eq_refl)).
Defined.
