(* ===== verification/StreamProps.v ===== *)
(** * Theorems: brokers, streams and who may watch them

    The properties of Broker, Streams and Events, and what a token or the lack of
    one gives access to. *)

From S2P Require Import Prelude GoStrings GoTime Encoding Crypto Json Decode Proto Broker Streams Sdk.
From S2P Require Import Ids World Encryption Options Service Auth AuthSpec Registry RegistrySpec.
From S2P Require Import Handlers HandlersSpec Lifecycle Demo DemoConc Events Fair StreamLive.

(** ** The brokers *)

Section brokers.
Context {T : Type}.
Implicit Types s : sys T.

(** The turns of a publication that nothing comes between. *)
Lemma offers_publish v order (b : broker T) m cs : publish_in v order (chans b) = Some cs ->
  rtc (fun s s' => step s LOffer s') (MkSys b m (Some (v, order)))
    (MkSys {| nextID := nextID b; subs := subs b; chans := cs |} m (Some (v, []))).
Proof.
  revert b. induction order as [|l order IH]; intros b; cbn [publish_in].
  - intros [= <-]. by destruct b.
  - destruct (send_to v l (chans b)) as [cs1|] eqn:E; [|done]. cbn. intros Hp.
    eapply rtc_l; [apply step_offer; unfold publish_one; by rewrite E|].
    exact (IH {| nextID := nextID b; subs := subs b; chans := cs1 |} Hp).
Qed.

(** C16: However openings, publications, receptions, failing sends, cancellations
    and departures of streams interleave, a reception or the close of a channel
    between any two turns of a publication's loop, nothing panics. The publisher
    that holds [b.mu] can always go on, to the channel that is next, which is open;
    a stream that leaves finds its own channel in the table when [b.mu] is free, and
    the close that follows, without the mutex, is of that channel, still open. And a
    publication that nothing comes between has the effect of [publish] in every
    order the map of subscribers can be visited in. *)
Theorem broker_never_panics tr s : run tr s ->
  ~ panics s /\
  (forall v l rest, sys_pub s = Some (v, l :: rest) -> exists s', step s LOffer s') /\
  (forall k st, sys_streams s !! k = Some st ->
     (st_phase st = Leaving -> sys_pub s = None -> exists s', step s (LUnlist k) s' /\
        sys_streams s' !! k = Some (at_phase (Unlisted (Some (st_ch st))) st)) /\
     (forall ch, st_phase st = Unlisted ch -> ch = Some (st_ch st) /\ exists s', step s (LClose k) s')) /\
  (sys_pub s = None -> forall v, exists b', publish v (sys_broker s) = Some b' /\
     forall order, order ≡ₚ (map_to_list (subs (sys_broker s))).*2 ->
       step s (LPublish v) (MkSys (sys_broker s) (sys_streams s) (Some (v, order))) /\
       rtc (fun s s' => step s LOffer s') (MkSys (sys_broker s) (sys_streams s) (Some (v, order)))
         (MkSys b' (sys_streams s) (Some (v, [])))).
Proof.
  intros Hr. pose proof (sys_ok_run _ _ Hr) as Hok. split; [by apply sys_ok_no_panic|]. destruct s as [b m p]. split; [|split].
  - intros v l rest Hp. destruct (sys_ok_offers _ _ _ _ Hok Hp) as [b' E]. cbn in *. subst p. eexists. by eapply step_offer.
  - intros k st Hk. split.
    + intros Hd Hp. cbn in *. subst p. assert (subs b !! st_id st = Some (st_ch st)) as E
        by (eapply (sys_sub _ Hok); [exact Hk|by rewrite Hd]).
      eexists. split; [by eapply step_unlist|]. cbn. by rewrite lookup_insert_eq, E.
    + intros ch Hd. destruct (sys_ok_closes _ _ _ _ Hok Hk Hd) as (-> & b' & E). split; [done|].
      eexists. by eapply step_close.
  - intros Hp v. cbn in *. subst p. pose proof (sys_broker_ok _ Hok) as Hb. cbn in Hb.
    destruct (publish_spec b v Hb) as (b' & E & _). exists b'. split; [done|]. intros order Ho.
    split; [by apply step_publish|]. unfold publish in E. rewrite <- (publish_any_order b v order Hb Ho) in E.
    destruct (publish_in _ _ _) as [cs|] eqn:Ec; [|done]. injection E as <-. by apply offers_publish.
Qed.

(** What the order of [unsubscribe] avoids: with a channel closed while it is in
    the table, the publication that comes to it panics. *)
Lemma close_first_panics (v : T) buf m :
  panics (MkSys (MkBroker 1 {[0 := 0]} [MkChan buf true]) m (Some (v, [0]))).
Proof. by eapply panic_send. Qed.

(** C17: A stream sends what was published after it subscribed and passes its
    filter, in that order, nothing twice and nothing else; and as long as no
    more than the channel's 64 values were published, a running stream has
    lost none: what it sent, what it will send of its buffer, and the value of a
    publication that has still to come to its channel are all of it. *)
Theorem stream_delivery tr s k st : run tr s -> sys_streams s !! k = Some st ->
  st_sent st `sublist_of` List.filter (st_keep st) (published k tr) /\
  (st_phase st = Looping -> (length (published k tr) <= 64)%nat ->
     exists buf, chans (sys_broker s) !! st_ch st = Some {| ch_buf := buf; ch_closed := false |} /\
       st_sent st ++ List.filter (st_keep st) (buf ++ pending (sys_pub s) (st_ch st))
         = List.filter (st_keep st) (published k tr)).
Proof.
  intros Hr Hk. pose proof (progress_run _ _ Hr _ _ Hk) as Hp. split; [by eapply progress_sent|].
  intros Hd Hl. unfold progress in Hp. rewrite Hd in Hp. destruct Hp as (buf & got & Hc & Hsent & _ & Hall).
  exists buf. split; [done|]. unfold keep_list in Hsent. by rewrite Hsent, <- List.filter_app, app_assoc, (Hall Hl).
Qed.

(** A stream ends only with its client: its channel is never closed under it, so
    it returned because the call's context was cancelled or a send failed.
    Nothing the server does, a stop included, ends it. *)
Lemma stream_returned_why tr s k st : run tr s -> sys_streams s !! k = Some st -> st_phase st <> Looping ->
  LCancel k ∈ tr \/ LRecv k false ∈ tr.
Proof.
  intros Hr. revert st. induction Hr as [|tr s l s' Hr IH Hst]; intros st0 Hk0 Hd0; [done|].
  pose proof (sys_ok_run _ _ Hr) as Hok.
  assert (forall st1, sys_streams s !! k = Some st1 -> st_phase st1 <> Looping -> LCancel k ∈ l :: tr \/ LRecv k false ∈ l :: tr) as Hold
    by (intros st1 H1 H2; destruct (IH st1 H1 H2); [left|right]; by constructor).
  destruct Hst as [b m j keep id ch b' Hj _| | | |b m p j ok st r b' st' Hj Hd _ Hl
    |b m p j ok st r b' Hj Hd Hrv Hl|b m p j st Hj _|b m j st ch b' Hj Hd _|b m p j st ch b' Hj Hd _];
    cbn in Hk0, Hold; try (by eapply Hold);
    (destruct (decide (j = k)) as [->|Hne]; [|rewrite lookup_insert_ne in Hk0 by done; by eapply Hold]);
    rewrite lookup_insert_eq in Hk0; injection Hk0 as <-.
  - done.
  - destruct (loop_body_same _ _ _ _ Hl) as (_ & _ & E & _). cbn in *. congruence.
  - destruct ok; [exfalso|right; by constructor]. pose proof (looping_sub _ _ _ Hok Hj Hd) as Hs.
    destruct (ok_open _ (sys_broker_ok _ Hok) _ _ Hs) as [buf Hc]. cbn in Hc. unfold receive in Hrv. rewrite Hc in Hrv.
    cbn in Hrv. destruct buf; [done|]. injection Hrv as <- _. unfold loop_body in Hl. by destruct (st_keep _ _).
  - left. by constructor.
  - eapply Hold; [exact Hj|by rewrite Hd].
  - eapply Hold; [exact Hj|by rewrite Hd].
Qed.

(** Everything sent passed the filter the stream was opened with. *)
Lemma sent_kept tr s k keep st : run tr s -> LOpen k keep ∈ tr -> sys_streams s !! k = Some st ->
  Forall (fun v => keep v = true) (st_sent st).
Proof.
  intros Hr Ho Hk. pose proof (progress_sent _ _ _ (progress_run _ _ Hr _ _ Hk)) as Hp.
  apply Forall_forall. intros v Hv. eapply elem_of_sublist in Hp; [|exact Hv].
  unfold keep_list in Hp. rewrite (opened_keep _ _ _ _ _ Hr Ho Hk), list_elem_of_In, filter_In in Hp. tauto.
Qed.

(** C18: An event whose publication begins while a stream that wants it has room in
    its channel is sent to that stream in the end, or the stream ends: in every
    endless run of any number of streams in which publishers get to go on with
    their loops, the stream gets to receive and its sends go through, whatever is
    published after it. *)
Theorem stream_serves (run : nat -> sys T) lab k v i st buf : stream_run run lab -> publisher_fair run lab ->
  reader_fair run lab k ->
  lab i = Some (LPublish v) -> sys_streams (run i) !! k = Some st -> st_phase st = Looping -> st_keep st v = true ->
  chans (sys_broker (run i)) !! st_ch st = Some {| ch_buf := buf; ch_closed := false |} ->
  (length buf < chan_cap)%nat -> eventually run (S i) (served k v).
Proof.
  intros Hr Hpf Hf Hl Hk Hd Hkeep Hc Hlt. pose proof (sr_step _ _ Hr i) as Hst. rewrite Hl in Hst.
  destruct (publish_coming k v _ _ st buf (stream_run_ok _ _ i Hr) Hst) as [m Hm]; [by repeat split|done|].
  assert (eventually run (S i) (fun s => served k v s \/ exists m, awaiting k v m s)) as (j & Hj & Hs).
  { eapply (leads_to run _ _ (coming k v)); [| |exact Hpf|exact Hm].
    - intros m' n Ha. apply (coming_enabled k v m'); [by eapply stream_run_ok|done].
    - intros m' n Ha. pose proof (sr_step _ _ Hr n) as Hn. destruct (lab n) as [l|] eqn:El.
      + destruct (coming_step k v m' _ l _ (stream_run_ok _ _ n Hr) Ha Hn) as [Hg|(m1 & Ha' & Hle & Hlt')]; [by left|].
        right. exists m1. split; [done|]. split; [done|]. intros E. apply Hlt'. congruence.
      + right. exists m'. rewrite Hn. split; [done|]. split; [done|]. congruence. }
  destruct Hs as [Hs|[m' Ha]]; [by exists j|].
  assert (eventually run j (served k v)) as (j' & Hj' & Hs); [|exists j'; split; [lia|done]].
  eapply (leads_to run _ _ (awaiting k v)); [| |exact Hf|exact Ha]; [intros m1 n; apply awaiting_enabled|].
  intros m1 n Ham. pose proof (sr_step _ _ Hr n) as Hn. destruct (lab n) as [l|] eqn:El.
  - destruct (awaiting_step k v m1 _ l _ (stream_run_ok _ _ n Hr) Ham Hn) as [Hg|(m2 & Ha' & Hle & Hlt')]; [by left|].
    right. exists m2. split; [done|]. split; [done|]. intros E. apply Hlt'. congruence.
  - right. exists m1. rewrite Hn. split; [done|]. split; [done|]. congruence.
Qed.
End brokers.

(** ** Who sees what *)

Section watching.
Context `{Env} `{Mac} `{Hash} `{Aead}.

Lemma tenant_request_subject ctx method req s t w : AuthEnabled (sv_opts s) = true ->
  authorised s ctx method req -> tenantWalletFromRequest req = (t, w, true) ->
  isBootstrapMethod method = false -> has_suffix method "/RefreshToken" = false -> isBSVMSMethod method = true ->
  exists sub, access_subject s ctx sub /\ t <> "" /\ t = sub_TenantID sub /\ (w = "" \/ w = sub_WalletID sub).
Proof.
  intros Hon Ha Et Hb Hr Hm. destruct Ha as [?|? _|?|? _ ?|? _ Hn _|sub t' w' Hs Et' Hne Ht Hw]; try congruence.
  - by rewrite Et in Hn.
  - rewrite Et in Et'. injection Et' as <- <-. by exists sub.
Qed.

Lemma open_stream_keep {T} (L : broker_lens T) keep s st s' : open_stream L keep s = (Ok st, s') -> st_keep st = keep.
Proof. unfold open_stream, mbind, M_bind, subscribe_on. by intros [= <- _]. Qed.

Lemma authorize_ok_inv {A} ctx method req (k : () -> M Service A) s a s' :
  (authorize ctx method req ≫= k) s = (Ok a, s') ->
  authorised s ctx method req /\ exists s1, k () s1 = (Ok a, s').
Proof.
  intros E. apply bind_ok_inv in E as ([] & s1 & Ea & E). split; [|by exists s1].
  apply authorize_spec. by exists s1.
Qed.

Lemma matches_scope t w vt vw sub : matches t w vt vw = true ->
  t <> "" /\ t = sub_TenantID sub /\ (w = "" \/ w = sub_WalletID sub) ->
  vt = sub_TenantID sub /\ (w = "" \/ vw = sub_WalletID sub).
Proof.
  intros [Ht Hw]%matches_true (Hne & Et & Ew). split; [by destruct Ht; congruence|].
  destruct Hw as [?| <-]; [by left|]. destruct Ew; auto.
Qed.

(** C15: With authentication on, whatever request opened a payment or a wallet
    transaction stream, in every later run of the broker it is only ever sent
    events of the tenant of the client's own access token and, unless the
    request left the wallet id empty, of the token's own wallet. *)
Theorem streams_isolated ctx s : AuthEnabled (sv_opts s) = true ->
  (forall req st s', StreamPayments ctx req s = (Ok st, s') ->
     exists sub, access_subject s ctx sub /\
       forall tr y k st', run tr y -> LOpen k (st_keep st) ∈ tr -> sys_streams y !! k = Some st' ->
       Forall (fun v => pb.Payment_TenantId v = sub_TenantID sub /\
                 (pb.StreamPaymentsRequest_WalletId req = "" \/ pb.Payment_WalletId v = sub_WalletID sub))
         (st_sent st')) /\
  (forall req st s', StreamWalletTransactions ctx req s = (Ok st, s') ->
     exists sub, access_subject s ctx sub /\
       forall tr y k st', run tr y -> LOpen k (st_keep st) ∈ tr -> sys_streams y !! k = Some st' ->
       Forall (fun v => pb.WalletTransaction_TenantId v = sub_TenantID sub /\
                 (pb.StreamWalletTransactionsRequest_WalletId req = "" \/
                  pb.WalletTransaction_WalletId v = sub_WalletID sub))
         (st_sent st')).
Proof.
  intros Hon. split; intros req st s' E; apply authorize_ok_inv in E as [Ha (s1 & Eo)];
    apply open_stream_keep in Eo as Ek;
    [destruct (tenant_request_subject _ _ _ _ (pb.StreamPaymentsRequest_TenantId req)
       (pb.StreamPaymentsRequest_WalletId req) Hon Ha eq_refl eq_refl eq_refl eq_refl) as (sub & Hs & Hsc)
    |destruct (tenant_request_subject _ _ _ _ (pb.StreamWalletTransactionsRequest_TenantId req)
       (pb.StreamWalletTransactionsRequest_WalletId req) Hon Ha eq_refl eq_refl eq_refl eq_refl) as (sub & Hs & Hsc)];
    exists sub; (split; [done|]); intros tr y k st' Hr Ho Hk; rewrite Ek in Ho;
    (eapply Forall_impl; [exact (sent_kept _ _ _ _ _ Hr Ho Hk)|]); intros v Hv;
    by apply (matches_scope _ _ _ _ _ Hv).
Qed.

(** C33: A token for one wallet reaches its whole tenant: with any valid access
    token the server answers a listing of the token's tenant with every wallet of
    it, each once, with the balances the SDK has for it; and it opens payment and
    wallet transaction streams without a wallet id, subscribed to what is
    published and passing the events of every wallet of the tenant, and only those. *)
Theorem token_reaches_tenant ctx s sub : service_ok s -> access_subject s ctx sub ->
  idRE_MatchString (sub_TenantID sub) = true -> let t := sub_TenantID sub in
  (exists ps s', serve ctx BSVMS_ListWallets ListWallets (pb.MkListWalletsRequest t) s =
       (Ok (pb.MkListWalletsResponse ps), s') /\
     NoDup ((fun p => walletKey (pb.Wallet_TenantId p) (pb.Wallet_WalletId p)) <$> ps) /\
     (forall m, m ∈ sv_state s -> TenantID m = t ->
        walletKey t (WalletID m) ∈ ((fun p => walletKey (pb.Wallet_TenantId p) (pb.Wallet_WalletId p)) <$> ps)) /\
     (forall p, p ∈ ps -> exists l tw, lookup_wallet s (pb.Wallet_TenantId p) (pb.Wallet_WalletId p) = Some l /\
        sv_heap s !! l = Some tw /\ TenantID (tw_meta tw) = t /\ shows_funds tw p)) /\
  (exists st s', StreamPayments ctx (pb.MkStreamPaymentsRequest t "") s = (Ok st, s') /\
     subs (paymentBroker (sv_brokers s')) !! st_id st = Some (st_ch st) /\
     forall v, st_keep st v = true <-> pb.Payment_TenantId v = t) /\
  (exists st s', StreamWalletTransactions ctx (pb.MkStreamWalletTransactionsRequest t "") s = (Ok st, s') /\
     subs (walletTxBroker (sv_brokers s')) !! st_id st = Some (st_ch st) /\
     forall v, st_keep st v = true <-> pb.WalletTransaction_TenantId v = t).
Proof.
  intros Hok Hs Ht t. assert (t <> "") as Hne by (intros E; unfold t in E; by rewrite E in Ht).
  assert (forall vt vw, matches t "" vt vw = true <-> vt = t) as Hm.
  { intros vt vw. rewrite matches_true. split; [by intros [[?|?] _]|intros ->; split; [by right|by left]]. }
  split; [|split].
  - destruct (proj2 (authorize_spec ctx (full_method BSVMS_ListWallets)
      (Some (rpc_reflect BSVMS_ListWallets (pb.MkListWalletsRequest t))) s)) as [s1 E1].
    { by eapply auth_tenant; [exact Hs|reflexivity|done|done|left]. }
    pose proof (authorize_only_world ctx (full_method BSVMS_ListWallets)
      (Some (rpc_reflect BSVMS_ListWallets (pb.MkListWalletsRequest t))) s) as Ho. rewrite E1 in Ho. cbn in Ho.
    assert (service_ok s1) as Hok1 by (by rewrite <- Ho).
    destruct (ListWallets_lists t s1 Hok1 Ht) as (ps & s' & E & _ & Hk & Hf).
    exists ps, s'. unfold serve, UnaryAuthInterceptor. erewrite bind_run by exact E1. split; [exact E|].
    rewrite Hk. split; [apply tenant_keys_NoDup|]. unfold only_world in Ho. split.
    + intros m Hin Em. apply tenant_keys_records; [done|]. exists m. by rewrite Ho, <- Em.
    + intros p Hp. destruct (Hf p Hp) as (l & tw & Hl & Htw & Hfu). exists l, tw. rewrite Ho in Hl, Htw.
      split; [exact Hl|]. split; [exact Htw|]. split; [|done].
      assert (walletKey (pb.Wallet_TenantId p) (pb.Wallet_WalletId p) ∈ tenant_keys s1 t) as Hkey
        by (rewrite <- Hk; apply list_elem_of_fmap; by exists p).
      apply tenant_keys_elem in Hkey as (l' & tw' & Hl' & Htw' & Et); [|apply Hok1]. rewrite Ho in Hl', Htw'.
      unfold lookup_wallet in Hl. rewrite Hl in Hl'. injection Hl' as <-. rewrite Htw in Htw'. by injection Htw' as <-.
  - destruct (proj2 (authorize_spec ctx (full_method BSVMS_StreamPayments)
      (Some (rpc_reflect BSVMS_StreamPayments (pb.MkStreamPaymentsRequest t ""))) s)) as [s1 E1].
    { by eapply auth_tenant; [exact Hs|reflexivity|done|done|left]. }
    unfold StreamPayments. erewrite bind_run by exact E1. eexists _, _. split; [reflexivity|].
    split; [apply lookup_insert_eq|]. intros v. apply Hm.
  - destruct (proj2 (authorize_spec ctx (full_method BSVMS_StreamWalletTransactions)
      (Some (rpc_reflect BSVMS_StreamWalletTransactions (pb.MkStreamWalletTransactionsRequest t ""))) s)) as [s1 E1].
    { by eapply auth_tenant; [exact Hs|reflexivity|done|done|left]. }
    unfold StreamWalletTransactions. erewrite bind_run by exact E1. eexists _, _. split; [reflexivity|].
    split; [apply lookup_insert_eq|]. intros v. apply Hm.
Qed.

(** Creating or restoring a wallet needs no token at all, whatever wallets
    the tenant already has, exactly as long as the named wallet is free; once it
    exists the same anonymous request is refused. *)
Lemma bootstrap_open r ctx s t w req : AuthEnabled (sv_opts s) = true -> ctx_md ctx = None ->
  r = BSVMS_CreateWallet \/ r = BSVMS_RestoreWallet ->
  tenantWalletFromRequest (Some (rpc_reflect r req)) = (t, w, true) ->
  idRE_MatchString t = true -> idRE_MatchString w = true ->
  (authorised s ctx (full_method r) (Some (rpc_reflect r req)) <-> lookup_wallet s t w = None).
Proof.
  intros Hon Hctx Hr Et It Iw. split.
  - intros [?|_ (t' & w' & Et' & _ & _ & Hn)|Hrf|sub Hs _|sub Hs _ _|sub t' w' Hs _ _ _ _].
    + congruence.
    + by rewrite Et in Et'; injection Et' as <- <-.
    + by destruct Hr as [->| ->].
    + destruct Hs as (md & E & _). congruence.
    + destruct Hs as (md & E & _). congruence.
    + destruct Hs as (md & E & _). congruence.
  - intros Hn. apply auth_bootstrap; [by destruct Hr as [->| ->]|]. by exists t, w.
Qed.
End watching.

(** ** Instances *)

Definition even_only (v : nat) : bool := Nat.even v.
(** One stream of even numbers, a publication and a reception; a second publication
    is under way, its value taken by the channel. *)
Definition demo_run : list (label nat) :=
  [LOffer; LPublish 3; LRecv 0 true; LPublished; LOffer; LPublish 2; LOpen 0 even_only].
Definition demo_streams : gmap nat (stream nat) := <[0 := MkStream 0 0 even_only [] Looping]> ∅.
Definition demo_sent : gmap nat (stream nat) := <[0 := MkStream 0 0 even_only [2] Looping]> demo_streams.
Definition demo_buffer (buf : list nat) : broker nat := MkBroker 1 {[0 := 0]} [MkChan buf false].
Definition demo_sys : sys nat := MkSys (demo_buffer [3]) demo_sent (Some (3, [])).
Lemma demo_order : [0] ≡ₚ (map_to_list (subs (demo_buffer []))).*2.
Proof. reflexivity. Qed.
Lemma demo_published : run [LPublished; LOffer; LPublish 2; LOpen 0 even_only] (MkSys (demo_buffer [2]) demo_streams None).
Proof.
  apply (run_step _ (MkSys (demo_buffer [2]) demo_streams (Some (2, [])))); [|by apply step_published].
  apply (run_step _ (MkSys (demo_buffer []) demo_streams (Some (2, [0])))); [|by apply step_offer].
  apply (run_step _ (MkSys (demo_buffer []) demo_streams None)); [|apply step_publish, demo_order].
  apply (run_step _ init); [apply run_init|]. by apply step_open.
Qed.
Lemma demo_run_ok : run demo_run demo_sys.
Proof.
  apply (run_step _ (MkSys (demo_buffer []) demo_sent (Some (3, [0])))); [|by apply step_offer].
  apply (run_step _ (MkSys (demo_buffer []) demo_sent None)); [|apply step_publish, demo_order].
  apply (run_step _ (MkSys (demo_buffer [2]) demo_streams None)); [apply demo_published|].
  by apply (step_recv _ _ None 0 true (MkStream 0 0 even_only [] Looping) (Some 2)).
Qed.

Lemma broker_never_panics_witness : ~ panics demo_sys.
Proof. exact (proj1 (broker_never_panics demo_run demo_sys demo_run_ok)). Defined.

Lemma stream_delivery_witness :
  exists buf, [2] ++ List.filter even_only (buf ++ []) = List.filter even_only (published 0 demo_run).
Proof.
  destruct (proj2 (stream_delivery demo_run demo_sys 0 (MkStream 0 0 even_only [2] Looping) demo_run_ok eq_refl)
    eq_refl ltac:(vm_compute; lia)) as (buf & _ & E). exists buf. exact E.
Defined.

(** The same stream for ever: opened, published to, read. *)
Definition demo_forever (n : nat) : sys nat :=
  match n with
  | 0 => init
  | 1 => MkSys (demo_buffer []) demo_streams None
  | 2 => MkSys (demo_buffer []) demo_streams (Some (2, [0]))
  | 3 => MkSys (demo_buffer [2]) demo_streams (Some (2, []))
  | 4 => MkSys (demo_buffer [2]) demo_streams None
  | _ => MkSys (demo_buffer []) demo_sent None
  end.
Definition demo_labels (n : nat) : option (label nat) :=
  match n with
  | 0 => Some (LOpen 0 even_only) | 1 => Some (LPublish 2) | 2 => Some LOffer | 3 => Some LPublished
  | 4 => Some (LRecv 0 true) | _ => None
  end.
Lemma demo_forever_run : stream_run demo_forever demo_labels.
Proof.
  split; [done|]. intros [|[|[|[|[|n]]]]]; cbn; [by apply step_open|apply step_publish, demo_order|by apply step_offer
    |by apply step_published| |done].
  by apply (step_recv _ _ None 0 true (MkStream 0 0 even_only [] Looping) (Some 2)).
Qed.
Lemma demo_forever_fair : reader_fair demo_forever demo_labels 0.
Proof.
  intros i _. exists (i + 5). split; [lia|]. right. rewrite Nat.add_comm. intros [s' Hs].
  change (step (demo_forever 5) (LRecv 0 true) s') in Hs.
  inversion Hs as [| | | |b m p k ok st r b' st' Hk _ Hr|b m p k ok st r b' Hk _ Hr| | |]; subst;
    vm_compute in Hk; injection Hk as <-; discriminate Hr.
Qed.
Lemma demo_forever_publishes : publisher_fair demo_forever demo_labels.
Proof.
  intros i _. exists (i + 5). split; [lia|]. right. rewrite Nat.add_comm. intros [s' Hs].
  change (step (demo_forever 5) LOffer s') in Hs. inversion Hs.
Qed.
Lemma stream_serves_witness : eventually demo_forever 2 (served 0 2).
Proof.
  exact (stream_serves demo_forever demo_labels 0 2 1 (MkStream 0 0 even_only [] Looping) [] demo_forever_run
    demo_forever_publishes demo_forever_fair eq_refl eq_refl eq_refl eq_refl eq_refl (Nat.lt_0_succ 63)).
Defined.

Definition demo_watch : pb.StreamPaymentsRequest := pb.MkStreamPaymentsRequest "acme" "main".
Definition demo_stream : stream pb.Payment := MkStream 0 0 (payment_filter demo_watch) [] Looping.

Lemma streams_isolated_witness :
  exists sub, @access_subject env hmac_sha256_mac service1 ctx sub.
Proof.
  destruct (proj1 (@streams_isolated env hmac_sha256_mac ctx service1 ltac:(vm_compute; reflexivity))
    demo_watch demo_stream (snd (@StreamPayments env hmac_sha256_mac ctx demo_watch service1)))
    as (sub & Hs & _); [vm_compute; reflexivity|]. exists sub. exact Hs.
Defined.

Definition demo_subject : authSubject := MkSubject "acme" "main" "access".
Lemma demo_access : @access_subject env hmac_sha256_mac service1 ctx demo_subject.
Proof. eapply authSubjectFromContext_sound. vm_compute. reflexivity. Qed.

Lemma token_reaches_tenant_witness : exists ps s',
  @serve env hmac_sha256_mac ctx BSVMS_ListWallets (@ListWallets env) (pb.MkListWalletsRequest "acme") service1 =
    (Ok (pb.MkListWalletsResponse ps), s').
Proof.
  destruct (proj1 (@token_reaches_tenant env hmac_sha256_mac aes_gcm ctx service1 demo_subject service1_service_ok
    demo_access eq_refl)) as (ps & s' & E & _).
  exists ps, s'. exact E.
Defined.

Lemma bootstrap_open_witness :
  @authorised env hmac_sha256_mac service1 (MkContext None) (full_method BSVMS_CreateWallet)
    (Some (rpc_reflect BSVMS_CreateWallet (pb.MkCreateWalletRequest "acme" "second"))).
Proof.
  apply (@bootstrap_open env hmac_sha256_mac BSVMS_CreateWallet (MkContext None) service1 "acme" "second"
    (pb.MkCreateWalletRequest "acme" "second"));
    [vm_compute; reflexivity|reflexivity|left; reflexivity|reflexivity|reflexivity|reflexivity|vm_compute; reflexivity].
Defined.
