(* ===== verification/RescanProps.v ===== *)
(** * Theorems: rescans

    The properties of Rescan: exclusion, events, termination, admission. *)

From S2P Require Import Prelude GoStrings GoTime Encoding Crypto Json Decode Proto Broker Sdk Ids World.
From S2P Require Import Encryption Options Service Auth AuthSpec Registry RegistrySpec Handlers.
From S2P Require Import HandlersSpec Rescan RescanRun Demo Fair.

(** However rescans of any number of wallets interleave, two walks that are
    running on the same wallet are the same call, and the wallet's flag is set
    exactly while a call on it has not returned. *)
Lemma walks_exclusive s : reachable s ->
  (forall k k' c c', r_calls s !! k = Some c -> r_calls s !! k' = Some c' ->
     c_walk c = WalkRunning -> c_walk c' = WalkRunning -> c_loc c = c_loc c' -> k = k') /\
  (forall l tw, r_heap s !! l = Some tw ->
     tw_rescanning tw = true <-> exists k c, r_calls s !! k = Some c /\ active c /\ c_loc c = l).
Proof.
  intros Hr. destruct (rinv_reachable _ Hr) as [Hg Hs Hb Hc]. split.
  - intros k k' c c' Hk Hk' Hw Hw'. apply (Hs k k' c c'); [done|done|..]; by apply co_walk; eauto.
  - intros l tw Hl. split; [by apply Hb|]. intros (k & c & Hk & Ha & <-).
    destruct (Hg _ _ Hk Ha) as (tw' & Hl' & ?). congruence.
Qed.

(** C31: What a rescan call sent its client is progress, in the order the walk
    reported it and nothing the walk did not report, followed by the statistics
    exactly when the call succeeded; they are the statistics the walk returned,
    and a call succeeds only after its walk did. *)
Theorem rescan_events s k c : reachable s -> r_calls s !! k = Some c ->
  exists prog tail, c_sent c = (pb.RescanEvent_Progress <$> prog) ++ tail /\
    prog `sublist_of` c_emitted c /\
    (final c = Some (Ok ()) ->
       exists st, c_walk c = WalkDone (Ok st) /\ tail = [pb.RescanEvent_Stats (rescanStatsProto st)]) /\
    (final c <> Some (Ok ()) -> tail = []).
Proof.
  intros Hr Hk. destruct (ri_call _ (rinv_reachable _ Hr) _ _ Hk) as [_ (prog & tail & Es & Hsub & Ht)].
  exists prog, tail. split; [done|]. split; [etransitivity; [|exact Hsub]; by apply sublist_inserts_r|].
  unfold tail_ok in Ht. split; [by intros E; rewrite E in Ht|].
  destruct (final c) as [[[]|]|]; [|done..]. intros E. by destruct E.
Qed.

(** ** Termination *)

(** The steps the handler of call [k] has left once its walk is done. *)
Definition steps_left (c : call) : nat :=
  match c_phase c with Looping => length (c_chan c) + 2 | Unwinding _ => 1 | Returned _ => 0 end.

(** Only call [k] moved, and the wallets are the same ones. *)
Definition only_call (k : nat) (s s' : rsys) : Prop :=
  (forall k', k' <> k -> r_calls s' !! k' = r_calls s !! k') /\
  (forall l, is_Some (r_heap s !! l) -> is_Some (r_heap s' !! l)).
#[local] Instance only_call_preorder k : PreOrder (only_call k).
Proof.
  split; [done|]. intros s1 s2 s3 [C1 H1] [C2 H2]. split; [|auto]. intros k' Hk'. rewrite C2 by done. auto.
Qed.

Lemma only_call_update k h c m : only_call k (MkRsys h m) (MkRsys h (<[k := c]> m)).
Proof. split; [|done]. intros k' Hk'. cbn. by rewrite lookup_insert_ne. Qed.

Lemma handler_advances s k c w : r_calls s !! k = Some c -> c_walk c = WalkDone w -> active c ->
  exists s' c', rstep s s' /\ only_call k s s' /\ r_calls s' !! k = Some c' /\ c_walk c' = WalkDone w /\
    c_loc c' = c_loc c /\ (steps_left c' < steps_left c)%nat.
Proof.
  intros Hk Hw Ha. destruct s as [h m]. cbn in Hk. unfold active in Ha.
  destruct (c_phase c) as [|r|r] eqn:Ep; [|..|done].
  - destruct (c_chan c) as [|v rest] eqn:Ec.
    + assert (exists c', send_stats true nil_pointer c = Some c' /\ c_walk c' = WalkDone w /\
        c_loc c' = c_loc c /\ (steps_left c' < steps_left c)%nat) as (c' & E & ? & ? & ?).
      { unfold send_stats, steps_left. rewrite Ep, Ec, Hw. destruct w; eexists; (split; [done|]); cbn; auto. }
      eexists _, c'. split; [eapply r_stats; [exact Hk|exact E]|]. split; [apply only_call_update|].
      cbn. by rewrite lookup_insert_eq.
    + assert (exists c', send_progress true nil_pointer c = Some c' /\ c_walk c' = WalkDone w /\
        c_loc c' = c_loc c /\ (steps_left c' < steps_left c)%nat) as (c' & E & ? & ? & ?).
      { unfold send_progress, steps_left. rewrite Ep, Ec. eexists. split; [done|]. cbn. auto with lia. }
      eexists _, c'. split; [eapply r_send; [exact Hk|exact E]|]. split; [apply only_call_update|].
      cbn. by rewrite lookup_insert_eq.
  - eexists _, _. split; [eapply r_return; [exact Hk|exact Ep|exact Hw]|]. split.
    { split; cbn; [intros k' Hk'; by rewrite lookup_insert_ne|]. intros l Hl. unfold heap_end.
      apply lookup_lt_is_Some. rewrite length_alter. by apply lookup_lt_is_Some. }
    cbn. rewrite lookup_insert_eq.
    split; [done|]. split; [done|]. split; [done|]. unfold steps_left. rewrite Ep. cbn. lia.
Qed.

Lemma handler_returns n : forall s k c w, r_calls s !! k = Some c -> c_walk c = WalkDone w ->
  (steps_left c <= n)%nat ->
  exists j s' c' r, (j <= n)%nat /\ nsteps rstep j s s' /\ only_call k s s' /\ r_calls s' !! k = Some c' /\
    c_phase c' = Returned r /\ c_loc c' = c_loc c.
Proof.
  induction n as [n IH] using lt_wf_ind. intros s k c w Hk Hw Hn.
  destruct (c_phase c) as [|r|r] eqn:Ep;
    [..|exists 0%nat, s, c, r; split; [lia|]; split; [constructor|]; split; [reflexivity|done]].
  all: destruct (handler_advances s k c w Hk Hw) as (s1 & c1 & Hst & Ho1 & Hk1 & Hw1 & El & Hlt);
    [unfold active; by rewrite Ep|].
  all: destruct (IH (steps_left c1) ltac:(lia) s1 k c1 w Hk1 Hw1 ltac:(lia))
    as (j & s2 & c2 & r2 & Hj & Hn2 & Ho2 & Hk2 & Hp2 & El2).
  all: exists (S j), s2, c2, r2; split; [lia|]; split; [by econstructor|]; split; [by transitivity s1|];
    split; [done|]; split; [done|]; congruence.
Qed.

Lemma nsteps_reachable n s s' : reachable s -> nsteps rstep n s s' -> reachable s'.
Proof. intros Hr Hn. revert Hr. induction Hn; eauto using reachable. Qed.

(** Once its walk is done, a rescan call returns: at most two steps more
    than the events still in its channel take it there, whatever the other calls
    are doing, and then the wallet's flag is free and a new rescan of it can
    begin. *)
Lemma rescan_terminates s k c w : reachable s -> r_calls s !! k = Some c -> c_walk c = WalkDone w ->
  active c ->
  exists n s' c' r, (n <= length (c_chan c) + 2)%nat /\ nsteps rstep n s s' /\
    r_calls s' !! k = Some c' /\ c_phase c' = Returned r /\ fst (heap_begin (c_loc c) (r_heap s')) = true.
Proof.
  intros Hr Hk Hw Ha. pose proof (rinv_reachable _ Hr) as Hi.
  destruct (handler_returns (length (c_chan c) + 2) s k c w Hk Hw)
    as (n & s' & c' & r & Hn & Hst & [Hoc Hoh] & Hk' & Hp & El).
  { unfold steps_left. destruct (c_phase c); lia. }
  exists n, s', c', r. split; [done|]. split; [done|]. split; [done|]. split; [done|].
  destruct (ri_guard _ Hi _ _ Hk Ha) as (tw0 & Htw0 & _).
  destruct (Hoh (c_loc c)) as [tw Htw]; [by eexists|]. unfold heap_begin. rewrite Htw.
  destruct (tw_rescanning tw) eqn:Et; [|done].
  destruct (ri_busy _ (rinv_reachable _ (nsteps_reachable _ _ _ Hr Hst)) _ _ Htw Et) as (k1 & c1 & H1 & A1 & E1).
  destruct (decide (k1 = k)) as [->|Hne].
  - rewrite Hk' in H1. injection H1 as <-. unfold active in A1. by rewrite Hp in A1.
  - rewrite Hoc in H1 by done. by destruct (Hne (ri_single _ Hi k1 k c1 c H1 Hk A1 Ha E1)).
Qed.

(** ** Liveness *)

(** A step of call [k]'s handler: one of the last three kinds. *)
Inductive handler_step (k : nat) : rsys -> rsys -> Prop :=
  | h_send h m c ok e c' : m !! k = Some c -> send_progress ok e c = Some c' ->
      handler_step k (MkRsys h m) (MkRsys h (<[k := c']> m))
  | h_stats h m c ok e c' : m !! k = Some c -> send_stats ok e c = Some c' ->
      handler_step k (MkRsys h m) (MkRsys h (<[k := c']> m))
  | h_return h m c r w : m !! k = Some c -> c_phase c = Unwinding r -> c_walk c = WalkDone w ->
      handler_step k (MkRsys h m) (MkRsys (heap_end (c_loc c) h) (<[k := with_phase (Returned r) c]> m)).
Lemma handler_step_rstep k s s' : handler_step k s s' -> rstep s s'.
Proof. destruct 1; econstructor; eassumption. Qed.

(** An endless run of the rescans of a service; where nothing happens the state
    stays. *)
Record endless (run : nat -> rsys) : Prop := {
  e_start : reachable (run 0);
  e_step : forall n, rstep (run n) (run (S n)) \/ run (S n) = run n;
}.
(** The handler of call [k] gets to run. *)
Definition handler_fair (run : nat -> rsys) (k : nat) : Prop :=
  weakly_fair run (fun s => exists s', handler_step k s s') (fun n => handler_step k (run n) (run (S n))).

Lemma endless_reachable run n : endless run -> reachable (run n).
Proof.
  intros [H0 Hs]. induction n as [|n IH]; [done|]. destruct (Hs n) as [Hst| ->]; [by econstructor|done].
Qed.

(** Call [k] has [m] steps to go after its walk. *)
Definition winding (k m : nat) (s : rsys) : Prop := exists c w,
  r_calls s !! k = Some c /\ c_walk c = WalkDone w /\ active c /\ steps_left c = m.
(** Call [k] has returned and left its wallet free. *)
Definition freed (k : nat) (s : rsys) : Prop := exists c r,
  r_calls s !! k = Some c /\ c_phase c = Returned r /\ fst (heap_begin (c_loc c) (r_heap s)) = true.

Lemma winding_update k k' h h' m c' n : k' <> k -> winding k n (MkRsys h m) ->
  winding k n (MkRsys h' (<[k' := c']> m)).
Proof. intros Hne (c & w & Hk & Hc). exists c, w. cbn in *. by rewrite lookup_insert_ne. Qed.

(** What the handler sends brings it closer to its end. *)
Lemma send_progress_left ok e c c' : send_progress ok e c = Some c' ->
  c_walk c' = c_walk c /\ active c' /\ (steps_left c' < steps_left c)%nat.
Proof.
  unfold send_progress, steps_left, active. destruct (c_phase c) eqn:Ep; try done.
  destruct (c_chan c) as [|v rest] eqn:Ec; [done|]. intros [= <-]. destruct ok; cbn; auto with lia.
Qed.
Lemma send_stats_left ok e c c' : send_stats ok e c = Some c' ->
  c_walk c' = c_walk c /\ active c' /\ (steps_left c' < steps_left c)%nat.
Proof.
  unfold send_stats, steps_left, active. destruct (c_phase c) eqn:Ep; try done.
  destruct (c_chan c) eqn:Ec; [|done]. destruct (c_walk c) as [|[st|err]] eqn:Ew; try done; intros [= <-]; cbn; auto with lia.
Qed.

Lemma winding_step k m s s' : reachable s -> winding k m s -> rstep s s' ->
  freed k s' \/ exists m', winding k m' s' /\ (m' <= m)%nat.
Proof.
  intros Hr Hw Hst. pose proof Hw as (c & w & Hk & Hcw & Ha & Hm).
  destruct (ri_guard _ (rinv_reachable _ Hr) _ _ Hk Ha) as (tw & Htw & _).
  destruct Hst as [h mp k' l h' Hk' Hb|h mp k' c' p Hk' Hrun|h mp k' c' r Hk' Hrun
    |h mp k' c' ok e c'' Hk' Hs|h mp k' c' ok e c'' Hk' Hs|h mp k' c' r w' Hk' Ep Ew];
    cbn in Hk, Htw; (destruct (decide (k' = k)) as [->|Hne]; [simplify_eq/=|right; exists m; split; [by eapply winding_update|done]]).
  - congruence.
  - congruence.
  - right. apply send_progress_left in Hs as (Ew & Ha' & Hlt). exists (steps_left c''). split; [|lia].
    exists c'', w. cbn. rewrite lookup_insert_eq. by split_and!; [|congruence|..].
  - right. apply send_stats_left in Hs as (Ew & Ha' & Hlt). exists (steps_left c''). split; [|lia].
    exists c'', w. cbn. rewrite lookup_insert_eq. by split_and!; [|congruence|..].
  - left. exists (with_phase (Returned r) c'), r. cbn. rewrite lookup_insert_eq. split; [done|]. split; [done|].
    unfold heap_begin, heap_end. by rewrite list_lookup_alter_eq, Htw.
Qed.
Lemma winding_closer k m m' s s' : handler_step k s s' -> winding k m s -> winding k m' s' -> (m' < m)%nat.
Proof.
  intros Hst (c & w & Hk & Hcw & Ha & <-) (c' & w' & Hk' & Hcw' & Ha' & <-).
  destruct Hst as [h mp c1 ok e c2 H1 Hs|h mp c1 ok e c2 H1 Hs|h mp c1 r w1 H1 Ep Ew]; cbn in *;
    rewrite lookup_insert_eq in Hk'; simplify_eq.
  - by apply send_progress_left in Hs as (_ & _ & ?).
  - by apply send_stats_left in Hs as (_ & _ & ?).
  - done.
Qed.
Lemma winding_enabled k m s : winding k m s -> exists s', handler_step k s s'.
Proof.
  destruct s as [h mp]. intros (c & w & Hk & Hcw & Ha & _). cbn in Hk. unfold active in Ha.
  destruct (c_phase c) as [|r|r] eqn:Ep; [|eexists; by eapply h_return|done].
  destruct (c_chan c) as [|v rest] eqn:Ec.
  - assert (exists c', send_stats true nil_pointer c = Some c') as [c' E]
      by (unfold send_stats; rewrite Ep, Ec, Hcw; destruct w; by eexists).
    eexists. by eapply h_stats.
  - assert (exists c', send_progress true nil_pointer c = Some c') as [c' E]
      by (unfold send_progress; rewrite Ep, Ec; by eexists).
    eexists. by eapply h_send.
Qed.

(** C20: Every rescan whose walk ends is over in the end: in an endless run of
    any number of rescans, interleaved in any way, in which the handler of a
    call gets to run, once the call's walk is done the call returns, and leaves
    its wallet free for a new rescan. *)
Theorem rescan_returns run k c w i : endless run -> handler_fair run k ->
  r_calls (run i) !! k = Some c -> c_walk c = WalkDone w -> active c ->
  eventually run i (freed k).
Proof.
  intros He Hf Hk Hw Ha.
  eapply (leads_to run _ _ (winding k)); [| |exact Hf|by exists c, w].
  - intros m n. apply winding_enabled.
  - intros m n Hwin. destruct (e_step _ He n) as [Hst|E].
    + destruct (winding_step k m _ _ (endless_reachable run n He) Hwin Hst) as [Hg|(m' & Hw' & Hle)]; [by left|].
      right. exists m'. split; [done|]. split; [done|]. intros Hh. by eapply winding_closer.
    + right. exists m. rewrite E. split; [done|]. split; [done|]. intros Hh.
      pose proof (winding_closer k m m _ _ Hh Hwin Hwin). lia.
Qed.

(** ** Admission and converters *)

Section admission.
Context `{Env} `{Mac} `{Hash} `{Aead}.

(** C32: A rescan is admitted only for an authorised request that names a
    registered wallet which no rescan holds, and then takes the wallet's flag;
    a request refused for any reason takes no flag. *)
Theorem Rescan_admission ctx req s r s' : Rescan_start ctx req s = (r, s') ->
  match r with
  | Ok run =>
      authorised s ctx (full_method BSVMS_Rescan) (Some (rpc_reflect BSVMS_Rescan req)) /\
      lookup_wallet s (pb.RescanRequest_TenantId req) (pb.RescanRequest_WalletId req) = Some (run_wallet run) /\
      exists tw, sv_heap s !! run_wallet run = Some tw /\ tw_rescanning tw = false /\
        sv_heap s' = <[run_wallet run := set_rescanning true tw]> (sv_heap s)
  | Err _ => sv_heap s' = sv_heap s
  end.
Proof.
  unfold Rescan_start. intros E. unfold mbind at 1, M_bind at 1 in E.
  pose proof (authorize_only_world ctx "/bsvms.v1.BSVMS/Rescan" (Some (reflect_RescanRequest req)) s) as Ho.
  destruct (authorize _ _ _ s) as [[[]|e] s1] eqn:Ea; cbn [snd] in Ho; [|injection E as <- <-; by rewrite Ho].
  assert (authorised s ctx (full_method BSVMS_Rescan) (Some (rpc_reflect BSVMS_Rescan req))) as Hauth
    by (apply authorize_spec; by exists s1).
  unfold mbind at 1, M_bind at 1 in E.
  destruct (wallet _ _ s1) as [[l|e] s2] eqn:Ew;
    [|pose proof (wallet_only_world (pb.RescanRequest_TenantId req) (pb.RescanRequest_WalletId req) s1) as Ho2;
      rewrite Ew in Ho2; cbn [snd] in Ho2; injection E as <- <-; by rewrite Ho2, Ho].
  apply wallet_ok in Ew as (_ & _ & Hl & ->).
  destruct (String.eqb _ ""); [injection E as <- <-; by rewrite Ho|]. unfold mbind at 1, M_bind at 1 in E.
  assert (moves only_world (wcall_or (fun _ => invalid "invalid start_block_hash")
    (W (node (TxIDFromHex (pb.RescanRequest_StartBlockHash req)))))) as Hm
    by (apply moves_wcall_or; [apply _|]; exact (moves_W (node (TxIDFromHex _)))).
  specialize (Hm s1). destruct (wcall_or _ _ s1) as [[hash|e] s2]; cbn [snd] in Hm;
    [|injection E as <- <-; by rewrite Hm, Ho].
  assert (sv_heap s2 = sv_heap s) as Hh by (by rewrite Hm, Ho).
  unfold mbind, M_bind, beginRescan in E. destruct (heap_begin l (sv_heap s2)) as [ok h'] eqn:Eb.
  destruct ok; cbn in E; injection E as <- <-.
  - apply heap_begin_inv in Eb as (tw & Htw & Hf & ->). split; [done|]. split; [by rewrite Ho in Hl|].
    exists tw. cbn. by rewrite <- Hh.
  - cbn. unfold heap_begin in Eb. by repeat case_match; simplify_eq.
Qed.
End admission.

(** C40: No timeout a client can ask for overflows: for every int32 field the
    durations handed to the SDK are the exact number of nanoseconds, and a
    relay timeout that is not positive means ten seconds. *)
Theorem timeouts_exact req ms : in_int32 (pb.RescanRequest_HeadersTimeoutMs req) ->
  in_int32 (pb.RescanRequest_BlockTimeoutMs req) -> in_int32 ms ->
  (bsv.Rescan_HeadersTimeout (rescanOptions req) = pb.RescanRequest_HeadersTimeoutMs req * 1000000)%Z /\
  (bsv.Rescan_BlockTimeout (rescanOptions req) = pb.RescanRequest_BlockTimeoutMs req * 1000000)%Z /\
  relayTimeout ms = (if decide (0 < ms) then ms * 1000000 else 10000000000)%Z /\ (0 < relayTimeout ms)%Z.
Proof.
  unfold in_int32. intros Hh Hb Hm. cbn -[Z.mul int64]. unfold relayTimeout, Millisecond, Second in *.
  rewrite !int64_id by (unfold in_int64; lia). split; [done|]. split; [done|].
  destruct (Z.leb_spec ms 0); [rewrite decide_False by lia|rewrite decide_True by lia]; lia.
Qed.

(** The hash of a block or cursor is shown as 64 hexadecimal digits that
    decode to the 32 bytes in reverse order. *)
Lemma blockHashHex_reversed h : length h = 32%nat ->
  hex_decode (blockHashHex h) = Ok (reverse h) /\ String.length (blockHashHex h) = 64%nat.
Proof.
  intros Hl. do 32 (destruct h as [|? h]; [discriminate Hl|]). destruct h; [|discriminate Hl].
  unfold blockHashHex. rewrite hex_decode_encode, hex_encode_length. by split.
Qed.

(** ** Instances *)

Definition rescan_heap : list tenantWallet := [MkTW zero_meta (WalletPtr 0) (StorePtr 0) false].
Definition busy_heap : list tenantWallet := [MkTW zero_meta (WalletPtr 0) (StorePtr 0) true].
Definition rescan_progress : bsv.RescanProgress := bsv.MkRescanProgress "blocks" "peer" 1 1 1 1 0 "" "".
Definition walked : call := with_walk (WalkDone (Ok None)) (emit rescan_progress (fresh_call 0)).
Definition rescan_sys : rsys :=
  MkRsys busy_heap (<[0 := walked]> (<[0 := emit rescan_progress (fresh_call 0)]> (<[0 := fresh_call 0]> ∅))).
Lemma rescan_sys_reachable : reachable rescan_sys.
Proof.
  eapply reach_step; [eapply reach_step; [eapply reach_step; [apply (reach_init rescan_heap); by repeat constructor|]|]|].
  - by apply (r_begin rescan_heap ∅ 0 0 busy_heap).
  - by apply (r_progress busy_heap _ 0 (fresh_call 0) rescan_progress).
  - by apply (r_finish busy_heap _ 0 (emit rescan_progress (fresh_call 0)) (Ok None)).
Qed.

Lemma walks_exclusive_witness :
  exists k c, r_calls rescan_sys !! k = Some c /\ active c /\ c_loc c = 0%nat.
Proof. exact (proj1 (proj2 (walks_exclusive rescan_sys rescan_sys_reachable) 0%nat _ eq_refl) eq_refl). Defined.

Lemma rescan_events_witness :
  exists prog tail, c_sent walked = (pb.RescanEvent_Progress <$> prog) ++ tail /\ tail = [].
Proof.
  destruct (rescan_events rescan_sys 0 walked rescan_sys_reachable eq_refl) as (prog & tail & E & _ & _ & Ht).
  exists prog, tail. split; [exact E|]. apply Ht. discriminate.
Defined.

Lemma rescan_terminates_witness :
  exists n s' c' r, (n <= 3)%nat /\ nsteps rstep n rescan_sys s' /\ r_calls s' !! 0%nat = Some c' /\
    c_phase c' = Returned r /\ fst (heap_begin 0 (r_heap s')) = true.
Proof.
  exact (rescan_terminates rescan_sys 0 walked (Ok None) rescan_sys_reachable eq_refl eq_refl I).
Defined.

(** The same call run to its end, after which nothing happens. *)
Definition drained : call := default walked (send_progress true nil_pointer walked).
Definition ended : call := default drained (send_stats true nil_pointer drained).
Definition rescan_forever (n : nat) : rsys :=
  let calls1 := <[0%nat := drained]> (r_calls rescan_sys) in
  let calls2 := <[0%nat := ended]> calls1 in
  match n with
  | 0 => rescan_sys
  | 1 => MkRsys (r_heap rescan_sys) calls1
  | 2 => MkRsys (r_heap rescan_sys) calls2
  | _ => MkRsys (heap_end (c_loc ended) (r_heap rescan_sys)) (<[0%nat := with_phase (Returned (Ok ())) ended]> calls2)
  end%nat.
Lemma rescan_forever_endless : endless rescan_forever.
Proof.
  split; [exact rescan_sys_reachable|]. intros [|[|[|n]]]; [left|left|left|by right].
  - by apply (r_send _ _ 0 walked true nil_pointer).
  - by apply (r_stats _ _ 0 drained true nil_pointer).
  - by apply (r_return _ _ 0 ended (Ok ()) (Ok None)).
Qed.
Lemma rescan_forever_fair : handler_fair rescan_forever 0.
Proof.
  intros i _. exists (i + 3)%nat. split; [lia|]. right. rewrite Nat.add_comm. intros [s' Hs].
  change (handler_step 0 (rescan_forever 3) s') in Hs.
  inversion Hs as [h m c ok e c' Hk E|h m c ok e c' Hk E|h m c r w Hk E]; subst; vm_compute in Hk;
    injection Hk as <-; discriminate E.
Qed.
Lemma rescan_returns_witness : eventually rescan_forever 0 (freed 0).
Proof.
  exact (rescan_returns rescan_forever 0 walked (Ok None) 0 rescan_forever_endless rescan_forever_fair eq_refl eq_refl I).
Defined.

Lemma Rescan_admission_witness :
  exists run, fst (@Rescan_start env hmac_sha256_mac ctx rescan_request service1) = Ok run /\
    lookup_wallet service1 "acme" "main" = Some (run_wallet run).
Proof.
  destruct (@Rescan_start env hmac_sha256_mac ctx rescan_request service1) as [r s'] eqn:E.
  pose proof (@Rescan_admission env hmac_sha256_mac ctx rescan_request service1 r s' E) as Ha.
  destruct r as [run|e]; [|exfalso; revert E; vm_compute; discriminate].
  exists run. split; [reflexivity|exact (proj1 (proj2 Ha))].
Defined.

Lemma timeouts_exact_witness : (bsv.Rescan_HeadersTimeout (rescanOptions rescan_request) = 30000 * 1000000)%Z.
Proof. apply (timeouts_exact rescan_request 0); vm_compute; split; (discriminate || reflexivity). Defined.

Lemma blockHashHex_reversed_witness :
  hex_decode (blockHashHex (repeat Byte.x0a 32)) = Ok (reverse (repeat Byte.x0a 32)).
Proof. exact (proj1 (blockHashHex_reversed (repeat Byte.x0a 32) eq_refl)). Defined.
