(* ===== verification/HandlersProps.v ===== *)
(** * Theorems: the unary methods

    Refusal of unknown wallets and the snapshots methods leave behind. *)

From S2P Require Import Prelude GoStrings GoTime Encoding Crypto Json Decode Proto Broker Sdk Ids World.
From S2P Require Import Encryption Options Service Auth AuthSpec Registry RegistrySpec Handlers.
From S2P Require Import HandlersSpec Demo.

Section lookup.
Context `{Env} `{Mac} `{Hash} `{Aead}.

(** Every unary method on a wallet answers InvalidArgument for malformed
    ids and NotFound for a wallet that is not registered, before anything else
    happens: no call to the SDK, no change of the service. *)
Lemma unknown_wallet_refused r h req t w s : unary r = Some h ->
  r <> BSVMS_CreateWallet -> r <> BSVMS_RestoreWallet -> r <> BSVMS_ListWallets ->
  tenantWalletFromRequest (Some (rpc_reflect r req)) = (t, w, true) ->
  lookup_wallet s t w = None ->
  snd (h req s) = s /\
  result_code (fst (h req s)) =
    Some (if idRE_MatchString t && idRE_MatchString w then NotFound else InvalidArgument).
Proof.
  intros Hr Hc Hs Hl Et Hn. destruct (unary_wallet_first r h req t w Hr Hc Hs Hl Et) as [body ->].
  by apply wallet_refused.
Qed.
End lookup.

(** ** Address snapshots *)

Section snapshots.
Context `{Env} `{Mac} `{Hash} `{Aead}.

(** The last calls made were for [tw]'s snapshot: the wallet was asked for its
    indices and addresses, and those were written to its snapshot file. *)
Definition snapshotted (dir : string) (tw : tenantWallet) (s' : Service) : Prop :=
  exists tr, let c1 := WalletCall (tw_w tw) NextIndices in
    let c2 := WalletCall (tw_w tw) SaveAddressSnapshot in
    let '(nextExternal, nextChange) := oracle tr c1 in
    w_trace (sv_world s') = tr ++ [c1; c2;
      NodeCall (WriteAddressSnapshot (walletSnapshotPath dir (tw_meta tw)) nextExternal nextChange
                  (oracle (tr ++ [c1]) c2))].

Definition ends_snap {A} (l : loc) (m : M Service A) : Prop := forall s tw x s',
  sv_heap s !! l = Some tw -> m s = (Ok x, s') -> snapshotted (sv_dataDir s) tw s'.

Lemma saveSnapshot_snapshotted l tw s : sv_heap s !! l = Some tw ->
  exists s', saveSnapshot l s = (Ok (), s') /\ snapshotted (sv_dataDir s) tw s'.
Proof.
  intros Hl. unfold saveSnapshot, try_, saveSnapshotLocked. unfold mbind at 1, M_bind at 1.
  erewrite bind_run by (by apply deref_ok). erewrite bind_run by reflexivity.
  rewrite (bind_wcall l NextIndices tw) by done. unfold snapshotted.
  destruct (oracle (w_trace (sv_world s)) (WalletCall (tw_w tw) NextIndices)) as [ne nc] eqn:E1.
  rewrite (bind_wcall l SaveAddressSnapshot tw) by done.
  eexists. split; [reflexivity|]. exists (w_trace (sv_world s)). cbv zeta. rewrite E1. cbn.
  by rewrite <- !app_assoc.
Qed.

Lemma snap_bind {A B} l (m : M Service A) (k : A -> M Service B) :
  moves only_world m -> (forall a, ends_snap l (k a)) -> ends_snap l (m ≫= k).
Proof.
  intros Hm Hk s tw x s' Hl E. apply bind_ok_inv in E as (a & s1 & E1 & E2).
  specialize (Hm s). rewrite E1 in Hm. cbn [snd] in Hm.
  replace (sv_dataDir s) with (sv_dataDir s1) by (by rewrite Hm).
  eapply Hk; [|exact E2]. by rewrite Hm.
Qed.

Lemma snap_end {A} l (a : A) : ends_snap l (_ ← saveSnapshot l; mret a).
Proof.
  intros s tw x s' Hl E. destruct (saveSnapshot_snapshotted l tw s Hl) as (s1 & E1 & Hs).
  rewrite (bind_run _ _ _ _ _ E1) in E. by injection E as _ <-.
Qed.

Lemma snap_throw {A} l e : ends_snap l (throw e : M Service A).
Proof. by intros s tw x s' _ [=]. Qed.

(** The methods that derive addresses, spend, or give coins back. *)
Definition snapshot_methods : list rpc :=
  [BSVMS_NewAddress; BSVMS_BatchNewAddresses; BSVMS_DeriveAt; BSVMS_PubKeyAt; BSVMS_Send; BSVMS_SendAll;
   BSVMS_SpendToOutputs; BSVMS_AbandonTransaction].

Ltac snap_tac := repeat first
  [ apply snap_end | apply snap_throw | case_match
  | apply snap_bind; [by moves_tac|intros ?] ].

Lemma snapshot_body r h req t w : unary r = Some h -> r ∈ snapshot_methods ->
  tenantWalletFromRequest (Some (rpc_reflect r req)) = (t, w, true) ->
  exists body, h req = (wallet t w ≫= body) /\ forall l, ends_snap l (body l).
Proof.
  intros Hr Hin. unfold snapshot_methods in Hin.
  repeat (apply elem_of_cons in Hin as [->|Hin]); [..|by apply elem_of_nil in Hin];
    injection Hr as <-; intros Et; injection Et as <- <-; eexists; (split; [reflexivity|]); intros l; snap_tac.
Qed.

(** Whenever a method that derives addresses, spends coins or gives them
    back succeeds, its last act was to write the wallet's address snapshot:
    exactly the indices and addresses the wallet reported after the operation,
    to that wallet's own file. *)
Lemma snapshot_written r h req t w s x s' : unary r = Some h -> r ∈ snapshot_methods ->
  tenantWalletFromRequest (Some (rpc_reflect r req)) = (t, w, true) -> registry_ok s ->
  h req s = (Ok x, s') ->
  exists l tw, lookup_wallet s t w = Some l /\ sv_heap s !! l = Some tw /\ snapshotted (sv_dataDir s) tw s'.
Proof.
  intros Hr Hin Et Hok E. destruct (snapshot_body r h req t w Hr Hin Et) as (body & Eb & Hb).
  rewrite Eb in E. apply bind_ok_inv in E as (l & s1 & Ew & E). apply wallet_ok in Ew as (_ & _ & Hl & ->).
  destruct (reg_ptr _ Hok _ _ Hl) as (tw & Htw & _). exists l, tw. split; [done|]. split; [done|].
  by eapply Hb.
Qed.

(** Broadcasting custom spends is off unless it was switched on: then every
    such request is refused with FailedPrecondition and without any effect. *)
Lemma custom_spend_off req s : EnableCustomSpend (sv_opts s) = false ->
  snd (BroadcastCustomSpend req s) = s /\
  result_code (fst (BroadcastCustomSpend req s)) = Some FailedPrecondition.
Proof. intros E. unfold BroadcastCustomSpend, mbind, M_bind, gets. by rewrite E. Qed.
End snapshots.

(** ** Instances *)

Lemma unknown_wallet_refused_witness :
  snd (@Balance env (pb.MkBalanceRequest "acme" "other") service1) = service1.
Proof.
  apply (@unknown_wallet_refused env hmac_sha256_mac sha256_hash aes_gcm BSVMS_Balance (@Balance env)
    (pb.MkBalanceRequest "acme" "other") "acme" "other" service1);
    [reflexivity|discriminate|discriminate|discriminate|reflexivity|vm_compute; reflexivity].
Defined.

Definition new_address : pb.NewAddressRequest := pb.MkNewAddressRequest "acme" "main".
Lemma snapshot_written_witness :
  exists x s', @NewAddress env sha256_hash new_address service1 = (Ok x, s') /\
    exists l tw, lookup_wallet service1 "acme" "main" = Some l /\ sv_heap service1 !! l = Some tw /\
      @snapshotted env sha256_hash (sv_dataDir service1) tw s'.
Proof.
  destruct (@NewAddress env sha256_hash new_address service1) as [r s'] eqn:E.
  destruct r as [x|e]; [|exfalso; revert E; vm_compute; discriminate].
  exists x, s'. split; [reflexivity|].
  apply (@snapshot_written env hmac_sha256_mac sha256_hash aes_gcm BSVMS_NewAddress (@NewAddress env sha256_hash)
    new_address "acme" "main" service1 x s'); [reflexivity|apply list_elem_of_here|reflexivity|apply service1_ok|exact E].
Defined.
