(* ===== verification/ClientProps.v ===== *)
(** * Theorems: the game and the server's flags

    The properties of Blackjack, and those of the configuration in Launch. *)

From S2P Require Import Prelude GoStrings GoTime GoPath Encoding Crypto Json Decode Proto Broker Sdk Ids.
From S2P Require Import World Encryption Options Service Auth AuthSpec Registry RegistrySpec Handlers.
From S2P Require Import HandlersSpec Blackjack Launch Demo.

(** ** The game *)

(** C38: The value of a hand is its best count, an ace counting one or eleven, a
    court card ten and any other card what it shows: it is one of the hand's
    counts; if any count stays within 21, the greatest that does; otherwise the
    least of all; and the order of the cards does not matter. *)
Theorem handValue_best hand : Forall valid_card hand ->
  counts hand (handValue hand) /\
  (forall n, counts hand n -> (n <= 21)%Z -> (n <= handValue hand <= 21)%Z) /\
  ((forall n, counts hand n -> (21 < n)%Z) -> forall n, counts hand n -> (handValue hand <= n)%Z) /\
  (forall hand', hand' ≡ₚ hand -> handValue hand' = handValue hand).
Proof.
  intros Hv. pose proof (fun n => counts_hard hand n Hv) as Hc.
  destruct (handValue_hard hand) as (k & Hk & E & Hmax & Hok). split; [|split; [|split]].
  - apply Hc. by exists k.
  - intros n (j & Hj & ->)%Hc Hle. destruct Hmax as [Hm|Hm], Hok as [Hz|Hok]; lia.
  - intros Hall n (j & Hj & ->)%Hc. pose proof (Hall _ (proj2 (Hc _) (ex_intro _ k (conj Hk eq_refl)))).
    destruct Hok as [->|]; lia.
  - intros hand' Hp. by rewrite (handValue_perm _ _ Hp).
Qed.

Lemma askBet_positive input : (0 < fst (askBet input))%Z.
Proof.
  unfold askBet. destruct (read_line input) as [line rest]. destruct (String.eqb line ""); [done|].
  destruct (atoi line) as [n|]; [|done]. by destruct (Z.leb_spec n 0).
Qed.

(** What a hand's totals mean for the money. *)
Definition settled (p t : Z) (bet : Z) (s : option settlement) : Prop :=
  match s with
  | None => p = t /\ (p <= 21)%Z
  | Some st => sats st = bet /\
      (from_id st = houseWallet /\ to_id st = playerWallet /\ (p <= 21)%Z /\ (21 < t \/ t < p)%Z \/
       from_id st = playerWallet /\ to_id st = houseWallet /\ (21 < p \/ t <= 21 /\ p < t)%Z)
  end.

Lemma settle_outcome bet player house :
  settled (handValue player) (handValue house) bet
    (settle bet player house (outcome (handValue player) (handValue house))).
Proof.
  unfold outcome. generalize (handValue player) as p, (handValue house) as t. intros p t.
  destruct (Z.ltb_spec 21 p); [cbn; split; [done|]; right; auto|].
  destruct (Z.ltb_spec 21 t); [cbn; split; [done|]; left; auto|].
  destruct (Z.ltb_spec t p); [cbn; split; [done|]; left; auto|].
  destruct (Z.ltb_spec p t); [cbn; split; [done|]; right; auto with lia|].
  cbn. lia.
Qed.

(** Cards on the table and in the deck are the whole deck. *)
Lemma on_table l rest : l ++ rest ≡ₚ sorted_deck -> NoDup l /\ Forall valid_card l.
Proof.
  intros Hp. split.
  - pose proof sorted_deck_NoDup as Hnd. rewrite <- Hp in Hnd. by apply NoDup_app in Hnd as [? _].
  - apply Forall_forall. intros c Hc. unfold valid_card. rewrite <- Hp. apply elem_of_app. by left.
Qed.

(** C37: Whatever the player types and however the deck is shuffled, a hand is
    played to its end without running out of cards: no card is dealt twice, the
    bet is positive, the player draws only below 21, the house only below 17 and
    until it has 17, unless the player is bust, when it draws nothing, and the bet
    moves once, from the loser's wallet to the winner's, or not at all on a tie. *)
Theorem playHand_fair rng input : (forall n, (rng n <= n)%nat) ->
  exists p, playHand rng input = Some p /\
    NoDup (p_player p ++ p_house p) /\ Forall valid_card (p_player p ++ p_house p) /\ (0 < p_bet p)%Z /\
    ((handValue (p_player p) <= 21)%Z -> (17 <= handValue (p_house p))%Z) /\
    ((21 < handValue (p_player p))%Z -> length (p_house p) = 2%nat) /\
    drawn_below 21 (p_player p) /\ drawn_below 17 (p_house p) /\
    settled (handValue (p_player p)) (handValue (p_house p)) (p_bet p) (p_settle p).
Proof.
  intros Hr. unfold playHand. pose proof (askBet_positive input) as Hb.
  destruct (askBet input) as [bet input1]. cbn [fst] in Hb.
  destruct (newDeck_perm rng Hr) as (deck & -> & Hp). cbn [mbind option_bind].
  pose proof (Permutation_length Hp) as Hl. cbn in Hl.
  destruct deck as [|p1 [|p2 [|h1 [|h2 deck]]]]; try (cbn in Hl; lia). cbn [draw mbind option_bind].
  assert (([p1; p2] ++ deck) ++ [h1; h2] ≡ₚ sorted_deck) as Hd1 by (rewrite <- Hp; cbn; solve_Permutation).
  destruct (player_turn_spec deck [p1; p2] input1 (proj2 (on_table _ _ Hd1)))
    as (player & deck1 & input2 & -> & Hp1 & Hlen & _ & Hb1); [cbn; lia|cbn in *; lia|]. cbn [mbind option_bind].
  rewrite <- Hp1 in Hd1.
  assert (([h1; h2] ++ deck1) ++ player ≡ₚ sorted_deck) as Hd2 by (rewrite <- Hd1; cbn; solve_Permutation).
  assert (17 <= length [h1; h2] + length deck1)%nat as Hn.
  { apply Permutation_length in Hd2. rewrite !length_app in Hd2. cbn in *. lia. }
  destruct (house_turn_spec player deck1 [h1; h2] (proj2 (on_table _ _ Hd2)) Hn)
    as (house & deck2 & -> & Hp2 & _ & H17 & Hbust & Hb2).
  cbn [mbind option_bind]. eexists. split; [done|]. cbn [p_player p_house p_bet p_settle].
  rewrite <- Hp2 in Hd2.
  assert ((player ++ house) ++ deck2 ≡ₚ sorted_deck) as Hd3 by (rewrite <- Hd2; solve_Permutation).
  destruct (on_table _ _ Hd3) as [Hnd Hv]. split; [done|]. split; [done|]. split; [done|]. split; [done|].
  split; [by intros Hlt; rewrite (Hbust Hlt)|]. split; [by apply Hb1, drawn_below_dealt|].
  split; [by apply Hb2, drawn_below_dealt|]. apply settle_outcome.
Qed.

(** The funding pass asks the node for exactly the sum of what it then
    sends, each wallet below the seed is sent what it lacks to the seed, and no
    funded wallet is sent anything; so every amount sent is positive and at most
    the seed when the balances are not negative. *)
Lemma funding_exact balances :
  needed balances = foldr Z.add 0%Z (default 0%Z ∘ top_up <$> balances) /\
  (forall b, match top_up b with
             | None => (seedSatoshis <= b)%Z
             | Some n => (b + n = seedSatoshis /\ 0 < n /\ (0 <= b -> n <= seedSatoshis))%Z
             end).
Proof.
  split.
  - unfold needed. assert (forall acc, fold_left (fun acc b => if (b <? seedSatoshis)%Z then (acc + (seedSatoshis - b))%Z else acc)
      balances acc = (acc + foldr Z.add 0 (default 0%Z ∘ top_up <$> balances))%Z) as Hf; [|by rewrite Hf].
    induction balances as [|b l IH]; intros acc; cbn [fold_left fmap list_fmap foldr]; [lia|]. rewrite IH.
    unfold compose, top_up at 2. destruct (Z.ltb_spec b seedSatoshis), (Z.leb_spec seedSatoshis b); cbn; lia.
  - intros b. unfold top_up. destruct (Z.leb_spec seedSatoshis b); [done|]. lia.
Qed.

(** ** Starting the server *)

Section server.
Context `{Env} `{Mac} `{Hash} `{Aead}.

(** Connecting to a peer with retries ends: with a clock that does not go
    back, a timeout of [n] seconds is decided within [n + 1] rounds of the
    loop, with a connection or with an error, whatever the peer does. *)
Lemma connectPeerWithRetry_terminates peer n timeout w : clock_advances ->
  (timeout <= Z.of_nat n * Second)%Z ->
  exists r w', connectPeerWithRetry (S n) peer timeout w = (Ok (Some r), w').
Proof.
  intros Hc Ht. unfold connectPeerWithRetry, time_now, host, call. unfold mbind, M_bind. cbn [w_trace log].
  apply retryPeer_total; [done| |lia]. cbn [w_trace log].
  pose proof (ca_mono Hc (w_trace w) (HostCall TimeNow)). lia.
Qed.

(** A data key given in standard base64 is the key the service uses; a raw
    32-character key of base64 letters, which the flag also promises to take,
    is decoded instead and the start is refused. *)
Lemma data_key_flag f dir w :
  (forall k, k <> [] -> f_dataKey f = b64_encode StdEncoding k -> DataKey (options_of f) = k) /\
  (String.length (f_dataKey f) = 32%nat -> str_forall (b64_member StdEncoding) (f_dataKey f) = true ->
     length (DataKey (options_of f)) = 24%nat /\
     exists w', withDefaults (options_of f) dir w = (Err (ENew "data key must be 32 bytes"), w')).
Proof.
  split.
  - intros k Hk E. cbn. rewrite E. by apply secretBytes_std.
  - intros Hl Hs. assert (length (DataKey (options_of f)) = 24%nat) as Hk
      by (apply (secretBytes_raw_alphabet 8); [done|done|by rewrite Hl]).
    split; [done|]. exists w. unfold withDefaults. fold (default_ttls (options_of f)).
    destruct (default_ttls_spec (options_of f)) as (_ & _ & _ & _ & ED). rewrite ED, Hk. cbn [Nat.eqb].
    erewrite bind_run by reflexivity. by rewrite ED, Hk.
Qed.
End server.

(** A whole number of satoshis that the node reports as 0.29 BSV is read as one
    satoshi less. *)
Lemma balance_truncated : balanceSats (sendAmount 29000000) = 28999999%Z.
Proof. vm_compute. reflexivity. Qed.

(** ** Instances *)

(** An ace and a king are 21; with a five they are 16. *)
Lemma handValue_best_witness : counts [MkCard "A" "S"; MkCard "K" "H"; MkCard "5" "D"] 16.
Proof.
  refine (proj1 (handValue_best [MkCard "A" "S"; MkCard "K" "H"; MkCard "5" "D"] _)).
  apply (bool_decide_eq_true_1 (Forall valid_card _)). vm_compute. reflexivity.
Defined.
Lemma playHand_fair_witness :
  exists p, playHand (fun _ => 0%nat) ["500"; "h"; "s"] = Some p /\ NoDup (p_player p ++ p_house p).
Proof.
  destruct (playHand_fair (fun _ => 0%nat) ["500"; "h"; "s"]) as (p & E & Hn & _);
    [intros n; apply Nat.le_0_l|]. exists p. exact (conj E Hn).
Defined.

Lemma connectPeerWithRetry_terminates_witness :
  exists r w', @connectPeerWithRetry env 31 "127.0.0.1:8333" (30 * Second) empty_world = (Ok (Some r), w').
Proof.
  apply (@connectPeerWithRetry_terminates env "127.0.0.1:8333" 30 (30 * Second) empty_world);
    [apply demo_clock_advances|vm_compute; discriminate].
Defined.

Definition raw_key_flags : flags :=
  MkFlags ":50051" "data" "regtest" false "" true false "" "0123456789abcdef0123456789abcdef" 0 false.
Lemma data_key_flag_witness :
  exists w', @withDefaults env (options_of raw_key_flags) "data" empty_world
    = (Err (ENew "data key must be 32 bytes"), w').
Proof.
  exact (proj2 (proj2 (@data_key_flag env raw_key_flags "data" empty_world) eq_refl eq_refl)).
Defined.
