(* ===== verification/SessionProps.v ===== *)
(** * Theorems: a session of the blackjack program

    The properties of the client against the interfaces it is written for, and
    of the client run against the service itself. *)

From S2P Require Import Prelude GoStrings GoTime Encoding Crypto Json Decode Proto Broker Sdk Ids World Encryption.
From S2P Require Import Options Service Auth AuthSpec Registry RegistrySpec Handlers HandlersSpec Lifecycle RegistryAbs Disk History.
From S2P Require Import Proc Process Blackjack Launch GoFloat NodeRPC Client Fund ClientSpec ClientTime ClientLog.
From S2P Require Import ClientGame FundLog Ledger Lossy Compose Shared Demo DemoClient.

(** ** Against the service *)

Section service.
Context `{Env} `{Mac} `{Hash} `{Aead}.
Context (ctx : context) (reachable : list ext_call -> string -> result unit)
  (node_http : list ext_call -> http_request -> result http_response).
#[local] Instance here : Outside Service := service_outside ctx reachable node_http.

(** C13: The whole program, whatever it is called for, typed and answered, and
    however it ends, only reaches its own two wallets of a service that asks for
    no tokens: the service keeps its invariant, every wallet it had is still
    there, the only records added are those of the two wallets, the entries of
    all other wallets are as they were, and once both wallets exist nothing but
    the history changes, in which every wallet call is on one of the two. *)
Theorem program_confined getenv version args fuel hands rng p o p' :
  main getenv version args fuel hands rng p = (o, p') -> open_service (p_out p) ->
  confined (p_out p) (p_out p').
Proof.
  intros E. pose proof (frame_main getenv (fun p p' => confines (p_out p) (p_out p'))
    (Frame0 := frame_confines ctx reachable node_http _ _) version args fuel hands rng p) as Hf.
  apply (f_equal snd) in E. cbn [snd] in E. by rewrite <- E.
Qed.

(** C28: A wallet the program goes on with is registered: it was before and the
    service has only its history changed, or it was not, and then it was created
    once, with a fresh mnemonic that its record keeps sealed, and the state file
    on disk holds it. *)
Theorem ensured_wallet_registered id p w p' : open_service (p_out p) -> game_wallet id ->
  ensureWallet id p = (Ret w, p') ->
  w_id w = id /\ open_service (p_out p') /\ is_Some (lookup_wallet (p_out p') tenantID id) /\
  (is_Some (lookup_wallet (p_out p) tenantID id) /\ Disk.untouched (p_out p) (p_out p') \/
   lookup_wallet (p_out p) tenantID id = None /\
   exists mnemonic, wallet_added tenantID id mnemonic "" (p_out p) (p_out p')).
Proof.
  intros Ho Hid E. split; [by eapply ensureWallet_id|].
  destruct (ensureWallet_ensures (H0 := service_store ctx reachable node_http) id p w p' Ho Hid E)
    as [[Hr Hs]|(Hn & s1 & s2 & S1 & (mn & Ha & Ho2) & S2)].
  - change (Disk.untouched (p_out p) (p_out p')) in Hs. split; [by eapply open_unchanged|].
    split; [|by left]. destruct Hs as [Hs _]. by rewrite Hs.
  - change (Disk.untouched (p_out p) s1) in S1. change (Disk.untouched s2 (p_out p')) in S2.
    pose proof (wallet_added_unchanged _ _ _ _ _ _ _ _ S1 Ha S2) as Ha'.
    split; [by eapply open_unchanged|]. split.
    + destruct (wa_entry _ _ _ _ _ _ Ha') as (l & tw & Hl & _). by exists l.
    + right. split; [apply eq_None_not_Some; exact Hn|]. by exists mn.
Qed.

(** Against the service alone a hand moves money exactly as the rules of the
    game say: its end is that of the pure game on the same cards and input;
    on a push the SDK made no successful spend; otherwise at most one, and
    exactly one if the hand was finished, from the loser's wallet, with the
    output that pays the bet to the winner's address and the one that records the hand; however
    often it was tried. *)
Lemma hand_pays_alone getenv fuel rng e player house p o p' : open_service (p_out p) ->
  w_id player = playerWallet -> w_id house = houseWallet ->
  playHand getenv fuel rng e player house p = (o, p') ->
  match Blackjack.playHand (rng (p_shuffles p)) (p_stdin p) with
  | None => o = Panic /\ payments (p_out p') = payments (p_out p)
  | Some pl =>
      match p_settle pl with
      | None => payments (p_out p') = payments (p_out p)
      | Some st =>
          let '(from, to) := if String.eqb (from_id st) houseWallet then (house, player) else (player, house) in
          exists es, payments (p_out p') = payments (p_out p) ++ es /\ (length es <= 1)%nat /\
            (o = Ret () -> length es = 1%nat) /\
            (es = [] \/ settled_by (H0 := service_ledger ctx reachable node_http) st from to p p' es)
      end
  end.
Proof. intros Ho Ip Ih E. exact (playHand_pays getenv _ _ _ _ _ _ _ _ Ip Ih Ho E). Qed.
(** C14: A hand played against the service moves money exactly as the rules of
    the game say, whatever unary requests other clients have served before each
    of its calls: its end is that of the pure game on the same cards and input;
    on a push no call of the hand made the SDK spend; otherwise at most one did,
    and exactly one if the hand was finished, from the loser's wallet, with the
    output that pays the bet to the winner's address and the one that records the
    hand; however often it was tried. *)
Theorem hand_pays_once getenv fuel rng e player house (p : process (shared Service ext_call visits)) o p' :
  open_service (sh_base (p_out p)) -> w_id player = playerWallet -> w_id house = houseWallet ->
  playHand (H := among_others ctx reachable node_http) getenv fuel rng e player house p = (o, p') ->
  match Blackjack.playHand (rng (p_shuffles p)) (p_stdin p) with
  | None => o = Panic /\ sh_own (p_out p') = sh_own (p_out p)
  | Some pl =>
      match p_settle pl with
      | None => sh_own (p_out p') = sh_own (p_out p)
      | Some st =>
          let '(from, to) := if String.eqb (from_id st) houseWallet then (house, player) else (player, house) in
          exists es, sh_own (p_out p') = sh_own (p_out p) ++ es /\ (length es <= 1)%nat /\
            (o = Ret () -> length es = 1%nat) /\ (es = [] \/ settled_by (H0 := book ctx reachable node_http) st from to p p' es)
      end
  end.
Proof. intros Ho Ip Ih E. exact (playHand_pays (H := among_others ctx reachable node_http) (H0 := book ctx reachable node_http) getenv _ _ _ _ _ _ _ _ Ip Ih Ho E). Qed.
(** C35: A payment whose answer gets lost is made again, for the service does not
    know the settlement it was asked for before: over a connection that loses the
    answers of payments, whichever they are, and whatever requests other clients
    have served meanwhile, a hand that is finished with a loser made one payment,
    and one more for every answer that was lost, each of them the whole bet from the
    loser's wallet to the winner's address with the record of the hand. A hand that
    stopped made as many as answers were lost, or one more. *)
Theorem settlement_repeats no_answer getenv fuel rng e player house
    (p : process (lossy (shared Service ext_call visits))) o p' pl st :
  open_service (sh_base (ly_base (p_out p))) -> w_id player = playerWallet -> w_id house = houseWallet ->
  playHand (H := lossy_outside (H := among_others ctx reachable node_http) no_answer) getenv fuel rng e player house p
    = (o, p') ->
  Blackjack.playHand (rng (p_shuffles p)) (p_stdin p) = Some pl -> p_settle pl = Some st ->
  let '(from, to) := if String.eqb (from_id st) houseWallet then (house, player) else (player, house) in
  exists es lost, ly_lost (p_out p') = (ly_lost (p_out p) + lost)%nat /\
    sh_own (ly_base (p_out p')) = sh_own (ly_base (p_out p)) ++ es /\
    (o = Ret () -> length es = 1 + lost)%nat /\ (lost <= length es <= 1 + lost)%nat /\
    (es = [] \/ exists pay memo,
       Forall (pays_for (sh_base (ly_base (p_out p'))) (spend_request from [pay; memo])) es /\
       Called BSVMS_P2PKHOutput (pb.MkP2PKHOutputRequest (w_address to) (sats st)) (Ok pay) ∈ p_log p' /\
       Called BSVMS_OpReturnOutput (pb.MkOpReturnOutputRequest (record_data st)) (Ok memo) ∈ p_log p').
Proof.
  intros Ho Ip Ih E Eg Es.
  pose proof (playHand_lossy (H := among_others ctx reachable node_http) (H0 := book ctx reachable node_http)
    no_answer getenv _ _ _ _ _ _ _ _ Ip Ih Ho E) as Hp.
  rewrite Eg, Es in Hp. clear E Eg Es.
  set (ft := if (from_id st =? houseWallet)%string then _ else _) in *. destruct ft as [from to].
  match goal with |- ?goal => assert (forall n, (n <= 1)%nat -> (o = Ret () -> n = 1%nat) ->
    overpaid (H0 := book ctx reachable node_http) st from to p p' n -> goal) as Hcount end.
  { intros n Hn Hr (es & lost & pay & memo & El & Ep & Hl & Hm). exists es, lost. split; [exact El|]. split; [exact Ep|].
    split; [intros Hret; specialize (Hr Hret); lia|]. split; [lia|]. right. exists pay, memo. exact Hm. }
  destruct o as [[]| | |]; [apply (Hcount 1%nat); [lia|reflexivity|exact Hp]|..];
    (destruct Hp as [[Ep El]|[Hp|Hp]];
      [|apply (Hcount 0%nat); [lia|discriminate|exact Hp]|apply (Hcount 1%nat); [lia|discriminate|exact Hp]]);
    exists [], 0%nat; rewrite app_nil_r, Nat.add_0_r; (split; [exact El|]); (split; [exact Ep|]);
    (split; [discriminate|]); (split; [split; apply Nat.le_0_l|]); left; reflexivity.
Qed.
End service.

(** ** Against its interface *)

Section client.
Context {S : Type} `{Outside S} (getenv : string -> string).

(** C24: The program ends: with [enough] fuel for its retry loops and more hands
    than lines of input left, no loop runs out of fuel, whatever the service and
    the node answer, as long as the clock advances. *)
Theorem main_terminates `{!OutsideLaws S} version args fuel hands rng p : (enough <= fuel)%nat ->
  (length (p_stdin p) < hands)%nat ->
  fst (main getenv version args fuel hands rng p) <> OutOfFuel.
Proof.
  intros Hf Hp E. by apply (main_ends getenv version args fuel hands rng Hf p Hp); rewrite E.
Qed.

(** C25: The hand at the console refines the pure game: with the same shuffle and
    the same lines typed it stops with a panic exactly when the game has no
    result; otherwise it reads exactly the lines the game reads if it returns,
    and its spends are those of the game's settlement: none on a push, attempts
    that were refused and at most one that was accepted otherwise, exactly one
    if it returns. *)
Theorem playHand_refines fuel rng e player house p o p' :
  w_id player = playerWallet -> w_id house = houseWallet ->
  playHand getenv fuel rng e player house p = (o, p') ->
  match Blackjack.playHand (rng (p_shuffles p)) (p_stdin p) with
  | None => o = Panic /\ spends p' = spends p
  | Some pl => o <> Panic /\ hand_effect player house (p_settle pl) p p' o /\
      (o = Ret () -> p_stdin p' = p_input pl)
  end.
Proof. apply playHand_effect. Qed.

(** Whatever it is run for, the program asks the service only for what it
    may: methods on the tenant and the two wallets of the game and on the peer
    that the environment names, spends of two outputs from coins the wallet
    chooses; and the node only for six methods, at the configured place. *)
Lemma program_scope version args fuel hands rng p :
  sends all_powers (Launch.env getenv "BSVMS_REGTEST_PEER" regtestPeer) (node_of getenv)
    p (snd (main getenv version args fuel hands rng p)).
Proof. apply frame_main. typeclasses eauto. Qed.

(** C29: A completed funding pass read each wallet's balance once more and asked the
    node, in order, for coins for each wallet below the seed, to the satoshi what
    it lacked, all answered with a transaction, and for nothing else. If there
    were any, it then had a block mined, read its height, fetched each of those
    transactions from the node and handed it, as fetched, to the service with
    that height. *)
Theorem fundWallets_exact r fuel ws p p' : Forall (fun w => game_wallet (w_id w)) ws ->
  fundWallets fuel r ws p = (Ret (), p') -> exists bs funded cs,
    Forall2 (balance_read p') ws bs /\ tops r ws bs ∅ funded cs /\ coins p' = coins p ++ cs /\
    (funded = ∅ \/ handed_over r p p' funded ws).
Proof.
  intros Hws E. destruct (fundWallets_ret getenv r fuel ws p p' Hws E) as (bs & funded & cs & Ht & Hc & Hb & Hd).
  by exists bs, funded, cs.
Qed.
End client.

(** ** The node's answers *)

(** An answer of the node, as it is written on the wire. *)
Definition envelope_json (result error : json) : json := JObj [("result", result); ("error", error); ("id", JStr "blackjack")].
Definition error_json (code : Z) (message : string) : json := JObj [("code", JNum (itoa code)); ("message", JStr message)].
Definition answer (code : Z) (j : json) : http_response := MkHttpResponse code (Ok (json_print compact 0 j)).

Lemma unmarshal_answer j e : printable j -> printable e ->
  unmarshal_envelope (json_print compact 0 (envelope_json j e)) =
  (v ← f_store (pointer_field "error" error_fields (MkRpcError 0 "") env_Error
                  (fun v e => MkEnvelope (env_Result e) v)) e (MkEnvelope (Some j) None); Ok v).
Proof.
  intros Hj He. unfold unmarshal_envelope. rewrite json_parse_compact.
  2: { repeat constructor; assumption. }
  cbv beta iota delta [mbind result_bind].
  change (decode_struct envelope_fields (envelope_json j e) (MkEnvelope None None)) with
    (v ← f_store (pointer_field "error" error_fields (MkRpcError 0 "") env_Error
                  (fun v e => MkEnvelope (env_Result e) v)) e (MkEnvelope (Some j) None);
     decode_members envelope_fields [("id", JStr "blackjack")] v).
  unfold mbind, result_bind. destruct (f_store _ _ _); reflexivity.
Qed.

Lemma decode_error n message : in_int64 n ->
  decode_struct error_fields (error_json n message) (MkRpcError 0 "") = Ok (MkRpcError n message).
Proof.
  intros Hn. change (decode_struct error_fields (error_json n message) (MkRpcError 0 "")) with
    (v ← match atoi (itoa n) with Some v => Ok (MkRpcError v "") | None => Err type_error end;
     decode_members error_fields [("message", JStr message)] v).
  by rewrite (atoi_itoa n) by exact Hn.
Qed.

(** C39: What the node answers is what the caller gets: the body of a request
    parses back to its method and parameters; a result, written as JSON, is
    stored into the caller's variable as it is; an error of the node is reported
    with its code and message, whatever result came with it; an answer outside
    200-299 is an error whatever it says, and a body that cannot be read or
    parsed is the error of reading it. *)
Theorem node_answers {A} method (into : json -> result A) code :
  (forall ps js body, plain_str method = true -> params_json ps = Ok js -> Forall printable js ->
     call_body method (Some ps) = Ok body ->
     json_parse body = Ok (JObj [("id", JStr "blackjack"); ("jsonrpc", JStr "1.0"); ("method", JStr method);
       ("params", JArr js)])) /\
  ((200 <= code < 300)%Z ->
     (forall j, printable j -> read_answer method into (answer code (envelope_json j JNull)) = into j) /\
     (forall j n message, printable j -> in_int64 n -> plain_str message = true ->
        read_answer method into (answer code (envelope_json j (error_json n message)))
          = Err (envelope_error method (MkRpcError n message))) /\
     (forall body e, unmarshal_envelope body = Err e -> read_answer method into (MkHttpResponse code (Ok body)) = Err e)) /\
  (~ (200 <= code < 300)%Z -> forall body,
     read_answer method into (MkHttpResponse code (Ok body)) = Err (http_error method code body)) /\
  (forall e, read_answer method into (MkHttpResponse code (Err e)) = Err e).
Proof.
  split; [|split; [|split]].
  - intros ps js body Hm Hps Hjs Eb. unfold call_body in Eb. rewrite Hps in Eb. apply Ok_inj in Eb. subst body.
    apply json_parse_compact. repeat constructor; assumption.
  - intros Hc. assert (((code <? 200) || (300 <=? code))%Z = false) as Eg by lia.
    unfold read_answer, answer. cbn [Body StatusCode mbind result_bind]. rewrite Eg.
    split; [|split].
    + intros j Hj. rewrite unmarshal_answer by (done || constructor). reflexivity.
    + intros j n message Hj Hn Hm. rewrite unmarshal_answer; [|done|repeat constructor; assumption].
      unfold pointer_field. cbv beta iota delta [f_store default mbind result_bind error_json].
      fold (error_json n message). by rewrite decode_error.
    + intros body e E. rewrite E. reflexivity.
  - intros Hc body. assert (((code <? 200) || (300 <=? code))%Z = true) as Eg by lia.
    unfold read_answer. cbn [Body StatusCode mbind result_bind]. by rewrite Eg.
  - reflexivity.
Qed.

(** ** Instances *)

Lemma program_confined_witness :
  @confined plain_aead tavern
    (p_out (snd (@main _ tavern_outside no_env "v1" ["blackjack"] enough 2 (fun _ _ _ => 0%nat) (at_tavern ["500"; "s"])))).
Proof.
  exact (@program_confined lively plain_mac plain_hash plain_aead anonymous reachable_always silent_node
    no_env "v1" ["blackjack"] enough 2 (fun _ _ _ => 0%nat) (at_tavern ["500"; "s"]) _ _
    (surjective_pairing _) tavern_open).
Defined.

Lemma ensured_wallet_registered_witness :
  fst first_seat = Ret (MkWallet playerWallet "addr0") /\ lookup_wallet tavern tenantID playerWallet = None /\
  is_Some (lookup_wallet (p_out (snd first_seat)) tenantID playerWallet).
Proof.
  assert (first_seat = (Ret (MkWallet playerWallet "addr0"), snd first_seat)) as E by (vm_compute; reflexivity).
  split; [rewrite E; reflexivity|]. split; [vm_compute; reflexivity|].
  exact (proj1 (proj2 (proj2 (@ensured_wallet_registered lively plain_mac plain_hash plain_aead anonymous reachable_always
    silent_node playerWallet (at_tavern []) _ _ tavern_open (or_introl eq_refl) E)))).
Defined.

(** The player draws to 11 and stands, the house goes bust and pays. *)
Definition tavern_hand : Proc.outcome unit * process Service.Service :=
  @playHand _ tavern_outside no_env enough (fun _ _ => 0%nat) "" alice house (snd seats).
Lemma hand_pays_alone_witness :
  fst tavern_hand = Ret () /\ exists q,
    @payments lively (p_out (snd tavern_hand)) = @payments lively (p_out (snd seats)) ++ [q].
Proof.
  assert (fst tavern_hand = Ret ()) as Er by (vm_compute; reflexivity). split; [exact Er|].
  pose proof (@hand_pays_alone lively plain_mac plain_hash plain_aead anonymous reachable_always silent_node
    no_env enough (fun _ _ => 0%nat) "" alice house (snd seats) _ _ seats_open eq_refl eq_refl
    (surjective_pairing tavern_hand)) as Hp.
  assert (p_shuffles (snd seats) = 0%nat /\ p_stdin (snd seats) = ["500"; "h"; "s"]) as [Es Ei]
    by (vm_compute; split; reflexivity).
  rewrite Es, Ei in Hp. vm_compute (Blackjack.playHand _ _) in Hp. destruct Hp as (es & Hp & _ & Hl & _).
  specialize (Hl Er). destruct es as [|q [|? ?]]; [discriminate Hl| |discriminate Hl]. exists q. exact Hp.
Defined.

(** The same hand while others make a wallet, ask, and spend from the house's. *)
Definition neighbours : list visits :=
  [[(anonymous, existT BSVMS_CreateWallet (pb.MkCreateWalletRequest "acme" "guest"))]; [];
   [(anonymous, existT BSVMS_Balance (pb.MkBalanceRequest "acme" "guest"));
    (anonymous, existT BSVMS_Send (pb.MkSendRequest tenantID houseWallet "elsewhere" 7))]].
Definition crowded : process (shared Service.Service ext_call visits) :=
  MkProcess (MkShared (p_out (snd seats)) neighbours []) (p_stdin (snd seats)) (p_stdout (snd seats))
    (p_shuffles (snd seats)) (p_log (snd seats)).
Definition crowded_outside : Outside (shared Service.Service ext_call visits) :=
  @among_others lively plain_mac plain_hash plain_aead anonymous reachable_always silent_node.
Definition crowded_hand : Proc.outcome unit * process (shared Service.Service ext_call visits) :=
  @playHand _ crowded_outside no_env enough (fun _ _ => 0%nat) "" alice house crowded.
Lemma crowded_facts : fst crowded_hand = Ret () /\ p_shuffles crowded = 0%nat /\ p_stdin crowded = ["500"; "h"; "s"] /\
  sh_own (p_out crowded) = [] /\ length (@payments lively (sh_base (p_out (snd crowded_hand)))) = 2%nat.
Proof. vm_compute. repeat split. Qed.
Lemma hand_pays_once_witness : fst crowded_hand = Ret () /\
  length (@payments lively (sh_base (p_out (snd crowded_hand)))) = 2%nat /\
  exists q, sh_own (p_out (snd crowded_hand)) = [q].
Proof.
  destruct crowded_facts as (Er & Es & Ei & Eo & Ep). split; [exact Er|]. split; [exact Ep|].
  pose proof (@hand_pays_once lively plain_mac plain_hash plain_aead anonymous reachable_always silent_node
    no_env enough (fun _ _ => 0%nat) "" alice house crowded _ _ seats_open eq_refl eq_refl
    (surjective_pairing crowded_hand)) as Hp.
  rewrite Es, Ei in Hp. vm_compute (Blackjack.playHand _ _) in Hp. destruct Hp as (es & Hp & _ & Hl & _).
  specialize (Hl Er). rewrite Eo in Hp. destruct es as [|q [|? ?]]; [discriminate Hl| |discriminate Hl]. exists q. exact Hp.
Defined.

(** The same hand over a connection that loses the answer of the first payment. *)
Definition shaky : process (lossy (shared Service.Service ext_call visits)) :=
  MkProcess (MkLossy (p_out crowded) [true] 0) (p_stdin crowded) (p_stdout crowded) (p_shuffles crowded) (p_log crowded).
Definition shaky_hand : Proc.outcome unit * process (lossy (shared Service.Service ext_call visits)) :=
  @playHand _ (@lossy_outside _ crowded_outside no_answer) no_env enough (fun _ _ => 0%nat) "" alice house shaky.
Definition shaky_game : option played := Blackjack.playHand (fun _ => 0%nat) ["500"; "h"; "s"].
Lemma shaky_facts : fst shaky_hand = Ret () /\ p_shuffles shaky = 0%nat /\ p_stdin shaky = ["500"; "h"; "s"] /\
  sh_own (ly_base (p_out shaky)) = [] /\ ly_lost (p_out (snd shaky_hand)) = 1%nat.
Proof. vm_compute. repeat split. Qed.
Lemma shaky_settles : exists pl st, shaky_game = Some pl /\ p_settle pl = Some st.
Proof. vm_compute. do 2 eexists. split; reflexivity. Qed.
Lemma settlement_repeats_witness : fst shaky_hand = Ret () /\
  exists c d, sh_own (ly_base (p_out (snd shaky_hand))) = [c; d].
Proof.
  destruct shaky_facts as (Er & Es & Ei & Eo & El). split; [exact Er|]. destruct shaky_settles as (pl & st & Eg & Est).
  unfold shaky_game in Eg. rewrite <- Ei in Eg.
  pose proof (@settlement_repeats lively plain_mac plain_hash plain_aead anonymous reachable_always silent_node
    no_answer no_env enough (fun _ _ => 0%nat) "" alice house shaky _ _ pl st seats_open eq_refl eq_refl
    (surjective_pairing shaky_hand) Eg Est) as Hp.
  destruct (if String.eqb (from_id st) houseWallet then (house, alice) else (alice, house)) as [from to].
  destruct Hp as (es & lost & Hl & Hp & Hr & _). rewrite El in Hl. change (1%nat = lost) in Hl. subst lost. specialize (Hr Er).
  rewrite Eo in Hp. destruct es as [|c [|d [|? ?]]]; [discriminate Hr|discriminate Hr| |discriminate Hr].
  exists c, d. exact Hp.
Defined.

(** The service on a clock that advances is an outside the program ends against. *)
Lemma main_terminates_witness :
  fst (@main _ tavern_outside no_env "v1" ["blackjack"; "-fund"] enough 1 (fun _ _ _ => 0%nat) (at_tavern [])) <> OutOfFuel.
Proof.
  apply (@main_terminates _ tavern_outside no_env
    (@service_outside_laws lively plain_mac plain_hash plain_aead anonymous reachable_always silent_node
       lively_clock_advances)); [apply Nat.le_refl|apply Nat.lt_0_succ].
Defined.

Lemma playHand_refines_witness :
  let '(o, p') := @playHand _ table_outside no_env enough (fun _ _ => 0%nat) "" alice house (seated ["500"; "s"]) in
  exists pl, Blackjack.playHand (fun _ => 0%nat) ["500"; "s"] = Some pl /\ o <> Panic /\
    (o = Ret () -> p_stdin p' = p_input pl).
Proof.
  destruct (@playHand _ table_outside no_env enough (fun _ _ => 0%nat) "" alice house (seated ["500"; "s"]))
    as [o p'] eqn:E.
  pose proof (@playHand_refines _ table_outside no_env enough (fun _ _ => 0%nat) "" alice house
    (seated ["500"; "s"]) o p' eq_refl eq_refl E) as Hp. cbn [seated p_shuffles p_stdin] in Hp.
  destruct (Blackjack.playHand (fun _ => 0%nat) ["500"; "s"]) as [pl|] eqn:Ep; [|vm_compute in Ep; discriminate Ep].
  exists pl. split; [reflexivity|]. split; [exact (proj1 Hp)|exact (proj2 (proj2 Hp))].
Defined.

(** At the table both wallets hold 200000 satoshis: each is sent the 50000 it
    lacks. *)
Lemma two_seats : Forall (fun w => game_wallet (w_id w)) [alice; house].
Proof. constructor; [by left|]. constructor; [by right|constructor]. Qed.
Lemma fundWallets_exact_witness :
  let '(o, p') := @fundWallets _ table_outside enough (node_of no_env) [alice; house] (seated []) in
  o = Ret () /\ exists bs funded cs,
    tops (node_of no_env) [alice; house] bs ∅ funded cs /\ coins p' = coins (seated []) ++ cs.
Proof.
  assert (fst (@fundWallets _ table_outside enough (node_of no_env) [alice; house] (seated [])) = Ret ()) as Eo
    by (vm_compute; reflexivity).
  destruct (@fundWallets _ table_outside enough (node_of no_env) [alice; house] (seated [])) as [o p'] eqn:E.
  cbn [fst] in Eo. subst o. split; [reflexivity|].
  destruct (@fundWallets_exact _ table_outside no_env (node_of no_env) enough [alice; house] (seated [])
    p' two_seats E) as (bs & funded & cs & _ & Ht & Hc & _).
  exists bs, funded, cs. exact (conj Ht Hc).
Defined.

Lemma node_answers_witness :
  read_answer "getblockcount" into_int (answer 200 (envelope_json (JNum (itoa 7)) JNull)) = Ok 7%Z.
Proof.
  refine (eq_trans (proj1 (proj1 (proj2 (node_answers "getblockcount" into_int 200)) _) (JNum (itoa 7)) (printable_num 7)) _).
  - split; [discriminate|reflexivity].
  - reflexivity.
Defined.
