(* ===== verification/LaunchProps.v ===== *)
(** * Theorems: the server process, and what its methods may answer

    [main] of cmd/bsvms from its flags to a listening server and back, and the
    error types of the methods it serves. *)

From S2P Require Import Prelude GoStrings GoTime GoPath Encoding Crypto Json Proto Broker Sdk Ids World Encryption.
From S2P Require Import Options Service Auth AuthSpec Registry RegistrySpec Handlers HandlersSpec Lifecycle.
From S2P Require Import Launch ErrorTypes History Startup Demo.

Section process.
Context `{Env} `{Mac} `{Hash} `{Aead}.

(** C22: Starting the server ends: with 31 rounds for each peer and a clock that
    does not go back it comes to a listening server or to an error, whatever the
    peers, the disk and the SDK do. The peers that joined are among those asked
    for, in their order, and on success all of them; the port is opened after
    them, exactly on success. The server that listens has a consistent registry
    without secrets in the clear and complete options, exactly the records that
    were on disk when a service wrote them, and the interceptors in front of it
    exactly when authentication was asked for: a call through it is then
    served as [serve] says. *)
Theorem server_starts fuel f w : clock_advances -> 31 <= fuel ->
  exists r w' ps, start_up fuel f w = (r, w') /\
    ps `sublist_of` wanted_peers f /\ (is_ok r = true -> prompt_clock -> ps = wanted_peers f) /\
    contacts ((Peer <$> ps) ++ if is_ok r then [Port (f_addr f)] else []) w w' /\
    match r with
    | Err _ => True
    | Ok None => False
    | Ok (Some srv) =>
        let s := srv_service srv in
        sv_world s = w' /\ registry_ok s /\ resolved (sv_opts s) /\
        Forall (fun m => has_plaintext m = false) (sv_state s) /\
        (forall st, on_disk (w_fs w) (sv_dataDir s) st -> Forall (record_ok (DataKey (sv_opts s))) st ->
           sv_state s = st /\ service_ok s) /\
        srv_intercepted srv = f_authEnabled f /\
        (forall ctx rpc h req, srv_call ctx srv rpc h req = serve ctx rpc h req s)
    end.
Proof.
  intros Hc Hf. destruct (start_up_ends fuel f w Hc Hf) as (r & w' & E & ps & Hs & J & Hok).
  exists r, w', ps. split; [done|]. split; [done|]. split; [intros Hr; by apply Hok|]. split; [done|].
  destruct r as [o|e]; [|done]. destruct (Hok eq_refl) as (_ & srv & [= ->] & Hst).
  by apply started_serves in Hst.
Qed.

(** A graceful stop closes the store of every registered wallet, each once,
    and then leaves the network exactly when the start joined it; an error of
    the listener ends the process without either. *)
Lemma stop_exact f s : registry_ok s ->
  (exists order, order ≡ₚ open_stores s /\
     stopped f None s = (Ok (), set_world (logs (closing f order) (sv_world s)) s)) /\
  (forall e, stopped f (Some e) s = (Err (EWrap "serve grpc" e), s)).
Proof. intros Hok. split; [by apply stop_closes|done]. Qed.

(** C23: Every error a unary call answers is a status error, with a code of the
    method's error type or, while authentication is on, Unauthenticated or
    PermissionDenied: nothing reaches the client as an unclassified error. The
    methods whose type is empty never fail once admitted. *)
Theorem unary_error_types ctx r h req s e s' : registry_ok s -> unary r = Some h ->
  server_call ctx r h req s = (Err e, s') ->
  exists c msg, e = EStatus c msg /\
    (c ∈ error_type r \/ AuthEnabled (sv_opts s) = true /\ (c = Unauthenticated \/ c = PermissionDenied)).
Proof.
  intros Hok Hr E. destruct (server_call_typed ctx r h req s e s' Hok Hr E) as [(c & msg & -> & Hc)|(Ha & c & msg & -> & Hc)];
    exists c, msg; (split; [done|]); [by left|].
  right. split; [done|]. unfold access_errors in Hc. set_solver.
Qed.
End process.

(** ** Instances *)

Definition server_flags : flags :=
  MkFlags ":50051" "data" "regtest" true "127.0.0.1:18444, 10.0.0.2:18444" true false "" "" 0 false.
Lemma demo_prompt_clock : @prompt_clock env.
Proof. intros tr. cbn. unfold demo_clock. rewrite length_app. cbn. unfold Second. lia. Qed.

Lemma server_starts_witness :
  let '(r, w') := @start_up env sha256_hash aes_gcm 31 server_flags empty_world in
  is_ok r = true /\ @contacts env [Peer "127.0.0.1:18444"; Peer "10.0.0.2:18444"; Port ":50051"] empty_world w'.
Proof.
  destruct (@start_up env sha256_hash aes_gcm 31 server_flags empty_world) as [r w'] eqn:E.
  assert (is_ok r = true) as Hr by (change r with (fst (r, w')); rewrite <- E; vm_compute; reflexivity).
  destruct (@server_starts env hmac_sha256_mac sha256_hash aes_gcm 31 server_flags empty_world demo_clock_advances
    (le_n 31)) as (r0 & w0 & ps & E0 & _ & Hp & Hc & _).
  rewrite E in E0. injection E0 as <- <-. split; [exact Hr|]. rewrite (Hp Hr demo_prompt_clock), Hr in Hc. exact Hc.
Defined.

Lemma stop_exact_witness : exists order, order ≡ₚ open_stores service1 /\ length (open_stores service1) = 1 /\
  fst (@stopped env server_flags None service1) = Ok ().
Proof.
  destruct (proj1 (@stop_exact env server_flags service1 service1_ok)) as (order & Ho & E).
  exists order. split; [exact Ho|]. split; [vm_compute; reflexivity|]. rewrite E. reflexivity.
Defined.

Lemma unary_error_types_witness : exists c msg,
  fst (@server_call env hmac_sha256_mac (MkContext None) BSVMS_GetWallet (@GetWallet env)
    (pb.MkGetWalletRequest "acme" "main") service1) = Err (EStatus c msg) /\
  (c ∈ error_type BSVMS_GetWallet \/
   AuthEnabled (sv_opts service1) = true /\ (c = Unauthenticated \/ c = PermissionDenied)).
Proof.
  destruct (@unary_error_types env hmac_sha256_mac sha256_hash aes_gcm (MkContext None) BSVMS_GetWallet (@GetWallet env)
    (pb.MkGetWalletRequest "acme" "main") service1 (unauthenticated "missing metadata") service1
    service1_ok eq_refl) as (c & msg & E & Hc).
  - vm_compute. reflexivity.
  - exists c, msg. rewrite <- E. split; [vm_compute; reflexivity|exact Hc].
Defined.
