(* ===== verification/ConcProps.v ===== *)
(** * Theorems: calls in flight

    What holds of the service however its calls interleave: the properties of Conc,
    with their instances on the pools of DemoConc. *)

From S2P Require Import Prelude GoStrings GoTime Encoding Crypto Proto Broker Sdk Ids World Encryption Options.
From S2P Require Import Service Auth AuthSpec Registry RegistrySpec Handlers HandlersSpec Rescan Lifecycle RegistryAbs.
From S2P Require Import Disk Launch ErrorTypes Conc ConcSeq ConcSpec ConcLogic ConcAdd ConcLin ConcPool ConcOrder ConcIso.
From S2P Require Import ConcRescan ConcOwner ConcMake.
From S2P Require Import Demo DemoConc.

Section calls_in_flight.
Context `{Env} `{Mac} `{Hash} `{Aead}.

(** C1: With authentication on, whatever other calls run in between, every step
    of a unary call other than CreateWallet and RestoreWallet, or of a rescan,
    calls SDK wallets only as its token allows: it presented a token that was valid at some moment
    of the run, and the wallet is the one registered under the token's ids or,
    for ListWallets, one of the token's tenant. A step of CreateWallet or
    RestoreWallet calls no SDK wallet but one the node answered when asked for a
    wallet under the name of the request's ids. *)
Theorem calls_isolated s0 past pl i t pl' : service_ok s0 -> AuthEnabled (sv_opts s0) = true ->
  evolves (idle s0) past pl -> p_threads pl !! i = Some t -> advance i pl = Some pl' ->
  (other (t_call t) ->
   calls (fun q => exists sub, presented (past ++ [pl]) (c_ctx (t_call t)) sub /\
            (acts_on (p_service pl) (sub_TenantID sub) (sub_WalletID sub) q \/
             c_rpc (t_call t) = BSVMS_ListWallets /\ owned_by (p_service pl) (sub_TenantID sub) q))
         (p_service pl) (p_service pl')) /\
  (creates (c_rpc (t_call t)) ->
   calls (makes (c_rpc (t_call t)) (c_req (t_call t))) (p_service pl) (p_service pl')).
Proof.
  intros Hs0 Ha Hev Et Hadv. split; [intros Ho|intros Hc; by eapply advance_makes].
  pose proof (evolves_staged _ _ _ Hs0 Ha Hev _ _ Et Ho) as Hst.
  destruct (advance_stage _ _ _ _ _ _ Hs0 Ha Hev Et Ho Hst Hadv) as [Hw _].
  destruct (pool_service _ _ (evolves_ok _ _ _ Hs0 Hev)) as [Hok _].
  eapply calls_impl; [|exact Hw]. intros q [Hp Hq]. by apply (permitted_scope (p_service pl) _ (c_req (t_call t))).
Qed.

(** C3: Every interleaving of unary calls and rescans, with callbacks and streams
    between their steps, has an order in which the calls take effect one at a time:
    the answered calls (those refused access apart) and some of those still
    running, each once, with their answers, are a run of the directory of secrets
    from the one the service started with to the one it stands for now. The order at any earlier moment is a beginning of it,
    so a call answered before another arrives comes before it. *)
Theorem calls_linearizable s0 past pl : service_ok s0 -> evolves (idle s0) past pl ->
  exists lin xs, linearizes s0 pl lin xs /\ forall earlier, earlier ∈ past ->
    exists pre xs', pre `prefix_of` lin /\ linearizes s0 earlier pre xs'.
Proof. apply evolves_linearizes. Qed.

(** C4: Whenever the service is killed, between any two steps of any interleaving
    (in the middle of a creation, or of saving the state file, too), a fresh start
    on the files it leaves succeeds when disk and SDK report no fault, keeps the
    invariant, has every wallet there was at the last start, with its secrets, has
    no wallet the service had not, and has every wallet whose creation or
    restoration had been acknowledged, with exactly the mnemonic and passphrase
    that were answered or given. *)
Theorem crash_recovers dir o w s0 w0 past pl u :
  NewWithOptions dir o w = (Ok s0, w0) -> service_ok s0 -> evolves (idle s0) past pl -> no_faults ->
  w_fs u = files (p_service pl) ->
  exists s u', NewWithOptions dir o u = (Ok s, u') /\ service_ok s /\
    directory_of s0 ⊆ directory_of s /\ directory_of s ⊆ directory_of (p_service pl) /\
    forall i t k, p_threads pl !! i = Some t -> acknowledged t = Some k -> directory_of s !! k.1 = Some k.2.
Proof. apply crash_restart. Qed.

(** C9: In every interleaving, callbacks and streams included, the invariant of the
    service holds after every step, and no step of a call that does not hold [s.mu]
    writes the registry, the brokers or the files, or depends on the registry or the
    brokers: on any service with the same options and outside world it does the
    same. So the mutex is all the handlers need. *)
Theorem mutex_protects s0 past pl : service_ok s0 -> evolves (idle s0) past pl ->
  service_ok (p_service pl) /\ lives s0 (p_service pl) /\
  forall i pl', p_holder pl <> Some i -> advance i pl = Some pl' ->
    untouched (p_service pl) (p_service pl') /\
    forall s, same_outside (p_service pl) s -> exists s',
      advance i (MkPool s (p_holder pl) (p_threads pl)) = Some (MkPool s' (p_holder pl') (p_threads pl')) /\
      same_outside (p_service pl') s'.
Proof.
  intros Hs Hev. pose proof (evolves_ok _ _ _ Hs Hev) as Hok. destruct (pool_service _ _ Hok) as [Hs' Hl].
  split; [exact Hs'|]. split; [exact Hl|]. intros i pl' Hh Ha. by eapply advance_unlocked.
Qed.

(** C10: Calls end: from any moment of any interleaving, when no more calls arrive,
    whatever callbacks and streams do between the calls' steps, no schedule of the
    calls runs for ever, one that can go no further has answered every call and left
    the mutex free, and there is one that gets there. *)
Theorem calls_end s0 past pl : service_ok s0 -> evolves (idle s0) past pl ->
  sn moves_on pl /\
  (forall pl', rtc moves_on pl pl' -> nf moves_on pl' -> answered pl' /\ p_holder pl' = None) /\
  exists pl', rtc moves_on pl pl' /\ answered pl' /\ p_holder pl' = None.
Proof.
  intros Hs Hev. pose proof (evolves_ok _ _ _ Hs Hev) as Hok.
  split; [apply pool_sn|]. split; [|by eapply pool_finishes].
  intros pl' Hm Hnf. apply moves_on_steps in Hm. pose proof (pool_steps_ok _ _ _ Hm Hok) as Hok'.
  destruct (pool_progress _ pl' Hok') as [Hd|(j & pl2 & Hj)]; [done|]. destruct Hnf.
  exists pl2, j, (p_service pl'). split; [done|by destruct pl'].
Qed.

(** C11: However calls interleave, at most one call that creates or restores the
    wallet of some ids is acknowledged, only if the wallet did not exist before,
    and the wallet then has the secrets of that call. *)
Theorem creation_once s0 past pl i j ti tj k si sj : service_ok s0 -> evolves (idle s0) past pl ->
  p_threads pl !! i = Some ti -> p_threads pl !! j = Some tj ->
  acknowledged ti = Some (k, si) -> acknowledged tj = Some (k, sj) ->
  i = j /\ directory_of s0 !! k = None /\ directory_of (p_service pl) !! k = Some si.
Proof. apply creation_unique. Qed.

(** C19: However rescans interleave with each other, with the other calls, and with
    callbacks and streams, the flag of a wallet is set exactly while the call that
    set it is under way; that call has no other flag; and every step of a call that
    starts a walk is one of the call that owns the flag of the wallet walked, which
    no step of another call takes from it. So no wallet is walked by two calls at
    once, and no flag is left behind. *)
Theorem rescan_single_flight s0 past pl : service_ok s0 -> (forall l, flag s0 l = false) -> evolves (idle s0) past pl ->
  let own := owner (past ++ [pl]) in
  (forall l, flag (p_service pl) l = true <->
     exists i t, own l = Some i /\ p_threads pl !! i = Some t /\ answer t = None) /\
  (forall l l' i, own l = Some i -> own l' = Some i -> l = l') /\
  (forall i pl', advance i pl = Some pl' ->
     walks (fun q => exists l tw, own l = Some i /\ sv_heap (p_service pl) !! l = Some tw /\ tw_w tw = q)
       (p_service pl) (p_service pl') /\
     forall l j, own l = Some j -> j <> i -> owner ((past ++ [pl]) ++ [pl']) l = Some j).
Proof.
  intros Hs Hf Hev own. pose proof (evolves_owned _ _ _ Hs Hf Hev) as Ho. split; [|split; [by eapply ow_one|]].
  - intros l. rewrite (ow_flag _ _ Ho). split; [|by intros (i & _ & Hi & _); exists i].
    intros [i Hi]. destruct (owner_waits _ _ _ _ Ho Hi) as (t & Et & Ha). by exists i, t.
  - intros i pl' Ha. destruct (owned_advance _ _ _ _ _ (evolves_ok _ _ _ Hs Hev) Ho Ha) as (_ & Hw & Hk).
    split; [done|]. intros l j. rewrite owner_snoc. apply Hk.
Qed.

(** C12: Whenever [s.mu] is free, whatever other calls stand in the middle of
    theirs, a call that arrives and moves on its own is never held up by the mutex:
    it is answered, the mutex is free again and the other calls are where they were.
    A call that the policy [authorised] refuses is answered with an error, registry,
    brokers and files untouched. A unary call that it lets through is answered as the
    handler behind the interceptor answers it, and does to the directory of secrets
    what the specification of the method says. *)
Theorem call_alone s0 past pl c pl1 : service_ok s0 -> evolves (idle s0) past pl -> p_holder pl = None ->
  arrive c pl = Some pl1 ->
  let s := p_service pl in
  let allowed := authorised s (c_ctx c) (full_method (c_rpc c)) (Some (rpc_reflect (c_rpc c) (c_req c))) in
  exists n r s',
    schedule (repeat (length (p_threads pl)) n) pl1 = MkPool s' None (p_threads pl ++ [MkThread c (Return r)]) /\
    (~ allowed -> is_ok r = false /\ untouched s s') /\
    forall h, unary (c_rpc c) = Some h ->
      serve (c_ctx c) (c_rpc c) h (c_req c) s = (r, s') /\
      (allowed -> registry_spec (directory_of s) (c_rpc c) (c_req c) r (directory_of s')).
Proof.
  intros Hs Hev Hh Ha s allowed. pose proof (evolves_ok _ _ _ Hs Hev) as Hok. destruct (pool_service _ _ Hok) as [Hs' _].
  destruct (arrival_ends s0 pl c pl1 Hok Hh Ha) as (h & n & Eh & Hn).
  pose proof (serve_refused (c_ctx c) (c_rpc c) h (c_req c) s (so_registry _ Hs')) as Hrefused. fold s in Hn.
  destruct (run (serve_c _ _ h _) s) as [r s'] eqn:Er. exists n, r, s'. split; [exact Hn|]. split; [exact Hrefused|].
  intros hs Hu. pose proof (method_unary _ _ _ _ Eh Hu) as Hc.
  rewrite (serve_alone _ _ _ _ _ _ Hu Hc (so_registry _ Hs')) in Er. split; [exact Er|].
  intros Hall. by eapply serve_registry.
Qed.
End calls_in_flight.

(** ** Instances *)

Lemma race_reachable : exists past, @evolves env hmac_sha256_mac sha256_hash aes_gcm (idle service0) past race.
Proof. apply reachable. Qed.
Lemma busy_reachable : exists past, @evolves env hmac_sha256_mac sha256_hash aes_gcm (idle service1) past busy.
Proof. apply reachable. Qed.
Lemma auth_on : AuthEnabled (sv_opts service1) = true.
Proof. vm_compute. reflexivity. Qed.
Lemma balance_other : other balance_call.
Proof. split; discriminate. Qed.

Lemma walking_flag : flag (p_service walking) 0 = true.
Proof. vm_compute. reflexivity. Qed.
Lemma service1_unflagged l : flag service1 l = false.
Proof. destruct l as [|l]; vm_compute; [reflexivity|]. destruct l; reflexivity. Qed.

Lemma calls_isolated_witness : exists past pl',
  @evolves env hmac_sha256_mac sha256_hash aes_gcm (idle service1) past busy /\ advance 0 busy = Some pl' /\
  history_length pl' = S (history_length busy) /\
  calls (fun q => exists sub, @presented env hmac_sha256_mac (past ++ [busy]) ctx sub /\
           (acts_on (p_service busy) (sub_TenantID sub) (sub_WalletID sub) q \/
            BSVMS_Balance = BSVMS_ListWallets /\ owned_by (p_service busy) (sub_TenantID sub) q))
        (p_service busy) (p_service pl').
Proof.
  destruct busy_reachable as [past Hev], busy_balance as (t & pl' & Et & Ec & Ha & Hl).
  exists past, pl'. split; [exact Hev|]. split; [exact Ha|]. split; [exact Hl|].
  pose proof (@calls_isolated env hmac_sha256_mac sha256_hash aes_gcm service1 past busy 0 t pl'
    service1_service_ok auth_on Hev Et Ha) as [Hc _]. specialize (Hc (eq_ind_r other balance_other Ec)).
  rewrite Ec in Hc. exact Hc.
Defined.

Lemma calls_linearizable_witness : exists lin xs,
  @linearizes aes_gcm service0 race lin xs.
Proof.
  destruct race_reachable as [past Hev].
  destruct (@calls_linearizable env hmac_sha256_mac sha256_hash aes_gcm service0 past race service0_service_ok Hev)
    as (lin & xs & Hl & _).
  exists lin, xs. exact Hl.
Defined.

Lemma killed_reachable : exists past, @evolves env hmac_sha256_mac sha256_hash aes_gcm (idle service0) past killed.
Proof. apply reachable. Qed.
Definition after_kill : world := {| w_trace := []; w_fs := files (p_service killed) |}.
Lemma after_kill_files : w_fs after_kill = files (p_service killed).
Proof. unfold after_kill. cbn [w_fs]. reflexivity. Qed.
Lemma crash_recovers_witness : exists s u',
  @NewWithOptions env sha256_hash aes_gcm "data" options after_kill = (Ok s, u') /\
  @directory_of aes_gcm s !! ("acme", "main") = Some ("legal winner thank year wave", "").
Proof.
  destruct killed_reachable as [past Hev], killed_first as (t & Et & Hk).
  destruct (@crash_recovers env hmac_sha256_mac sha256_hash aes_gcm "data" options empty_world service0 (snd (boot env))
    past killed after_kill boot_ok service0_service_ok Hev demo_no_faults after_kill_files)
    as (s & u' & En & _ & _ & _ & Hd).
  exists s, u'. exact (conj En (Hd 0 t race_wallet Et Hk)).
Defined.

Lemma mutex_protects_witness : @service_ok aes_gcm (p_service busy).
Proof.
  destruct busy_reachable as [past Hev].
  exact (proj1 (@mutex_protects env hmac_sha256_mac sha256_hash aes_gcm service1 past busy service1_service_ok Hev)).
Defined.

Lemma calls_end_witness : exists pl', rtc (@moves_on env hmac_sha256_mac) busy pl' /\ answered pl' /\ p_holder pl' = None.
Proof.
  destruct busy_reachable as [past Hev].
  exact (proj2 (proj2 (@calls_end env hmac_sha256_mac sha256_hash aes_gcm service1 past busy service1_service_ok Hev))).
Defined.

Lemma creation_once_witness : @directory_of aes_gcm service0 !! ("acme", "main") = None /\
  @directory_of aes_gcm (p_service race) !! ("acme", "main") = Some ("legal winner thank year wave", "").
Proof.
  destruct race_reachable as [past Hev], race_winner as (t & Et & Hk).
  exact (proj2 (@creation_once env hmac_sha256_mac sha256_hash aes_gcm service0 past race 1 1 t t ("acme", "main")
    ("legal winner thank year wave", "") ("legal winner thank year wave", "") service0_service_ok Hev Et Et Hk Hk)).
Defined.

Lemma rescan_single_flight_witness : exists past i t,
  @evolves env hmac_sha256_mac sha256_hash aes_gcm (idle service1) past walking /\
  owner (past ++ [walking]) 0%nat = Some i /\ p_threads walking !! i = Some t /\ answer t = None.
Proof.
  destruct walking_reachable as [past Hev].
  destruct (proj1 (proj1 (@rescan_single_flight env hmac_sha256_mac sha256_hash aes_gcm service1 past walking
    service1_service_ok service1_unflagged Hev) 0%nat) walking_flag) as (i & t & Ho & Et & Ha).
  exists past, i, t. exact (conj Hev (conj Ho (conj Et Ha))).
Defined.

(** A wallet is created while another client's question about a balance stands still. *)
Lemma asked_reachable : exists past, @evolves env hmac_sha256_mac sha256_hash aes_gcm (idle service1) past asked.
Proof. apply reachable. Qed.
Lemma asked_free : p_holder asked = None.
Proof. vm_compute. reflexivity. Qed.
Lemma call_alone_witness : exists n r s' pl1,
  @arrive env hmac_sha256_mac sha256_hash aes_gcm second_call asked = Some pl1 /\
  schedule (repeat (length (p_threads asked)) n) pl1 = MkPool s' None (p_threads asked ++ [MkThread second_call (Return r)]) /\
  @serve env hmac_sha256_mac anonymous BSVMS_CreateWallet (@CreateWallet env hmac_sha256_mac sha256_hash aes_gcm)
    (pb.MkCreateWalletRequest "acme" "second") (p_service asked) = (r, s').
Proof.
  destruct asked_reachable as [past Hev].
  destruct (@call_alone env hmac_sha256_mac sha256_hash aes_gcm service1 past asked second_call _
    service1_service_ok Hev asked_free eq_refl) as (n & r & s' & Hn & _ & Hu).
  exists n, r, s'. eexists. split; [reflexivity|]. split; [exact Hn|].
  exact (proj1 (Hu (@CreateWallet env hmac_sha256_mac sha256_hash aes_gcm) eq_refl)).
Defined.
